(* ===== verification/_CoqProject ===== *)
-Q . S2P
Prelude.v
Refine.v
Wp.v
Libc.v
Posix.v
SegFile.v
DbModel.v
DbDisk.v
DbRecords.v
DbChain.v
DbLinks.v
DbOps.v
DbStore.v
DbNext.v
DbOpen.v
DbSpec.v
DbFacts.v
Inet.v
InetProofs.v
SpoolQueue.v
SpoolIo.v
SpoolServer.v
SpoolAccept.v
SpoolPrinter.v
SpoolPrint.v
SpoolTurn.v
Iotool.v
IotoolProofs.v
UnixSock.v
OpenModel.v
OpenProofs.v
OpenTable.v
OpenLoop.v
OpenPoll.v
OpenFacts.v
Readline.v
DgEcho.v
StrCli.v
BarrierSort.v
Semaph.v
Gai.v
GaiMem.v
GaiSpec.v
GaiPort.v
GaiName.v
TcpConn.v
GaiFacts.v
RefChain.v
Mutex2.v
Mutex2Proofs.v
Popen.v
PopenProofs.v
Web.v
WebProofs.v
