(* ===== verification/Prelude.v ===== *)
(** * A verification library for the C programs of cpp_notes

    The repository holds the programs of two books, apue.3e (Advanced Programming in the
    UNIX Environment) and unpv13e (UNIX Network Programming), and the owner's own tools.
    This library models the parts with substantial logic of their own and proves what they
    compute:

    - the database library (apue.3e/db/db.c): hash chains and a free list inside an index
      file, records in a data file, record locks between processes;
    - the print spooler (apue.3e/printer): the command print.c sends a document to the
      daemon printd.c; client threads store it in a spool directory and queue it; one
      thread sends the queued jobs to a network printer over IPP; util.c has the
      configuration file and timed reads, apue.3e/lib counted reads and writes;
    - the open server (apue.3e/ipc2/opend and ipc2/open): clients connect to it over a UNIX
      domain socket (apue.3e/lib: servlisten.c, servaccept.c, cliconn.c), send a name and
      get an open descriptor back (sendfd.c, senderr.c, recvfd.c, bufargs.c); the server
      waits with select or with poll;
    - semaphores with a process counter over System V semaphores (apue.3e/lib/semaph.c),
      a sort with threads and a barrier (apue.3e/threads/barrier.c), and objects with
      reference counts under two levels of locks (apue.3e/threads/mutex2.c);
    - streams to and from commands (apue.3e/lib: popen.c, openmax.c);
    - address conversion and the Internet checksum (unpv13e/libfree);
    - name resolution (unpv13e/libgai): getaddrinfo looks a host and a service up and makes
      a list of socket addresses, getnameinfo goes back; the functions of unpv13e/lib that
      connect to, listen on or bind the addresses of a name (tcp_connect.c and the like);
    - buffered lines (unpv13e/lib/readline.c), the signal-driven echo server
      (unpv13e/sigio/dgecho01.c), the echo client without blocking
      (unpv13e/nonblock/strclinonb.c) and the web client with several connections at a
      time (unpv13e/nonblock: web.c, start_connect.c, write_get_cmd.c, home_page.c);
    - iotool (iotool_cpp/iotool.c), which writes patterns to devices and dumps sectors.

    ** How C is modelled

    A C function is a function in the monad [M S A] of this file: from a state it returns
    a value and a state ([Ret]), ends the process ([Die]: err_dump, err_quit, err_sys,
    abort, exit), meets undefined behaviour ([Undef]: a store or read outside an object,
    an invalid pointer, signed overflow), or exhausts its fuel ([NoFuel]: the loop has not
    ended).  Theorems that say what a function does always say that it returns.  Integers
    are [Z], reduced with [wrap] and [swrap] to their C width where the code can leave it.
    Bytes are [Byte.byte], memory blocks are lists of bytes of their C size.  Records
    carry the names of the C structures.

    ** Files

    - Prelude.v: bytes, machine integers, slices of arrays, the monad; Refine.v: abstract
      machines and refinement; Wp.v: postconditions of computations; Libc.v: string and
      number functions of the C library; Posix.v: files, descriptors and record locks of a process; SegFile.v: files tiled by
      records.
    - DbModel.v: every function of db.c, with lock_reg of lib/lockreg.c.  The state pairs
      the kernel with the [DB] structure.  DbDisk.v runs the primitive accesses on
      well-formed files, DbRecords.v reads the two files as maps of records, DbChain.v
      walks chains, DbLinks.v relates chains to an abstract map, DbOps.v, DbStore.v,
      DbNext.v and DbOpen.v run the operations; DbSpec.v has the contract, DbFacts.v the
      behaviour of each operation and its limits.
    - Inet.v: inet_pton, inet_ntop, inet_aton and in_cksum; InetProofs.v: their theorems.
    - Gai.v: all of libgai.  Its state counts allocations and the blocks in use; whether an
      allocation succeeds, and what the resolver answers, is the class [resolver], and
      [wf_resolver] what is documented of it.  GaiMem.v: memory; GaiSpec.v: the
      specification and the searches; GaiPort.v: ports, and getaddrinfo against the
      specification; GaiName.v: numeric names; TcpConn.v: sockets by name, with the class
      [network]; GaiFacts.v: concrete resolutions and edge cases.
    - SpoolQueue.v: the job list and the worker list of printd.c as linked nodes in a
      heap, with their theorems.  Each function holds its mutex throughout, so it is one
      step, and the theorems quantify over all sequences of steps.  SpoolIo.v: sockets as
      lists of events, tread, treadn, readn, writen and the two message structures.
      SpoolServer.v: client_thread, init_request, update_jobno, build_qonstart and
      submit_file; SpoolAccept.v: their theorems.  SpoolPrinter.v: the configuration file,
      printer_thread, printer_status and signal_thread; SpoolPrint.v and SpoolTurn.v:
      their theorems.
    - Iotool.v: all engines, argument parsing and dispatch; IotoolProofs.v: theorems.
    - UnixSock.v: serv_listen, serv_accept and cli_conn over the names of sockets, with
      their theorems.  OpenModel.v: the whole open server and csopen; OpenProofs.v: requests
      and descriptor passing; OpenTable.v: the client array as a finite map; OpenLoop.v and
      OpenPoll.v: the two loops; OpenFacts.v: concrete runs and what goes wrong.
    - Readline.v, StrCli.v, BarrierSort.v: one program each, with its theorems.
    - DgEcho.v and Semaph.v: step relations.  In DgEcho.v the signal handler runs between
      any two accesses of the main loop where the signal is not blocked; in Semaph.v
      processes run in steps of one system call and may end anywhere; the calls that may
      fail, Sendto and semget, have their outcome as an argument.
    - RefChain.v and Mutex2.v: the table of objects and the four functions of mutex2.c as
      threads in steps of one statement; Mutex2Proofs.v: their invariant and theorems.
    - Popen.v: popen, pclose and open_max over the descriptors of the process; the outcome
      of every system call is an argument.  PopenProofs.v: executions in which the other
      processes do what they like with their descriptors, and the theorems.
    - Web.v: the web client; the class [kernel] chooses descriptors and what select
      reports, [wf_kernel] is what is documented of it.  WebProofs.v: theorems.

    ** What is proved

    Database: any sequence of fetches, stores and deletes on the files returns what a
    finite map returns (refinement), also across close and reopen, and a scan lists the
    map; each operation's result, errno and counter; operations wait for another process's
    lock on their chain; keys that the format cannot hold.

    Spooler: the linked list behaves as a queue under any interleaving and no job is lost,
    duplicated or leaked; a client's job is stored and queued, or it is rejected, for every
    pattern of disk and network failures, and a rejected one leaves files only when its
    [unlink] fails too; what is stored is what arrived before the end of the stream, a timeout
    or an error; the command and the daemon composed transport the document;
    a restart recovers the queue and the counter; the printer thread prints a job, defers
    it or, when its document cannot be opened, cancels it; the headers decode to what they
    should say, and when they overflow; which answers count as success; and answers that hang or mislead
    the daemon because of how they are segmented.

    Addresses: formatting and parsing are inverse on all IPv6 and IPv4 addresses, no store
    outside the local arrays, exact size checks (and one that is off by one); the
    checksum verifies itself.

    Names: getaddrinfo returns the product of the addresses of a host and the ports of a
    service (refinement of a specification), every entry is well formed, and no failing
    allocation makes it follow a null pointer or lose a block, with two exceptions; numeric
    names round trip; tcp_connect and the like end with the first address that works and
    leave nothing else behind.

    Open server, for requests without a conversion character: with select, any sequence of
    events is handled as by an abstract server
    over a map from descriptors to users (refinement), and the open sockets are those of
    the clients; with poll, every client is served but under the wrong user once a client
    has left; a request and its answer composed over a stream that is cut arbitrarily;
    the user that serv_accept finds is the one that called cli_conn.

    Concurrency: the counter and the lock of a semaphore are right under every
    interleaving and every end of a process, except for sem_open; the ring of the echo
    server is a queue under every placement of the signal, and is emptied unless Sendto
    fails; the parallel sort sorts, in whatever order its threads reach the barrier; the count of an object is the number of
    references to it in every state of every interleaving, nothing is used after it was
    freed, and the two levels of locks do not deadlock.

    Commands: the end of a pipe that a stream of popen is belongs to the caller alone,
    whatever fails and whatever the commands do, so that pclose gives a command the end of
    its input; what a command inherits; pclose returns its status; what a failing popen
    leaves open.

    Streams: readline cuts a stream into the lines of a reference; the client without
    blocking copies both streams, shuts down once, and may lose a reply; the web client
    keeps its counters and descriptor sets right, never opens more connections than asked
    for, and reads all files, for every order in which descriptors become ready, when all
    peers can be reached and answer.

    iotool: dispatch; what the byte and sector engines write under short and failing
    writes, and where the sector engine and the engine W write elsewhere than asked; when
    filling a buffer with a string ends, overruns or loops.

    ** Bounds and fuel

    - [db_refines_map] allows 9660 operations after the creation of the database: each
      adds at most 1035 bytes to a file, so all offsets stay within the seven digits of a
      chain pointer; the budget of Refine.v counts this down.
    - Chain walks have the length of the index file as fuel; a chain visits different
      records, so it is never used up.
    - [treadn], [readn] and [writen] use the requested length as fuel (each turn moves a
      byte or ends), [store_loop] the size of the pending events, [scan_lines] the length
      of the file.
    - [printer_status] gets its fuel as an argument; one more than the buffer size is
      enough for the answers of [printer_status_correct], and [split_header_hangs] shows
      that no fuel is enough for a header that is cut at the wrong place.
    - [recv_loop] and [refill] use the number of pending messages or events, [args_loop]
      the length of the buffer, [poll_scan] the length of the array, [sig_loop] the size of
      the ring: each turn consumes one.  [add_again] needs two turns, as the array is
      searched again after it grew.
    - The theorems on semaphores allow fewer than 10000 processes, the initial value of the
      counter.
    - The write loops of iotool use the number of bytes plus the number of pending
      outcomes: each turn writes a byte or consumes an outcome.  [fill_str] uses the
      length of the buffer.

    - The web client uses as fuel more than the bytes that the peers send plus twice the
      number of files: each turn of its loop reads a byte or changes a flag.
    - Job numbers are below INT_MAX, where the increment of the counter overflows; the
      printer's name has at most 52 bytes where a header is to be built.
    - The theorems on reference counts are about executions with less than INT_MAX
      references to an object.

    ** Not modelled

    Failing malloc in the database and the spooler (these programs exit; in iotool and in
    name resolution it may fail); the mains of printd and print, daemonizing, logging text
    and progress messages; the resolver, libaio and getopt_long_only, which are parameters;
    floating-point summaries of iotool and the retransmission timer of unpv13e, which
    computes with floating-point numbers.  In popen, the shell and the buffers of stdio, and
    a process that forks by itself while it has streams; in the web client the messages.
    The product in [_db_hash] is not reduced to an int: it leaves that type only for keys
    of more than 16 million bytes, far above the limit of a record.
    Of the remaining programs of both books, mutex3.c and rwlock.c of apue.3e/threads are
    simpler versions of mutex2.c and of the job queue of the spooler, the pseudo terminals
    and the clients and servers of the other chapters copy between descriptors, and the
    rest, like the samples in other directories, show one system call each and have no
    logic beyond it. *)

From stdpp Require Import base list gmap strings numbers.
From Stdlib Require Import Strings.Byte ZArith Lia.

#[global] Open Scope Z_scope.

(** ** Bytes *)

Abbreviation byte := Byte.byte.
Abbreviation bytes := (list Byte.byte).

#[global] Instance byte_eq_dec : EqDecision byte := Byte.byte_eq_dec.

#[global] Program Instance byte_countable : Countable byte :=
  inj_countable Byte.to_N Byte.of_N _.
Next Obligation. intros b. apply Byte.of_to_N. Qed.

#[global] Instance byte_inhabited : Inhabited byte := populate x00.

(** [uc] reads a byte as an [unsigned char], [sc] as a (signed) [char]; [bz] is the
    conversion of an integer to a character type. *)
Definition uc (b : byte) : Z := Z.of_N (Byte.to_N b).
Definition sc (b : byte) : Z := if uc b <? 128 then uc b else uc b - 256.
Definition bz (z : Z) : byte := default x00 (Byte.of_N (Z.to_N (z mod 256))).

(** A string literal as the bytes of the C string (without its terminator). *)
Definition bs (s : string) : bytes := String.list_byte_of_string s.

Lemma uc_range b : 0 <= uc b < 256.
Proof. unfold uc. pose proof (Byte.to_N_bounded b). lia. Qed.

Lemma bz_uc b : bz (uc b) = b.
Proof.
  unfold bz. rewrite Z.mod_small by apply uc_range.
  unfold uc. rewrite N2Z.id, Byte.of_to_N. reflexivity.
Qed.

Lemma uc_bz z : uc (bz z) = z mod 256.
Proof.
  unfold bz. pose proof (Z.mod_pos_bound z 256 ltac:(lia)) as Hb.
  destruct (Byte.of_N (Z.to_N (z mod 256))) as [b|] eqn:E; simpl.
  - apply Byte.to_of_N in E. unfold uc. rewrite E. lia.
  - apply Byte.of_N_None_iff in E. lia.
Qed.

Lemma uc_inj a b : uc a = uc b -> a = b.
Proof. intros H. rewrite <- (bz_uc a), <- (bz_uc b), H. reflexivity. Qed.

#[global] Arguments bz : simpl never.
#[global] Arguments uc : simpl never.

(** ** Machine integers *)

Definition wrap (w z : Z) : Z := z mod 2 ^ w.
Definition swrap (w z : Z) : Z := (z + 2 ^ (w - 1)) mod 2 ^ w - 2 ^ (w - 1).

Abbreviation u8 := (wrap 8).
Abbreviation u16 := (wrap 16).
Abbreviation u32 := (wrap 32).
Abbreviation u64 := (wrap 64).
Abbreviation i16 := (swrap 16).
Abbreviation i32 := (swrap 32).
Abbreviation i64 := (swrap 64).

Lemma wrap_small w z : 0 <= z < 2 ^ w -> wrap w z = z.
Proof. apply Z.mod_small. Qed.

Lemma wrap_range w z : 0 <= w -> 0 <= wrap w z < 2 ^ w.
Proof. intros. apply Z.mod_pos_bound, Z.pow_pos_nonneg; lia. Qed.

Lemma swrap_small w z :
  0 < w -> - 2 ^ (w - 1) <= z < 2 ^ (w - 1) -> swrap w z = z.
Proof.
  intros Hw Hz. unfold swrap. rewrite Z.mod_small; [lia|].
  assert (2 ^ w = 2 * 2 ^ (w - 1)) by (rewrite <- Z.pow_succ_r by lia; f_equal; lia).
  lia.
Qed.

Lemma swrap_range w z :
  0 < w -> - 2 ^ (w - 1) <= swrap w z < 2 ^ (w - 1).
Proof.
  intros Hw. unfold swrap.
  pose proof (Z.mod_pos_bound (z + 2 ^ (w - 1)) (2 ^ w) ltac:(lia)).
  assert (2 ^ w = 2 * 2 ^ (w - 1)) by (rewrite <- Z.pow_succ_r by lia; f_equal; lia).
  lia.
Qed.

(** ** Slices of byte arrays *)

Definition len {A} (l : list A) : Z := Z.of_nat (length l).

(** [slice o n l]: the [n] elements from position [o]; [splice o d l]: [l] with the
    elements from position [o] overwritten by [d]. *)
Definition slice {A} (o n : nat) (l : list A) : list A := take n (drop o l).
Definition splice {A} (o : nat) (d l : list A) : list A :=
  take o l ++ d ++ drop (o + length d) l.

Section slices.
Context {A : Type}.
Implicit Types l d p q r : list A.

Lemma slice_app p q r o n :
  o = length p -> n = length q -> slice o n (p ++ q ++ r) = q.
Proof.
  intros -> ->. unfold slice. rewrite drop_app_length, take_app_length. reflexivity.
Qed.

Lemma splice_app p q r d o :
  o = length p -> length q = length d -> splice o d (p ++ q ++ r) = p ++ d ++ r.
Proof.
  intros -> Hl. unfold splice. rewrite take_app_length. do 2 f_equal.
  rewrite <- Hl, (drop_app_add p), drop_app_length. reflexivity.
Qed.

Lemma splice_cons p x y r : splice (length p) [y] (p ++ x :: r) = p ++ y :: r.
Proof. by apply (splice_app p [x] r [y]). Qed.

Lemma splice_end p d o : o = length p -> splice o d p = p ++ d.
Proof.
  intros ->. unfold splice. rewrite firstn_all, drop_ge by lia. rewrite app_nil_r. reflexivity.
Qed.

Lemma splice_0 d l : splice 0 d l = d ++ drop (length d) l.
Proof. done. Qed.

Lemma length_slice o n l : (o + n <= length l)%nat -> length (slice o n l) = n.
Proof. intros. unfold slice. rewrite length_take, length_drop. lia. Qed.

Lemma length_splice o d l :
  (o + length d <= length l)%nat -> length (splice o d l) = length l.
Proof. intros. unfold splice. rewrite !length_app, length_take, length_drop. lia. Qed.

Lemma slice_split o n l :
  (o + n <= length l)%nat -> l = take o l ++ slice o n l ++ drop (o + n) l.
Proof.
  intros H. unfold slice. rewrite <- (take_drop o l) at 1. f_equal.
  rewrite <- (take_drop n (drop o l)) at 1. rewrite drop_drop. reflexivity.
Qed.

Lemma slice_splice_eq o d l :
  (o <= length l)%nat -> slice o (length d) (splice o d l) = d.
Proof.
  intros H. unfold splice. apply slice_app; rewrite ?length_take; lia.
Qed.

Lemma lookup_splice_ne o d l i :
  (i < o \/ o + length d <= i)%nat -> (o <= length l)%nat -> splice o d l !! i = l !! i.
Proof.
  intros Hi Ho. unfold splice. destruct Hi as [Hi|Hi].
  - rewrite lookup_app_l by (rewrite length_take; lia). rewrite lookup_take_lt; [done|lia].
  - rewrite lookup_app_r by (rewrite length_take; lia). rewrite length_take.
    rewrite lookup_app_r by lia. rewrite lookup_drop. f_equal. lia.
Qed.

Lemma drop_app_cons p x q : drop (S (length p)) (p ++ x :: q) = q.
Proof. induction p as [|y p IH]; [done|]. apply IH. Qed.

Lemma len_app l d : len (l ++ d) = len l + len d.
Proof. unfold len. rewrite length_app. lia. Qed.

Lemma len_nonneg l : 0 <= len l.
Proof. unfold len. lia. Qed.

Lemma len_cons x l : len (x :: l) = 1 + len l.
Proof. unfold len. simpl length. lia. Qed.

Lemma len_nil : len (@nil A) = 0.
Proof. reflexivity. Qed.
End slices.

Create Rewrite HintDb len.
#[export] Hint Rewrite @len_app @len_cons @len_nil @length_app @length_take @length_drop
  @length_replicate @length_fmap @length_cons @length_nil : len.

Ltac len_solve := unfold len in *; autorewrite with len in *; simpl in *; lia.

(** ** Outcomes of a C computation

    A computation over a state [S] returns, or ends the process ([err_dump] aborts,
    [err_quit] and [err_sys] exit, [exit] itself), or meets undefined behaviour, or does
    not finish within its fuel. *)

Inductive death :=
| DDump (msg : string)
| DQuit (msg : string)
| DSys (msg : string)
| DAbort
| DExit (code : Z).

Inductive result (S A : Type) :=
| Ret (a : A) (s : S)
| Die (d : death) (s : S)
| Undef (why : string)
| NoFuel.
Arguments Ret {S A} a s.
Arguments Die {S A} d s.
Arguments Undef {S A} why.
Arguments NoFuel {S A}.

Definition M (S A : Type) : Type := S -> result S A.

Definition ret {S A} (a : A) : M S A := fun s => Ret a s.
Definition bind {S A B} (m : M S A) (f : A -> M S B) : M S B := fun s =>
  match m s with
  | Ret a s' => f a s'
  | Die d s' => Die d s'
  | Undef w => Undef w
  | NoFuel => NoFuel
  end.
Definition die {S A} (d : death) : M S A := fun s => Die d s.
Definition undef {S A} (why : string) : M S A := fun _ => Undef why.
Definition getst {S} : M S S := fun s => Ret s s.
Definition putst {S} (s : S) : M S unit := fun _ => Ret tt s.
Definition modst {S} (f : S -> S) : M S unit := fun s => Ret tt (f s).
Definition gets {S A} (f : S -> A) : M S A := fun s => Ret (f s) s.

Declare Scope c_scope.
Delimit Scope c_scope with c.
Notation "x <- m ;; k" := (bind m (fun x => k))
  (at level 100, m at next level, right associativity) : c_scope.
Notation "m ;;; k" := (bind m (fun _ => k))
  (at level 100, right associativity) : c_scope.
Open Scope c_scope.

Definition when {S} (b : bool) (m : M S unit) : M S unit := if b then m else ret tt.

Lemma bind_ret {S A B} (m : M S A) (f : A -> M S B) s a s' :
  m s = Ret a s' -> bind m f s = f a s'.
Proof. intros H. unfold bind. rewrite H. reflexivity. Qed.

(** The inverse reading: a returning bind is two returning steps. *)
Lemma bind_inv {S A B} (m : M S A) (f : A -> M S B) s b s2 :
  bind m f s = Ret b s2 -> exists a s1, m s = Ret a s1 /\ f a s1 = Ret b s2.
Proof. unfold bind. destruct (m s); try discriminate. eauto. Qed.

(** [step H] runs the first computation of a bind with the equation [H]. *)
Ltac step H := erewrite bind_ret; [| first [ exact H | eapply H ] ]; cbv beta.
