(* ===== verification/Refine.v ===== *)
(** * Refinement of an abstract machine

    An abstract machine is a function from an operation and an abstract value to a result
    and a new value.  An implementation refines it when each operation, run on a state
    that represents the value, returns the machine's result in a state that represents
    the machine's new value.  The representation is indexed by a budget, the number of
    operations the implementation still has room for. *)

From stdpp Require Import base list.
From S2P Require Import Prelude.

Section machine.
Context {S A Op Out : Type}.

Fixpoint run_seq (run : Op -> M S Out) (os : list Op) : M S (list Out) :=
  match os with
  | [] => ret []
  | o :: os' => r <- run o ;; rs <- run_seq run os' ;; ret (r :: rs)
  end.

Fixpoint spec_seq (spec : Op -> A -> Out * A) (os : list Op) (a : A) : list Out * A :=
  match os with
  | [] => ([], a)
  | o :: os' =>
    let '(r, a1) := spec o a in
    let '(rs, a2) := spec_seq spec os' a1 in (r :: rs, a2)
  end.

Class Refines (run : Op -> M S Out) (spec : Op -> A -> Out * A) (valid : Op -> Prop)
    (rep : A -> nat -> S -> Prop) : Prop :=
  refines_step : forall a n o s, rep a (Datatypes.S n) s -> valid o ->
    exists s', run o s = Ret (fst (spec o a)) s' /\ rep (snd (spec o a)) n s'.

Context (run : Op -> M S Out) (spec : Op -> A -> Out * A) (valid : Op -> Prop).
Context (rep : A -> nat -> S -> Prop) `{!Refines run spec valid rep}.

(** Single operations compose to sequences. *)
Lemma refines_seq os a n s :
  rep a (length os + n) s -> Forall valid os ->
  exists s', run_seq run os s = Ret (fst (spec_seq spec os a)) s' /\
    rep (snd (spec_seq spec os a)) n s'.
Proof using Type*.
  intros Hh Hok. revert a s Hh. induction Hok as [|o os Ho _ IH]; intros a s Hh; simpl; [by exists s|].
  destruct (refines_step a (length os + n) o s Hh Ho) as (s1 & Hgo & Hh1).
  rewrite (bind_ret _ _ _ _ _ Hgo). destruct (spec o a) as [r a1]. simpl in *.
  destruct (IH a1 s1 Hh1) as (s2 & Hgo2 & Hh2). rewrite (bind_ret _ _ _ _ _ Hgo2).
  destruct (spec_seq spec os a1) as [rs a2]. by exists s2.
Qed.
End machine.
