(* ===== verification/Wp.v ===== *)
(** * Postconditions of computations

    [wp m Q E s]: run from [s], the computation [m] either returns a value and a state
    that satisfy [Q], or ends the process in a way that satisfies [E]; it neither meets
    undefined behaviour nor runs out of fuel.  [no_exit] excludes the end of the
    process.  The rules follow the structure of the monad; [wp_step] applies the one that
    fits the head of the goal. *)

From Stdlib Require Import ZArith.
From S2P Require Import Prelude.
From stdpp Require Import base list.

Definition wp {S A} (m : M S A) (Q : A -> S -> Prop) (E : death -> S -> Prop) (s : S) : Prop :=
  match m s with
  | Ret a s' => Q a s'
  | Die d s' => E d s'
  | Undef _ | NoFuel => False
  end.

Definition no_exit {S} : death -> S -> Prop := fun _ _ => False.

Section rules.
Context {S : Type}.
Implicit Types (E : death -> S -> Prop) (s : S).

Lemma wp_ret {A} (a : A) (Q : A -> S -> Prop) E s : Q a s -> wp (ret a) Q E s.
Proof. done. Qed.

Lemma wp_bind {A B} (m : M S A) (f : A -> M S B) (Q : B -> S -> Prop) E s :
  wp m (fun a s' => wp (f a) Q E s') E s -> wp (bind m f) Q E s.
Proof. unfold wp, bind. by destruct (m s). Qed.

Lemma wp_mono {A} (m : M S A) (Q Q' : A -> S -> Prop) (E E' : death -> S -> Prop) s :
  wp m Q E s -> (forall a s', Q a s' -> Q' a s') -> (forall d s', E d s' -> E' d s') -> wp m Q' E' s.
Proof. unfold wp. intros H HQ HE. destruct (m s); auto. Qed.

(** The same, with the end of the process as it is. *)
Lemma wp_conseq {A} (m : M S A) (Q Q' : A -> S -> Prop) E s :
  wp m Q E s -> (forall a s', Q a s' -> Q' a s') -> wp m Q' E s.
Proof. intros H HQ. by eapply wp_mono. Qed.

(** A computation that never exits may run in any context. *)
Lemma wp_total {A} (m : M S A) (Q : A -> S -> Prop) E s : wp m Q no_exit s -> wp m Q E s.
Proof. intros H. by eapply wp_mono. Qed.

Lemma wp_run {A} (m : M S A) (Q : A -> S -> Prop) s :
  wp m Q no_exit s <-> exists a s', m s = Ret a s' /\ Q a s'.
Proof.
  unfold wp. split; [|by intros (a & s' & -> & H)].
  destruct (m s) as [a s'|d s'|w|]; intros H; try done. by exists a, s'.
Qed.

(** A computation whose run is known. *)
Lemma wp_eq {A} (m : M S A) (Q : A -> S -> Prop) E s a s' : m s = Ret a s' -> Q a s' -> wp m Q E s.
Proof. unfold wp. by intros ->. Qed.

Lemma wp_die {A} d (Q : A -> S -> Prop) E s : E d s -> wp (die d) Q E s.
Proof. done. Qed.

Lemma wp_gets {A} (f : S -> A) (Q : A -> S -> Prop) E s : Q (f s) s -> wp (gets f) Q E s.
Proof. done. Qed.

Lemma wp_getst (Q : S -> S -> Prop) E s : Q s s -> wp getst Q E s.
Proof. done. Qed.

Lemma wp_modst f (Q : unit -> S -> Prop) E s : Q tt (f s) -> wp (modst f) Q E s.
Proof. done. Qed.

Lemma wp_when (b : bool) (m : M S unit) (Q : unit -> S -> Prop) E s :
  (b = true -> wp m Q E s) -> (b = false -> Q tt s) -> wp (when b m) Q E s.
Proof. destruct b; intros H1 H2; [by apply H1|by apply H2]. Qed.

Lemma wp_if {A} (b : bool) (m1 m2 : M S A) (Q : A -> S -> Prop) E s :
  (b = true -> wp m1 Q E s) -> (b = false -> wp m2 Q E s) -> wp (if b then m1 else m2) Q E s.
Proof. destruct b; auto. Qed.
End rules.

Ltac wp_step :=
  lazymatch goal with
  | |- wp (bind _ _) _ _ _ => apply wp_bind
  | |- wp (ret _) _ _ _ => apply wp_ret
  | |- wp (gets _) _ _ _ => apply wp_gets
  | |- wp getst _ _ _ => apply wp_getst
  | |- wp (modst _) _ _ _ => apply wp_modst
  | |- wp (die _) _ _ _ => apply wp_die
  end; cbv beta.

Ltac wp_steps := repeat wp_step.
