(* ===== verification/Libc.v ===== *)
(** * The part of the C library the modelled programs use: strings, character classes,
    integer conversions ([atol], [atoi]) and decimal formatting ([%d], [%*d]).

    A C string is modelled by the bytes before its terminating NUL; [cstr] reads the
    string held by a buffer.  Conversions follow glibc: [strtol] saturates at the 64-bit
    range and [atoi] converts its result to [int]. *)

From stdpp Require Import base list strings numbers sets.
From Stdlib Require Import Strings.Byte ZArith Lia.
From S2P Require Import Prelude.

(** ** Character constants and classes *)

Definition NUL : byte := x00.
Definition c_space : byte := " "%byte.
Definition c_minus : byte := "-"%byte.
Definition c_plus : byte := "+"%byte.

Definition isdigit (b : byte) : bool := (48 <=? uc b) && (uc b <=? 57).
Definition isspace (b : byte) : bool := (uc b =? 32) || ((9 <=? uc b) && (uc b <=? 13)).
Definition isprint (b : byte) : bool := (32 <=? uc b) && (uc b <=? 126).
Definition tolower (b : byte) : byte :=
  if (65 <=? uc b) && (uc b <=? 90) then bz (uc b + 32) else b.

(** ** Strings *)

Fixpoint cstr (b : bytes) : bytes :=
  match b with
  | [] => []
  | c :: b' => if decide (c = NUL) then [] else c :: cstr b'
  end.

Definition strlen (b : bytes) : Z := len (cstr b).

(** No byte of [s] is NUL: [s] is the value of a C string. *)
Definition is_cstr (s : bytes) : Prop := Forall (fun c => c <> NUL) s.

#[global] Instance is_cstr_dec s : Decision (is_cstr s).
Proof. unfold is_cstr. apply _. Defined.

(** [strcmp] on string values: the sign of the first difference, as unsigned chars. *)
Fixpoint strcmp (a b : bytes) : Z :=
  match a, b with
  | [], [] => 0
  | [], _ => -1
  | _, [] => 1
  | x :: a', y :: b' => if uc x =? uc y then strcmp a' b' else if uc x <? uc y then -1 else 1
  end.

(** [strchr s c]: the index of the first [c] in the string value [s]. *)
Fixpoint strchr (s : bytes) (c : byte) : option nat :=
  match s with
  | [] => None
  | x :: s' => if decide (x = c) then Some 0%nat else S <$> strchr s' c
  end.

Fixpoint strncasecmp (a b : bytes) (n : nat) : Z :=
  match n with
  | O => 0
  | S n' =>
    match a, b with
    | [], [] => 0
    | [], _ => -1
    | _, [] => 1
    | x :: a', y :: b' =>
      if uc (tolower x) =? uc (tolower y) then strncasecmp a' b' n'
      else if uc (tolower x) <? uc (tolower y) then -1 else 1
    end
  end.

Fixpoint strncmp (a b : bytes) (n : nat) : Z :=
  match n with
  | O => 0
  | S n' =>
    match a, b with
    | [], [] => 0
    | [], _ => -1
    | _, [] => 1
    | x :: a', y :: b' =>
      if uc x =? uc y then strncmp a' b' n' else if uc x <? uc y then -1 else 1
    end
  end.

(** ** Decimal formatting *)

Definition digit (d : Z) : byte := bz (48 + d).

Fixpoint dec_go (fuel : nat) (n : Z) (acc : bytes) : bytes :=
  match fuel with
  | O => acc
  | S f =>
    let acc' := digit (n mod 10) :: acc in
    if n <? 10 then acc' else dec_go f (n / 10) acc'
  end.

(** Each division by ten takes more than one bit off, so [1 + log2 n] rounds suffice. *)
Definition dec_nonneg (n : Z) : bytes := dec_go (S (Z.to_nat (Z.log2 n))) n [].

(** ["%d"], ["%ld"], ["%lld"]. *)
Definition dec (n : Z) : bytes :=
  if n <? 0 then c_minus :: dec_nonneg (- n) else dec_nonneg n.

(** ["%*d"]: right-justified in a field of at least [w] characters. *)
Definition pad (w : nat) (s : bytes) : bytes := replicate (w - length s) c_space ++ s.

(** ** Integer conversions *)

Fixpoint scan_digits (acc : Z) (s : bytes) : Z :=
  match s with
  | [] => acc
  | c :: s' => if isdigit c then scan_digits (acc * 10 + (uc c - 48)) s' else acc
  end.

Fixpoint skip_space (s : bytes) : bytes :=
  match s with
  | [] => []
  | c :: s' => if isspace c then skip_space s' else s
  end.

Definition strtol_value (s : bytes) : Z :=
  match skip_space s with
  | [] => 0
  | c :: r =>
    if decide (c = c_minus) then - scan_digits 0 r
    else if decide (c = c_plus) then scan_digits 0 r
    else scan_digits 0 (c :: r)
  end.

Definition LONG_MAX : Z := 2 ^ 63 - 1.
Definition LONG_MIN : Z := - 2 ^ 63.

Definition atol (s : bytes) : Z := Z.max LONG_MIN (Z.min LONG_MAX (strtol_value s)).
Definition atoi (s : bytes) : Z := i32 (atol s).

(** ** Facts: strings *)

Lemma cstr_id s : is_cstr s -> cstr s = s.
Proof.
  induction 1 as [|c s Hc _ IH]; simpl; [done|]. rewrite decide_False by done. by f_equal.
Qed.

Lemma cstr_app_nul s r : is_cstr s -> cstr (s ++ NUL :: r) = s.
Proof.
  induction 1 as [|c s Hc _ IH]; simpl; [done|]. rewrite decide_False by done. by f_equal.
Qed.

Lemma cstr_eq x s r : is_cstr s -> x = s ++ NUL :: r -> cstr x = s.
Proof. intros H ->. by apply cstr_app_nul. Qed.

(** A buffer longer than its string holds the terminator. *)
Lemma cstr_split b : (length (cstr b) < length b)%nat -> exists r, b = cstr b ++ NUL :: r.
Proof.
  induction b as [|c b IH]; simpl; [lia|]. case_decide as Hc; [subst; by exists b|].
  simpl. intros Hl. destruct IH as [r Hr]; [lia|]. exists r. simpl. congruence.
Qed.

Lemma is_cstr_app a b : is_cstr (a ++ b) <-> is_cstr a /\ is_cstr b.
Proof. apply Forall_app. Qed.

Lemma is_cstr_cons c s : is_cstr (c :: s) <-> c <> NUL /\ is_cstr s.
Proof. unfold is_cstr. by rewrite Forall_cons. Qed.

Lemma is_cstr_cstr s : is_cstr (cstr s).
Proof.
  unfold is_cstr. induction s as [|c s IH]; simpl; [done|]. case_decide; [done|]. by constructor.
Qed.

Lemma strcmp_0 a b : strcmp a b = 0 <-> a = b.
Proof.
  revert b. induction a as [|x a IH]; intros [|y b]; simpl; try (split; (congruence || done)).
  destruct (Z.eqb_spec (uc x) (uc y)) as [E|E].
  - apply uc_inj in E. subst. rewrite IH. split; [by intros ->|congruence].
  - destruct (uc x <? uc y); split; try lia; intros [=->]; lia.
Qed.

Lemma strcmp_eqb a b : (strcmp a b =? 0) = bool_decide (a = b).
Proof.
  case_bool_decide as E; [apply Z.eqb_eq | apply Z.eqb_neq]; rewrite strcmp_0; done.
Qed.

Lemma strchr_None s c : strchr s c = None <-> c ∉ s.
Proof.
  induction s as [|x s IH]; simpl; [set_solver|].
  rewrite not_elem_of_cons. case_decide as E; [naive_solver|].
  destruct (strchr s c); simpl in *; naive_solver.
Qed.

Lemma strchr_app s r c : c ∉ s -> strchr (s ++ c :: r) c = Some (length s).
Proof.
  induction s as [|x s IH]; simpl; intros H; [by rewrite decide_True|].
  rewrite decide_False by set_solver. rewrite IH by set_solver. done.
Qed.

(** ** Facts: decimal formatting and its inverse *)

Lemma uc_digit d : 0 <= d < 10 -> uc (digit d) = 48 + d.
Proof. intros. unfold digit. rewrite uc_bz. apply Z.mod_small. lia. Qed.

Lemma isdigit_digit d : 0 <= d < 10 -> isdigit (digit d) = true.
Proof. intros. unfold isdigit. rewrite uc_digit by lia. lia. Qed.

Definition all_digits (s : bytes) : Prop := Forall (fun c => isdigit c = true) s.

Definition digits_value (s : bytes) : Z := foldl (fun a c => a * 10 + (uc c - 48)) 0 s.

Lemma scan_digits_app s r acc :
  all_digits s -> (forall c, head r = Some c -> isdigit c = false) ->
  scan_digits acc (s ++ r) = foldl (fun a c => a * 10 + (uc c - 48)) acc s.
Proof.
  intros Hs Hr. revert acc. induction Hs as [|c s Hc _ IH]; intros acc; simpl.
  - destruct r as [|c r]; simpl; [done|]. rewrite (Hr c); done.
  - rewrite Hc. apply IH.
Qed.

Lemma dec_go_spec fuel n acc :
  0 <= n -> n < 2 ^ Z.of_nat fuel ->
  exists s, dec_go fuel n acc = s ++ acc /\ all_digits s /\ digits_value s = n /\
            (1 <= fuel -> s <> [])%nat /\
            (forall k : nat, (1 <= k)%nat -> n < 10 ^ Z.of_nat k -> (length s <= k)%nat).
Proof.
  revert n acc. induction fuel as [|f IH]; intros n acc Hn Hlt; cbn [dec_go].
  - exists []. change (2 ^ Z.of_nat 0) with 1 in Hlt. split_and!.
    + done.
    + constructor.
    + unfold digits_value; simpl; lia.
    + lia.
    + simpl; lia.
  - pose proof (Z.mod_pos_bound n 10 ltac:(lia)) as Hm.
    destruct (Z.ltb_spec n 10) as [H10|H10].
    + exists [digit (n mod 10)]. rewrite Z.mod_small by lia. split_and!.
      * done.
      * constructor; [apply isdigit_digit; lia|constructor].
      * unfold digits_value. simpl. rewrite uc_digit by lia. lia.
      * done.
      * intros k Hk _. simpl. lia.
    + destruct (IH (n / 10) (digit (n mod 10) :: acc)) as (s & -> & Hd & Hv & Hne & Hl).
      * apply Z.div_pos; lia.
      * rewrite Nat2Z.inj_succ, Z.pow_succ_r in Hlt by lia.
        apply Z.div_lt_upper_bound; lia.
      * exists (s ++ [digit (n mod 10)]). rewrite <- app_assoc. split_and!.
        -- done.
        -- apply Forall_app. split; [done|]. constructor; [apply isdigit_digit; lia|constructor].
        -- unfold digits_value in *. rewrite foldl_app, Hv. simpl. rewrite uc_digit by lia.
           pose proof (Z.div_mod n 10). lia.
        -- intros _ E. apply app_eq_nil in E as [_ E]. done.
        -- intros k Hk Hlt'. rewrite length_app. simpl.
           destruct k as [|[|k]]; [lia| |].
           { change (10 ^ Z.of_nat 1) with 10 in Hlt'. lia. }
           assert (length s <= S k)%nat; [|lia]. apply Hl; [lia|].
           rewrite (Nat2Z.inj_succ (S k)), Z.pow_succ_r in Hlt' by lia.
           apply Z.div_lt_upper_bound; lia.
Qed.

Lemma dec_nonneg_spec n :
  0 <= n ->
  all_digits (dec_nonneg n) /\ digits_value (dec_nonneg n) = n /\ dec_nonneg n <> [] /\
  (forall k : nat, (1 <= k)%nat -> n < 10 ^ Z.of_nat k -> (length (dec_nonneg n) <= k)%nat).
Proof.
  intros Hn.
  destruct (dec_go_spec (S (Z.to_nat (Z.log2 n))) n []) as (s & E & H1 & H2 & H3 & H4); try lia.
  - rewrite Nat2Z.inj_succ, Z2Nat.id by apply Z.log2_nonneg.
    destruct (Z.eq_dec n 0) as [->|]; [done|]. apply Z.log2_spec. lia.
  - unfold dec_nonneg. rewrite E, app_nil_r. split_and!; try done. apply H3. lia.
Qed.

Lemma dec_digits n : 0 <= n -> all_digits (dec n).
Proof. intros. unfold dec. destruct (Z.ltb_spec n 0); [lia|]. by apply dec_nonneg_spec. Qed.

Lemma dec_value n : 0 <= n -> digits_value (dec n) = n.
Proof. intros. unfold dec. destruct (Z.ltb_spec n 0); [lia|]. by apply dec_nonneg_spec. Qed.

Lemma dec_nonnil n : 0 <= n -> dec n <> [].
Proof. intros. unfold dec. destruct (Z.ltb_spec n 0); [lia|]. by apply dec_nonneg_spec. Qed.

Lemma length_dec_le n (k : nat) :
  (1 <= k)%nat -> 0 <= n < 10 ^ Z.of_nat k -> (length (dec n) <= k)%nat.
Proof.
  intros. unfold dec. destruct (Z.ltb_spec n 0); [lia|]. apply dec_nonneg_spec; lia.
Qed.

Lemma length_dec_pos n : 0 <= n -> (1 <= length (dec n))%nat.
Proof. intros H. pose proof (dec_nonnil n H). destruct (dec n); simpl; [done|lia]. Qed.

Lemma isdigit_not_special c :
  isdigit c = true -> isspace c = false /\ c <> NUL /\ c <> c_minus /\ c <> c_plus.
Proof.
  unfold isdigit, isspace. intros H.
  split; [lia|]. repeat split; intros ->; by vm_compute in H.
Qed.

Lemma skip_space_digits s r :
  all_digits s -> s <> [] -> skip_space (s ++ r) = s ++ r.
Proof.
  intros Hs Hne. destruct Hs as [|c s Hc _]; [done|]. simpl.
  by rewrite (proj1 (isdigit_not_special c Hc)).
Qed.

Lemma skip_space_replicate k s : skip_space (replicate k c_space ++ s) = skip_space s.
Proof. induction k as [|k IH]; simpl; [done|]. apply IH. Qed.

Lemma strtol_digits k s r :
  all_digits s -> s <> [] -> (forall c, head r = Some c -> isdigit c = false) ->
  strtol_value (replicate k c_space ++ s ++ r) = digits_value s.
Proof.
  intros Hs Hne Hr. unfold strtol_value.
  rewrite skip_space_replicate, skip_space_digits by done.
  unfold digits_value. rewrite <- (scan_digits_app s r 0) by done.
  destruct Hs as [|c s Hc _]; [done|]. simpl app.
  destruct (isdigit_not_special c Hc) as (_ & _ & Hm & Hp).
  rewrite !decide_False by done. done.
Qed.

(** Reading back a padded number: the round trip behind every ASCII field. *)
Lemma atol_pad w n r :
  0 <= n <= LONG_MAX -> (forall c, head r = Some c -> isdigit c = false) ->
  atol (pad w (dec n) ++ r) = n.
Proof.
  intros Hn Hr. unfold atol, pad. rewrite <- app_assoc.
  rewrite strtol_digits; [|apply dec_digits; lia|apply dec_nonnil; lia|done].
  rewrite dec_value by lia. unfold LONG_MIN. lia.
Qed.

Lemma atol_dec n r :
  0 <= n <= LONG_MAX -> (forall c, head r = Some c -> isdigit c = false) ->
  atol (dec n ++ r) = n.
Proof.
  exact (atol_pad 0 n r).
Qed.

Lemma atoi_pad w n r :
  0 <= n < 2 ^ 31 -> (forall c, head r = Some c -> isdigit c = false) ->
  atoi (pad w (dec n) ++ r) = n.
Proof.
  intros Hn Hr. unfold atoi. rewrite atol_pad; [|unfold LONG_MAX; lia|done].
  apply swrap_small; lia.
Qed.

Lemma length_pad w s : (length s <= w)%nat -> length (pad w s) = w.
Proof. intros. unfold pad. rewrite length_app, length_replicate. lia. Qed.

Lemma all_digits_is_cstr s : all_digits s -> is_cstr s.
Proof. intros H. eapply Forall_impl; [exact H|]. intros c Hc. by apply isdigit_not_special. Qed.

Lemma is_cstr_pad w s : is_cstr s -> is_cstr (pad w s).
Proof.
  intros. apply is_cstr_app. split; [|done]. apply Forall_replicate. done.
Qed.

Lemma is_cstr_dec_pos n : 0 <= n -> is_cstr (dec n).
Proof. intros. by apply all_digits_is_cstr, dec_digits. Qed.

(** Goals [is_cstr (a ++ b ++ ...)] by the shape of the string. *)
Ltac cstr_solve := solve [ repeat first
  [ assumption | done | apply is_cstr_app; split | apply is_cstr_cons; split
  | apply is_cstr_pad | apply is_cstr_dec_pos; lia ] ].
