(* ===== verification/Posix.v ===== *)
(** * The POSIX file interface the modelled programs call

    A kernel state holds the directory (path to inode), the contents of the inodes, the
    descriptor table of the process (each entry with its own file offset), the record
    locks of the process and of the other processes, and [errno].  The calls are total
    functions that return the C result together with the new kernel state.  Regular
    files only: a read returns what the file holds up to the end, a write stores
    everything, so a short count means end of file. *)

From stdpp Require Import base list gmap strings numbers.
From Stdlib Require Import Strings.Byte ZArith Lia.
From S2P Require Import Prelude Libc.

(** ** Constants (Linux values) *)

Definition SEEK_SET : Z := 0.
Definition SEEK_CUR : Z := 1.
Definition SEEK_END : Z := 2.

Definition O_RDONLY : Z := 0.
Definition O_WRONLY : Z := 1.
Definition O_RDWR : Z := 2.
Definition O_CREAT : Z := 64.
Definition O_EXCL : Z := 128.
Definition O_TRUNC : Z := 512.
Definition O_APPEND : Z := 1024.
Definition O_DSYNC : Z := 4096.
Definition O_DIRECT : Z := 16384.
Definition O_SYNC : Z := 1052672.

Definition ENOENT : Z := 2.
Definition EIO : Z := 5.
Definition EBADF : Z := 9.
Definition EAGAIN : Z := 11.
Definition EEXIST : Z := 17.
Definition EINVAL : Z := 22.

Definition F_SETLK : Z := 6.
Definition F_SETLKW : Z := 7.
Definition F_RDLCK : Z := 0.
Definition F_WRLCK : Z := 1.
Definition F_UNLCK : Z := 2.

(** ** State *)

Record ofd := Ofd { o_ino : Z; o_off : Z; o_rd : bool; o_wr : bool; o_app : bool }.

(** A record lock on the bytes from [l_lo] up to, not including, [l_hi] ([None]: to the
    largest offset). *)
Record rlock := Rlock { l_ino : Z; l_lo : Z; l_hi : option Z; l_wr : bool }.

Record kernel := Kernel {
  k_dir : gmap bytes Z;
  k_files : gmap Z bytes;
  k_nextino : Z;
  k_fds : gmap Z ofd;
  k_locks : list rlock;
  k_others : list rlock;
  k_errno : Z
}.

Definition set_files (f : gmap Z bytes) (k : kernel) : kernel :=
  Kernel (k_dir k) f (k_nextino k) (k_fds k) (k_locks k) (k_others k) (k_errno k).
Definition set_fds (f : gmap Z ofd) (k : kernel) : kernel :=
  Kernel (k_dir k) (k_files k) (k_nextino k) f (k_locks k) (k_others k) (k_errno k).
Definition set_locks (l : list rlock) (k : kernel) : kernel :=
  Kernel (k_dir k) (k_files k) (k_nextino k) (k_fds k) l (k_others k) (k_errno k).
Definition set_errno (e : Z) (k : kernel) : kernel :=
  Kernel (k_dir k) (k_files k) (k_nextino k) (k_fds k) (k_locks k) (k_others k) e.
Definition set_off (o : ofd) (p : Z) : ofd := Ofd (o_ino o) p (o_rd o) (o_wr o) (o_app o).

Definition contents (k : kernel) (ino : Z) : bytes := default [] (k_files k !! ino).

(** ** Reading, writing and seeking *)

(** A write past the end leaves a hole of zero bytes; a write of nothing changes nothing. *)
Definition file_write (f : bytes) (o : Z) (d : bytes) : bytes :=
  match d with
  | [] => f
  | _ => splice (Z.to_nat o) d (f ++ replicate (Z.to_nat o - length f) NUL)
  end.

Definition file_read (f : bytes) (o n : Z) : bytes := slice (Z.to_nat o) (Z.to_nat n) f.

Definition sys_lseek (fd off whence : Z) (k : kernel) : Z * kernel :=
  match k_fds k !! fd with
  | None => (-1, set_errno EBADF k)
  | Some o =>
    let base := if whence =? SEEK_SET then 0
                else if whence =? SEEK_CUR then o_off o
                else len (contents k (o_ino o)) in
    if base + off <? 0 then (-1, set_errno EINVAL k)
    else (base + off, set_fds (<[fd := set_off o (base + off)]> (k_fds k)) k)
  end.

(** [read]: [None] is the result -1. *)
Definition sys_read (fd n : Z) (k : kernel) : option bytes * kernel :=
  match k_fds k !! fd with
  | Some o =>
    if o_rd o then
      let d := file_read (contents k (o_ino o)) (o_off o) n in
      (Some d, set_fds (<[fd := set_off o (o_off o + len d)]> (k_fds k)) k)
    else (None, set_errno EBADF k)
  | None => (None, set_errno EBADF k)
  end.

Definition sys_write (fd : Z) (d : bytes) (k : kernel) : Z * kernel :=
  match k_fds k !! fd with
  | Some o =>
    if o_wr o then
      let f := contents k (o_ino o) in
      let p := if o_app o then len f else o_off o in
      (len d, set_files (<[o_ino o := file_write f p d]> (k_files k))
                (set_fds (<[fd := set_off o (p + len d)]> (k_fds k)) k))
    else (-1, set_errno EBADF k)
  | None => (-1, set_errno EBADF k)
  end.

(** [pread] and [pwrite] leave the file offset alone. *)
Definition sys_pread (fd n off : Z) (k : kernel) : option bytes * kernel :=
  match k_fds k !! fd with
  | Some o =>
    if off <? 0 then (None, set_errno EINVAL k)
    else if o_rd o then (Some (file_read (contents k (o_ino o)) off n), k)
    else (None, set_errno EBADF k)
  | None => (None, set_errno EBADF k)
  end.

Definition sys_pwrite (fd : Z) (d : bytes) (off : Z) (k : kernel) : Z * kernel :=
  match k_fds k !! fd with
  | Some o =>
    if off <? 0 then (-1, set_errno EINVAL k)
    else if o_wr o then
      (len d, set_files (<[o_ino o := file_write (contents k (o_ino o)) off d]> (k_files k)) k)
    else (-1, set_errno EBADF k)
  | None => (-1, set_errno EBADF k)
  end.

(** [fstat], of which the programs use [st_size]. *)
Definition sys_fstat_size (fd : Z) (k : kernel) : option Z * kernel :=
  match k_fds k !! fd with
  | Some o => (Some (len (contents k (o_ino o))), k)
  | None => (None, set_errno EBADF k)
  end.

(** ** Opening and closing *)

(** The lowest descriptor not in use: among [size fds + 1] candidates one is free. *)
Fixpoint lowest_free (fuel : nat) (n : Z) (fds : gmap Z ofd) : Z :=
  match fuel with
  | O => n
  | S f => match fds !! n with None => n | Some _ => lowest_free f (n + 1) fds end
  end.

Definition new_fd (fds : gmap Z ofd) : Z := lowest_free (S (size fds)) 0 fds.

Definition has_flag (flags f : Z) : bool := Z.land flags f =? f.

Definition ofd_of_flags (ino flags : Z) : ofd :=
  let acc := Z.land flags 3 in
  Ofd ino 0 ((acc =? O_RDONLY) || (acc =? O_RDWR)) ((acc =? O_WRONLY) || (acc =? O_RDWR))
      (has_flag flags O_APPEND).

Definition sys_open (path : bytes) (flags : Z) (k : kernel) : Z * kernel :=
  let fd := new_fd (k_fds k) in
  match k_dir k !! path with
  | Some ino =>
    if has_flag flags (Z.lor O_CREAT O_EXCL) then (-1, set_errno EEXIST k)
    else
      let files := if has_flag flags O_TRUNC then <[ino := []]> (k_files k) else k_files k in
      (fd, set_fds (<[fd := ofd_of_flags ino flags]> (k_fds k)) (set_files files k))
  | None =>
    if has_flag flags O_CREAT then
      let ino := k_nextino k in
      (fd, Kernel (<[path := ino]> (k_dir k)) (<[ino := []]> (k_files k)) (ino + 1)
             (<[fd := ofd_of_flags ino flags]> (k_fds k)) (k_locks k) (k_others k) (k_errno k))
    else (-1, set_errno ENOENT k)
  end.

(** Closing any descriptor of a file drops all locks of the process on that file. *)
Definition sys_close (fd : Z) (k : kernel) : Z * kernel :=
  match k_fds k !! fd with
  | Some o =>
    (0, set_locks (filter (fun l => l_ino l <> o_ino o) (k_locks k))
          (set_fds (delete fd (k_fds k)) k))
  | None => (-1, set_errno EBADF k)
  end.

Definition sys_unlink (path : bytes) (k : kernel) : Z * kernel :=
  match k_dir k !! path with
  | Some _ => (0, Kernel (delete path (k_dir k)) (k_files k) (k_nextino k) (k_fds k)
                    (k_locks k) (k_others k) (k_errno k))
  | None => (-1, set_errno ENOENT k)
  end.

(** ** Record locks *)

Definition below (a : Z) (h : option Z) : bool :=
  match h with None => true | Some b => a <? b end.

Definition overlaps (ino lo : Z) (hi : option Z) (l : rlock) : bool :=
  (l_ino l =? ino) && below (l_lo l) hi && below lo (l_hi l).

(** What is left of a held lock when the range [lo, hi) of [ino] is given away. *)
Definition lk_minus (ino lo : Z) (hi : option Z) (l : rlock) : list rlock :=
  if overlaps ino lo hi l then
    (if l_lo l <? lo then [Rlock ino (l_lo l) (Some lo) (l_wr l)] else []) ++
    (match hi with
     | None => []
     | Some h => if below h (l_hi l) then [Rlock ino h (l_hi l) (l_wr l)] else []
     end)
  else [l].

Definition lk_release (ino lo : Z) (hi : option Z) (ls : list rlock) : list rlock :=
  mjoin (lk_minus ino lo hi <$> ls).

Inductive lkres := LkOk (k : kernel) | LkErr (k : kernel) | LkWait.

(** [fcntl] with a [struct flock] whose [l_whence] is [SEEK_SET] (the only one in use):
    granting a range replaces what the process held there; [F_SETLKW] waits when another
    process holds a conflicting lock, [F_SETLK] fails with [EAGAIN]. *)
Definition sys_fcntl_lk (fd cmd type start whence ln : Z) (k : kernel) : lkres :=
  match k_fds k !! fd with
  | None => LkErr (set_errno EBADF k)
  | Some o =>
    if (negb (whence =? SEEK_SET)) || (start <? 0) || (ln <? 0)
    then LkErr (set_errno EINVAL k)
    else
      let hi := if ln =? 0 then None else Some (start + ln) in
      let rest := lk_release (o_ino o) start hi (k_locks k) in
      if type =? F_UNLCK then LkOk (set_locks rest k)
      else if existsb (fun l => overlaps (o_ino o) start hi l &&
                                (l_wr l || (type =? F_WRLCK))) (k_others k)
      then if cmd =? F_SETLKW then LkWait else LkErr (set_errno EAGAIN k)
      else LkOk (set_locks (Rlock (o_ino o) start hi (type =? F_WRLCK) :: rest) k)
  end.

(** ** Facts *)

Lemma file_write_cons f o d :
  d <> [] -> file_write f o d = splice (Z.to_nat o) d (f ++ replicate (Z.to_nat o - length f) NUL).
Proof. by destruct d. Qed.

Lemma splice_nil {A} (l : list A) o : splice o [] l = l.
Proof. unfold splice. simpl. rewrite Nat.add_0_r. apply take_drop. Qed.

Lemma file_write_inside f o d :
  0 <= o -> o + len d <= len f -> file_write f o d = splice (Z.to_nat o) d f.
Proof.
  intros Ho H. destruct (decide (d = [])) as [->|Hd]; [by rewrite splice_nil|].
  rewrite file_write_cons by done. unfold len in *.
  replace (Z.to_nat o - length f)%nat with 0%nat by lia. simpl. by rewrite app_nil_r.
Qed.

Lemma file_write_end f d : file_write f (len f) d = f ++ d.
Proof.
  destruct (decide (d = [])) as [->|Hd]; [by rewrite app_nil_r|]. rewrite file_write_cons by done.
  unfold len. rewrite Nat2Z.id, Nat.sub_diag. simpl. rewrite app_nil_r.
  by apply splice_end.
Qed.

Lemma file_write_mid p q r d :
  length q = length d -> file_write (p ++ q ++ r) (len p) d = p ++ d ++ r.
Proof.
  intros Hl. rewrite file_write_inside by len_solve.
  apply splice_app; [unfold len; lia|done].
Qed.

(** Two writes one after the other are one write. *)
Lemma file_write_app f o a b :
  0 <= o -> file_write (file_write f o a) (o + len a) b = file_write f o (a ++ b).
Proof.
  intros Ho. destruct (decide (a = [])) as [->|Ha]; [by rewrite Z.add_0_r|].
  destruct (decide (b = [])) as [->|Hb]; [by rewrite app_nil_r|].
  assert (Hab : a ++ b <> []) by (by destruct a).
  rewrite !file_write_cons by done. set (g := f ++ replicate (Z.to_nat o - length f) NUL).
  assert (Hg : (Z.to_nat o <= length g)%nat) by (unfold g; rewrite length_app, length_replicate; lia).
  assert (E1 : splice (Z.to_nat o) a g = (take (Z.to_nat o) g ++ a) ++ drop (Z.to_nat o + length a) g)
    by (unfold splice; by rewrite <- app_assoc).
  rewrite E1. set (p := take (Z.to_nat o) g ++ a).
  assert (Hp : Z.to_nat (o + len a) = length p)
    by (unfold p, len; rewrite length_app, length_take; lia).
  rewrite Hp, length_app. replace (length p - (length p + length (drop (Z.to_nat o + length a) g)))%nat with 0%nat by lia.
  simpl. rewrite app_nil_r. unfold splice. rewrite take_app_length, drop_app_add, drop_drop, length_app.
  unfold p. rewrite <- !app_assoc. do 4 f_equal. lia.
Qed.

Lemma len_file_write f o d : 0 <= o -> o + len d <= len f -> len (file_write f o d) = len f.
Proof. intros Ho H. rewrite file_write_inside by done. unfold len in *. rewrite length_splice; lia. Qed.

(** Reading what was written, and what was not. *)
Lemma file_read_write f o d : 0 <= o -> o + len d <= len f -> file_read (file_write f o d) o (len d) = d.
Proof.
  intros Ho H. rewrite file_write_inside by done. unfold file_read, slice, splice, len in *. rewrite Nat2Z.id.
  replace (Z.to_nat o) with (length (take (Z.to_nat o) f)) at 1 by (rewrite length_take; lia).
  by rewrite drop_app_length, take_app_length.
Qed.

Lemma file_read_write_ne f o d o' n :
  0 <= o -> o + len d <= len f -> 0 <= o' -> 0 <= n -> o' + n <= o \/ o + len d <= o' ->
  file_read (file_write f o d) o' n = file_read f o' n.
Proof.
  intros Ho H Ho' Hn Hd. rewrite file_write_inside by done. unfold file_read, slice, splice, len in *. destruct Hd as [Hd|Hd].
  - rewrite drop_app_le by (rewrite length_take; lia). rewrite take_app_le by (rewrite length_drop, length_take; lia).
    rewrite <- (take_drop (Z.to_nat o) f) at 2. rewrite drop_app_le by (rewrite length_take; lia).
    by rewrite take_app_le by (rewrite length_drop, length_take; lia).
  - rewrite app_assoc, drop_app_ge by (rewrite length_app, length_take; lia). rewrite drop_drop. do 2 f_equal.
    rewrite length_app, length_take. lia.
Qed.

Lemma file_read_mid p q r n : n = len q -> file_read (p ++ q ++ r) (len p) n = q.
Proof. intros ->. unfold file_read, len. rewrite !Nat2Z.id. by apply slice_app. Qed.

Lemma len_file_read f o n :
  0 <= o -> 0 <= n -> o + n <= len f -> len (file_read f o n) = n.
Proof. intros. unfold file_read, len in *. rewrite length_slice; lia. Qed.

Lemma file_read_eof f o n : len f <= o -> file_read f o n = [].
Proof.
  intros H. unfold file_read, slice, len in *. rewrite drop_ge by lia. by rewrite take_nil.
Qed.

Lemma lowest_free_ge fuel n fds : n <= lowest_free fuel n fds.
Proof.
  revert n. induction fuel as [|f IH]; intros n; simpl; [lia|].
  destruct (fds !! n); [specialize (IH (n + 1)); lia|lia].
Qed.

Lemma lowest_free_ext fuel n f1 f2 :
  (forall m, n <= m -> f1 !! m = f2 !! m) -> lowest_free fuel n f1 = lowest_free fuel n f2.
Proof.
  revert n. induction fuel as [|f IH]; intros n H; simpl; [done|].
  rewrite (H n) by lia. destruct (f2 !! n); [|done]. apply IH. intros m Hm. apply H. lia.
Qed.

Lemma lowest_free_None fuel n fds :
  (size fds < fuel)%nat -> fds !! lowest_free fuel n fds = None.
Proof.
  revert n fds. induction fuel as [|f IH]; intros n fds Hs; simpl; [lia|].
  destruct (fds !! n) as [o|] eqn:E; [|done].
  assert (Hne : n <> lowest_free f (n + 1) fds)
    by (pose proof (lowest_free_ge f (n + 1) fds); lia).
  rewrite <- (lookup_delete_ne fds n) by done.
  rewrite (lowest_free_ext f (n + 1) fds (delete n fds)) by (intros; rewrite lookup_delete_ne; [done|lia]).
  apply IH. pose proof (map_size_delete_Some n fds ltac:(by eexists)).
  pose proof (map_size_ne_0_lookup_2 fds n ltac:(by eexists)). lia.
Qed.

Lemma new_fd_None fds : fds !! new_fd fds = None.
Proof. apply lowest_free_None. lia. Qed.

Lemma new_fd_nonneg fds : 0 <= new_fd fds.
Proof. apply lowest_free_ge. Qed.

(** The calls on an open descriptor. *)
Section calls.
Context (k : kernel) (fd : Z) (o : ofd) (Hfd : k_fds k !! fd = Some o).

Lemma sys_lseek_set off :
  0 <= off ->
  sys_lseek fd off SEEK_SET k = (off, set_fds (<[fd := set_off o off]> (k_fds k)) k).
Proof.
  intros H. unfold sys_lseek. rewrite Hfd. cbn [Z.eqb SEEK_SET]. rewrite Z.add_0_l.
  destruct (Z.ltb_spec off 0); [lia|done].
Qed.

Lemma sys_lseek_cur :
  0 <= o_off o ->
  sys_lseek fd 0 SEEK_CUR k = (o_off o, set_fds (<[fd := set_off o (o_off o)]> (k_fds k)) k).
Proof.
  intros H. unfold sys_lseek. rewrite Hfd. simpl. rewrite Z.add_0_r.
  destruct (Z.ltb_spec (o_off o) 0); [lia|done].
Qed.

Lemma sys_lseek_end :
  sys_lseek fd 0 SEEK_END k =
  (len (contents k (o_ino o)),
   set_fds (<[fd := set_off o (len (contents k (o_ino o)))]> (k_fds k)) k).
Proof.
  unfold sys_lseek. rewrite Hfd. simpl. rewrite Z.add_0_r.
  pose proof (len_nonneg (contents k (o_ino o))).
  destruct (Z.ltb_spec (len (contents k (o_ino o))) 0); [lia|done].
Qed.

Lemma sys_read_ok n :
  o_rd o = true ->
  sys_read fd n k =
  (Some (file_read (contents k (o_ino o)) (o_off o) n),
   set_fds (<[fd := set_off o (o_off o + len (file_read (contents k (o_ino o)) (o_off o) n))]>
              (k_fds k)) k).
Proof. intros H. unfold sys_read. by rewrite Hfd, H. Qed.

Lemma sys_write_ok d :
  o_wr o = true -> o_app o = false ->
  sys_write fd d k =
  (len d, set_files (<[o_ino o := file_write (contents k (o_ino o)) (o_off o) d]> (k_files k))
            (set_fds (<[fd := set_off o (o_off o + len d)]> (k_fds k)) k)).
Proof. intros H1 H2. unfold sys_write. by rewrite Hfd, H1, H2. Qed.

Lemma sys_fcntl_lk_ok cmd (w : bool) start ln :
  0 <= start -> 0 <= ln ->
  let hi := if ln =? 0 then None else Some (start + ln) in
  existsb (fun l => overlaps (o_ino o) start hi l && (l_wr l || w)) (k_others k) = false ->
  sys_fcntl_lk fd cmd (if w then F_WRLCK else F_RDLCK) start SEEK_SET ln k =
  LkOk (set_locks (Rlock (o_ino o) start hi w :: lk_release (o_ino o) start hi (k_locks k)) k).
Proof.
  intros H1 H2 hi Hc. unfold sys_fcntl_lk. rewrite Hfd.
  destruct (Z.ltb_spec start 0); [lia|]. destruct (Z.ltb_spec ln 0); [lia|].
  subst hi. destruct w; simpl in *; by rewrite Hc.
Qed.

Lemma sys_fcntl_unlk_ok cmd start ln :
  0 <= start -> 0 <= ln ->
  let hi := if ln =? 0 then None else Some (start + ln) in
  sys_fcntl_lk fd cmd F_UNLCK start SEEK_SET ln k =
  LkOk (set_locks (lk_release (o_ino o) start hi (k_locks k)) k).
Proof.
  intros H1 H2 hi. unfold sys_fcntl_lk. rewrite Hfd.
  destruct (Z.ltb_spec start 0); [lia|]. destruct (Z.ltb_spec ln 0); [lia|done].
Qed.
End calls.
