(* ===== verification/SegFile.v ===== *)
(** * Files as sequences of segments

    The index and data files of the database are tiled by variable-length records that
    are addressed by their byte offset.  [seg_rep f m] says that the file [f] is such a
    tiling and that [m] maps the offset of each segment to its bytes.  Overwriting a
    segment in place and appending one are then the map updates [<[a:=s]> m]. *)

From stdpp Require Import base list gmap fin_maps strings numbers.
From Stdlib Require Import Strings.Byte ZArith Lia.
From S2P Require Import Prelude Libc Posix.

Fixpoint seg_map (base : Z) (segs : list bytes) : gmap Z bytes :=
  match segs with
  | [] => ∅
  | s :: segs' => <[base := s]> (seg_map (base + len s) segs')
  end.

Inductive seg_rep (f : bytes) (m : gmap Z bytes) : Prop :=
| SegRep (segs : list bytes) :
    Forall (fun s => s <> []) segs -> f = mjoin segs -> m = seg_map 0 segs -> seg_rep f m.

(** ** Offsets of a tiling *)

Lemma len_pos (s : bytes) : s <> [] -> 0 < len s.
Proof. destruct s; [done|]. intros _. len_solve. Qed.

Lemma seg_map_below base segs a :
  Forall (fun s => s <> []) segs -> a < base -> seg_map base segs !! a = None.
Proof.
  intros H. revert base. induction H as [|s segs Hs _ IH]; intros base Ha; simpl; [done|].
  pose proof (len_pos s Hs). rewrite lookup_insert_ne by lia. apply IH. lia.
Qed.

Lemma seg_map_above base segs a :
  Forall (fun s => s <> []) segs -> base + len (mjoin segs) <= a ->
  seg_map base segs !! a = None.
Proof.
  intros H. revert base. induction H as [|s segs Hs _ IH]; intros base Ha; simpl in *; [done|].
  rewrite len_app in Ha. pose proof (len_pos s Hs). pose proof (len_nonneg (mjoin segs)).
  rewrite lookup_insert_ne by lia. apply IH. lia.
Qed.

Lemma seg_map_app base l1 l2 :
  Forall (fun s => s <> []) (l1 ++ l2) ->
  seg_map base (l1 ++ l2) = seg_map base l1 ∪ seg_map (base + len (mjoin l1)) l2.
Proof.
  revert base. induction l1 as [|s l1 IH]; intros base H; simpl in *.
  - change (len (mjoin [])) with 0; rewrite Z.add_0_r, map_empty_union. done.
  - apply Forall_cons_1 in H as [Hs H]. rewrite IH by done.
    rewrite len_app, Z.add_assoc. apply insert_union_l.
Qed.

(** A segment of the map is a segment of the list, at the offset of its prefix. *)
Lemma seg_map_split base segs a s :
  Forall (fun s => s <> []) segs -> seg_map base segs !! a = Some s ->
  exists l1 l2, segs = l1 ++ s :: l2 /\ a = base + len (mjoin l1).
Proof.
  intros H. revert base. induction H as [|t segs Ht _ IH]; intros base Ha; simpl in *; [done|].
  apply lookup_insert_Some in Ha as [[-> ->]|[Hne Ha]].
  - exists [], segs. simpl. split; [done|len_solve].
  - destruct (IH _ Ha) as (l1 & l2 & -> & ->). exists (t :: l1), l2. split; [done|].
    simpl. rewrite len_app. lia.
Qed.

Lemma seg_map_at base l1 s l2 :
  Forall (fun s => s <> []) (l1 ++ s :: l2) ->
  seg_map base (l1 ++ s :: l2) !! (base + len (mjoin l1)) = Some s.
Proof.
  revert base. induction l1 as [|t l1 IH]; intros base H; simpl in *.
  - change (len (mjoin [])) with 0; rewrite Z.add_0_r. apply lookup_insert_eq.
  - apply Forall_cons_1 in H as [Ht H]. pose proof (len_pos t Ht).
    rewrite len_app. pose proof (len_nonneg (mjoin l1)).
    rewrite lookup_insert_ne by lia. rewrite Z.add_assoc. by apply IH.
Qed.

Lemma seg_map_update base l1 s s' l2 :
  Forall (fun s => s <> []) (l1 ++ s :: l2) -> length s' = length s ->
  seg_map base (l1 ++ s' :: l2) =
  <[base + len (mjoin l1) := s']> (seg_map base (l1 ++ s :: l2)).
Proof.
  intros H Hl. revert base H. induction l1 as [|t l1 IH]; intros base H; simpl in *.
  - change (len (mjoin [])) with 0; rewrite Z.add_0_r, insert_insert_eq. unfold len. by rewrite Hl.
  - apply Forall_cons_1 in H as [Ht H]. pose proof (len_pos t Ht).
    rewrite len_app. pose proof (len_nonneg (mjoin l1)).
    rewrite insert_insert_ne by lia. rewrite Z.add_assoc, IH by done. done.
Qed.

(** ** Reading *)

Lemma mjoin_split {A} (l1 l2 : list (list A)) s :
  mjoin (l1 ++ s :: l2) = mjoin l1 ++ s ++ mjoin l2.
Proof. rewrite join_app. done. Qed.

Lemma seg_rep_bounds f m a s :
  seg_rep f m -> m !! a = Some s -> 0 <= a /\ a + len s <= len f /\ 0 < len s.
Proof.
  intros [segs Hp -> ->] Ha. destruct (seg_map_split _ _ _ _ Hp Ha) as (l1 & l2 & -> & ->).
  rewrite mjoin_split, !len_app. apply Forall_app in Hp as [_ Hp].
  apply Forall_cons_1 in Hp as [Hs _]. pose proof (len_pos s Hs).
  pose proof (len_nonneg (mjoin l1)). pose proof (len_nonneg (mjoin l2)). lia.
Qed.

(** Reading inside a segment reads the corresponding part of its bytes. *)
Lemma seg_rep_read f m a s p q r :
  seg_rep f m -> m !! a = Some s -> s = p ++ q ++ r ->
  file_read f (a + len p) (len q) = q.
Proof.
  intros [segs Hp -> ->] Ha ->. destruct (seg_map_split _ _ _ _ Hp Ha) as (l1 & l2 & -> & ->).
  rewrite mjoin_split, <- !app_assoc, (app_assoc (mjoin l1) p).
  rewrite Z.add_0_l, <- (len_app (mjoin l1) p). by apply file_read_mid.
Qed.

Lemma seg_rep_read_all f m a s :
  seg_rep f m -> m !! a = Some s -> file_read f a (len s) = s.
Proof.
  intros Hr Ha. rewrite <- (Z.add_0_r a). apply (seg_rep_read f m a s [] s []); try done.
  simpl. by rewrite app_nil_r.
Qed.

(** ** Overwriting in place and appending *)

Lemma seg_rep_write f m a s p q r q' :
  seg_rep f m -> m !! a = Some s -> s = p ++ q ++ r -> length q' = length q ->
  seg_rep (file_write f (a + len p) q') (<[a := p ++ q' ++ r]> m) /\
  len (file_write f (a + len p) q') = len f.
Proof.
  intros [segs Hp -> ->] Ha -> Hl.
  destruct (seg_map_split _ _ _ _ Hp Ha) as (l1 & l2 & -> & ->).
  assert (E : file_write (mjoin (l1 ++ (p ++ q ++ r) :: l2)) (0 + len (mjoin l1) + len p) q'
              = mjoin (l1 ++ (p ++ q' ++ r) :: l2)).
  { rewrite !mjoin_split, <- !app_assoc, !(app_assoc (mjoin l1) p).
    rewrite Z.add_0_l, <- (len_app (mjoin l1) p). by apply file_write_mid. }
  rewrite E. split.
  - exists (l1 ++ (p ++ q' ++ r) :: l2); [|done|].
    + apply Forall_app in Hp as [H1 H2]. apply Forall_cons_1 in H2 as [H2 H3].
      apply Forall_app. split; [done|]. constructor; [|done].
      intros E'. apply (f_equal length) in E'. apply H2, nil_length_inv.
      rewrite !length_app in *. simpl in *. lia.
    + symmetry. rewrite <- (seg_map_update 0 l1 (p ++ q ++ r)); [done|done|].
      rewrite !length_app. lia.
  - rewrite !mjoin_split, !len_app. unfold len. rewrite Hl. lia.
Qed.

Lemma seg_rep_append f m s :
  seg_rep f m -> s <> [] -> seg_rep (f ++ s) (<[len f := s]> m) /\ m !! len f = None.
Proof.
  intros [segs Hp -> ->] Hs. split; [|apply seg_map_above; [done|lia]].
  exists (segs ++ [s]).
  - apply Forall_app. split; [done|]. by constructor.
  - rewrite mjoin_split. simpl. by rewrite app_nil_r.
  - rewrite seg_map_app by (apply Forall_app; split; [done|by constructor]). simpl.
    rewrite Z.add_0_l. rewrite <- insert_union_r by (apply seg_map_above; [done|lia]).
    by rewrite map_union_empty.
Qed.

(** ** The end of a segment is the end of the file or the start of the next one *)

Lemma seg_rep_next f m a s :
  seg_rep f m -> m !! a = Some s ->
  a + len s = len f \/ is_Some (m !! (a + len s)).
Proof.
  intros [segs Hp -> ->] Ha. destruct (seg_map_split _ _ _ _ Hp Ha) as (l1 & l2 & -> & ->).
  destruct l2 as [|t l2].
  - left. rewrite mjoin_split, !len_app. simpl. len_solve.
  - right. exists t. replace (l1 ++ s :: t :: l2) with ((l1 ++ [s]) ++ t :: l2) in *
      by (by rewrite <- app_assoc).
    replace (0 + len (mjoin l1) + len s) with (0 + len (mjoin (l1 ++ [s]))).
    + by apply seg_map_at.
    + rewrite mjoin_split, !len_app. simpl. len_solve.
Qed.

(** Two segments do not overlap. *)
Lemma seg_rep_disjoint f m a b s t :
  seg_rep f m -> m !! a = Some s -> m !! b = Some t -> a < b -> a + len s <= b.
Proof.
  intros [segs Hp -> ->] Ha Hb Hlt.
  destruct (seg_map_split _ _ _ _ Hp Ha) as (l1 & l2 & -> & ->).
  destruct (decide (b < 0 + len (mjoin l1) + len s)) as [Hin|]; [|lia]. exfalso.
  replace (l1 ++ s :: l2) with ((l1 ++ [s]) ++ l2) in * by (by rewrite <- app_assoc).
  rewrite seg_map_app in Hb by done.
  apply lookup_union_Some_raw in Hb as [Hb|[_ Hb]].
  - rewrite seg_map_app in Hb by (by apply Forall_app in Hp as [? _]).
    apply lookup_union_Some_raw in Hb as [Hb|[_ Hb]].
    + rewrite seg_map_above in Hb; [done| |lia].
      apply Forall_app in Hp as [Hp _]. by apply Forall_app in Hp as [? _].
    + simpl in Hb. apply lookup_insert_Some in Hb as [[? _]|[_ Hb]]; [lia|done].
  - rewrite seg_map_below in Hb; [done|by apply Forall_app in Hp as [_ ?]|].
    rewrite mjoin_split, !len_app. simpl. len_solve.
Qed.
