(* ===== verification/DbModel.v ===== *)
(** * The database library of apue.3e/db/db.c

    One definition per C function, over a state that pairs the kernel with the [DB]
    structure behind the handle.  The two malloc'ed record buffers are byte arrays of
    their C sizes and a store outside them is undefined behaviour.  Allocation always
    succeeds. *)

From stdpp Require Import base list gmap strings numbers.
From Stdlib Require Import Strings.Byte ZArith Lia.
From S2P Require Import Prelude Libc Posix.

(** ** Constants *)

Definition IDXLEN_SZ : Z := 4.
Definition SEP : byte := ":"%byte.
Definition SPACE : byte := " "%byte.
Definition NEWLINE : byte := x0a.
Definition PTR_SZ : Z := 7.
Definition PTR_MAX : Z := 9999999.
Definition NHASH_DEF : Z := 137.
Definition FREE_OFF : Z := 0.
Definition HASH_OFF : Z := PTR_SZ.

Definition DB_INSERT : Z := 1.
Definition DB_REPLACE : Z := 2.
Definition DB_STORE : Z := 3.
Definition IDXLEN_MIN : Z := 6.
Definition IDXLEN_MAX : Z := 1024.
Definition DATLEN_MIN : Z := 2.
Definition DATLEN_MAX : Z := 1024.

(** ** The DB structure *)

Record counts := Counts {
  cnt_delok : Z; cnt_delerr : Z; cnt_fetchok : Z; cnt_fetcherr : Z; cnt_nextrec : Z;
  cnt_stor1 : Z; cnt_stor2 : Z; cnt_stor3 : Z; cnt_stor4 : Z; cnt_storerr : Z
}.

Record DB := MkDB {
  idxfd : Z; datfd : Z;
  idxbuf : bytes; datbuf : bytes; dbname : bytes;
  idxoff : Z; idxlen : Z; datoff : Z; datlen : Z;
  ptrval : Z; ptroff : Z; chainoff : Z; hashoff : Z; nhash : Z;
  cnt : counts
}.

Definition set_idxfd v d := MkDB v (datfd d) (idxbuf d) (datbuf d) (dbname d) (idxoff d)
  (idxlen d) (datoff d) (datlen d) (ptrval d) (ptroff d) (chainoff d) (hashoff d) (nhash d) (cnt d).
Definition set_datfd v d := MkDB (idxfd d) v (idxbuf d) (datbuf d) (dbname d) (idxoff d)
  (idxlen d) (datoff d) (datlen d) (ptrval d) (ptroff d) (chainoff d) (hashoff d) (nhash d) (cnt d).
Definition set_idxbuf v d := MkDB (idxfd d) (datfd d) v (datbuf d) (dbname d) (idxoff d)
  (idxlen d) (datoff d) (datlen d) (ptrval d) (ptroff d) (chainoff d) (hashoff d) (nhash d) (cnt d).
Definition set_datbuf v d := MkDB (idxfd d) (datfd d) (idxbuf d) v (dbname d) (idxoff d)
  (idxlen d) (datoff d) (datlen d) (ptrval d) (ptroff d) (chainoff d) (hashoff d) (nhash d) (cnt d).
Definition set_dbname v d := MkDB (idxfd d) (datfd d) (idxbuf d) (datbuf d) v (idxoff d)
  (idxlen d) (datoff d) (datlen d) (ptrval d) (ptroff d) (chainoff d) (hashoff d) (nhash d) (cnt d).
Definition set_idxoff v d := MkDB (idxfd d) (datfd d) (idxbuf d) (datbuf d) (dbname d) v
  (idxlen d) (datoff d) (datlen d) (ptrval d) (ptroff d) (chainoff d) (hashoff d) (nhash d) (cnt d).
Definition set_idxlen v d := MkDB (idxfd d) (datfd d) (idxbuf d) (datbuf d) (dbname d) (idxoff d)
  v (datoff d) (datlen d) (ptrval d) (ptroff d) (chainoff d) (hashoff d) (nhash d) (cnt d).
Definition set_datoff v d := MkDB (idxfd d) (datfd d) (idxbuf d) (datbuf d) (dbname d) (idxoff d)
  (idxlen d) v (datlen d) (ptrval d) (ptroff d) (chainoff d) (hashoff d) (nhash d) (cnt d).
Definition set_datlen v d := MkDB (idxfd d) (datfd d) (idxbuf d) (datbuf d) (dbname d) (idxoff d)
  (idxlen d) (datoff d) v (ptrval d) (ptroff d) (chainoff d) (hashoff d) (nhash d) (cnt d).
Definition set_ptrval v d := MkDB (idxfd d) (datfd d) (idxbuf d) (datbuf d) (dbname d) (idxoff d)
  (idxlen d) (datoff d) (datlen d) v (ptroff d) (chainoff d) (hashoff d) (nhash d) (cnt d).
Definition set_ptroff v d := MkDB (idxfd d) (datfd d) (idxbuf d) (datbuf d) (dbname d) (idxoff d)
  (idxlen d) (datoff d) (datlen d) (ptrval d) v (chainoff d) (hashoff d) (nhash d) (cnt d).
Definition set_chainoff v d := MkDB (idxfd d) (datfd d) (idxbuf d) (datbuf d) (dbname d) (idxoff d)
  (idxlen d) (datoff d) (datlen d) (ptrval d) (ptroff d) v (hashoff d) (nhash d) (cnt d).
Definition set_hashoff v d := MkDB (idxfd d) (datfd d) (idxbuf d) (datbuf d) (dbname d) (idxoff d)
  (idxlen d) (datoff d) (datlen d) (ptrval d) (ptroff d) (chainoff d) v (nhash d) (cnt d).
Definition set_nhash v d := MkDB (idxfd d) (datfd d) (idxbuf d) (datbuf d) (dbname d) (idxoff d)
  (idxlen d) (datoff d) (datlen d) (ptrval d) (ptroff d) (chainoff d) (hashoff d) v (cnt d).
Definition set_cnt v d := MkDB (idxfd d) (datfd d) (idxbuf d) (datbuf d) (dbname d) (idxoff d)
  (idxlen d) (datoff d) (datlen d) (ptrval d) (ptroff d) (chainoff d) (hashoff d) (nhash d) v.

(** The counters are [unsigned long]. *)
Inductive counter := Delok | Delerr | Fetchok | Fetcherr | Nextrec
                   | Stor1 | Stor2 | Stor3 | Stor4 | Storerr.

Definition bump (c : counter) (n : counts) : counts :=
  let '(Counts a b c' d e f g h i j) := n in
  let up x := u64 (x + 1) in
  match c with
  | Delok => Counts (up a) b c' d e f g h i j
  | Delerr => Counts a (up b) c' d e f g h i j
  | Fetchok => Counts a b (up c') d e f g h i j
  | Fetcherr => Counts a b c' (up d) e f g h i j
  | Nextrec => Counts a b c' d (up e) f g h i j
  | Stor1 => Counts a b c' d e (up f) g h i j
  | Stor2 => Counts a b c' d e f (up g) h i j
  | Stor3 => Counts a b c' d e f g (up h) i j
  | Stor4 => Counts a b c' d e f g h (up i) j
  | Storerr => Counts a b c' d e f g h i (up j)
  end.

(** ** State and primitive steps *)

Record St := MkSt { st_k : kernel; st_db : DB }.

Definition field {A} (f : DB -> A) : M St A := gets (fun s => f (st_db s)).
Definition setf (f : DB -> DB) : M St unit := modst (fun s => MkSt (st_k s) (f (st_db s))).
Definition count (c : counter) : M St unit := setf (fun d => set_cnt (bump c (cnt d)) d).
Definition sys {A} (f : kernel -> A * kernel) : M St A := fun s =>
  let '(a, k) := f (st_k s) in Ret a (MkSt k (st_db s)).
Definition err_dump {A} (msg : string) : M St A := die (DDump msg).
Definition err_quit {A} (msg : string) : M St A := die (DQuit msg).

(** Storing [d] from position [o] of an array. *)
Definition buf_put (o : nat) (d b : bytes) : option bytes :=
  if decide (o + length d <= length b)%nat then Some (splice o d b) else None.

Definition put_idxbuf (o : nat) (d : bytes) : M St unit :=
  b <- field idxbuf ;;
  match buf_put o d b with
  | Some b' => setf (set_idxbuf b')
  | None => undef "store outside idxbuf"
  end.

Definition put_datbuf (o : nat) (d : bytes) : M St unit :=
  b <- field datbuf ;;
  match buf_put o d b with
  | Some b' => setf (set_datbuf b')
  | None => undef "store outside datbuf"
  end.

(** apue.3e/lib/lockreg.c and the macros of apue.h.  A wait that is never granted is a
    computation that does not finish. *)
Definition lock_reg (fd cmd type offset whence ln : Z) : M St Z := fun s =>
  match sys_fcntl_lk fd cmd type offset whence ln (st_k s) with
  | LkOk k => Ret 0 (MkSt k (st_db s))
  | LkErr k => Ret (-1) (MkSt k (st_db s))
  | LkWait => NoFuel
  end.
Definition readw_lock (fd offset whence ln : Z) : M St Z := lock_reg fd F_SETLKW F_RDLCK offset whence ln.
Definition writew_lock (fd offset whence ln : Z) : M St Z := lock_reg fd F_SETLKW F_WRLCK offset whence ln.
Definition un_lock (fd offset whence ln : Z) : M St Z := lock_reg fd F_SETLK F_UNLCK offset whence ln.

(** [if (lock(...) < 0) err_dump(msg);] *)
Definition or_dump (m : M St Z) (msg : string) : M St unit :=
  r <- m ;; if r <? 0 then err_dump msg else ret tt.

(** ** Allocation, opening and closing *)

(** malloc'ed memory is zeroed here; no function reads it before writing it. *)
Definition _db_alloc (namelen : Z) : DB :=
  MkDB (-1) (-1) (replicate (Z.to_nat (IDXLEN_MAX + 2)) NUL)
    (replicate (Z.to_nat (DATLEN_MAX + 2)) NUL) (replicate (Z.to_nat (namelen + 5)) NUL)
    0 0 0 0 0 0 0 0 0 (Counts 0 0 0 0 0 0 0 0 0 0).

Definition _db_free (db : DB) (k : kernel) : kernel :=
  let k1 := if 0 <=? idxfd db then snd (sys_close (idxfd db) k) else k in
  if 0 <=? datfd db then snd (sys_close (datfd db) k1) else k1.

Definition db_close (s : St) : kernel := _db_free (st_db s) (st_k s).

Definition db_rewind : M St unit :=
  n <- field nhash ;;
  fd <- field idxfd ;;
  let offset := (n + 1) * PTR_SZ in
  r <- sys (sys_lseek fd (offset + 1) SEEK_SET) ;;
  setf (set_idxoff r) ;;;
  if r =? -1 then err_dump "db_rewind: lseek error" else ret tt.

(** The initial index file: [NHASH_DEF + 1] zero pointers and a newline. *)
Definition init_hash : bytes :=
  mjoin (replicate (Z.to_nat (NHASH_DEF + 1)) (pad (Z.to_nat PTR_SZ) (dec 0))) ++ [NEWLINE].

Definition db_open_init : M St unit :=
  fd <- field idxfd ;;
  or_dump (writew_lock fd 0 SEEK_SET 0) "db_open: writew_lock error" ;;;
  sz <- sys (sys_fstat_size fd) ;;
  match sz with
  | None => die (DSys "db_open: fstat error")
  | Some size =>
    when (size =? 0)
      (r <- sys (sys_write fd init_hash) ;;
       if r =? len init_hash then ret tt
       else err_dump "db_open: index file init write error")
  end ;;;
  or_dump (un_lock fd 0 SEEK_SET 0) "db_open: un_lock error".

(** The result is the new handle's state, or NULL with the kernel alone.  The mode
    argument of [open] does not matter in a kernel without permissions. *)
Definition db_open (pathname : bytes) (oflag : Z) (k : kernel) : result kernel (option DB) :=
  let db := set_hashoff HASH_OFF (set_nhash NHASH_DEF (_db_alloc (len pathname))) in
  let idxname := pathname ++ bs ".idx" in
  let datname := pathname ++ bs ".dat" in
  let '(ifd, k1) := sys_open idxname oflag k in
  let '(dfd, k2) := sys_open datname oflag k1 in
  let db := set_datfd dfd (set_idxfd ifd (set_dbname (datname ++ [NUL]) db)) in
  if (ifd <? 0) || (dfd <? 0) then Ret None (_db_free db k2)
  else
    let body : M St unit :=
      when (Z.land oflag (Z.lor O_CREAT O_TRUNC) =? Z.lor O_CREAT O_TRUNC) db_open_init ;;;
      db_rewind in
    match body (MkSt k2 db) with
    | Ret _ s => Ret (Some (st_db s)) (st_k s)
    | Die d s => Die d (st_k s)
    | Undef w => Undef w
    | NoFuel => NoFuel
    end.

(** ** Reading index and data records *)

(** [c * i] is an [int] product of a signed char, added to an [unsigned long]. *)
Fixpoint hash_loop (hval i : Z) (key : bytes) : Z :=
  match key with
  | [] => hval
  | c :: key' => hash_loop (u64 (hval + sc c * i)) (i + 1) key'
  end.

Definition _db_hash (db : DB) (key : bytes) : Z := hash_loop 0 1 key mod nhash db.

Definition _db_readptr (offset : Z) : M St Z :=
  fd <- field idxfd ;;
  r <- sys (sys_lseek fd offset SEEK_SET) ;;
  if r =? -1 then err_dump "_db_readptr: lseek error to ptr field"
  else
    d <- sys (sys_read fd PTR_SZ) ;;
    match d with
    | Some asciiptr =>
      if len asciiptr =? PTR_SZ then ret (atol asciiptr)
      else err_dump "_db_readptr: read error of ptr field"
    | None => err_dump "_db_readptr: read error of ptr field"
    end.

(** Splitting the record in [idxbuf] at its two separators; each becomes a NUL. *)
Definition split_idx : M St unit :=
  b <- field idxbuf ;;
  match strchr (cstr b) SEP with
  | None => err_dump "_db_readidx: missing first separator"
  | Some p1 =>
    put_idxbuf p1 [NUL] ;;;
    b <- field idxbuf ;;
    let ptr1 := S p1 in
    match strchr (cstr (drop ptr1 b)) SEP with
    | None => err_dump "_db_readidx: missing second separator"
    | Some q =>
      put_idxbuf (ptr1 + q) [NUL] ;;;
      b <- field idxbuf ;;
      let ptr2 := S (ptr1 + q) in
      match strchr (cstr (drop ptr2 b)) SEP with
      | Some _ => err_dump "_db_readidx: too many separators"
      | None =>
        let off := atol (cstr (drop ptr1 b)) in
        setf (set_datoff off) ;;;
        if off <? 0 then err_dump "_db_readidx: starting offset < 0"
        else
          let l := u64 (atol (cstr (drop ptr2 b))) in
          setf (set_datlen l) ;;;
          if (l <=? 0) || (DATLEN_MAX <? l) then err_dump "_db_readidx: invalid length"
          else ret tt
      end
    end
  end.

(** Returns -1 at the end of the file (for [db_nextrec]), else the chain pointer. *)
Definition _db_readidx (offset : Z) : M St Z :=
  fd <- field idxfd ;;
  r <- sys (sys_lseek fd offset (if offset =? 0 then SEEK_CUR else SEEK_SET)) ;;
  setf (set_idxoff r) ;;;
  if r =? -1 then err_dump "_db_readidx: lseek error"
  else
    d <- sys (sys_read fd (PTR_SZ + IDXLEN_SZ)) ;;
    match d with
    | None => err_dump "_db_readidx: readv error of index record"
    | Some hd =>
      if negb (len hd =? PTR_SZ + IDXLEN_SZ) then
        (if (len hd =? 0) && (offset =? 0) then ret (-1)
         else err_dump "_db_readidx: readv error of index record")
      else
        let asciiptr := take (Z.to_nat PTR_SZ) hd in
        let asciilen := drop (Z.to_nat PTR_SZ) hd in
        setf (set_ptrval (atol asciiptr)) ;;;
        let l := u64 (atoi asciilen) in
        setf (set_idxlen l) ;;;
        if (l <? IDXLEN_MIN) || (IDXLEN_MAX <? l) then err_dump "_db_readidx: invalid length"
        else
          d <- sys (sys_read fd l) ;;
          match d with
          | None => err_dump "_db_readidx: read error of index record"
          | Some body =>
            put_idxbuf 0 body ;;;
            if negb (len body =? l) then err_dump "_db_readidx: read error of index record"
            else
              b <- field idxbuf ;;
              if negb (bool_decide (b !! Z.to_nat (l - 1) = Some NEWLINE))
              then err_dump "_db_readidx: missing newline"
              else
                put_idxbuf (Z.to_nat (l - 1)) [NUL] ;;;
                split_idx ;;;
                field ptrval
          end
    end.

Definition _db_readdat : M St bytes :=
  fd <- field datfd ;;
  o <- field datoff ;;
  r <- sys (sys_lseek fd o SEEK_SET) ;;
  if r =? -1 then err_dump "_db_readdat: lseek error"
  else
    l <- field datlen ;;
    d <- sys (sys_read fd l) ;;
    match d with
    | None => err_dump "_db_readdat: read error"
    | Some rec =>
      put_datbuf 0 rec ;;;
      if negb (len rec =? l) then err_dump "_db_readdat: read error"
      else
        b <- field datbuf ;;
        if negb (bool_decide (b !! Z.to_nat (l - 1) = Some NEWLINE))
        then err_dump "_db_readdat: missing newline"
        else
          put_datbuf (Z.to_nat (l - 1)) [NUL] ;;;
          b <- field datbuf ;;
          ret (cstr b)
    end.

(** ** Finding a record *)

(** A chain with no cycle has fewer records than the index file has bytes, so this fuel
    runs out only on a cyclic chain, where the C loop does not end either. *)
Definition idx_fuel (s : St) : nat :=
  match k_fds (st_k s) !! idxfd (st_db s) with
  | Some o => S (length (contents (st_k s) (o_ino o)))
  | None => 1
  end.

(** The loop of [_db_find_and_lock] from [offset]; returns its final offset. *)
Fixpoint find_loop (fuel : nat) (key : bytes) (offset : Z) : M St Z :=
  if offset =? 0 then ret 0
  else
    match fuel with
    | O => fun _ => NoFuel
    | S f =>
      nextoffset <- _db_readidx offset ;;
      b <- field idxbuf ;;
      if strcmp (cstr b) key =? 0 then ret offset
      else
        setf (set_ptroff offset) ;;;
        find_loop f key nextoffset
    end.

Definition _db_find_and_lock (key : bytes) (writelock : bool) : M St Z :=
  s <- getst ;;
  let db := st_db s in
  let chain := _db_hash db key * PTR_SZ + hashoff db in
  setf (set_chainoff chain) ;;;
  setf (set_ptroff chain) ;;;
  (if writelock
   then or_dump (writew_lock (idxfd db) chain SEEK_SET 1) "_db_find_and_lock: writew_lock error"
   else or_dump (readw_lock (idxfd db) chain SEEK_SET 1) "_db_find_and_lock: readw_lock error") ;;;
  offset <- _db_readptr chain ;;
  offset <- find_loop (idx_fuel s) key offset ;;
  ret (if offset =? 0 then -1 else 0).

Definition unlock_chain (msg : string) : M St unit :=
  fd <- field idxfd ;;
  c <- field chainoff ;;
  or_dump (un_lock fd c SEEK_SET 1) msg.

Definition db_fetch (key : bytes) : M St (option bytes) :=
  r <- _db_find_and_lock key false ;;
  p <- (if r <? 0 then count Fetcherr ;;; ret None
        else d <- _db_readdat ;; count Fetchok ;;; ret (Some d)) ;;
  unlock_chain "db_fetch: un_lock error" ;;;
  ret p.

(** ** Writing records *)

Definition _db_writedat (data : bytes) (offset whence : Z) : M St unit :=
  fd <- field datfd ;;
  when (whence =? SEEK_END)
    (or_dump (writew_lock fd 0 SEEK_SET 0) "_db_writedat: writew_lock error") ;;;
  r <- sys (sys_lseek fd offset whence) ;;
  setf (set_datoff r) ;;;
  if r =? -1 then err_dump "_db_writedat: lseek error"
  else
    let l := len data + 1 in
    setf (set_datlen l) ;;;
    n <- sys (sys_write fd (data ++ [NEWLINE])) ;;
    if negb (n =? l) then err_dump "_db_writedat: writev error of data record"
    else
      when (whence =? SEEK_END)
        (or_dump (un_lock fd 0 SEEK_SET 0) "_db_writedat: un_lock error").

Definition idx_body (key : bytes) (off ln : Z) : bytes :=
  key ++ [SEP] ++ dec off ++ [SEP] ++ dec ln ++ [NEWLINE].

(** The record is formatted into [idxbuf] before its length is checked. *)
Definition _db_writeidx (key : bytes) (offset whence ptr : Z) : M St unit :=
  setf (set_ptrval ptr) ;;;
  if (ptr <? 0) || (PTR_MAX <? ptr) then err_quit "_db_writeidx: invalid ptr"
  else
    off <- field datoff ;;
    dl <- field datlen ;;
    let body := idx_body key off dl in
    put_idxbuf 0 (body ++ [NUL]) ;;;
    let l := len body in
    if (l <? IDXLEN_MIN) || (IDXLEN_MAX <? l) then err_dump "_db_writeidx: invalid length"
    else
      let asciiptrlen := pad (Z.to_nat PTR_SZ) (dec ptr) ++ pad (Z.to_nat IDXLEN_SZ) (dec l) in
      fd <- field idxfd ;;
      n <- field nhash ;;
      let lockoff := (n + 1) * PTR_SZ + 1 in
      when (whence =? SEEK_END)
        (or_dump (writew_lock fd lockoff SEEK_SET 0) "_db_writeidx: writew_lock error") ;;;
      r <- sys (sys_lseek fd offset whence) ;;
      setf (set_idxoff r) ;;;
      if r =? -1 then err_dump "_db_writeidx: lseek error"
      else
        w <- sys (sys_write fd (take (Z.to_nat (PTR_SZ + IDXLEN_SZ)) asciiptrlen ++ body)) ;;
        if negb (w =? PTR_SZ + IDXLEN_SZ + l) then err_dump "_db_writeidx: writev error of index record"
        else
          when (whence =? SEEK_END)
            (or_dump (un_lock fd lockoff SEEK_SET 0) "_db_writeidx: un_lock error").

Definition _db_writeptr (offset ptr : Z) : M St unit :=
  if (ptr <? 0) || (PTR_MAX <? ptr) then err_quit "_db_writeptr: invalid ptr"
  else
    fd <- field idxfd ;;
    r <- sys (sys_lseek fd offset SEEK_SET) ;;
    if r =? -1 then err_dump "_db_writeptr: lseek error to ptr field"
    else
      w <- sys (sys_write fd (take (Z.to_nat PTR_SZ) (pad (Z.to_nat PTR_SZ) (dec ptr)))) ;;
      if negb (w =? PTR_SZ) then err_dump "_db_writeptr: write error of ptr field" else ret tt.

(** ** Deleting *)

(** [_db_writeidx] receives [idxbuf] as its key: the value the buffer has at the call. *)
Definition _db_dodelete : M St unit :=
  dl <- field datlen ;;
  put_datbuf 0 (replicate (Z.to_nat (dl - 1)) SPACE ++ [NUL]) ;;;
  b <- field idxbuf ;;
  put_idxbuf 0 (replicate (length (cstr b)) SPACE) ;;;
  fd <- field idxfd ;;
  or_dump (writew_lock fd FREE_OFF SEEK_SET 1) "_db_dodelete: writew_lock error" ;;;
  db <- field datbuf ;;
  do <- field datoff ;;
  _db_writedat (cstr db) do SEEK_SET ;;;
  freeptr <- _db_readptr FREE_OFF ;;
  saveptr <- field ptrval ;;
  ib <- field idxbuf ;;
  io <- field idxoff ;;
  _db_writeidx (cstr ib) io SEEK_SET freeptr ;;;
  io <- field idxoff ;;
  _db_writeptr FREE_OFF io ;;;
  po <- field ptroff ;;
  _db_writeptr po saveptr ;;;
  or_dump (un_lock fd FREE_OFF SEEK_SET 1) "_db_dodelete: un_lock error".

Definition db_delete (key : bytes) : M St Z :=
  r <- _db_find_and_lock key true ;;
  rc <- (if r =? 0 then _db_dodelete ;;; count Delok ;;; ret 0
         else count Delerr ;;; ret (-1)) ;;
  unlock_chain "db_delete: un_lock error" ;;;
  ret rc.

(** ** Storing *)

(** The loop of [_db_findfree]: the final offset and the chain pointer that led to it. *)
Fixpoint free_loop (fuel : nat) (keylen dlen saveoffset offset : Z) : M St (Z * Z) :=
  if offset =? 0 then ret (saveoffset, 0)
  else
    match fuel with
    | O => fun _ => NoFuel
    | S f =>
      nextoffset <- _db_readidx offset ;;
      b <- field idxbuf ;;
      dl <- field datlen ;;
      if (strlen b =? keylen) && (dl =? dlen) then ret (saveoffset, offset)
      else free_loop f keylen dlen offset nextoffset
    end.

Definition _db_findfree (keylen dlen : Z) : M St Z :=
  s <- getst ;;
  let fd := idxfd (st_db s) in
  or_dump (writew_lock fd FREE_OFF SEEK_SET 1) "_db_findfree: writew_lock error" ;;;
  offset <- _db_readptr FREE_OFF ;;
  so <- free_loop (idx_fuel s) keylen dlen FREE_OFF offset ;;
  let '(saveoffset, offset) := so in
  rc <- (if offset =? 0 then ret (-1)
         else p <- field ptrval ;; _db_writeptr saveoffset p ;;; ret 0) ;;
  or_dump (un_lock fd FREE_OFF SEEK_SET 1) "_db_findfree: un_lock error" ;;;
  ret rc.

(** [_db_writeptr(db, db->chainoff, db->idxoff)] *)
Definition link_front : M St unit :=
  c <- field chainoff ;; io <- field idxoff ;; _db_writeptr c io.

(** The record-not-found branch of [db_store]. *)
Definition store_new (key data : bytes) : M St unit :=
  c <- field chainoff ;;
  ptr <- _db_readptr c ;;
  f <- _db_findfree (len key) (len data + 1) ;;
  if f <? 0 then
    _db_writedat data 0 SEEK_END ;;;
    _db_writeidx key 0 SEEK_END ptr ;;;
    link_front ;;;
    count Stor1
  else
    do <- field datoff ;;
    _db_writedat data do SEEK_SET ;;;
    io <- field idxoff ;;
    _db_writeidx key io SEEK_SET ptr ;;;
    link_front ;;;
    count Stor2.

(** The record-found branch. *)
Definition store_old (key data : bytes) : M St unit :=
  dl <- field datlen ;;
  if negb (len data + 1 =? dl) then
    _db_dodelete ;;;
    c <- field chainoff ;;
    ptr <- _db_readptr c ;;
    _db_writedat data 0 SEEK_END ;;;
    _db_writeidx key 0 SEEK_END ptr ;;;
    link_front ;;;
    count Stor3
  else
    do <- field datoff ;;
    _db_writedat data do SEEK_SET ;;;
    count Stor4.

Definition db_store (key data : bytes) (flag : Z) : M St Z :=
  if negb (flag =? DB_INSERT) && negb (flag =? DB_REPLACE) && negb (flag =? DB_STORE) then
    sys (fun k => (-1, set_errno EINVAL k))
  else
    let dlen := len data + 1 in
    if (dlen <? DATLEN_MIN) || (DATLEN_MAX <? dlen) then err_dump "db_store: invalid data length"
    else
      r <- _db_find_and_lock key true ;;
      rc <- (if r <? 0 then
               if flag =? DB_REPLACE then
                 count Storerr ;;; sys (fun k => (-1, set_errno ENOENT k))
               else store_new key data ;;; ret 0
             else
               if flag =? DB_INSERT then count Storerr ;;; ret 1
               else store_old key data ;;; ret 0) ;;
      unlock_chain "db_store: un_lock error" ;;;
      ret rc.

(** ** Sequential access *)

Definition all_blank (s : bytes) : bool := forallb (fun c => bool_decide (c = SPACE)) s.

(** The do-while loop: [false] at the end of the file, [true] at a non-blank key. *)
Fixpoint next_loop (fuel : nat) : M St bool :=
  match fuel with
  | O => fun _ => NoFuel
  | S f =>
    r <- _db_readidx 0 ;;
    if r <? 0 then ret false
    else
      b <- field idxbuf ;;
      if all_blank (cstr b) then next_loop f else ret true
  end.

(** Returns the data pointer and, when the caller asks for it, the key copied out. *)
Definition db_nextrec (want_key : bool) : M St (option bytes * option bytes) :=
  s <- getst ;;
  let fd := idxfd (st_db s) in
  or_dump (readw_lock fd FREE_OFF SEEK_SET 1) "db_nextrec: readw_lock error" ;;;
  found <- next_loop (idx_fuel s) ;;
  p <- (if negb found then ret (None, None)
        else
          b <- field idxbuf ;;
          let key := if want_key then Some (cstr b) else None in
          d <- _db_readdat ;;
          count Nextrec ;;;
          ret (Some d, key)) ;;
  or_dump (un_lock fd FREE_OFF SEEK_SET 1) "db_nextrec: un_lock error" ;;;
  ret p.
