(* ===== verification/DbDisk.v ===== *)
(** * The database's primitive accesses, run on well-formed files

    [st E db idx dat io do lk er] is the state of a process that has the index file
    (contents [idx], offset [io]) and the data file ([dat], [do]) of a database open
    under the handle [db]; [E] is the rest of the kernel.  The lemmas run each primitive
    of DbModel on such a state and say which bytes it reads or writes. *)

From stdpp Require Import base list gmap strings numbers.
From Stdlib Require Import Strings.Byte ZArith Lia.
From S2P Require Import Prelude Libc Posix SegFile DbModel.

(** ** States *)

Record env := Env {
  e_dir : gmap bytes Z; e_files : gmap Z bytes; e_next : Z; e_fds : gmap Z ofd;
  e_others : list rlock; e_ifd : Z; e_dfd : Z; e_ino : Z; e_dno : Z
}.

(** The two descriptors name different files and no other process locks them. *)
Record env_ok (E : env) : Prop := EnvOk {
  env_fd : e_ifd E <> e_dfd E;
  env_ino : e_ino E <> e_dno E;
  env_fd0 : 0 <= e_ifd E /\ 0 <= e_dfd E;
  env_others : Forall (fun l => l_ino l <> e_ino E /\ l_ino l <> e_dno E) (e_others E)
}.

Definition kst (E : env) (idx dat : bytes) (io do : Z) (lk : list rlock) (er : Z) : kernel :=
  Kernel (e_dir E) (<[e_ino E := idx]> (<[e_dno E := dat]> (e_files E))) (e_next E)
    (<[e_ifd E := Ofd (e_ino E) io true true false]>
       (<[e_dfd E := Ofd (e_dno E) do true true false]> (e_fds E)))
    lk (e_others E) er.
#[global] Arguments kst : simpl never.

Definition st (E : env) (db : DB) (idx dat : bytes) (io do : Z) (lk : list rlock) (er : Z) : St :=
  MkSt (kst E idx dat io do lk er) db.

(** The handle names the two descriptors, has the default table and full-size buffers. *)
Record db_ok (E : env) (db : DB) : Prop := DbOk {
  db_ifd : idxfd db = e_ifd E;
  db_dfd : datfd db = e_dfd E;
  db_nhash : nhash db = NHASH_DEF;
  db_hashoff : hashoff db = HASH_OFF;
  db_ibuf : length (idxbuf db) = Z.to_nat (IDXLEN_MAX + 2);
  db_dbuf : length (datbuf db) = Z.to_nat (DATLEN_MAX + 2)
}.

(** ** Running binds *)

Lemma bind_assoc {S A B C} (m : M S A) (f : A -> M S B) (g : B -> M S C) s :
  bind (bind m f) g s = bind m (fun a => bind (f a) g) s.
Proof. unfold bind. destruct (m s); done. Qed.

Lemma bind_ret_l {S A B} (a : A) (f : A -> M S B) s : bind (ret a) f s = f a s.
Proof. done. Qed.

Lemma bind_getst {S B} (f : S -> M S B) s : bind getst f s = f s s.
Proof. done. Qed.

Section runs.
Context (E : env) (HE : env_ok E).
Implicit Types (db : DB) (idx dat : bytes) (io do er : Z) (lk : list rlock).

Lemma bind_field {A B} (f : DB -> A) (g : A -> M St B) db idx dat io do lk er :
  bind (field f) g (st E db idx dat io do lk er) = g (f db) (st E db idx dat io do lk er).
Proof. done. Qed.

Lemma bind_setf {B} (h : DB -> DB) (g : unit -> M St B) db idx dat io do lk er :
  bind (setf h) g (st E db idx dat io do lk er) = g tt (st E (h db) idx dat io do lk er).
Proof. done. Qed.

Lemma bind_count {B} c (g : unit -> M St B) db idx dat io do lk er :
  bind (count c) g (st E db idx dat io do lk er) =
  g tt (st E (set_cnt (bump c (cnt db)) db) idx dat io do lk er).
Proof. done. Qed.

(** ** Descriptors and files *)

Lemma kst_ifd idx dat io do lk er :
  k_fds (kst E idx dat io do lk er) !! e_ifd E = Some (Ofd (e_ino E) io true true false).
Proof. apply lookup_insert_eq. Qed.

Lemma kst_dfd idx dat io do lk er :
  k_fds (kst E idx dat io do lk er) !! e_dfd E = Some (Ofd (e_dno E) do true true false).
Proof.
  destruct HE. unfold kst. simpl. rewrite lookup_insert_ne by done. apply lookup_insert_eq.
Qed.

Lemma kst_idx idx dat io do lk er : contents (kst E idx dat io do lk er) (e_ino E) = idx.
Proof. unfold contents, kst. simpl. by rewrite lookup_insert_eq. Qed.

Lemma kst_dat idx dat io do lk er : contents (kst E idx dat io do lk er) (e_dno E) = dat.
Proof.
  destruct HE. unfold contents, kst. simpl. rewrite lookup_insert_ne by done.
  by rewrite lookup_insert_eq.
Qed.

Lemma kst_set_io idx dat io do lk er io' :
  set_fds (<[e_ifd E := Ofd (e_ino E) io' true true false]> (k_fds (kst E idx dat io do lk er)))
    (kst E idx dat io do lk er) = kst E idx dat io' do lk er.
Proof. unfold set_fds, kst; simpl. by rewrite insert_insert_eq. Qed.

Lemma kst_set_do idx dat io do lk er do' :
  set_fds (<[e_dfd E := Ofd (e_dno E) do' true true false]> (k_fds (kst E idx dat io do lk er)))
    (kst E idx dat io do lk er) = kst E idx dat io do' lk er.
Proof.
  destruct HE. unfold set_fds, kst; simpl.
  by rewrite (insert_insert_ne _ (e_dfd E)), insert_insert_eq by done.
Qed.

Lemma kst_set_idx idx dat io do lk er idx' :
  set_files (<[e_ino E := idx']> (k_files (kst E idx dat io do lk er)))
    (kst E idx dat io do lk er) = kst E idx' dat io do lk er.
Proof. unfold set_files, kst; simpl. by rewrite insert_insert_eq. Qed.

Lemma kst_set_dat idx dat io do lk er dat' :
  set_files (<[e_dno E := dat']> (k_files (kst E idx dat io do lk er)))
    (kst E idx dat io do lk er) = kst E idx dat' io do lk er.
Proof.
  destruct HE. unfold set_files, kst; simpl.
  by rewrite (insert_insert_ne _ (e_dno E)), insert_insert_eq by done.
Qed.

Lemma lseek_set_idx db off idx dat io do lk er :
  0 <= off ->
  sys (sys_lseek (e_ifd E) off SEEK_SET) (st E db idx dat io do lk er) =
  Ret off (st E db idx dat off do lk er).
Proof.
  intros H. unfold sys, st, st_k. rewrite (sys_lseek_set _ _ _ (kst_ifd _ _ _ _ _ _)) by done.
  unfold set_off, o_ino, o_rd, o_wr, o_app. by rewrite kst_set_io.
Qed.

Lemma lseek_cur_idx db idx dat io do lk er :
  0 <= io ->
  sys (sys_lseek (e_ifd E) 0 SEEK_CUR) (st E db idx dat io do lk er) =
  Ret io (st E db idx dat io do lk er).
Proof.
  intros H. unfold sys, st, st_k. rewrite (sys_lseek_cur _ _ _ (kst_ifd _ _ _ _ _ _)) by done.
  unfold set_off, o_ino, o_rd, o_wr, o_app, o_off. by rewrite kst_set_io.
Qed.

Lemma lseek_end_idx db idx dat io do lk er :
  sys (sys_lseek (e_ifd E) 0 SEEK_END) (st E db idx dat io do lk er) =
  Ret (len idx) (st E db idx dat (len idx) do lk er).
Proof.
  unfold sys, st, st_k. rewrite (sys_lseek_end _ _ _ (kst_ifd _ _ _ _ _ _)).
  unfold set_off, o_ino, o_rd, o_wr, o_app. by rewrite kst_idx, kst_set_io.
Qed.

Lemma lseek_set_dat db off idx dat io do lk er :
  0 <= off ->
  sys (sys_lseek (e_dfd E) off SEEK_SET) (st E db idx dat io do lk er) =
  Ret off (st E db idx dat io off lk er).
Proof.
  intros H. unfold sys, st, st_k. rewrite (sys_lseek_set _ _ _ (kst_dfd _ _ _ _ _ _)) by done.
  unfold set_off, o_ino, o_rd, o_wr, o_app. by rewrite kst_set_do.
Qed.

Lemma lseek_end_dat db idx dat io do lk er :
  sys (sys_lseek (e_dfd E) 0 SEEK_END) (st E db idx dat io do lk er) =
  Ret (len dat) (st E db idx dat io (len dat) lk er).
Proof.
  unfold sys, st, st_k. rewrite (sys_lseek_end _ _ _ (kst_dfd _ _ _ _ _ _)).
  unfold set_off, o_ino, o_rd, o_wr, o_app. by rewrite kst_dat, kst_set_do.
Qed.

Lemma read_idx db n d idx dat io do lk er :
  file_read idx io n = d ->
  sys (sys_read (e_ifd E) n) (st E db idx dat io do lk er) =
  Ret (Some d) (st E db idx dat (io + len d) do lk er).
Proof.
  intros <-. unfold sys, st, st_k. rewrite (sys_read_ok _ _ _ (kst_ifd _ _ _ _ _ _)) by done.
  unfold set_off, o_ino, o_rd, o_wr, o_app, o_off. by rewrite kst_idx, kst_set_io.
Qed.

Lemma read_dat db n d idx dat io do lk er :
  file_read dat do n = d ->
  sys (sys_read (e_dfd E) n) (st E db idx dat io do lk er) =
  Ret (Some d) (st E db idx dat io (do + len d) lk er).
Proof.
  intros <-. unfold sys, st, st_k. rewrite (sys_read_ok _ _ _ (kst_dfd _ _ _ _ _ _)) by done.
  unfold set_off, o_ino, o_rd, o_wr, o_app, o_off. by rewrite kst_dat, kst_set_do.
Qed.

Lemma write_idx db d idx dat io do lk er :
  sys (sys_write (e_ifd E) d) (st E db idx dat io do lk er) =
  Ret (len d) (st E db (file_write idx io d) dat (io + len d) do lk er).
Proof.
  unfold sys, st, st_k. rewrite (sys_write_ok _ _ _ (kst_ifd _ _ _ _ _ _)) by done.
  unfold set_off, o_ino, o_rd, o_wr, o_app, o_off. rewrite kst_idx, kst_set_io.
  change (k_files (kst E idx dat io do lk er)) with (k_files (kst E idx dat (io + len d) do lk er)).
  by rewrite kst_set_idx.
Qed.

Lemma write_dat db d idx dat io do lk er :
  sys (sys_write (e_dfd E) d) (st E db idx dat io do lk er) =
  Ret (len d) (st E db idx (file_write dat do d) io (do + len d) lk er).
Proof.
  unfold sys, st, st_k. rewrite (sys_write_ok _ _ _ (kst_dfd _ _ _ _ _ _)) by done.
  unfold set_off, o_ino, o_rd, o_wr, o_app, o_off. rewrite kst_dat, kst_set_do.
  change (k_files (kst E idx dat io do lk er)) with (k_files (kst E idx dat io (do + len d) lk er)).
  by rewrite kst_set_dat.
Qed.

(** ** Record buffers *)

Lemma put_idxbuf_st o d db idx dat io do lk er :
  (o + length d <= length (idxbuf db))%nat ->
  put_idxbuf o d (st E db idx dat io do lk er) =
  Ret tt (st E (set_idxbuf (splice o d (idxbuf db)) db) idx dat io do lk er).
Proof.
  intros H. unfold put_idxbuf. rewrite bind_field. unfold buf_put. by rewrite decide_True.
Qed.

Lemma put_datbuf_st o d db idx dat io do lk er :
  (o + length d <= length (datbuf db))%nat ->
  put_datbuf o d (st E db idx dat io do lk er) =
  Ret tt (st E (set_datbuf (splice o d (datbuf db)) db) idx dat io do lk er).
Proof.
  intros H. unfold put_datbuf. rewrite bind_field. unfold buf_put. by rewrite decide_True.
Qed.

(** ** Locks *)

Definition hi_of (start ln : Z) : option Z := if ln =? 0 then None else Some (start + ln).

Lemma others_idle ino lo hi w :
  ino = e_ino E \/ ino = e_dno E ->
  existsb (fun l => overlaps ino lo hi l && (l_wr l || w)) (e_others E) = false.
Proof.
  intros Hi. destruct HE as [_ _ _ Ho]. induction Ho as [|l ls Hl _ IH]; simpl; [done|].
  rewrite IH. unfold overlaps. destruct (Z.eqb_spec (l_ino l) ino); [|done]. naive_solver.
Qed.

Lemma lock_idx cmd (w : bool) start ln db idx dat io do lk er :
  0 <= start -> 0 <= ln ->
  lock_reg (e_ifd E) cmd (if w then F_WRLCK else F_RDLCK) start SEEK_SET ln
    (st E db idx dat io do lk er) =
  Ret 0 (st E db idx dat io do
    (Rlock (e_ino E) start (hi_of start ln) w :: lk_release (e_ino E) start (hi_of start ln) lk) er).
Proof.
  intros H1 H2. unfold lock_reg, st, st_k.
  rewrite (sys_fcntl_lk_ok _ _ _ (kst_ifd _ _ _ _ _ _)); [done|done|done|].
  apply others_idle. auto.
Qed.

Lemma unlock_idx start ln db idx dat io do lk er :
  0 <= start -> 0 <= ln ->
  un_lock (e_ifd E) start SEEK_SET ln (st E db idx dat io do lk er) =
  Ret 0 (st E db idx dat io do (lk_release (e_ino E) start (hi_of start ln) lk) er).
Proof.
  intros H1 H2. unfold un_lock, lock_reg, st, st_k.
  by rewrite (sys_fcntl_unlk_ok _ _ _ (kst_ifd _ _ _ _ _ _)).
Qed.

Lemma lock_dat cmd (w : bool) start ln db idx dat io do lk er :
  0 <= start -> 0 <= ln ->
  lock_reg (e_dfd E) cmd (if w then F_WRLCK else F_RDLCK) start SEEK_SET ln
    (st E db idx dat io do lk er) =
  Ret 0 (st E db idx dat io do
    (Rlock (e_dno E) start (hi_of start ln) w :: lk_release (e_dno E) start (hi_of start ln) lk) er).
Proof.
  intros H1 H2. unfold lock_reg, st, st_k.
  rewrite (sys_fcntl_lk_ok _ _ _ (kst_dfd _ _ _ _ _ _)); [done|done|done|].
  apply others_idle. auto.
Qed.

Lemma unlock_dat start ln db idx dat io do lk er :
  0 <= start -> 0 <= ln ->
  un_lock (e_dfd E) start SEEK_SET ln (st E db idx dat io do lk er) =
  Ret 0 (st E db idx dat io do (lk_release (e_dno E) start (hi_of start ln) lk) er).
Proof.
  intros H1 H2. unfold un_lock, lock_reg, st, st_k.
  by rewrite (sys_fcntl_unlk_ok _ _ _ (kst_dfd _ _ _ _ _ _)).
Qed.

Lemma or_dump_ok (m : M St Z) msg s s' : m s = Ret 0 s' -> or_dump m msg s = Ret tt s'.
Proof. intros H. unfold or_dump, bind. by rewrite H. Qed.
End runs.
