(* ===== verification/DbRecords.v ===== *)
(** * The record-level accesses of the database

    [disk idx dat P R g] reads the two files as maps: [P] gives the value of every chain
    pointer by its offset in the index file (the free list head, the hash table entries
    and the pointer at the front of each index record), [R] gives the index record at an
    offset, and [g] the data record at an offset of the data file.  The lemmas run the
    read and write functions of db.c as lookups and updates of these maps. *)

From stdpp Require Import base list gmap strings numbers.
From Stdlib Require Import Strings.Byte ZArith Lia.
From S2P Require Import Prelude Libc Posix SegFile DbModel DbDisk.

Record rec := Rec { r_key : bytes; r_off : Z; r_dat : bytes }.

Definition r_body (r : rec) : bytes := idx_body (r_key r) (r_off r) (len (r_dat r) + 1).

Definition ptr_field (p : Z) : bytes := pad 7 (dec p).

(** What follows the chain pointer of the index record. *)
Definition payload (r : rec) : bytes := pad 4 (dec (len (r_body r))) ++ r_body r.

Definition HDR_LAST : Z := 959.
Definition HDR_END : Z := 967.

(** What follows the chain pointer at offset [a]: a record, or the newline that ends the
    hash table, or nothing. *)
Definition payload_at (R : gmap Z rec) (a : Z) : bytes :=
  match R !! a with
  | Some r => payload r
  | None => if a =? HDR_LAST then [NEWLINE] else []
  end.

Definition key_ok (k : bytes) : Prop := is_cstr k /\ SEP ∉ k.

Record rec_ok (r : rec) : Prop := RecOk {
  ro_key : key_ok (r_key r);
  ro_off : 0 <= r_off r <= LONG_MAX;
  ro_dat : is_cstr (r_dat r);
  ro_len : 1 <= len (r_dat r) <= 1023;
  ro_body : IDXLEN_MIN <= len (r_body r) <= IDXLEN_MAX
}.

Record disk (idx dat : bytes) (P : gmap Z Z) (R : gmap Z rec) (g : gmap Z bytes) : Prop := Disk {
  dk_idx : exists m, seg_rep idx m /\
           forall a, m !! a = (fun p => ptr_field p ++ payload_at R a) <$> P !! a;
  dk_dat : seg_rep dat g;
  dk_ptr : forall a p, P !! a = Some p -> 0 <= p <= PTR_MAX;
  dk_rec : forall a r, R !! a = Some r ->
           rec_ok r /\ is_Some (P !! a) /\ HDR_END <= a /\
           g !! r_off r = Some (r_dat r ++ [NEWLINE]);
  dk_inj : forall a b r r', R !! a = Some r -> R !! b = Some r' -> r_off r = r_off r' -> a = b;
  dk_all : forall a p, P !! a = Some p -> HDR_END <= a -> is_Some (R !! a)
}.

(** ** Arithmetic of the ASCII fields *)

Lemma length_ptr_field p : 0 <= p <= PTR_MAX -> length (ptr_field p) = 7%nat.
Proof. intros H. apply length_pad, length_dec_le; [lia|]. unfold PTR_MAX in H. lia. Qed.

Lemma len_ptr_field p : 0 <= p <= PTR_MAX -> len (ptr_field p) = 7.
Proof. intros. unfold len. rewrite length_ptr_field by done. done. Qed.

Lemma length_len_field n : 0 <= n <= IDXLEN_MAX -> length (pad 4 (dec n)) = 4%nat.
Proof. intros H. apply length_pad, length_dec_le; [lia|]. unfold IDXLEN_MAX in H. lia. Qed.

Lemma atol_ptr_field p : 0 <= p <= PTR_MAX -> atol (ptr_field p) = p.
Proof.
  intros H. unfold ptr_field. rewrite <- (app_nil_r (pad 7 (dec p))).
  apply atol_pad; [unfold PTR_MAX, LONG_MAX in *; lia|done].
Qed.

Lemma atoi_len_field n : 0 <= n <= IDXLEN_MAX -> atoi (pad 4 (dec n)) = n.
Proof.
  intros H. rewrite <- (app_nil_r (pad 4 (dec n))).
  apply atoi_pad; [unfold IDXLEN_MAX in *; lia|done].
Qed.

Lemma len_idx_body k o n :
  len (idx_body k o n) = len k + len (dec o) + len (dec n) + 3.
Proof. unfold idx_body. autorewrite with len. lia. Qed.

Lemma len_payload r : rec_ok r -> len (payload r) = 4 + len (r_body r).
Proof.
  intros [_ _ _ _ H]. unfold payload. rewrite len_app. unfold len at 1.
  rewrite length_len_field by (unfold IDXLEN_MIN in H; lia). lia.
Qed.

(** Same key and data lengths: same record length. *)
Lemma len_r_body_same r k d :
  length k = length (r_key r) -> length d = length (r_dat r) ->
  len (r_body (Rec k (r_off r) d)) = len (r_body r).
Proof.
  intros Hk Hd. unfold r_body. rewrite !len_idx_body. simpl. unfold len. rewrite Hk, Hd. done.
Qed.

Lemma dec_no_sep n : 0 <= n -> SEP ∉ dec n.
Proof.
  intros Hn Hin. pose proof (dec_digits n Hn) as Hd. unfold all_digits in Hd.
  rewrite Forall_forall in Hd. apply list_elem_of_In, Hd in Hin. by vm_compute in Hin.
Qed.

(** ** Reading *)

Ltac dbsimpl := cbn [idxfd datfd idxbuf datbuf dbname idxoff idxlen datoff datlen ptrval ptroff
  chainoff hashoff nhash cnt set_idxfd set_datfd set_idxbuf set_datbuf set_dbname set_idxoff
  set_idxlen set_datoff set_datlen set_ptrval set_ptroff set_chainoff set_hashoff set_nhash set_cnt
  r_key r_off r_dat].

(** One step of a computation on a [st] state. *)
Ltac db_norm := repeat first
  [ rewrite bind_assoc | rewrite bind_field | rewrite bind_setf | rewrite bind_count
  | rewrite bind_ret_l ]; cbv beta; dbsimpl.
Ltac db_lia := unfold PTR_SZ, IDXLEN_SZ, PTR_MAX, IDXLEN_MIN, IDXLEN_MAX, DATLEN_MIN, DATLEN_MAX,
  SEEK_SET, SEEK_CUR, SEEK_END, DB_INSERT, DB_REPLACE, DB_STORE, NHASH_DEF, HASH_OFF, FREE_OFF,
  HDR_END, HDR_LAST, LONG_MAX in *; lia.
Ltac db_if := match goal with
  | |- context [(if ?c then _ else _) (st _ _ _ _ _ _ _ _)] =>
    first [ replace c with true by db_lia | replace c with false by db_lia ]; cbv iota
  | |- context [bind (if ?c then _ else _) _ (st _ _ _ _ _ _ _ _)] =>
    first [ replace c with true by db_lia | replace c with false by db_lia ]; cbv iota
  | |- context [bind (when ?c _) _ (st _ _ _ _ _ _ _ _)] =>
    first [ replace c with true by db_lia | replace c with false by db_lia ];
    unfold when at 1; cbv iota
  | |- context [when ?c _ (st _ _ _ _ _ _ _ _)] =>
    first [ replace c with true by db_lia | replace c with false by db_lia ];
    unfold when at 1; cbv iota
  end.
Ltac db_run H := erewrite bind_ret; [| solve [ eapply H; first [ lia | done | eassumption ] ] ]; cbv beta.

Section reads.
Context (E : env) (HE : env_ok E).
Context (idx dat : bytes) (P : gmap Z Z) (R : gmap Z rec) (g : gmap Z bytes).
Context (HD : disk idx dat P R g).

Lemma disk_bounds a p :
  P !! a = Some p -> 0 <= a /\ a + 7 + len (payload_at R a) <= len idx.
Proof.
  intros Ha. destruct HD as [(m & Hm & Hma) _ Hp _ _ _]. specialize (Hma a).
  rewrite Ha in Hma. simpl in Hma. apply (seg_rep_bounds idx) in Hma as Hb; [|done].
  rewrite len_app, (len_ptr_field p) in Hb by (eapply Hp; done). lia.
Qed.

Lemma disk_read_ptr a p : P !! a = Some p -> file_read idx a 7 = ptr_field p.
Proof.
  intros Ha. destruct HD as [(m & Hm & Hma) _ Hp _ _ _]. specialize (Hma a).
  rewrite Ha in Hma. simpl in Hma.
  rewrite <- (Z.add_0_r a), <- (len_ptr_field p) by (eapply Hp; done).
  by apply (seg_rep_read idx m a _ [] (ptr_field p) (payload_at R a) Hm Hma).
Qed.

Lemma disk_read_head a p r :
  P !! a = Some p -> R !! a = Some r ->
  file_read idx a 11 = ptr_field p ++ pad 4 (dec (len (r_body r))).
Proof.
  intros Ha Hr. destruct HD as [(m & Hm & Hma) _ Hp Hrec _ _]. specialize (Hma a).
  rewrite Ha in Hma. simpl in Hma. unfold payload_at in Hma. rewrite Hr in Hma.
  destruct (Hrec _ _ Hr) as ([_ _ _ _ Hb] & _ & _ & _).
  assert (E1 : 11 = len (ptr_field p ++ pad 4 (dec (len (r_body r))))).
  { rewrite len_app, len_ptr_field by (eapply Hp; done). unfold len at 1.
    rewrite length_len_field; [done|unfold IDXLEN_MIN in Hb; lia]. }
  rewrite <- (Z.add_0_r a), E1.
  apply (seg_rep_read idx m a _ [] _ (r_body r) Hm Hma). simpl. unfold payload.
  by rewrite <- app_assoc.
Qed.

Lemma disk_read_body a p r :
  P !! a = Some p -> R !! a = Some r ->
  file_read idx (a + 11) (len (r_body r)) = r_body r.
Proof.
  intros Ha Hr. destruct HD as [(m & Hm & Hma) _ Hp Hrec _ _]. specialize (Hma a).
  rewrite Ha in Hma. simpl in Hma. unfold payload_at in Hma. rewrite Hr in Hma.
  destruct (Hrec _ _ Hr) as ([_ _ _ _ Hb] & _ & _ & _).
  assert (E1 : 11 = len (ptr_field p ++ pad 4 (dec (len (r_body r))))).
  { rewrite len_app, len_ptr_field by (eapply Hp; done). unfold len at 1.
    rewrite length_len_field; [done|unfold IDXLEN_MIN in Hb; lia]. }
  rewrite E1. apply (seg_rep_read idx m a _ _ _ [] Hm Hma). unfold payload.
  by rewrite app_nil_r, <- app_assoc.
Qed.

Lemma readptr_ok db a p io do lk er :
  db_ok E db -> P !! a = Some p ->
  _db_readptr a (st E db idx dat io do lk er) = Ret p (st E db idx dat (a + 7) do lk er).
Proof.
  intros Hdb Ha. destruct (disk_bounds _ _ Ha) as [H0 _].
  assert (Hp : 0 <= p <= PTR_MAX) by (by eapply dk_ptr).
  unfold _db_readptr. db_norm. rewrite (db_ifd _ _ Hdb).
  db_run (lseek_set_idx E). db_if.
  db_run (read_idx E db PTR_SZ (ptr_field p) idx dat a do lk er (disk_read_ptr _ _ Ha)).
  rewrite !len_ptr_field, atol_ptr_field by done. done.
Qed.

(** The handle after reading the record [r] at [a], with chain pointer [p]. *)
Definition rd_db (b : bytes) (a : Z) (r : rec) (p : Z) (db : DB) : DB :=
  MkDB (idxfd db) (datfd db) b (datbuf db) (dbname db) a (len (r_body r)) (r_off r)
    (len (r_dat r) + 1) p (ptroff db) (chainoff db) (hashoff db) (nhash db) (cnt db).

(** The separators of a record body are found and replaced by NULs. *)
Lemma split_idx_ok db k o n rest io do lk er :
  key_ok k -> 0 <= o <= LONG_MAX -> 1 <= n <= DATLEN_MAX ->
  idxbuf db = k ++ SEP :: dec o ++ SEP :: dec n ++ NUL :: rest ->
  exists b, split_idx (st E db idx dat io do lk er) =
    Ret tt (st E (set_datlen n (set_datoff o (set_idxbuf b db))) idx dat io do lk er) /\
    b = k ++ NUL :: dec o ++ NUL :: dec n ++ NUL :: rest.
Proof.
  intros [Hk1 Hk2] Ho Hn Hb.
  assert (E1 : cstr (idxbuf db) = k ++ SEP :: dec o ++ SEP :: dec n).
  { apply (cstr_eq _ _ rest); [cstr_solve|].
    rewrite Hb, <- app_assoc. simpl. by rewrite <- app_assoc. }
  set (b1 := k ++ NUL :: dec o ++ SEP :: dec n ++ NUL :: rest).
  set (b2 := k ++ NUL :: dec o ++ NUL :: dec n ++ NUL :: rest).
  assert (B1 : splice (length k) [NUL] (idxbuf db) = b1).
  { rewrite Hb. by apply (splice_app k [SEP]). }
  assert (B2 : splice (S (length k) + length (dec o)) [NUL] b1 = b2).
  { pose proof (splice_app ((k ++ [NUL]) ++ dec o) [SEP] (dec n ++ NUL :: rest) [NUL]
      (S (length k) + length (dec o)) ltac:(len_solve) eq_refl) as HB.
    rewrite <- !app_assoc in HB. exact HB. }
  assert (D1 : drop (S (length k)) b1 = dec o ++ SEP :: dec n ++ NUL :: rest).
  { apply drop_app_cons. }
  assert (D2 : drop (S (length k)) b2 = dec o ++ NUL :: dec n ++ NUL :: rest).
  { apply drop_app_cons. }
  assert (D3 : drop (S (S (length k) + length (dec o))) b2 = dec n ++ NUL :: rest).
  { rewrite <- Nat.add_succ_r, <- drop_drop, D2. apply drop_app_cons. }
  exists b2. split; [|done]. unfold split_idx. db_norm. rewrite E1, strchr_app by done.
  erewrite bind_ret; [|apply put_idxbuf_st; rewrite Hb; len_solve].
  rewrite B1. db_norm. rewrite D1.
  rewrite (cstr_eq _ (dec o ++ SEP :: dec n) rest) by first [cstr_solve | by rewrite <- app_assoc].
  rewrite strchr_app by (apply dec_no_sep; lia).
  erewrite bind_ret; [|apply put_idxbuf_st; dbsimpl; unfold b1; len_solve].
  dbsimpl. rewrite B2. db_norm. rewrite D3, D2, !cstr_app_nul by cstr_solve.
  rewrite (proj2 (strchr_None (dec n) SEP)) by (apply dec_no_sep; lia).
  replace (atol (dec o)) with o by (symmetry; rewrite <- (app_nil_r (dec o)); by apply atol_dec).
  replace (atol (dec n)) with n
    by (symmetry; rewrite <- (app_nil_r (dec n)); apply atol_dec; [unfold DATLEN_MAX, LONG_MAX in *; lia|done]).
  db_norm. db_if. db_norm. rewrite wrap_small by (unfold DATLEN_MAX in *; lia).
  db_if. done.
Qed.

(** Reading the record at [a]: by its offset, or by the current offset of the file. *)
Lemma readidx_ok db a p r off io do lk er :
  db_ok E db -> P !! a = Some p -> R !! a = Some r ->
  off = a \/ off = 0 /\ io = a ->
  exists b, _db_readidx off (st E db idx dat io do lk er) =
    Ret p (st E (rd_db b a r p db) idx dat (a + 11 + len (r_body r)) do lk er) /\
    length b = length (idxbuf db) /\ cstr b = r_key r.
Proof.
  intros Hdb Ha Hr Hoff. destruct (disk_bounds _ _ Ha) as [H0 Hlen].
  assert (Hp : 0 <= p <= PTR_MAX) by (by eapply dk_ptr).
  destruct (dk_rec _ _ _ _ _ HD _ _ Hr) as ([Hk Ho Hd Hdl Hb] & _ & HHa & _).
  unfold HDR_END in HHa. set (l := len (r_body r)) in *.
  set (pre := r_key r ++ SEP :: dec (r_off r) ++ SEP :: dec (len (r_dat r) + 1)).
  assert (Ebody : r_body r = pre ++ [NEWLINE]).
  { unfold r_body, idx_body, pre. rewrite <- app_assoc. simpl. by rewrite <- app_assoc. }
  assert (Elen : l = len pre + 1) by (unfold l; rewrite Ebody; len_solve).
  assert (Hlb : length (r_body r) = S (length pre)) by (rewrite Ebody; len_solve).
  set (tl := drop (length (r_body r)) (idxbuf db)).
  assert (Hbl : (length (r_body r) <= length (idxbuf db))%nat).
  { rewrite (db_ibuf _ _ Hdb). unfold l, len, IDXLEN_MAX in *. lia. }
  set (db1 := set_idxlen l (set_ptrval p (set_idxoff a db))).
  destruct (split_idx_ok (set_idxbuf (pre ++ NUL :: tl) db1) (r_key r) (r_off r)
    (len (r_dat r) + 1) tl (a + 11 + l) do lk er Hk Ho) as (b & Hsplit & Hbuf).
  { unfold DATLEN_MAX. lia. }
  { dbsimpl. unfold pre. rewrite <- app_assoc. simpl. by rewrite <- app_assoc. }
  exists b. split_and!.
  2:{ rewrite Hbuf. transitivity (length (pre ++ NUL :: tl)); [unfold pre; len_solve|].
      unfold tl. len_solve. }
  2:{ rewrite Hbuf. apply cstr_app_nul, Hk. }
  unfold _db_readidx. db_norm. rewrite (db_ifd _ _ Hdb).
  assert (Hseek : sys (sys_lseek (e_ifd E) off (if off =? 0 then SEEK_CUR else SEEK_SET))
    (st E db idx dat io do lk er) = Ret a (st E db idx dat a do lk er)).
  { destruct Hoff as [->|[-> ->]].
    - replace (a =? 0) with false by lia. by apply lseek_set_idx.
    - by apply lseek_cur_idx. }
  rewrite (bind_ret _ _ _ _ _ Hseek). db_norm. db_if.
  erewrite bind_ret; [|eapply read_idx, disk_read_head; eassumption]; cbv beta iota.
  assert (E11 : len (ptr_field p ++ pad 4 (dec l)) = 11).
  { rewrite len_app, len_ptr_field by done. unfold len at 1.
    rewrite length_len_field; [done|unfold IDXLEN_MIN in Hb; lia]. }
  fold l. rewrite E11. db_if.
  rewrite take_app_length', drop_app_length' by (rewrite length_ptr_field by done; done).
  rewrite atol_ptr_field, atoi_len_field by (done || unfold IDXLEN_MIN in Hb; lia).
  db_norm. rewrite wrap_small by (unfold IDXLEN_MIN, IDXLEN_MAX in Hb; lia). fold db1. db_if.
  erewrite bind_ret; [|eapply read_idx, disk_read_body; eassumption]; cbv beta iota.
  erewrite bind_ret; [|apply put_idxbuf_st; dbsimpl; done].
  fold l. db_if. db_norm. rewrite splice_0.
  change (idxbuf db1) with (idxbuf db). fold tl. rewrite Ebody, <- app_assoc.
  assert (Epos : Z.to_nat (l - 1) = length pre) by (rewrite Elen; unfold len; lia).
  rewrite Epos, lookup_app_r, Nat.sub_diag by lia. simpl ([NEWLINE] ++ tl).
  rewrite bool_decide_true by done. cbn [negb].
  erewrite bind_ret; [|apply put_idxbuf_st; dbsimpl; len_solve]. dbsimpl.
  rewrite splice_cons.
  erewrite bind_ret; [|exact Hsplit]. done.
Qed.

Lemma readdat_ok db a r io do lk er :
  db_ok E db -> R !! a = Some r -> datoff db = r_off r -> datlen db = len (r_dat r) + 1 ->
  exists b, _db_readdat (st E db idx dat io do lk er) =
    Ret (r_dat r) (st E (set_datbuf b db) idx dat io (r_off r + (len (r_dat r) + 1)) lk er) /\
    length b = length (datbuf db).
Proof.
  intros Hdb Hr Hoff Hdl. destruct (dk_rec _ _ _ _ _ HD _ _ Hr) as ([_ Ho Hd Hl _] & _ & _ & Hg).
  pose proof (seg_rep_read_all _ _ _ _ (dk_dat _ _ _ _ _ HD) Hg) as Hread.
  assert (El : len (r_dat r ++ [NEWLINE]) = len (r_dat r) + 1) by len_solve.
  rewrite El in Hread. set (tl := drop (length (r_dat r ++ [NEWLINE])) (datbuf db)).
  assert (Hbl : (length (r_dat r ++ [NEWLINE]) <= length (datbuf db))%nat).
  { rewrite (db_dbuf _ _ Hdb). unfold DATLEN_MAX. len_solve. }
  exists (r_dat r ++ NUL :: tl). split.
  2:{ unfold tl. len_solve. }
  unfold _db_readdat. db_norm. rewrite (db_dfd _ _ Hdb), Hoff.
  erewrite bind_ret; [|apply lseek_set_dat; [done|lia]]. db_if. db_norm. rewrite Hdl.
  erewrite bind_ret; [|eapply read_dat; eassumption]; cbv beta iota.
  erewrite bind_ret; [|apply put_datbuf_st; done].
  rewrite El. db_if. db_norm. rewrite splice_0. fold tl. rewrite <- app_assoc.
  replace (Z.to_nat (len (r_dat r) + 1 - 1)) with (length (r_dat r)) by (unfold len; lia).
  rewrite lookup_app_r, Nat.sub_diag by lia. simpl ([NEWLINE] ++ tl).
  rewrite bool_decide_true by done. cbn [negb].
  erewrite bind_ret; [|apply put_datbuf_st; dbsimpl; len_solve]. dbsimpl.
  rewrite splice_cons. db_norm. by rewrite cstr_app_nul.
Qed.
End reads.

(** ** Updating the files *)

Section updates.
Context (idx dat : bytes) (P : gmap Z Z) (R : gmap Z rec) (g : gmap Z bytes).
Context (HD : disk idx dat P R g).

Lemma payload_at_insert a r b :
  payload_at (<[a := r]> R) b = if decide (a = b) then payload r else payload_at R b.
Proof. unfold payload_at. rewrite lookup_insert. by case_decide. Qed.

Lemma disk_set_ptr a p0 p :
  P !! a = Some p0 -> 0 <= p <= PTR_MAX ->
  disk (file_write idx a (ptr_field p)) dat (<[a := p]> P) R g /\
  len (file_write idx a (ptr_field p)) = len idx.
Proof.
  intros Ha Hp. destruct HD as [(m & Hm & Hma) Hdat Hptr Hrec Hinj Hall].
  pose proof (Hma a) as Hmaa. rewrite Ha in Hmaa. simpl in Hmaa.
  destruct (seg_rep_write idx m a _ [] _ _ (ptr_field p) Hm Hmaa eq_refl) as [Hw Hl].
  { rewrite !length_ptr_field; eauto. }
  rewrite Z.add_0_r in Hw, Hl. split; [|exact Hl]. split; try done.
  - eexists. split; [exact Hw|]. intros b. rewrite !lookup_insert. by case_decide; subst.
  - intros b q Hb. apply lookup_insert_Some in Hb as [[_ <-]|[_ Hb]]; eauto.
  - intros b r Hb. destruct (Hrec _ _ Hb) as (H1 & H2 & H3 & H4). split_and!; try done.
    apply lookup_insert_is_Some'. auto.
  - intros b q Hb. apply lookup_insert_Some in Hb as [[<- _]|[_ Hb]]; eauto.
Qed.

Lemma disk_set_dat a r d :
  R !! a = Some r -> length d = length (r_dat r) -> is_cstr d ->
  disk idx (file_write dat (r_off r) (d ++ [NEWLINE])) P
    (<[a := Rec (r_key r) (r_off r) d]> R) (<[r_off r := d ++ [NEWLINE]]> g) /\
  len (file_write dat (r_off r) (d ++ [NEWLINE])) = len dat.
Proof.
  intros Hr Hl Hd. destruct HD as [(m & Hm & Hma) Hdat Hptr Hrec Hinj Hall].
  destruct (Hrec _ _ Hr) as ([Hk Ho Hd' Hdl Hb] & HPa & Hae & Hg).
  assert (Hbody : len (r_body (Rec (r_key r) (r_off r) d)) = len (r_body r))
    by (by apply len_r_body_same).
  assert (Epay : payload (Rec (r_key r) (r_off r) d) = payload r).
  { unfold payload. rewrite Hbody. unfold r_body. simpl. unfold len. by rewrite Hl. }
  destruct (seg_rep_write dat g (r_off r) _ [] (r_dat r ++ [NEWLINE]) [] (d ++ [NEWLINE]) Hdat Hg)
    as [Hw Hwl]; [by rewrite app_nil_r|len_solve|].
  rewrite Z.add_0_r in Hw, Hwl. rewrite app_nil_r in Hw. simpl in Hw.
  split; [|exact Hwl]. split; try done.
  - exists m. split; [done|]. intros b. rewrite Hma, payload_at_insert.
    case_decide as Hab; [|done]. subst b. unfold payload_at. by rewrite Hr, Epay.
  - intros b q Hq. apply lookup_insert_Some in Hq as [[<- <-]|[Hne Hq]]; simpl.
    + split_and!; try done; [|by rewrite lookup_insert_eq].
      split; simpl; try done; [unfold len in *; lia|by rewrite Hbody].
    + destruct (Hrec _ _ Hq) as (H1 & H2 & H3 & H4). split_and!; try done.
      rewrite lookup_insert_ne; [done|]. intros E. apply Hne. by eapply Hinj.
  - intros b c q q' Hq Hq'.
    apply lookup_insert_Some in Hq as [[<- <-]|[Hne Hq]];
    apply lookup_insert_Some in Hq' as [[<- <-]|[Hne' Hq']]; simpl; eauto.
  - intros b q Hq Hbe. apply lookup_insert_is_Some'. eauto.
Qed.

Lemma disk_append_dat d :
  disk idx (dat ++ d ++ [NEWLINE]) P R (<[len dat := d ++ [NEWLINE]]> g) /\ g !! len dat = None.
Proof.
  destruct HD as [Hidx Hdat Hptr Hrec Hinj Hall].
  destruct (seg_rep_append dat g (d ++ [NEWLINE]) Hdat) as [Hw Hn].
  { intros E. apply app_eq_nil in E as [_ E]. done. }
  split; [|done]. split; try done. intros b q Hq.
  destruct (Hrec _ _ Hq) as (H1 & H2 & H3 & H4). split_and!; try done.
  rewrite lookup_insert_ne; [done|]. intros E. congruence.
Qed.

Lemma disk_set_rec a p0 p r k :
  P !! a = Some p0 -> R !! a = Some r -> 0 <= p <= PTR_MAX ->
  key_ok k -> length k = length (r_key r) ->
  let r' := Rec k (r_off r) (r_dat r) in
  disk (file_write idx a (ptr_field p ++ payload r')) dat (<[a := p]> P) (<[a := r']> R) g /\
  len (file_write idx a (ptr_field p ++ payload r')) = len idx.
Proof.
  intros Ha Hr Hp Hk Hl r'. destruct HD as [(m & Hm & Hma) Hdat Hptr Hrec Hinj Hall].
  destruct (Hrec _ _ Hr) as (Hrok & HPa & Hae & Hg).
  assert (Hbody : len (r_body r') = len (r_body r)) by (by apply len_r_body_same).
  assert (Hrok' : rec_ok r').
  { destruct Hrok. split; try done. by rewrite Hbody. }
  pose proof (Hma a) as Hmaa. rewrite Ha in Hmaa. simpl in Hmaa.
  unfold payload_at in Hmaa. rewrite Hr in Hmaa.
  destruct (seg_rep_write idx m a _ [] (ptr_field p0 ++ payload r) [] (ptr_field p ++ payload r')
    Hm Hmaa) as [Hw Hl'].
  { by rewrite app_nil_r. }
  { pose proof (len_payload r Hrok). pose proof (len_payload r' Hrok').
    rewrite !length_app, !length_ptr_field by eauto. unfold len in *. lia. }
  rewrite Z.add_0_r in Hw, Hl'. rewrite app_nil_r in Hw. simpl in Hw.
  split; [|exact Hl']. split; try done.
  - eexists. split; [exact Hw|]. intros b. rewrite payload_at_insert, !lookup_insert.
    by case_decide; subst.
  - intros b q Hb. apply lookup_insert_Some in Hb as [[_ <-]|[_ Hb]]; eauto.
  - intros b q Hb. apply lookup_insert_Some in Hb as [[<- <-]|[Hne Hb]].
    + split_and!; try done. apply lookup_insert_is_Some'. auto.
    + destruct (Hrec _ _ Hb) as (H1 & H2 & H3 & H4). split_and!; try done.
      apply lookup_insert_is_Some'. auto.
  - intros b c q q' Hq Hq'.
    apply lookup_insert_Some in Hq as [[<- <-]|[Hne Hq]];
    apply lookup_insert_Some in Hq' as [[<- <-]|[Hne' Hq']]; simpl; eauto.
  - intros b q Hb Hbe. apply lookup_insert_is_Some'.
    apply lookup_insert_Some in Hb as [[<- _]|[_ Hb]]; eauto.
Qed.

Lemma disk_append_rec p r :
  0 <= p <= PTR_MAX -> rec_ok r -> HDR_END <= len idx ->
  g !! r_off r = Some (r_dat r ++ [NEWLINE]) ->
  (forall b q, R !! b = Some q -> r_off q <> r_off r) ->
  disk (idx ++ ptr_field p ++ payload r) dat (<[len idx := p]> P) (<[len idx := r]> R) g /\
  P !! len idx = None.
Proof.
  intros Hp Hrok He Hg Hfresh. destruct HD as [(m & Hm & Hma) Hdat Hptr Hrec Hinj Hall].
  destruct (seg_rep_append idx m (ptr_field p ++ payload r) Hm) as [Hw Hn].
  { intros E. apply (f_equal length) in E. rewrite length_app, length_ptr_field in E by done.
    simpl in E. lia. }
  assert (HPn : P !! len idx = None).
  { specialize (Hma (len idx)). rewrite Hn in Hma. destruct (P !! len idx); done. }
  split; [|done]. split; try done.
  - eexists. split; [exact Hw|]. intros b. rewrite payload_at_insert, !lookup_insert.
    by case_decide; subst.
  - intros b q Hb. apply lookup_insert_Some in Hb as [[_ <-]|[_ Hb]]; eauto.
  - intros b q Hb. apply lookup_insert_Some in Hb as [[<- <-]|[Hne Hb]].
    + split_and!; try done. apply lookup_insert_is_Some'. auto.
    + destruct (Hrec _ _ Hb) as (H1 & H2 & H3 & H4). split_and!; try done.
      apply lookup_insert_is_Some'. auto.
  - intros b c q q' Hq Hq' Eo.
    apply lookup_insert_Some in Hq as [[<- <-]|[Hne Hq]];
    apply lookup_insert_Some in Hq' as [[<- <-]|[Hne' Hq']]; try done.
    + exfalso. by eapply Hfresh.
    + exfalso. by eapply Hfresh.
    + eauto.
  - intros b q Hb Hbe. apply lookup_insert_is_Some'.
    apply lookup_insert_Some in Hb as [[<- _]|[_ Hb]]; eauto.
Qed.
End updates.

(** ** Locks held during an operation *)

Definition quiet (ino : Z) (lk : list rlock) : Prop := Forall (fun l => l_ino l <> ino) lk.

Lemma lk_release_cons ino lo hi l lk :
  lk_release ino lo hi (l :: lk) = lk_minus ino lo hi l ++ lk_release ino lo hi lk.
Proof. done. Qed.

Lemma lk_minus_apart ino lo hi l :
  overlaps ino lo hi l = false -> lk_minus ino lo hi l = [l].
Proof. intros H. unfold lk_minus. by rewrite H. Qed.

Lemma overlaps_ino ino lo hi l : l_ino l <> ino -> overlaps ino lo hi l = false.
Proof. intros H. unfold overlaps. apply Z.eqb_neq in H. by rewrite H. Qed.

Lemma lk_release_quiet ino lo hi lk : quiet ino lk -> lk_release ino lo hi lk = lk.
Proof.
  induction 1 as [|l lk Hl _ IH]; [done|].
  rewrite lk_release_cons, IH, lk_minus_apart by (by apply overlaps_ino). done.
Qed.

Definition below_hi (lo : Z) (hi : option Z) : Prop := match hi with None => True | Some h => lo < h end.

(** Releasing exactly a held range drops the lock. *)
Lemma lk_minus_self ino lo hi w : below_hi lo hi -> lk_minus ino lo hi (Rlock ino lo hi w) = [].
Proof.
  intros H. unfold lk_minus, overlaps, below. cbn [l_ino l_lo l_hi]. rewrite Z.eqb_refl, Z.ltb_irrefl.
  destruct hi as [h|]; simpl in *; [|done].
  destruct (Z.ltb_spec lo h); [|lia]. simpl. by rewrite Z.ltb_irrefl.
Qed.

(** The lock of one byte before position [lo] is not touched by ranges from [lo] on. *)
Lemma lk_minus_below ino lo hi c w :
  c + 1 <= lo -> lk_minus ino lo hi (Rlock ino c (Some (c + 1)) w) = [Rlock ino c (Some (c + 1)) w].
Proof.
  intros H. apply lk_minus_apart. unfold overlaps, below. simpl.
  destruct (Z.ltb_spec lo (c + 1)); [lia|]. by rewrite andb_false_r.
Qed.

Lemma lk_minus_above ino lo h c hi w :
  h <= c -> lk_minus ino lo (Some h) (Rlock ino c hi w) = [Rlock ino c hi w].
Proof.
  intros H. apply lk_minus_apart. unfold overlaps, below. simpl.
  destruct (Z.ltb_spec c h); [lia|]. by rewrite andb_false_r.
Qed.

(** ** Running the writes *)

Section writes.
Context (E : env) (HE : env_ok E).
Context (idx dat : bytes) (P : gmap Z Z) (R : gmap Z rec) (g : gmap Z bytes).
Context (HD : disk idx dat P R g).

Lemma writeptr_ok db a p0 p io do lk er :
  db_ok E db -> P !! a = Some p0 -> 0 <= p <= PTR_MAX ->
  exists idx', _db_writeptr a p (st E db idx dat io do lk er) =
    Ret tt (st E db idx' dat (a + 7) do lk er) /\
    disk idx' dat (<[a := p]> P) R g /\ len idx' = len idx.
Proof.
  intros Hdb Ha Hp. destruct (disk_bounds _ _ _ _ _ HD _ _ Ha) as [H0 _].
  destruct (disk_set_ptr _ _ _ _ _ HD _ _ _ Ha Hp) as [Hd' Hl'].
  eexists. split; [|split; [exact Hd'|exact Hl']]. unfold _db_writeptr. db_if.
  db_norm. rewrite (db_ifd _ _ Hdb). db_run (lseek_set_idx E). db_if.
  erewrite bind_ret; [|apply write_idx]. cbv beta.
  change (pad (Z.to_nat PTR_SZ) (dec p)) with (ptr_field p).
  rewrite take_ge by (rewrite length_ptr_field by done; done).
  rewrite len_ptr_field by done. done.
Qed.

Lemma writedat_set_ok db a r d io do lk er :
  db_ok E db -> R !! a = Some r -> length d = length (r_dat r) -> is_cstr d ->
  exists dat' do', _db_writedat d (r_off r) SEEK_SET (st E db idx dat io do lk er) =
    Ret tt (st E (set_datlen (len d + 1) (set_datoff (r_off r) db)) idx dat' io do' lk er) /\
    disk idx dat' P (<[a := Rec (r_key r) (r_off r) d]> R) (<[r_off r := d ++ [NEWLINE]]> g) /\
    len dat' = len dat.
Proof.
  intros Hdb Hr Hl Hd. pose proof (disk_set_dat _ _ _ _ _ HD _ _ _ Hr Hl Hd) as Hd'.
  destruct (dk_rec _ _ _ _ _ HD _ _ Hr) as ([_ Ho _ _ _] & _).
  do 2 eexists. split; [|exact Hd']. unfold _db_writedat. db_norm.
  rewrite (db_dfd _ _ Hdb). db_if. rewrite bind_ret_l.
  erewrite bind_ret; [|apply lseek_set_dat; [done|lia]]. db_norm. db_if. db_norm.
  erewrite bind_ret; [|by apply write_dat]. cbv beta.
  rewrite len_app. change (len [NEWLINE]) with 1. rewrite Z.eqb_refl. done.
Qed.

Lemma writedat_end_ok db d io do lk er :
  db_ok E db -> quiet (e_dno E) lk ->
  exists do', _db_writedat d 0 SEEK_END (st E db idx dat io do lk er) =
    Ret tt (st E (set_datlen (len d + 1) (set_datoff (len dat) db)) idx (dat ++ d ++ [NEWLINE])
              io do' lk er).
Proof.
  intros Hdb Hq. eexists. unfold _db_writedat. db_norm. rewrite (db_dfd _ _ Hdb). db_if.
  erewrite bind_ret; [|apply or_dump_ok, (lock_dat E HE F_SETLKW true); lia].
  cbv beta. rewrite lk_release_quiet by done.
  erewrite bind_ret; [|by apply lseek_end_dat]. db_norm. pose proof (len_nonneg dat). db_if. db_norm.
  erewrite bind_ret; [|by apply write_dat]. cbv beta.
  rewrite len_app. change (len [NEWLINE]) with 1. rewrite Z.eqb_refl. cbn [negb].
  db_if. erewrite or_dump_ok; [|by apply unlock_dat].
  rewrite lk_release_cons, lk_minus_self, lk_release_quiet by done.
  rewrite file_write_end. done.
Qed.

(** The bytes [_db_writeidx] hands to [writev]. *)
Lemma idx_record_bytes r p :
  0 <= p <= PTR_MAX -> len (r_body r) <= IDXLEN_MAX ->
  take (Z.to_nat (PTR_SZ + IDXLEN_SZ))
    (pad (Z.to_nat PTR_SZ) (dec p) ++ pad (Z.to_nat IDXLEN_SZ) (dec (len (r_body r)))) ++ r_body r =
  ptr_field p ++ payload r.
Proof.
  intros Hp Hl. pose proof (len_nonneg (r_body r)).
  change (pad (Z.to_nat PTR_SZ) (dec p)) with (ptr_field p).
  change (pad (Z.to_nat IDXLEN_SZ)) with (pad 4).
  rewrite take_ge; [unfold payload; by rewrite <- app_assoc|].
  rewrite length_app, length_ptr_field, length_len_field by (done || lia). done.
Qed.

Lemma writeidx_set_ok db a p0 p r k io do lk er :
  db_ok E db -> P !! a = Some p0 -> R !! a = Some r -> 0 <= p <= PTR_MAX ->
  key_ok k -> length k = length (r_key r) ->
  datoff db = r_off r -> datlen db = len (r_dat r) + 1 ->
  exists idx' b io', _db_writeidx k a SEEK_SET p (st E db idx dat io do lk er) =
    Ret tt (st E (set_idxoff a (set_idxbuf b (set_ptrval p db))) idx' dat io' do lk er) /\
    disk idx' dat (<[a := p]> P) (<[a := Rec k (r_off r) (r_dat r)]> R) g /\
    len idx' = len idx /\ length b = length (idxbuf db).
Proof.
  intros Hdb Ha Hr Hp Hk Hkl Hoff Hdl. set (r' := Rec k (r_off r) (r_dat r)).
  destruct (disk_bounds _ _ _ _ _ HD _ _ Ha) as [H0 _].
  destruct (disk_set_rec _ _ _ _ _ HD _ _ _ _ _ Ha Hr Hp Hk Hkl) as [Hd' Hl']. fold r' in Hd', Hl'.
  destruct (dk_rec _ _ _ _ _ Hd' a r' (lookup_insert_eq _ _ _)) as (Hrok & _).
  pose proof (ro_body _ Hrok) as Hb.
  eexists _, (splice 0 (r_body r' ++ [NUL]) (idxbuf db)), _.
  split; [|split; [exact Hd'|split; [exact Hl'|]]].
  2:{ apply length_splice. rewrite (db_ibuf _ _ Hdb). unfold IDXLEN_MAX in *. len_solve. }
  unfold _db_writeidx. db_norm. db_if. db_norm. rewrite Hoff, Hdl.
  change (idx_body k (r_off r) (len (r_dat r) + 1)) with (r_body r').
  erewrite bind_ret; [|apply put_idxbuf_st; dbsimpl; rewrite (db_ibuf _ _ Hdb);
    unfold IDXLEN_MAX in *; len_solve].
  db_if. db_norm. db_if. rewrite bind_ret_l, (db_ifd _ _ Hdb).
  erewrite bind_ret; [|by apply lseek_set_idx]. db_norm. db_if.
  erewrite bind_ret; [|apply write_idx]. cbv beta.
  rewrite idx_record_bytes by (done || apply Hb).
  rewrite len_app, len_ptr_field, len_payload by done. db_if. done.
Qed.

Lemma writeidx_end_ok db p r io do lk er :
  db_ok E db -> 0 <= p <= PTR_MAX -> rec_ok r -> HDR_END <= len idx ->
  g !! r_off r = Some (r_dat r ++ [NEWLINE]) ->
  (forall b q, R !! b = Some q -> r_off q <> r_off r) ->
  datoff db = r_off r -> datlen db = len (r_dat r) + 1 ->
  lk_release (e_ino E) HDR_END None lk = lk ->
  exists idx' b io', _db_writeidx (r_key r) 0 SEEK_END p (st E db idx dat io do lk er) =
    Ret tt (st E (set_idxoff (len idx) (set_idxbuf b (set_ptrval p db))) idx' dat io' do lk er) /\
    disk idx' dat (<[len idx := p]> P) (<[len idx := r]> R) g /\ P !! len idx = None /\
    len idx' = len idx + 11 + len (r_body r) /\ length b = length (idxbuf db).
Proof.
  intros Hdb Hp Hrok Hhe Hg Hfresh Hoff Hdl Hlk.
  destruct (disk_append_rec _ _ _ _ _ HD _ _ Hp Hrok Hhe Hg Hfresh) as [Hd' HPn].
  pose proof (ro_body _ Hrok) as Hb.
  eexists _, (splice 0 (r_body r ++ [NUL]) (idxbuf db)), _.
  split; [|split; [exact Hd'|split_and!]].
  2:{ done. }
  2:{ rewrite !len_app, len_ptr_field, len_payload by done. lia. }
  2:{ apply length_splice. rewrite (db_ibuf _ _ Hdb). unfold IDXLEN_MAX in *. len_solve. }
  unfold _db_writeidx. db_norm. db_if. db_norm. rewrite Hoff, Hdl.
  change (idx_body (r_key r) (r_off r) (len (r_dat r) + 1)) with (r_body r).
  erewrite bind_ret; [|apply put_idxbuf_st; dbsimpl; rewrite (db_ibuf _ _ Hdb);
    unfold IDXLEN_MAX in *; len_solve].
  db_if. db_norm. rewrite (db_nhash _ _ Hdb), (db_ifd _ _ Hdb).
  change ((NHASH_DEF + 1) * PTR_SZ + 1) with HDR_END. db_if.
  erewrite bind_ret; [|apply or_dump_ok, (lock_idx E HE F_SETLKW true); unfold HDR_END; lia].
  cbv beta. change (hi_of HDR_END 0) with (@None Z). rewrite Hlk.
  erewrite bind_ret; [|by apply lseek_end_idx]. pose proof (len_nonneg idx). db_norm. db_if.
  erewrite bind_ret; [|apply write_idx]. cbv beta.
  rewrite idx_record_bytes by (done || apply Hb).
  rewrite len_app, len_ptr_field, len_payload by done. db_if. db_if.
  erewrite or_dump_ok; [|by apply unlock_idx].
  change (hi_of HDR_END 0) with (@None Z).
  rewrite lk_release_cons, lk_minus_self, Hlk by done.
  rewrite file_write_end. done.
Qed.
End writes.
