(* ===== verification/DbChain.v ===== *)
(** * Chains of index records and the loops that walk them

    [chain P a xs]: following the chain pointers of [P] from the pointer field at [a]
    visits exactly the records at the offsets [xs]; the pointer of the last one is 0. *)

From Stdlib Require Import Strings.Byte ZArith Lia.
From S2P Require Import Prelude Libc Posix SegFile DbModel DbDisk DbRecords.
From stdpp Require Import base strings numbers gmap list.
#[local] Open Scope Z_scope.

Fixpoint chain (P : gmap Z Z) (a : Z) (xs : list Z) : Prop :=
  match xs with
  | [] => P !! a = Some 0
  | x :: xs' => P !! a = Some x /\ x <> 0 /\ chain P x xs'
  end.

Definition first_of (xs : list Z) : Z := default 0 (head xs).

(** The pointer field that leads to what follows the records [pre] of the chain at [a]. *)
Definition last_of (a : Z) (pre : list Z) : Z := default a (last pre).

Lemma chain_first P a xs : chain P a xs -> P !! a = Some (first_of xs).
Proof. destruct xs; simpl; [done|]. by intros [? _]. Qed.

Lemma first_of_0 P a xs : chain P a xs -> first_of xs = 0 -> xs = [].
Proof. destruct xs; simpl; [done|]. by intros (_ & ? & _) ?. Qed.

Lemma chain_ext P P' a b xs :
  chain P a xs -> P' !! b = P !! a -> (forall x, x ∈ xs -> P' !! x = P !! x) -> chain P' b xs.
Proof.
  revert a b. induction xs as [|x xs IH]; intros a b H Hb Hx; simpl in *; [congruence|].
  destruct H as (H1 & H2 & H3). split_and!; [congruence|done|].
  apply (IH x x); [done|apply Hx; set_solver|]. intros y Hy. apply Hx. set_solver.
Qed.

Lemma chain_frame P a xs b v :
  b ∉ a :: xs -> chain P a xs -> chain (<[b := v]> P) a xs.
Proof.
  intros Hb H. eapply chain_ext; [exact H| |intros x Hx]; rewrite lookup_insert_ne; try done; set_solver.
Qed.

Lemma last_of_cons a z pre : last_of a (z :: pre) = last_of z pre.
Proof. unfold last_of. rewrite last_cons. by destruct (last pre). Qed.

Lemma last_of_elem a pre : last_of a pre ∈ a :: pre.
Proof.
  revert a. induction pre as [|z pre IH]; intros a; [unfold last_of; simpl; set_solver|].
  rewrite last_of_cons. specialize (IH z). set_solver.
Qed.

Lemma chain_pred P a pre x post :
  chain P a (pre ++ x :: post) -> P !! last_of a pre = Some x.
Proof.
  revert a. induction pre as [|z pre IH]; intros a H; [by destruct H|].
  rewrite last_of_cons. apply IH. by destruct H as (_ & _ & ?).
Qed.

(** Unlinking a record: the pointer that led to it takes over its own pointer. *)
Lemma chain_remove P a pre x post q :
  chain P a (pre ++ x :: post) -> NoDup (a :: pre ++ x :: post) -> P !! x = Some q ->
  chain (<[last_of a pre := q]> P) a (pre ++ post).
Proof.
  revert a. induction pre as [|z pre IH]; intros a H Hnd Hq.
  - simpl in H. destruct H as (H1 & H2 & H3). unfold last_of. simpl.
    apply (chain_ext P _ x a); [done|by rewrite lookup_insert_eq|].
    intros y Hy. apply lookup_insert_ne. intros ->.
    apply NoDup_cons in Hnd as [Hnd _]. simpl in Hnd. set_solver.
  - simpl in H. destruct H as (H1 & H2 & H3). rewrite last_of_cons. simpl.
    apply NoDup_cons in Hnd as [Ha Hnd]. split_and!; [|done|by apply IH].
    rewrite lookup_insert_ne; [done|]. intros E.
    pose proof (last_of_elem z pre). rewrite E in H. set_solver.
Qed.

(** Linking a record in front: it takes over the pointer of the chain's head. *)
Lemma chain_push P a xs n :
  chain P a xs -> n ∉ a :: xs -> a ∉ xs -> n <> 0 ->
  chain (<[a := n]> (<[n := first_of xs]> P)) a (n :: xs).
Proof.
  intros H Hn Ha H0. assert (n <> a) by set_solver. simpl.
  split_and!; [by rewrite lookup_insert_eq|done|].
  apply (chain_ext P _ a n); [done| |intros x Hx].
  - rewrite lookup_insert_ne, lookup_insert_eq by done. symmetry. by apply chain_first.
  - rewrite !lookup_insert_ne; [done|set_solver|set_solver].
Qed.

(** ** What the loops leave alone in the handle *)

Record db_frame (E : env) (db db' : DB) : Prop := Frame {
  fr_ok : db_ok E db';
  fr_chain : chainoff db' = chainoff db;
  fr_cnt : cnt db' = cnt db
}.

(** The handle describes the record [r] at offset [x], whose chain pointer is [p]. *)
Record db_at (db : DB) (x : Z) (r : rec) (p : Z) : Prop := At {
  at_off : idxoff db = x;
  at_doff : datoff db = r_off r;
  at_dlen : datlen db = len (r_dat r) + 1;
  at_ptr : ptrval db = p;
  at_key : cstr (idxbuf db) = r_key r
}.

Lemma rd_db_frame E b x r p db :
  db_ok E db -> length b = length (idxbuf db) -> db_frame E db (rd_db b x r p db).
Proof. intros [] Hl. split; try done. split; simpl; congruence. Qed.

Lemma rd_db_at b x r p db : cstr b = r_key r -> db_at (rd_db b x r p db) x r p.
Proof. by split. Qed.

Lemma db_frame_trans E d1 d2 d3 : db_frame E d1 d2 -> db_frame E d2 d3 -> db_frame E d1 d3.
Proof. intros [] []. split; try done; congruence. Qed.

Section walks.
Context (E : env) (HE : env_ok E).
Context (idx dat : bytes) (P : gmap Z Z) (R : gmap Z rec) (g : gmap Z bytes).
Context (HD : disk idx dat P R g).

Definition key_at (x : Z) : option bytes := r_key <$> R !! x.

(** The walk of [_db_find_and_lock]: it stops at the first record with the key, having
    noted the pointer that led there, or at the end of the chain. *)
Lemma find_loop_spec key xs a fuel db io do lk er :
  db_ok E db -> ptroff db = a -> chain P a xs -> (forall x, x ∈ xs -> is_Some (R !! x)) ->
  (length xs <= fuel)%nat ->
  exists res db' io', find_loop fuel key (first_of xs) (st E db idx dat io do lk er) =
    Ret res (st E db' idx dat io' do lk er) /\ db_frame E db db' /\
    ((res = 0 /\ forall x, x ∈ xs -> key_at x <> Some key) \/
     (exists pre post r p, xs = pre ++ res :: post /\ res <> 0 /\ R !! res = Some r /\
        P !! res = Some p /\ r_key r = key /\ ptroff db' = last_of a pre /\ db_at db' res r p)).
Proof.
  revert a fuel db io. induction xs as [|x xs IH]; intros a fuel db io Hdb Hpo Hc HR Hf.
  - exists 0, db, io. split; [by destruct fuel|]. split; [by split|]. left. split; [done|set_solver].
  - destruct fuel as [|fuel]; [simpl in Hf; lia|]. destruct Hc as (H1 & H2 & H3).
    destruct (HR x ltac:(set_solver)) as [r Hr].
    pose proof (chain_first _ _ _ H3) as Hpx.
    destruct (readidx_ok E idx dat P R g HD db x _ r x io do lk er Hdb Hpx Hr)
      as (b & Hrd & Hbl & Hbk); [by left|].
    change (first_of (x :: xs)) with x. cbn [find_loop].
    replace (x =? 0) with false by lia.
    rewrite (bind_ret _ _ _ _ _ Hrd). db_norm.
    cbn [rd_db idxbuf]. rewrite Hbk, strcmp_eqb.
    pose proof (rd_db_frame E b x r (first_of xs) db Hdb Hbl) as Hfr.
    case_bool_decide as Hkey.
    + eexists x, _, _. split; [done|]. split; [done|]. right.
      exists [], xs, r, (first_of xs). by split_and!; try apply rd_db_at.
    + db_norm. set (db1 := set_ptroff x (rd_db b x r (first_of xs) db)).
      assert (Hfr1 : db_frame E db db1) by (destruct Hfr as [[] ? ?]; by repeat split).
      destruct (IH x fuel db1 (x + 11 + len (r_body r))) as (res & db' & io' & Hl & Hfr' & Hres);
        try done; [by destruct Hfr1|intros y Hy; apply HR; set_solver|simpl in Hf; lia|].
      exists res, db', io'. split; [exact Hl|]. split; [by eapply db_frame_trans|].
      destruct Hres as [[-> Hno]|(pre & post & r' & p' & -> & ? & ? & ? & ? & ? & ?)].
      * left. split; [done|]. intros y Hy. apply elem_of_cons in Hy as [->|Hy]; [|by apply Hno].
        unfold key_at. rewrite Hr. simpl. congruence.
      * right. exists (x :: pre), post, r', p'. rewrite last_of_cons. split_and!; done.
Qed.

(** The walk of [_db_findfree]: the first free record of the wanted sizes. *)
Lemma free_loop_spec kl dl xs a fuel db io do lk er :
  db_ok E db -> chain P a xs -> (forall x, x ∈ xs -> is_Some (R !! x)) ->
  (length xs <= fuel)%nat ->
  exists so res db' io', free_loop fuel kl dl a (first_of xs) (st E db idx dat io do lk er) =
    Ret (so, res) (st E db' idx dat io' do lk er) /\ db_frame E db db' /\
    (res = 0 \/
     (exists pre post r p, xs = pre ++ res :: post /\ res <> 0 /\ R !! res = Some r /\
        P !! res = Some p /\ len (r_key r) = kl /\ len (r_dat r) + 1 = dl /\
        so = last_of a pre /\ db_at db' res r p)).
Proof.
  revert a fuel db io. induction xs as [|x xs IH]; intros a fuel db io Hdb Hc HR Hf.
  - exists a, 0, db, io. split; [by destruct fuel|]. split; [by split|]. by left.
  - destruct fuel as [|fuel]; [simpl in Hf; lia|]. destruct Hc as (H1 & H2 & H3).
    destruct (HR x ltac:(set_solver)) as [r Hr].
    pose proof (chain_first _ _ _ H3) as Hpx.
    destruct (readidx_ok E idx dat P R g HD db x _ r x io do lk er Hdb Hpx Hr)
      as (b & Hrd & Hbl & Hbk); [by left|].
    change (first_of (x :: xs)) with x. cbn [free_loop].
    replace (x =? 0) with false by lia.
    rewrite (bind_ret _ _ _ _ _ Hrd). db_norm.
    cbn [rd_db idxbuf datlen]. unfold strlen. rewrite Hbk.
    pose proof (rd_db_frame E b x r (first_of xs) db Hdb Hbl) as Hfr.
    destruct ((len (r_key r) =? kl) && (len (r_dat r) + 1 =? dl)) eqn:Hm.
    + eexists a, x, _, _. split; [done|]. split; [done|]. right.
      exists [], xs, r, (first_of xs). split_and!; first [done|lia|by apply rd_db_at].
    + destruct (IH x fuel (rd_db b x r (first_of xs) db) (x + 11 + len (r_body r)))
        as (so & res & db' & io' & Hl & Hfr' & Hres);
        try done; [by destruct Hfr|intros y Hy; apply HR; set_solver|simpl in Hf; lia|].
      exists so, res, db', io'. split; [exact Hl|]. split; [by eapply db_frame_trans|].
      destruct Hres as [->|(pre & post & r' & p' & -> & ? & ? & ? & ? & ? & ? & ?)]; [by left|].
      right. exists (x :: pre), post, r', p'. rewrite last_of_cons. split_and!; done.
Qed.

(** A chain without repetitions is shorter than the index file. *)
Lemma chain_length xs :
  NoDup xs -> (forall x, x ∈ xs -> is_Some (R !! x)) -> (length xs <= length idx)%nat.
Proof.
  intros Hnd HR.
  assert (Hsub : xs ⊆+ seqZ 0 (len idx)).
  { apply NoDup_submseteq; [done|]. intros x Hx. destruct (HR x Hx) as [r Hr].
    destruct (dk_rec _ _ _ _ _ HD _ _ Hr) as (_ & [p Hp] & _).
    destruct (disk_bounds _ _ _ _ _ HD _ _ Hp) as [? ?].
    pose proof (len_nonneg (payload_at R x)). apply elem_of_seqZ. lia. }
  apply submseteq_length in Hsub. rewrite length_seqZ in Hsub. unfold len in Hsub. lia.
Qed.
End walks.
