(* ===== verification/DbLinks.v ===== *)
(** * The linked structure of the index file as an abstract map

    [links P R C m o] ties the chain pointers [P] and the records [R] to the abstract
    contents [m] of the database: [C j] lists the records of chain [j] (chain 0 is the
    free list, chain [1 + h] the records whose key hashes to [h]), and [o] the records on
    no chain.  The lemmas are the pure steps that the operations are made of: unlinking
    a record, rewriting an unlinked one, linking one in front, replacing data. *)

From Stdlib Require Import Strings.Byte ZArith Lia.
From S2P Require Import Prelude Libc Posix SegFile DbModel DbDisk DbRecords DbChain.
From stdpp Require Import base strings numbers functions gmap list.
#[local] Open Scope Z_scope.

Definition bucket (key : bytes) : Z := 1 + hash_loop 0 1 key mod NHASH_DEF.

Lemma bucket_range key : 1 <= bucket key <= NHASH_DEF.
Proof.
  unfold bucket. pose proof (Z.mod_pos_bound (hash_loop 0 1 key) NHASH_DEF ltac:(done)). lia.
Qed.

Definition blanks (n : nat) : bytes := replicate n SPACE.

Record links (P : gmap Z Z) (R : gmap Z rec) (C : Z -> list Z) (m : gmap bytes bytes)
    (o : list Z) : Prop := Links {
  ln_chain : forall j, 0 <= j <= NHASH_DEF -> chain P (7 * j) (C j);
  ln_nodup : forall j, NoDup (C j);
  ln_out : forall j x, x ∈ C j -> 0 <= j <= NHASH_DEF;
  ln_node : forall j x, x ∈ C j -> is_Some (R !! x);
  ln_disj : forall i j x, x ∈ C i -> x ∈ C j -> i = j;
  ln_addr : forall x, is_Some (R !! x) -> HDR_END <= x;
  ln_hash : forall j x r, j <> 0 -> x ∈ C j -> R !! x = Some r -> bucket (r_key r) = j;
  ln_key : forall j x y rx ry, j <> 0 -> x ∈ C j -> y ∈ C j ->
           R !! x = Some rx -> R !! y = Some ry -> r_key rx = r_key ry -> x = y;
  ln_free : forall x r, x ∈ C 0 -> R !! x = Some r -> all_blank (r_key r) = true;
  ln_map : forall k d, m !! k = Some d <->
           exists x r, x ∈ C (bucket k) /\ R !! x = Some r /\ r_key r = k /\ r_dat r = d;
  ln_all : forall x, is_Some (R !! x) -> (exists j, x ∈ C j) \/ x ∈ o;
  ln_orph : forall x, x ∈ o -> is_Some (R !! x) /\ forall j, x ∉ C j
}.

Section steps.
Context (P : gmap Z Z) (R : gmap Z rec) (C : Z -> list Z) (m : gmap bytes bytes) (o : list Z).
Context (HL : links P R C m o).

Lemma node_addr j x : x ∈ C j -> HDR_END <= x.
Proof. intros Hx. eapply ln_addr, ln_node; eauto. Qed.

Lemma head_not_node i j : 0 <= j <= NHASH_DEF -> 7 * j ∉ C i.
Proof. intros Hj Hx. apply node_addr in Hx. db_lia. Qed.

(** The pointer field before a record of chain [j] is its head or a record of it. *)
Lemma last_of_cases j pre x post :
  C j = pre ++ x :: post ->
  last_of (7 * j) pre = 7 * j \/ (last_of (7 * j) pre ∈ C j /\ last_of (7 * j) pre ∈ pre).
Proof.
  intros HC. pose proof (last_of_elem (7 * j) pre) as H. apply elem_of_cons in H as [?|?]; [by left|].
  right. rewrite HC. set_solver.
Qed.

Lemma last_of_other_chain i j pre x post :
  C j = pre ++ x :: post -> i <> j -> 0 <= i <= NHASH_DEF -> 0 <= j <= NHASH_DEF ->
  last_of (7 * j) pre ∉ 7 * i :: C i.
Proof.
  intros HC Hij Hi Hj Hin. apply elem_of_cons in Hin as [Hin|Hin];
    destruct (last_of_cases _ _ _ _ HC) as [E|[E _]].
  - lia.
  - rewrite Hin in E. exact (head_not_node j i Hi E).
  - rewrite E in Hin. exact (head_not_node i j Hj Hin).
  - apply Hij. by eapply ln_disj.
Qed.

(** The record of a key is the only one of its chain with that key. *)
Lemma chain_key_lookup j x r :
  j <> 0 -> x ∈ C j -> R !! x = Some r -> m !! r_key r = Some (r_dat r).
Proof.
  intros Hj Hx Hr. apply (ln_map _ _ _ _ _ HL). exists x, r.
  rewrite (ln_hash _ _ _ _ _ HL j x r) by done. done.
Qed.

Lemma chain_key_None key :
  (forall x, x ∈ C (bucket key) -> key_at R x <> Some key) -> m !! key = None.
Proof.
  intros H. destruct (m !! key) as [d|] eqn:E; [|done]. exfalso.
  apply (ln_map _ _ _ _ _ HL) in E as (x & r & Hx & Hr & Hk & _).
  apply (H x Hx). unfold key_at. rewrite Hr. simpl. congruence.
Qed.

(** *** Unlinking *)

(** The nodes of the chains after the record [x] has left chain [j]. *)
Lemma unlink_elem j pre x post i y :
  C j = pre ++ x :: post -> y ∈ <[j := pre ++ post]> C i <-> y ∈ C i /\ y <> x.
Proof.
  intros HC. assert (Hnd := ln_nodup _ _ _ _ _ HL j). rewrite HC in Hnd.
  assert (Hxj : x ∈ C j) by (rewrite HC; set_solver).
  destruct (decide (i = j)) as [->|Hij].
  - rewrite fn_lookup_insert, HC. apply NoDup_app in Hnd as (_ & H1 & H2). apply NoDup_cons in H2 as [H2 _].
    split; [|set_solver]. intros Hy. split; [set_solver|]. intros ->.
    apply elem_of_app in Hy as [Hy|Hy]; [|done]. apply (H1 x Hy). set_solver.
  - rewrite fn_lookup_insert_ne by done. split; [|by intros [? _]]. intros Hy. split; [done|].
    intros ->. apply Hij. by eapply ln_disj.
Qed.

Lemma unlink_chains j pre x post q i :
  C j = pre ++ x :: post -> P !! x = Some q -> 0 <= j <= NHASH_DEF -> 0 <= i <= NHASH_DEF ->
  chain (<[last_of (7 * j) pre := q]> P) (7 * i) (<[j := pre ++ post]> C i) /\ NoDup (<[j := pre ++ post]> C i).
Proof.
  intros HC Hq Hj Hi. assert (Hnd := ln_nodup _ _ _ _ _ HL j). rewrite HC in Hnd.
  destruct (decide (i = j)) as [->|Hij].
  - rewrite fn_lookup_insert. split.
    + eapply chain_remove; [|constructor|exact Hq].
      * rewrite <- HC. by eapply ln_chain.
      * rewrite <- HC. by apply head_not_node.
      * done.
    + apply NoDup_app in Hnd as (H1 & H2 & H3). apply NoDup_cons in H3 as [_ H3]. apply NoDup_app.
      split_and!; try done. intros y Hy Hy'. apply (H2 y Hy). set_solver.
  - rewrite fn_lookup_insert_ne by done. split; [|by eapply ln_nodup].
    apply chain_frame; [|by eapply ln_chain]. by eapply last_of_other_chain.
Qed.

Lemma unlink_map j pre x post r k d :
  C j = pre ++ x :: post -> R !! x = Some r ->
  (if decide (j = 0) then m else delete (r_key r) m) !! k = Some d <->
  exists y ry, y ∈ <[j := pre ++ post]> C (bucket k) /\ R !! y = Some ry /\ r_key ry = k /\ r_dat ry = d.
Proof.
  intros HC Hr. assert (Hxj : x ∈ C j) by (rewrite HC; set_solver). case_decide as Hj0.
  - rewrite (ln_map _ _ _ _ _ HL). pose proof (bucket_range k). rewrite fn_lookup_insert_ne by lia. done.
  - rewrite lookup_delete_Some, (ln_map _ _ _ _ _ HL). setoid_rewrite (unlink_elem j pre x post); [|done]. split.
    + intros (Hk & y & ry & Hy & Hry & Hky & Hdy). exists y, ry. split_and!; try done. intros ->. congruence.
    + intros (y & ry & [Hy Hne] & Hry & Hky & Hdy). split; [|by exists y, ry].
      intros Hk. apply Hne. assert (Hyj : bucket k = j) by (rewrite <- Hk; by eapply ln_hash).
      eapply (ln_key _ _ _ _ _ HL j); [done| |done|done|done|congruence]. by rewrite <- Hyj.
Qed.

Lemma links_unlink j pre x post q r :
  C j = pre ++ x :: post -> P !! x = Some q -> R !! x = Some r ->
  links (<[last_of (7 * j) pre := q]> P) R (<[j := pre ++ post]> C)
    (if decide (j = 0) then m else delete (r_key r) m) (x :: o).
Proof.
  intros HC Hq Hr. assert (Hel := fun i y => unlink_elem j pre x post i y HC).
  assert (Hxj : x ∈ C j) by (rewrite HC; set_solver). assert (Hj := ln_out _ _ _ _ _ HL _ _ Hxj).
  assert (Hsub : forall i y, y ∈ <[j := pre ++ post]> C i -> y ∈ C i) by (intros i y Hy; by apply Hel in Hy as [? _]).
  split.
  - intros i Hi. by eapply unlink_chains.
  - intros i. destruct (decide (i = j)) as [->|Hij]; [by eapply (unlink_chains j pre x post q j)|].
    rewrite fn_lookup_insert_ne by done. by eapply ln_nodup.
  - intros i y Hy. eapply ln_out; eauto.
  - intros i y Hy. eapply ln_node; eauto.
  - intros i i' y Hy Hy'. eapply ln_disj; eauto.
  - by eapply ln_addr.
  - intros i y ry Hi Hy. eapply ln_hash; eauto.
  - intros i y y' ry ry' Hi Hy Hy'. eapply ln_key; eauto.
  - intros y ry Hy. eapply ln_free; eauto.
  - intros k d. by eapply unlink_map.
  - intros y Hy. destruct (ln_all _ _ _ _ _ HL y Hy) as [[i Hi]|Ho]; [|right; set_solver].
    destruct (decide (y = x)) as [->|]; [right; set_solver|]. left. exists i. by apply Hel.
  - intros y Hy. apply elem_of_cons in Hy as [->|Hy]; [split; [eauto|]; intros i Hi; by apply Hel in Hi as [_ ?]|].
    destruct (ln_orph _ _ _ _ _ HL y Hy) as [H1 H2]. split; [done|]. intros i Hi. apply (H2 i). eauto.
Qed.

(** *** Rewriting a record that is on no chain, or adding one *)
Lemma links_rewrite x p r' :
  (forall j, x ∉ C j) -> HDR_END <= x -> links (<[x := p]> P) (<[x := r']> R) C m (x :: o).
Proof.
  intros Hx Hax.
  assert (HR : forall i y, y ∈ C i -> <[x := r']> R !! y = R !! y).
  { intros i y Hy. apply lookup_insert_ne. intros ->. by apply (Hx i). }
  split.
  - intros i Hi. apply chain_frame; [|by eapply ln_chain]. intros Hin.
    apply elem_of_cons in Hin as [->|Hin]; [db_lia|by apply (Hx i)].
  - by eapply ln_nodup.
  - by eapply ln_out.
  - intros i y Hy. rewrite (HR i) by done. by eapply ln_node.
  - by eapply ln_disj.
  - intros y [ry Hy]. apply lookup_insert_Some in Hy as [[<- _]|[_ Hy]]; [done|].
    eapply ln_addr; eauto.
  - intros i y ry Hi Hy Hry. rewrite (HR i) in Hry by done. by eapply ln_hash.
  - intros i y y' ry ry' Hi Hy Hy' Hry Hry'. rewrite (HR i) in Hry, Hry' by done. by eapply ln_key.
  - intros y ry Hy Hry. rewrite (HR 0) in Hry by done. by eapply ln_free.
  - intros k d. rewrite (ln_map _ _ _ _ _ HL).
    split; intros (y & ry & Hy & Hry & Hrest); exists y, ry;
      (rewrite (HR _ y Hy) || rewrite (HR _ y Hy) in Hry); done.
  - intros y [ry Hy]. apply lookup_insert_Some in Hy as [[<- _]|[_ Hy]]; [right; set_solver|].
    destruct (ln_all _ _ _ _ _ HL y ltac:(eauto)) as [?|?]; [by left|right; set_solver].
  - intros y Hy. apply elem_of_cons in Hy as [->|Hy].
    + split; [|done]. by rewrite lookup_insert_eq.
    + destruct (ln_orph _ _ _ _ _ HL y Hy) as [H1 H2]. split; [|done].
      apply lookup_insert_is_Some'. auto.
Qed.

(** *** Replacing the data of a linked record *)
Lemma links_set_dat j x r d :
  j <> 0 -> x ∈ C j -> R !! x = Some r ->
  links P (<[x := Rec (r_key r) (r_off r) d]> R) C (<[r_key r := d]> m) o.
Proof.
  intros Hj Hx Hr. set (r' := Rec (r_key r) (r_off r) d).
  assert (HR : forall y ry, <[x := r']> R !! y = Some ry ->
    exists ry0, R !! y = Some ry0 /\ r_key ry0 = r_key ry).
  { intros y ry Hy. apply lookup_insert_Some in Hy as [[<- <-]|[_ Hy]]; eauto. }
  assert (HS : forall y, is_Some (<[x := r']> R !! y) <-> is_Some (R !! y)).
  { intros y. rewrite lookup_insert_is_Some'. split; [intros [<-|?]; eauto|by right]. }
  assert (Hbk : bucket (r_key r) = j) by (by eapply ln_hash).
  split; try by apply HL.
  - intros i y Hy. apply HS. by eapply ln_node.
  - intros y Hy. apply HS in Hy. by eapply ln_addr.
  - intros i y ry Hi Hy Hry. destruct (HR _ _ Hry) as (ry0 & H1 & <-). by eapply ln_hash.
  - intros i y y' ry ry' Hi Hy Hy' Hry Hry' Ek.
    destruct (HR _ _ Hry) as (ry0 & H1 & E1). destruct (HR _ _ Hry') as (ry1 & H2 & E2).
    eapply (ln_key _ _ _ _ _ HL i); eauto. congruence.
  - intros y ry Hy Hry. destruct (HR _ _ Hry) as (ry0 & H1 & <-). by eapply ln_free.
  - intros k e. rewrite lookup_insert_Some, (ln_map _ _ _ _ _ HL). split.
    + intros [[<- <-]|[Hne (y & ry & Hy & Hry & Hk & Hd)]].
      * exists x, r'. rewrite lookup_insert_eq. split_and!; try done. by rewrite Hbk.
      * exists y, ry. rewrite lookup_insert_ne; [done|]. intros ->. congruence.
    + intros (y & ry & Hy & Hry & Hk & Hd).
      apply lookup_insert_Some in Hry as [[<- <-]|[Hne Hry]]; [by left|].
      right. split; [|by exists y, ry]. intros E. apply Hne.
      eapply (ln_key _ _ _ _ _ HL j); [done|done| |done|done|congruence].
      rewrite <- Hbk, E. done.
  - intros y Hy. apply HS in Hy. by eapply ln_all.
  - intros y Hy. destruct (ln_orph _ _ _ _ _ HL y Hy) as [H1 H2]. split; [by apply HS|done].
Qed.
End steps.

(** *** Linking a record in front of a chain *)
Section link.
Context (P : gmap Z Z) (R : gmap Z rec) (C : Z -> list Z) (m : gmap bytes bytes) (o : list Z).
Context (x : Z) (r : rec) (j : Z).
Context (HL : links P R C m (x :: o)) (Hr : R !! x = Some r).
Context (Hx : forall i, x ∉ C i) (Hj : 0 <= j <= NHASH_DEF) (Hp : P !! x = Some (first_of (C j))).

Lemma link_elem i y : y ∈ <[j := x :: C j]> C i <-> (y = x /\ i = j) \/ y ∈ C i.
Proof.
  destruct (decide (i = j)) as [->|Hij].
  - rewrite fn_lookup_insert. set_solver.
  - rewrite fn_lookup_insert_ne by done. naive_solver.
Qed.

Lemma link_chains i :
  0 <= i <= NHASH_DEF -> chain (<[7 * j := x]> P) (7 * i) (<[j := x :: C j]> C i).
Proof.
  intros Hi. assert (Hax : HDR_END <= x) by (eapply ln_addr; eauto). destruct (decide (i = j)) as [->|Hij].
  - rewrite fn_lookup_insert. split_and!.
    + by rewrite lookup_insert_eq.
    + db_lia.
    + apply (chain_ext P _ (7 * j) x); [by eapply ln_chain| |intros y Hy].
      * rewrite lookup_insert_ne by db_lia. rewrite Hp. symmetry. by eapply chain_first, ln_chain.
      * apply lookup_insert_ne. intros <-. exact (head_not_node _ _ _ _ _ HL j j Hj Hy).
  - rewrite fn_lookup_insert_ne by done. apply chain_frame; [|by eapply ln_chain].
    intros Hin. apply elem_of_cons in Hin as [Hin|Hin]; [lia|]. exact (head_not_node _ _ _ _ _ HL i j Hj Hin).
Qed.

(** No record of the chain has the key of the new one. *)
Lemma link_new_key y ry :
  (j <> 0 -> m !! r_key r = None) -> j <> 0 -> y ∈ C j -> R !! y = Some ry -> r_key ry <> r_key r.
Proof.
  intros Hnew Hj0 Hy Hry E. pose proof (chain_key_lookup _ _ _ _ _ HL j y ry Hj0 Hy Hry) as Hm.
  rewrite E, Hnew in Hm; done.
Qed.

Lemma link_map k d :
  (j <> 0 -> bucket (r_key r) = j) -> (j <> 0 -> m !! r_key r = None) ->
  (if decide (j = 0) then m else <[r_key r := r_dat r]> m) !! k = Some d <->
  exists y ry, y ∈ <[j := x :: C j]> C (bucket k) /\ R !! y = Some ry /\ r_key ry = k /\ r_dat ry = d.
Proof.
  intros Hbk Hnew. case_decide as Hj0.
  { rewrite (ln_map _ _ _ _ _ HL). pose proof (bucket_range k). rewrite fn_lookup_insert_ne by lia. done. }
  rewrite lookup_insert_Some, (ln_map _ _ _ _ _ HL). split.
  - intros [[<- <-]|[Hne (y & ry & Hy & Hrest)]].
    + exists x, r. split_and!; try done. apply link_elem. left. split; [done|auto].
    + exists y, ry. split; [|done]. apply link_elem. by right.
  - intros (y & ry & Hy & Hry & Hk & Hd). apply link_elem in Hy as [[-> Ej]|Hy].
    + left. rewrite Hr in Hry. injection Hry as <-. done.
    + right. split; [|by exists y, ry]. intros E. assert (Eb : bucket k = j) by (rewrite <- E; auto).
      eapply (link_new_key y ry); [done|done|by rewrite <- Eb|done|congruence].
Qed.

Lemma links_link_gen m' :
  (j <> 0 -> bucket (r_key r) = j) -> (j = 0 -> all_blank (r_key r) = true) ->
  (j <> 0 -> m !! r_key r = None) ->
  m' = (if decide (j = 0) then m else <[r_key r := r_dat r]> m) ->
  links (<[7 * j := x]> P) R (<[j := x :: C j]> C) m' (filter (fun y => y <> x) o).
Proof.
  intros Hbk Hfr Hnew ->. assert (Hnk := fun y ry => link_new_key y ry Hnew). split.
  - apply link_chains.
  - intros i. destruct (decide (i = j)) as [->|Hij].
    + rewrite fn_lookup_insert. constructor; [apply Hx|by eapply ln_nodup].
    + rewrite fn_lookup_insert_ne by done. by eapply ln_nodup.
  - intros i y Hy. apply link_elem in Hy as [[-> ->]|Hy]; [done|by eapply ln_out].
  - intros i y Hy. apply link_elem in Hy as [[-> ->]|Hy]; [eauto|by eapply ln_node].
  - intros i i' y Hy Hy'.
    apply link_elem in Hy as [[-> ->]|Hy]; apply link_elem in Hy' as [[H1 ->]|Hy']; try done.
    + by apply Hx in Hy'.
    + subst. by apply Hx in Hy.
    + by eapply ln_disj.
  - by eapply ln_addr.
  - intros i y ry Hi Hy Hry. apply link_elem in Hy as [[-> ->]|Hy]; [|by eapply ln_hash].
    rewrite Hr in Hry. injection Hry as <-. auto.
  - intros i y y' ry ry' Hi Hy Hy' Hry Hry' Ek.
    apply link_elem in Hy as [[-> ->]|Hy]; apply link_elem in Hy' as [[-> E2]|Hy']; try done.
    + exfalso. rewrite Hr in Hry. injection Hry as <-. by eapply Hnk.
    + exfalso. subst i. rewrite Hr in Hry'. injection Hry' as <-. by eapply Hnk.
    + by eapply ln_key.
  - intros y ry Hy Hry. apply link_elem in Hy as [[-> Ej]|Hy]; [|by eapply ln_free].
    rewrite Hr in Hry. injection Hry as <-. auto.
  - intros k d. by apply link_map.
  - intros y Hy. destruct (ln_all _ _ _ _ _ HL y Hy) as [[i Hi]|Ho].
    + left. exists i. apply link_elem. by right.
    + destruct (decide (y = x)) as [->|Hne]; [left; exists j; apply link_elem; by left|].
      right. apply list_elem_of_filter. split; [done|]. set_solver.
  - intros y Hy. apply list_elem_of_filter in Hy as [Hne Hy].
    destruct (ln_orph _ _ _ _ _ HL y ltac:(set_solver)) as [H1 H2]. split; [done|].
    intros i Hi. apply link_elem in Hi as [[-> _]|Hi]; [done|by apply (H2 i)].
Qed.
End link.

(** *** Whole updates, on a state with every record on a chain *)
Section whole.
Context (P : gmap Z Z) (R : gmap Z rec) (C : Z -> list Z) (m : gmap bytes bytes).
Context (HL : links P R C m []).

Lemma unlinked_nowhere j pre x post :
  C j = pre ++ x :: post -> forall i, x ∉ <[j := pre ++ post]> C i.
Proof.
  intros HC i Hx. assert (Hxj : x ∈ C j) by (rewrite HC; set_solver).
  assert (Hnd := ln_nodup _ _ _ _ _ HL j). rewrite HC in Hnd.
  destruct (decide (i = j)) as [->|Hij].
  - rewrite fn_lookup_insert in Hx. apply NoDup_app in Hnd as (_ & H1 & H2).
    apply NoDup_cons in H2 as [H2 _]. apply elem_of_app in Hx as [Hx|Hx]; [|done].
    apply (H1 x Hx). set_solver.
  - rewrite fn_lookup_insert_ne in Hx by done. apply Hij. by eapply ln_disj.
Qed.

(** Deletion: the record leaves its chain, is blanked, and heads the free list.  The
    pointers are written in the order of [_db_dodelete]. *)
Lemma links_delete j pre x post q r r' :
  j <> 0 -> C j = pre ++ x :: post -> P !! x = Some q -> R !! x = Some r ->
  all_blank (r_key r') = true ->
  links (<[last_of (7 * j) pre := q]> (<[0 := x]> (<[x := first_of (C 0)]> P))) (<[x := r']> R)
    (<[0 := x :: C 0]> (<[j := pre ++ post]> C)) (delete (r_key r) m) [].
Proof.
  intros Hj HC Hq Hr Hb.
  assert (Hxj : x ∈ C j) by (rewrite HC; set_solver).
  assert (Hjr := ln_out _ _ _ _ _ HL _ _ Hxj).
  assert (Hax : HDR_END <= x) by (by eapply node_addr).
  pose proof (last_of_other_chain _ _ _ _ _ HL 0 j pre x post HC ltac:(done) ltac:(done) Hjr) as Hl0.
  assert (Hlx : last_of (7 * j) pre <> x).
  { destruct (last_of_cases _ _ _ _ _ HL _ _ _ _ HC) as [->|[_ Hin]]; [db_lia|].
    intros Ex. rewrite Ex in Hin. apply (unlinked_nowhere _ _ _ _ HC j).
    rewrite fn_lookup_insert. set_solver. }
  rewrite (insert_insert_ne _ (last_of (7 * j) pre) 0) by set_solver.
  rewrite (insert_insert_ne _ (last_of (7 * j) pre) x) by done.
  pose proof (links_unlink _ _ _ _ _ HL j pre x post q r HC Hq Hr) as H1.
  rewrite decide_False in H1 by done.
  pose proof (unlinked_nowhere _ _ _ _ HC) as Hno.
  pose proof (links_rewrite _ _ _ _ _ H1 x (first_of (C 0)) r' Hno Hax) as H2.
  assert (E0 : <[j := pre ++ post]> C 0 = C 0) by (by apply fn_lookup_insert_ne).
  pose proof (links_link_gen _ _ _ _ _ x r' 0 H2 ltac:(apply lookup_insert_eq) Hno ltac:(done)) as H3.
  rewrite E0 in H3.
  specialize (H3 ltac:(by rewrite lookup_insert_eq) (delete (r_key r) m) ltac:(done) ltac:(done)
    ltac:(done) ltac:(done)).
  replace (filter (λ y, y ≠ x) [x]) with (@nil Z) in H3; [exact H3|].
  by rewrite filter_cons_False by naive_solver.
Qed.

(** Insertion of a record that is on no chain. *)
Lemma links_insert x r p :
  (forall i, x ∉ C i) -> HDR_END <= x -> m !! r_key r = None -> p = first_of (C (bucket (r_key r))) ->
  links (<[7 * bucket (r_key r) := x]> (<[x := p]> P)) (<[x := r]> R)
    (<[bucket (r_key r) := x :: C (bucket (r_key r))]> C) (<[r_key r := r_dat r]> m) [].
Proof.
  intros Hno Hax Hm ->. pose proof (bucket_range (r_key r)) as Hb.
  pose proof (links_rewrite _ _ _ _ _ HL x (first_of (C (bucket (r_key r)))) r Hno Hax) as H2.
  pose proof (links_link_gen _ _ _ _ _ x r (bucket (r_key r)) H2 ltac:(apply lookup_insert_eq) Hno
    ltac:(lia) ltac:(by rewrite lookup_insert_eq) (<[r_key r := r_dat r]> m)) as H3.
  apply H3; try done; [lia|]. by rewrite decide_False by lia.
Qed.
End whole.

(** Insertion of a record taken off the free list. *)
Lemma links_reuse P R C m pre x post q r0 r p :
  links P R C m [] -> C 0 = pre ++ x :: post -> P !! x = Some q -> R !! x = Some r0 ->
  m !! r_key r = None -> p = first_of (C (bucket (r_key r))) ->
  exists C', links (<[7 * bucket (r_key r) := x]> (<[x := p]> (<[last_of 0 pre := q]> P)))
    (<[x := r]> R) C' (<[r_key r := r_dat r]> m) [].
Proof.
  intros HL HC Hq Hr0 Hm ->. pose proof (bucket_range (r_key r)) as Hb.
  assert (Hx0 : x ∈ C 0) by (rewrite HC; set_solver).
  assert (Hax : HDR_END <= x) by (by eapply node_addr).
  pose proof (links_unlink _ _ _ _ _ HL 0 pre x post q r0 HC Hq Hr0) as H1.
  rewrite decide_True in H1 by done.
  pose proof (unlinked_nowhere _ _ _ _ HL 0 pre x post HC) as Hno.
  set (C1 := <[0 := pre ++ post]> C) in *.
  assert (EC : C1 (bucket (r_key r)) = C (bucket (r_key r))) by (apply fn_lookup_insert_ne; lia).
  pose proof (links_rewrite _ _ _ _ _ H1 x (first_of (C (bucket (r_key r)))) r Hno Hax) as H2.
  pose proof (links_link_gen _ _ _ _ _ x r (bucket (r_key r)) H2 ltac:(apply lookup_insert_eq) Hno
    ltac:(lia) ltac:(by rewrite lookup_insert_eq, EC) (<[r_key r := r_dat r]> m)) as H3.
  exists (<[bucket (r_key r) := x :: C1 (bucket (r_key r))]> C1).
  replace (filter (λ y, y ≠ x) [x]) with (@nil Z) in H3
    by (by rewrite filter_cons_False by naive_solver).
  apply H3; try done; [lia|]. by rewrite decide_False by lia.
Qed.
