(* ===== verification/DbOps.v ===== *)
(** * The operations of the database on the abstract map

    Each function of db.c is run on a state whose files are [disk]-shaped and
    [links]-consistent with an abstract map; the result says what it returns and how the
    files, the map, the counters and the locks change. *)

From Stdlib Require Import Strings.Byte ZArith Lia.
From S2P Require Import Prelude Libc Posix SegFile DbModel DbDisk DbRecords DbChain DbLinks.
From stdpp Require Import base strings numbers functions gmap list.
#[local] Open Scope Z_scope.

(** [db_ok] of a handle that differs from a good one in other fields or in equally long buffers. *)
Ltac db_okt H :=
  let H1 := fresh in let H2 := fresh in let H3 := fresh in
  let H4 := fresh in let H5 := fresh in let H6 := fresh in
  destruct H as [H1 H2 H3 H4 H5 H6]; split;
  first [ exact H1 | exact H2 | exact H3 | exact H4 | exact H5 | exact H6
        | refine (eq_trans _ H5); assumption | refine (eq_trans _ H6); assumption ].

Section ops.
Context (E : env) (HE : env_ok E).

Definition chain_lock (key : bytes) (w : bool) : rlock :=
  Rlock (e_ino E) (7 * bucket key) (Some (7 * bucket key + 1)) w.

(** ** Locks *)

Lemma bucket_bound key : 7 <= 7 * bucket key < HDR_LAST + 1.
Proof. pose proof (bucket_range key). db_lia. Qed.

Lemma release_free key w lk :
  quiet (e_ino E) lk ->
  lk_release (e_ino E) 0 (Some 1) (chain_lock key w :: lk) = chain_lock key w :: lk.
Proof.
  intros Hq. pose proof (bucket_bound key). unfold chain_lock.
  rewrite lk_release_cons, lk_release_quiet, lk_minus_above by (done || lia). done.
Qed.

Lemma release_tail key w lk :
  quiet (e_ino E) lk ->
  lk_release (e_ino E) HDR_END None (chain_lock key w :: lk) = chain_lock key w :: lk.
Proof.
  intros Hq. pose proof (bucket_bound key). unfold chain_lock.
  rewrite lk_release_cons, lk_release_quiet, lk_minus_below by (done || db_lia). done.
Qed.

Lemma release_chain key w lk :
  quiet (e_ino E) lk ->
  lk_release (e_ino E) (7 * bucket key) (Some (7 * bucket key + 1)) (chain_lock key w :: lk) = lk.
Proof.
  intros Hq. unfold chain_lock.
  rewrite lk_release_cons, lk_release_quiet, lk_minus_self by (done || simpl; lia). done.
Qed.

Lemma quiet_dat key w lk :
  quiet (e_dno E) lk -> quiet (e_dno E) (chain_lock key w :: lk).
Proof. intros H. destruct HE. constructor; [|done]. simpl. congruence. Qed.

Lemma unlock_chain_ok msg key w db idx dat io do lk er :
  quiet (e_ino E) lk -> idxfd db = e_ifd E -> chainoff db = 7 * bucket key ->
  unlock_chain msg (st E db idx dat io do (chain_lock key w :: lk) er) =
  Ret tt (st E db idx dat io do lk er).
Proof.
  intros Hq H1 H2. unfold unlock_chain. db_norm. rewrite H1, H2.
  pose proof (bucket_bound key). apply or_dump_ok. rewrite unlock_idx by lia.
  change (hi_of _ 1) with (Some (7 * bucket key + 1)). by rewrite release_chain.
Qed.

Section on_disk.
Context (idx dat : bytes) (P : gmap Z Z) (R : gmap Z rec) (g : gmap Z bytes).
Context (C : Z -> list Z) (m : gmap bytes bytes) (o : list Z).
Context (HD : disk idx dat P R g) (HL : links P R C m o).

Lemma idx_fuel_st db io do lk er :
  db_ok E db -> idx_fuel (st E db idx dat io do lk er) = S (length idx).
Proof.
  intros Hdb. unfold idx_fuel, st, st_k, st_db. rewrite (db_ifd _ _ Hdb), kst_ifd.
  unfold o_ino. by rewrite kst_idx.
Qed.

(** ** Finding a record *)

Lemma find_and_lock_ok key (w : bool) db io do lk er :
  db_ok E db -> quiet (e_ino E) lk ->
  exists res db' io',
    _db_find_and_lock key w (st E db idx dat io do lk er) =
      Ret res (st E db' idx dat io' do (chain_lock key w :: lk) er) /\
    db_ok E db' /\ cnt db' = cnt db /\ chainoff db' = 7 * bucket key /\
    ((res = -1 /\ m !! key = None) \/
     (res = 0 /\ exists pre x post r p, C (bucket key) = pre ++ x :: post /\
        R !! x = Some r /\ P !! x = Some p /\ r_key r = key /\
        ptroff db' = last_of (7 * bucket key) pre /\ db_at db' x r p)).
Proof.
  intros Hdb Hq. pose proof (bucket_range key) as Hbr. pose proof (bucket_bound key) as Hbb.
  assert (Ec : _db_hash db key * PTR_SZ + hashoff db = 7 * bucket key).
  { unfold _db_hash, bucket. rewrite (db_nhash _ _ Hdb), (db_hashoff _ _ Hdb).
    unfold PTR_SZ, HASH_OFF, PTR_SZ. lia. }
  unfold _db_find_and_lock. rewrite bind_getst. cbn [st_db st]. rewrite Ec. db_norm.
  rewrite (db_ifd _ _ Hdb), (idx_fuel_st _ _ _ _ _ Hdb).
  set (db1 := set_ptroff (7 * bucket key) (set_chainoff (7 * bucket key) db)).
  assert (Hdb1 : db_ok E db1) by (by destruct Hdb).
  assert (Hlock : (if w
     then or_dump (writew_lock (e_ifd E) (7 * bucket key) SEEK_SET 1) "_db_find_and_lock: writew_lock error"
     else or_dump (readw_lock (e_ifd E) (7 * bucket key) SEEK_SET 1) "_db_find_and_lock: readw_lock error")
     (st E db1 idx dat io do lk er) = Ret tt (st E db1 idx dat io do (chain_lock key w :: lk) er)).
  { destruct w; apply or_dump_ok; unfold writew_lock, readw_lock.
    - rewrite (lock_idx E HE F_SETLKW true) by lia. change (hi_of _ 1) with (Some (7 * bucket key + 1)).
      by rewrite lk_release_quiet.
    - rewrite (lock_idx E HE F_SETLKW false) by lia. change (hi_of _ 1) with (Some (7 * bucket key + 1)).
      by rewrite lk_release_quiet. }
  erewrite bind_ret; [|exact Hlock]. cbv beta.
  assert (Hc : chain P (7 * bucket key) (C (bucket key))) by (eapply ln_chain; [done|lia]).
  erewrite bind_ret; [|eapply readptr_ok; [exact HD|done|by apply chain_first]]. cbv beta.
  assert (HCR : forall x, x ∈ C (bucket key) -> is_Some (R !! x)) by (intros x; by eapply ln_node).
  destruct (find_loop_spec E HE idx dat P R g HD key (C (bucket key)) (7 * bucket key) (S (length idx))
    db1 (7 * bucket key + 7) do (chain_lock key w :: lk) er) as (res & db' & io' & Hrun & Hfr & Hres);
    try done.
  { pose proof (chain_length idx dat P R g HD (C (bucket key)) ltac:(by eapply ln_nodup) HCR). lia. }
  erewrite bind_ret; [|exact Hrun]. cbv beta. destruct Hfr as [Hok Hch Hcnt].
  eexists _, db', io'. split; [done|]. split_and!; [done|by rewrite Hcnt|by rewrite Hch|].
  destruct Hres as [[-> Hno]|(pre & post & r & p & HC & Hne & Hr & Hp & Hk & Hpo & Hat)].
  - left. split; [done|]. by eapply chain_key_None.
  - right. replace (res =? 0) with false by lia. split; [done|].
    exists pre, res, post, r, p. split_and!; done.
Qed.

Lemma found_lookup key pre x post r :
  C (bucket key) = pre ++ x :: post -> R !! x = Some r -> r_key r = key ->
  m !! key = Some (r_dat r).
Proof.
  intros HC Hr <-. pose proof (bucket_range (r_key r)).
  eapply (chain_key_lookup _ _ _ _ _ HL (bucket (r_key r)) x); [lia|rewrite HC; set_solver|done].
Qed.

(** ** Fetching *)

Lemma db_fetch_ok key db io do lk er :
  db_ok E db -> quiet (e_ino E) lk ->
  exists db' io' do',
    db_fetch key (st E db idx dat io do lk er) = Ret (m !! key) (st E db' idx dat io' do' lk er) /\
    db_ok E db' /\
    cnt db' = bump (match m !! key with Some _ => Fetchok | None => Fetcherr end) (cnt db).
Proof.
  intros Hdb Hq. destruct (find_and_lock_ok key false db io do lk er Hdb Hq)
    as (res & db1 & io1 & Hrun & Hok & Hcnt & Hch & Hres).
  unfold db_fetch. rewrite (bind_ret _ _ _ _ _ Hrun).
  destruct Hres as [[-> Hm]|(-> & pre & x & post & r & p & HC & Hr & Hp & Hk & Hpo & Hat)].
  - db_if. db_norm. erewrite bind_ret; [|apply unlock_chain_ok; [done|apply Hok|apply Hch]]. cbv beta.
    rewrite Hm. eexists _, _, _. split; [done|]. split; [by destruct Hok|]. simpl. congruence.
  - db_if. rewrite bind_assoc.
    destruct (readdat_ok E HE idx dat P R g HD db1 x r io1 do (chain_lock key false :: lk) er Hok Hr)
      as (b & Hread & Hbl); [apply Hat|apply Hat|].
    rewrite (bind_ret _ _ _ _ _ Hread). db_norm.
    erewrite bind_ret; [|apply unlock_chain_ok; [done|apply Hok|apply Hch]]. cbv beta.
    assert (Hm : m !! key = Some (r_dat r)).
    { by eapply found_lookup. }
    rewrite Hm. eexists _, _, _. split; [done|]. split; [destruct Hok; split; simpl; congruence|].
    simpl. congruence.
Qed.
End on_disk.

(** ** Deleting *)

Lemma blanks_ok n : key_ok (blanks n) /\ is_cstr (blanks n).
Proof.
  assert (is_cstr (blanks n)) by (by apply Forall_replicate).
  split; [|done]. split; [done|]. intros H'. apply elem_of_replicate in H' as [H' _]. done.
Qed.

Lemma all_blank_blanks n : all_blank (blanks n) = true.
Proof. induction n; [done|]. simpl. done. Qed.

(** The free list lock is taken and given back around the chain lock. *)
Lemma lock_free msg key w db idx dat io do lk er :
  quiet (e_ino E) lk ->
  or_dump (writew_lock (e_ifd E) FREE_OFF SEEK_SET 1) msg
    (st E db idx dat io do (chain_lock key w :: lk) er) =
  Ret tt (st E db idx dat io do (Rlock (e_ino E) 0 (Some 1) true :: chain_lock key w :: lk) er).
Proof.
  intros Hq. apply or_dump_ok. unfold writew_lock. rewrite (lock_idx E HE F_SETLKW true) by done.
  change (hi_of FREE_OFF 1) with (Some 1). by rewrite release_free.
Qed.

Lemma unlock_free msg key w db idx dat io do lk er :
  quiet (e_ino E) lk ->
  or_dump (un_lock (e_ifd E) FREE_OFF SEEK_SET 1) msg
    (st E db idx dat io do (Rlock (e_ino E) 0 (Some 1) true :: chain_lock key w :: lk) er) =
  Ret tt (st E db idx dat io do (chain_lock key w :: lk) er).
Proof.
  intros Hq. apply or_dump_ok. rewrite unlock_idx by done.
  change (hi_of FREE_OFF 1) with (Some 1).
  rewrite lk_release_cons, release_free, lk_minus_self by done. done.
Qed.

(** The buffers of a handle after both are overwritten with blanks. *)
Definition blanked (r : rec) (db : DB) : DB :=
  set_idxbuf (splice 0 (replicate (length (r_key r)) SPACE) (idxbuf db))
    (set_datbuf (splice 0 (replicate (length (r_dat r)) SPACE ++ [NUL]) (datbuf db)) db).

Lemma blanked_ok db x r p :
  db_ok E db -> rec_ok r -> db_at db x r p ->
  db_ok E (blanked r db) /\ cstr (datbuf (blanked r db)) = blanks (length (r_dat r)) /\
  cstr (idxbuf (blanked r db)) = blanks (length (r_key r)) /\
  (length (replicate (length (r_dat r)) SPACE ++ [NUL]) <= length (datbuf db))%nat /\
  (length (replicate (length (r_key r)) SPACE) <= length (idxbuf db))%nat.
Proof.
  intros Hdb Hrok Hat. set (kn := length (r_key r)). set (dn := length (r_dat r)).
  assert (Hkn : (kn < length (idxbuf db))%nat).
  { rewrite (db_ibuf _ _ Hdb). pose proof (ro_body _ Hrok) as Hb. unfold r_body in Hb.
    rewrite len_idx_body in Hb. unfold kn, len, IDXLEN_MAX in *. lia. }
  assert (Hdn : (length (replicate dn SPACE ++ [NUL]) <= length (datbuf db))%nat).
  { rewrite (db_dbuf _ _ Hdb). pose proof (ro_len _ Hrok). unfold dn, DATLEN_MAX in *. len_solve. }
  destruct (cstr_split (idxbuf db)) as [tl Htl]; [by rewrite (at_key _ _ _ _ Hat)|]. rewrite (at_key _ _ _ _ Hat) in Htl.
  split_and!; [| | |done|len_solve].
  - unfold blanked. fold kn dn.
    assert (Hl1 : length (splice 0 (replicate dn SPACE ++ [NUL]) (datbuf db)) = length (datbuf db)) by (apply length_splice; len_solve).
    assert (Hl2 : length (splice 0 (replicate kn SPACE) (idxbuf db)) = length (idxbuf db)) by (apply length_splice; len_solve).
    db_okt Hdb.
  - unfold blanked. dbsimpl. fold dn. rewrite splice_0, <- app_assoc. apply cstr_app_nul, blanks_ok.
  - unfold blanked. dbsimpl. fold kn. rewrite splice_0, Htl. rewrite drop_app_length' by len_solve. apply cstr_app_nul, blanks_ok.
Qed.

Lemma dodelete_ok key j idx dat P R g C m db pre x post r p io do lk er :
  disk idx dat P R g -> links P R C m [] ->
  db_ok E db -> quiet (e_ino E) lk -> j <> 0 ->
  C j = pre ++ x :: post -> R !! x = Some r -> P !! x = Some p ->
  ptroff db = last_of (7 * j) pre -> db_at db x r p ->
  exists db' idx' dat' io' do' P' R' g' C',
    _db_dodelete (st E db idx dat io do (chain_lock key true :: lk) er) =
      Ret tt (st E db' idx' dat' io' do' (chain_lock key true :: lk) er) /\
    db_ok E db' /\ cnt db' = cnt db /\ chainoff db' = chainoff db /\
    disk idx' dat' P' R' g' /\ links P' R' C' (delete (r_key r) m) [] /\
    len idx' = len idx /\ len dat' = len dat.
Proof.
  intros HD HL Hdb Hq Hj HC Hr Hp Hpo Hat.
  destruct (dk_rec _ _ _ _ _ HD _ _ Hr) as (Hrok & _ & Hax & _).
  assert (Hxj : x ∈ C j) by (rewrite HC; set_solver).
  assert (Hjr := ln_out _ _ _ _ _ HL _ _ Hxj).
  (* the two buffers hold blanks *)
  set (kn := length (r_key r)). set (dn := length (r_dat r)).
  destruct (blanked_ok db x r p Hdb Hrok Hat) as (Hdb1 & Hb1 & Hb2 & Hl1 & Hl2). fold kn dn in Hb1, Hb2, Hl1, Hl2.
  unfold _db_dodelete. db_norm. rewrite (at_dlen _ _ _ _ Hat).
  replace (Z.to_nat (len (r_dat r) + 1 - 1)) with dn by (unfold dn, len; lia).
  erewrite bind_ret; [|apply put_datbuf_st; len_solve].
  db_norm. rewrite (at_key _ _ _ _ Hat). fold kn.
  erewrite bind_ret; [|apply put_idxbuf_st; dbsimpl; len_solve].
  db_norm. rewrite (db_ifd _ _ Hdb).
  erewrite bind_ret; [|by apply lock_free]. db_norm.
  change (splice 0 (replicate dn SPACE ++ [NUL]) (datbuf db)) with (datbuf (blanked r db)).
  change (set_idxbuf _ (set_datbuf (datbuf (blanked r db)) db)) with (blanked r db).
  set (db1 := blanked r db) in *. set (b2 := idxbuf db1) in *.
  set (lkf := Rlock (e_ino E) 0 (Some 1) true :: chain_lock key true :: lk).
  (* blank the data record *)
  destruct (writedat_set_ok E HE idx dat P R g HD db1 x r (blanks dn) io do lkf er Hdb1 Hr)
    as (dat1 & do1 & Hw1 & HD1 & Hlen1); [apply length_replicate|apply blanks_ok|].
  rewrite Hb1, (at_doff _ _ _ _ Hat), (bind_ret _ _ _ _ _ Hw1).
  set (db2 := set_datlen (len (blanks dn) + 1) (set_datoff (r_off r) db1)).
  set (r1 := Rec (r_key r) (r_off r) (blanks dn)) in *.
  assert (Hdb2 : db_ok E db2) by (db_okt Hdb1).
  assert (Hr1 : <[x := r1]> R !! x = Some r1) by apply lookup_insert_eq.
  (* the free list head *)
  assert (Hf : P !! 0 = Some (first_of (C 0))).
  { apply (chain_first P (7 * 0)). by eapply ln_chain. }
  erewrite bind_ret; [|eapply readptr_ok; [exact HD1|exact Hdb2|exact Hf]]. db_norm.
  change (ptrval db2) with (ptrval db). change (idxbuf db2) with b2. change (idxoff db2) with (idxoff db).
  rewrite (at_ptr _ _ _ _ Hat), (at_off _ _ _ _ Hat), Hb2.
  (* blank the index record *)
  destruct (writeidx_set_ok E idx dat1 P _ _ HD1 db2 x p (first_of (C 0)) r1 (blanks kn) (FREE_OFF + 7)
    do1 lkf er Hdb2 Hp Hr1) as (idx1 & b3 & io3 & Hw2 & HD2 & Hlen2 & Hl3);
    [by eapply (dk_ptr _ _ _ _ _ HD)|apply blanks_ok|apply length_replicate|done|done|].
  rewrite (bind_ret _ _ _ _ _ Hw2). db_norm. rewrite insert_insert_eq in HD2.
  set (r2 := Rec (blanks kn) (r_off r1) (r_dat r1)) in *.
  set (db3 := set_idxoff x (set_idxbuf b3 (set_ptrval (first_of (C 0)) db2))).
  assert (Hdb3 : db_ok E db3) by (db_okt Hdb2).
  (* the record heads the free list *)
  pose proof (chain_pred P (7 * j) pre x post ltac:(rewrite <- HC; by eapply ln_chain)) as Hpred.
  assert (Hx0 : x <> 0) by db_lia.
  destruct (writeptr_ok E idx1 dat1 _ _ _ HD2 db3 0 (first_of (C 0)) x io3 do1 lkf er Hdb3)
    as (idx2 & Hw3 & HD3 & Hlen3);
    [by rewrite lookup_insert_ne|by eapply (dk_ptr _ _ _ _ _ HD)|].
  rewrite (bind_ret _ _ _ _ _ Hw3). db_norm.
  change (ptroff db3) with (ptroff db). rewrite Hpo.
  (* and leaves its chain *)
  destruct (writeptr_ok E idx2 dat1 _ _ _ HD3 db3 (last_of (7 * j) pre)
    (default 0 (<[0 := x]> (<[x := first_of (C 0)]> P) !! last_of (7 * j) pre)) p (0 + 7) do1 lkf er Hdb3)
    as (idx3 & Hw4 & HD4 & Hlen4); [|by eapply (dk_ptr _ _ _ _ _ HD)|].
  { assert (is_Some (<[0 := x]> (<[x := first_of (C 0)]> P) !! last_of (7 * j) pre)) as [v ->]; [|done].
    rewrite !lookup_insert_is_Some'. right. right. eauto. }
  rewrite (bind_ret _ _ _ _ _ Hw4). unfold lkf. rewrite unlock_free by done.
  pose proof (links_delete P R C m HL j pre x post p r r2 Hj HC Hp Hr (all_blank_blanks _)) as HL'.
  exists db3, idx3, dat1. do 6 eexists.
  split; [done|]. split; [exact Hdb3|]. split_and!; [done|done|exact HD4|exact HL'|lia|lia].
Qed.

(** ** The abstraction: the two files hold the map [m] *)

Definition repr (idx dat : bytes) (m : gmap bytes bytes) : Prop :=
  exists P R g C, disk idx dat P R g /\ links P R C m [].

Lemma repr_header idx dat m : repr idx dat m -> HDR_END <= len idx.
Proof.
  intros (P & R & g & C & HD & HL).
  assert (Hc : chain P (7 * NHASH_DEF) (C NHASH_DEF)) by (by eapply ln_chain).
  apply chain_first in Hc. destruct (disk_bounds _ _ _ _ _ HD _ _ Hc) as [_ Hb].
  unfold payload_at in Hb. destruct (R !! (7 * NHASH_DEF)) as [r|] eqn:HR.
  - destruct (dk_rec _ _ _ _ _ HD _ _ HR) as (_ & _ & H & _). db_lia.
  - change (len (if 7 * NHASH_DEF =? HDR_LAST then [NEWLINE] else [])) with 1 in Hb. db_lia.
Qed.

Lemma db_fetch_repr key m idx dat db io do lk er :
  repr idx dat m -> db_ok E db -> quiet (e_ino E) lk ->
  exists db' io' do',
    db_fetch key (st E db idx dat io do lk er) = Ret (m !! key) (st E db' idx dat io' do' lk er) /\
    db_ok E db' /\
    cnt db' = bump (match m !! key with Some _ => Fetchok | None => Fetcherr end) (cnt db).
Proof. intros (P & R & g & C & HD & HL). by eapply db_fetch_ok. Qed.

Lemma db_delete_repr key m idx dat db io do lk er :
  repr idx dat m -> db_ok E db -> quiet (e_ino E) lk ->
  exists db' idx' dat' io' do',
    db_delete key (st E db idx dat io do lk er) =
      Ret (match m !! key with Some _ => 0 | None => -1 end) (st E db' idx' dat' io' do' lk er) /\
    db_ok E db' /\ repr idx' dat' (delete key m) /\
    len idx' = len idx /\ len dat' = len dat /\
    cnt db' = bump (match m !! key with Some _ => Delok | None => Delerr end) (cnt db).
Proof.
  intros (P & R & g & C & HD & HL) Hdb Hq.
  destruct (find_and_lock_ok idx dat P R g C m [] HD HL key true db io do lk er Hdb Hq)
    as (res & db1 & io1 & Hrun & Hok & Hcnt & Hch & Hres).
  unfold db_delete. rewrite (bind_ret _ _ _ _ _ Hrun).
  destruct Hres as [[-> Hm]|(-> & pre & x & post & r & p & HC & Hr & Hp & Hk & Hpo & Hat)].
  - db_if. db_norm. erewrite bind_ret; [|apply unlock_chain_ok; [done|apply Hok|apply Hch]].
    rewrite Hm. eexists _, idx, dat, _, _. split; [done|]. split; [db_okt Hok|].
    rewrite delete_id by done. split_and!; try done; [by exists P, R, g, C|]. simpl. congruence.
  - pose proof (bucket_range key).
    destruct (dodelete_ok key (bucket key) idx dat P R g C m db1 pre x post r p io1 do lk er)
      as (db2 & idx' & dat' & io' & do' & P' & R' & g' & C' & Hdel & Hdb2 & Hc2 & Hch2 & HD' & HL' & Hl1 & Hl2);
      try done; [lia|].
    db_if. rewrite bind_assoc, (bind_ret _ _ _ _ _ Hdel). db_norm.
    erewrite bind_ret; [|apply unlock_chain_ok; [done|apply Hdb2|dbsimpl; congruence]].
    assert (Hm : m !! key = Some (r_dat r)) by (by eapply (found_lookup _ _ _ _ _ _ _ _ HD HL)).
    rewrite Hm. eexists _, idx', dat', _, _. split; [done|]. split; [db_okt Hdb2|].
    split_and!; try done; [exists P', R', g', C'; by subst key|]. simpl. congruence.
Qed.
End ops.
