(* ===== verification/DbStore.v ===== *)
(** * Storing a record

    [_db_findfree] and the four ways [db_store] writes a record (append, reuse of a free
    record, delete then append, overwrite in place), each run on files that hold a map. *)

From Stdlib Require Import Strings.Byte ZArith Lia.
From S2P Require Import Prelude Libc Posix SegFile DbModel DbDisk DbRecords DbChain DbLinks DbOps.
From stdpp Require Import base strings numbers functions gmap list.
#[local] Open Scope Z_scope.

(** What a key and its data must satisfy for the store to be well defined. *)
Record entry_ok (key data : bytes) : Prop := EntryOk {
  en_key : key_ok key;
  en_klen : 1 <= len key <= 998;
  en_data : is_cstr data;
  en_dlen : 1 <= len data <= 1023
}.

Lemma entry_body key data off :
  entry_ok key data -> 0 <= off <= LONG_MAX ->
  IDXLEN_MIN <= len (idx_body key off (len data + 1)) <= IDXLEN_MAX.
Proof.
  intros [_ Hk _ Hd] Ho. rewrite len_idx_body.
  pose proof (length_dec_le off 19 ltac:(lia) ltac:(unfold LONG_MAX in Ho; lia)).
  pose proof (length_dec_le (len data + 1) 4 ltac:(lia) ltac:(lia)).
  pose proof (length_dec_pos off ltac:(lia)).
  pose proof (length_dec_pos (len data + 1) ltac:(lia)).
  unfold len in *. db_lia.
Qed.

Lemma entry_rec key data off :
  entry_ok key data -> 0 <= off <= LONG_MAX -> rec_ok (Rec key off data).
Proof. intros He Ho. pose proof (entry_body _ _ _ He Ho). by destruct He. Qed.

Section store.
Context (E : env) (HE : env_ok E).

(** ** Taking a record off the free list *)

Lemma findfree_ok key kl dl idx dat P R g C m db io do lk er :
  disk idx dat P R g -> links P R C m [] -> db_ok E db -> quiet (e_ino E) lk ->
  exists res db' idx' io',
    _db_findfree kl dl (st E db idx dat io do (chain_lock E key true :: lk) er) =
      Ret res (st E db' idx' dat io' do (chain_lock E key true :: lk) er) /\
    db_frame E db db' /\ len idx' = len idx /\
    ((res = -1 /\ idx' = idx) \/
     (res = 0 /\ exists pre x post r p, C 0 = pre ++ x :: post /\ R !! x = Some r /\
        P !! x = Some p /\ len (r_key r) = kl /\ len (r_dat r) + 1 = dl /\ db_at db' x r p /\
        disk idx' dat (<[last_of 0 pre := p]> P) R g)).
Proof.
  intros HD HL Hdb Hq.
  assert (Hc : chain P (7 * 0) (C 0)) by (by eapply ln_chain).
  assert (HCR : forall x, x ∈ C 0 -> is_Some (R !! x)) by (intros x; by eapply ln_node).
  unfold _db_findfree. rewrite bind_getst. cbn [st_db st]. rewrite (db_ifd _ _ Hdb).
  rewrite (idx_fuel_st E idx dat) by done. erewrite bind_ret; [|by apply lock_free]. cbv beta.
  erewrite bind_ret; [|eapply readptr_ok; [exact HD|done|by apply (chain_first _ (7 * 0))]]. cbv beta.
  destruct (free_loop_spec E HE idx dat P R g HD kl dl (C 0) (7 * 0) (S (length idx)) db (FREE_OFF + 7) do
    (Rlock (e_ino E) 0 (Some 1) true :: chain_lock E key true :: lk) er)
    as (so & res & db' & io' & Hrun & Hfr & Hres); try done.
  { pose proof (chain_length idx dat P R g HD (C 0) ltac:(by eapply ln_nodup) HCR). lia. }
  erewrite bind_ret; [|exact Hrun]. cbv beta iota.
  destruct Hres as [->|(pre & post & r & p & HC & Hne & Hr & Hp & Hk & Hdl & -> & Hat)].
  - db_if. rewrite bind_ret_l. erewrite bind_ret; [|by apply unlock_free].
    eexists _, db', idx, io'. split; [done|]. split_and!; try done. by left.
  - db_if. db_norm. rewrite (at_ptr _ _ _ _ Hat).
    pose proof (chain_pred P (7 * 0) pre res post ltac:(by rewrite <- HC)) as Hpred.
    destruct (writeptr_ok E idx dat P R g HD db' _ _ p io' do
      (Rlock (e_ino E) 0 (Some 1) true :: chain_lock E key true :: lk) er (fr_ok _ _ _ Hfr) Hpred)
      as (idx' & Hw & HD' & Hl); [by eapply (dk_ptr _ _ _ _ _ HD)|].
    rewrite (bind_ret _ _ _ _ _ Hw). db_norm. erewrite bind_ret; [|by apply unlock_free].
    eexists _, db', idx', _. split; [done|]. split_and!; try done.
    right. split; [done|]. exists pre, res, post, r, p. by split_and!.
Qed.

(** ** Appending a new record to both files *)

Lemma append_ok {B} (k : M St B) key data idx dat P R g C m db io do lk er :
  entry_ok key data -> disk idx dat P R g -> links P R C m [] -> m !! key = None ->
  len idx <= PTR_MAX -> len dat <= LONG_MAX ->
  db_ok E db -> chainoff db = 7 * bucket key -> quiet (e_ino E) lk -> quiet (e_dno E) lk ->
  exists db' idx' dat' io' do',
    (_db_writedat data 0 SEEK_END ;;;
     _db_writeidx key 0 SEEK_END (first_of (C (bucket key))) ;;;
     link_front ;;; k)%c (st E db idx dat io do (chain_lock E key true :: lk) er) =
    k (st E db' idx' dat' io' do' (chain_lock E key true :: lk) er) /\
    db_frame E db db' /\ repr idx' dat' (<[key := data]> m) /\
    len idx' <= len idx + 1035 /\ len dat' = len dat + (len data + 1).
Proof.
  intros He HD HL Hm Hi Hd Hdb Hch Hq Hqd. pose proof (bucket_range key) as Hbr.
  pose proof (len_nonneg dat) as Hd0.
  pose proof (repr_header idx dat m ltac:(by exists P, R, g, C)) as Hhd.
  assert (Hrok : rec_ok (Rec key (len dat) data)) by (apply entry_rec; [done|lia]).
  assert (Hc : P !! (7 * bucket key) = Some (first_of (C (bucket key)))).
  { apply chain_first. eapply ln_chain; [done|lia]. }
  destruct (writedat_end_ok E HE idx dat db data io do (chain_lock E key true :: lk) er Hdb)
    as (do1 & Hw1); [by apply quiet_dat|].
  rewrite (bind_ret _ _ _ _ _ Hw1). destruct (disk_append_dat _ _ _ _ _ HD data) as [HD1 Hgn].
  set (db1 := set_datlen (len data + 1) (set_datoff (len dat) db)).
  assert (Hdb1 : db_ok E db1) by (db_okt Hdb).
  destruct (writeidx_end_ok E HE _ _ _ _ _ HD1 db1 (first_of (C (bucket key))) (Rec key (len dat) data)
    io do1 (chain_lock E key true :: lk) er Hdb1)
    as (idx1 & b & io1 & Hw2 & HD2 & HPn & Hl2 & Hb); try done.
  { by eapply (dk_ptr _ _ _ _ _ HD). }
  { by rewrite lookup_insert_eq. }
  { intros a q Hq' Eo. destruct (dk_rec _ _ _ _ _ HD _ _ Hq') as (_ & _ & _ & Hg). simpl in Eo. congruence. }
  { by apply release_tail. }
  rewrite (bind_ret _ _ _ _ _ Hw2). unfold link_front. db_norm. change (chainoff db1) with (chainoff db). rewrite Hch.
  set (db2 := set_idxoff (len idx) (set_idxbuf b (set_ptrval (first_of (C (bucket key))) db1))).
  assert (Hdb2 : db_ok E db2) by (db_okt Hdb1).
  destruct (writeptr_ok E _ _ _ _ _ HD2 db2 (7 * bucket key) (first_of (C (bucket key))) (len idx) io1 do1
    (chain_lock E key true :: lk) er Hdb2) as (idx2 & Hw3 & HD3 & Hl3).
  { rewrite lookup_insert_ne; [done|]. intros Ex. congruence. }
  { db_lia. }
  rewrite (bind_ret _ _ _ _ _ Hw3). exists db2. do 4 eexists. split; [done|].
  split; [by split|]. pose proof (ro_body _ Hrok). split_and!; [|db_lia|len_solve].
  do 4 eexists. split; [exact HD3|].
  apply (links_insert P R C m HL (len idx) (Rec key (len dat) data)); try done.
  intros i Hx. eapply ln_node in Hx; [|done]. destruct Hx as [q Hx].
  destruct (dk_rec _ _ _ _ _ HD _ _ Hx) as (_ & [v Hv] & _). congruence.
Qed.

(** ** Writing into a record taken off the free list *)

Lemma reuse_ok {B} (k : M St B) key data idx dat P R g C m pre x post r0 p0 db io do lk er :
  entry_ok key data -> disk idx dat (<[last_of 0 pre := p0]> P) R g -> links P R C m [] ->
  m !! key = None -> len idx <= PTR_MAX ->
  C 0 = pre ++ x :: post -> R !! x = Some r0 -> P !! x = Some p0 ->
  len (r_key r0) = len key -> len (r_dat r0) + 1 = len data + 1 ->
  db_ok E db -> chainoff db = 7 * bucket key -> db_at db x r0 p0 ->
  exists db' idx' dat' io' do',
    (d <- field datoff ;;
     _db_writedat data d SEEK_SET ;;;
     o <- field idxoff ;;
     _db_writeidx key o SEEK_SET (first_of (C (bucket key))) ;;;
     link_front ;;; k)%c (st E db idx dat io do lk er) =
    k (st E db' idx' dat' io' do' lk er) /\
    db_frame E db db' /\ repr idx' dat' (<[key := data]> m) /\
    len idx' = len idx /\ len dat' = len dat.
Proof.
  intros He HD HL Hm Hi HC Hr0 Hp0 Hkl Hdl Hdb Hch Hat. pose proof (bucket_range key) as Hbr.
  assert (Hc : P !! (7 * bucket key) = Some (first_of (C (bucket key)))).
  { apply chain_first. eapply ln_chain; [done|lia]. }
  pose proof (last_of_other_chain _ _ _ _ _ HL (bucket key) 0 pre x post HC
    ltac:(lia) ltac:(lia) ltac:(done)) as Hl0.
  assert (Hp2 : <[last_of 0 pre := p0]> P !! (7 * bucket key) = Some (first_of (C (bucket key)))).
  { rewrite lookup_insert_ne; [done|]. intros Ex. apply Hl0. change (7 * 0) with 0.
    rewrite Ex. set_solver. }
  assert (exists p1, <[last_of 0 pre := p0]> P !! x = Some p1) as [p1 Hp1].
  { apply lookup_insert_is_Some'. right. eauto. }
  destruct (disk_bounds _ _ _ _ _ HD _ _ Hp1) as [Hx0 Hxl].
  destruct (dk_rec _ _ _ _ _ HD _ _ Hr0) as (_ & _ & Hxa & _).
  db_norm. rewrite (at_doff _ _ _ _ Hat).
  destruct (writedat_set_ok E HE _ _ _ _ _ HD db x r0 data io do lk er Hdb Hr0)
    as (dat1 & do1 & Hw1 & HD1 & Hl1); [unfold len in Hdl; lia|apply He|].
  rewrite (bind_ret _ _ _ _ _ Hw1). db_norm. rewrite (at_off _ _ _ _ Hat).
  set (db1 := set_datlen (len data + 1) (set_datoff (r_off r0) db)).
  assert (Hdb1 : db_ok E db1) by (db_okt Hdb).
  destruct (writeidx_set_ok E _ _ _ _ _ HD1 db1 x p1 (first_of (C (bucket key)))
    (Rec (r_key r0) (r_off r0) data) key io do1 lk er Hdb1 Hp1)
    as (idx1 & b & io1 & Hw2 & HD2 & Hl2 & Hb); try done.
  { apply lookup_insert_eq. }
  { by eapply (dk_ptr _ _ _ _ _ HD). }
  { apply He. }
  { simpl. unfold len in Hkl. lia. }
  rewrite (bind_ret _ _ _ _ _ Hw2). unfold link_front. db_norm. change (chainoff db1) with (chainoff db). rewrite Hch. cbn [r_off r_dat] in HD2. rewrite insert_insert_eq in HD2.
  set (db2 := set_idxoff x (set_idxbuf b (set_ptrval (first_of (C (bucket key))) db1))).
  assert (Hdb2 : db_ok E db2) by (db_okt Hdb1).
  destruct (writeptr_ok E _ _ _ _ _ HD2 db2 (7 * bucket key) (first_of (C (bucket key))) x io1 do1
    lk er Hdb2) as (idx2 & Hw3 & HD3 & Hl3).
  { rewrite lookup_insert_ne by db_lia. done. }
  { pose proof (len_nonneg (payload_at R x)). lia. }
  rewrite (bind_ret _ _ _ _ _ Hw3). exists db2. do 4 eexists. split; [done|].
  split; [by split|]. split_and!; [|lia|lia].
  destruct (links_reuse P R C m pre x post p0 r0 (Rec key (r_off r0) data) (first_of (C (bucket key))))
    as [C' HL']; try done.
  do 4 eexists. split; [exact HD3|exact HL'].
Qed.

(** ** The result of a store on the map *)

Definition store_res (flag : Z) (m : gmap bytes bytes) (key : bytes) : Z :=
  match m !! key with
  | Some _ => if flag =? DB_INSERT then 1 else 0
  | None => if flag =? DB_REPLACE then -1 else 0
  end.

Definition store_map (flag : Z) (m : gmap bytes bytes) (key data : bytes) : gmap bytes bytes :=
  if store_res flag m key =? 0 then <[key := data]> m else m.

Definition store_errno (flag : Z) (m : gmap bytes bytes) (key : bytes) (er : Z) : Z :=
  if store_res flag m key =? -1 then ENOENT else er.

(** The counter a store increments. *)
Definition store_cnt (flag : Z) (m : gmap bytes bytes) (key data : bytes) (c : counter) : Prop :=
  if store_res flag m key =? 0 then
    match m !! key with
    | None => c = Stor1 \/ c = Stor2
    | Some d => c = if len d =? len data then Stor4 else Stor3
    end
  else c = Storerr.

(** The two branches that write, under the chain lock taken by the lookup. *)
Lemma store_new_ok key data idx dat P R g C m db io do lk er :
  entry_ok key data -> disk idx dat P R g -> links P R C m [] -> m !! key = None ->
  len idx <= PTR_MAX -> len dat <= LONG_MAX ->
  db_ok E db -> chainoff db = 7 * bucket key -> quiet (e_ino E) lk -> quiet (e_dno E) lk ->
  exists db' idx' dat' io' do' c,
    store_new key data (st E db idx dat io do (chain_lock E key true :: lk) er) =
      Ret tt (st E db' idx' dat' io' do' (chain_lock E key true :: lk) er) /\
    db_ok E db' /\ chainoff db' = chainoff db /\ repr idx' dat' (<[key := data]> m) /\
    len idx' <= len idx + 1035 /\ len dat' <= len dat + 1024 /\
    (c = Stor1 \/ c = Stor2) /\ cnt db' = bump c (cnt db).
Proof.
  intros He HD HL Hm Hi Hd Hdb Hch Hq Hqd. pose proof (bucket_range key) as Hbr.
  pose proof (en_dlen _ _ He).
  assert (Hc : P !! (7 * bucket key) = Some (first_of (C (bucket key)))).
  { apply chain_first. eapply ln_chain; [done|lia]. }
  unfold store_new. db_norm. rewrite Hch.
  erewrite bind_ret; [|eapply readptr_ok; [exact HD|done|exact Hc]]. cbv beta.
  destruct (findfree_ok key (len key) (len data + 1) idx dat P R g C m db (7 * bucket key + 7) do lk er
    HD HL Hdb Hq) as (res & db1 & idx1 & io1 & Hrun & Hfr & Hl1 & Hres).
  rewrite (bind_ret _ _ _ _ _ Hrun). destruct Hfr as [Hok1 Hch1 Hcnt1].
  destruct Hres as [[-> ->]|(-> & pre & x & post & r & p & HC & Hr & Hp & Hk & Hdl & Hat & HD1)]; db_if.
  - destruct (append_ok (count Stor1) key data idx dat P R g C m db1 io1 do lk er)
      as (db2 & idx2 & dat2 & io2 & do2 & -> & [Hok2 Hch2 Hcnt2] & Hrep & Hli & Hld); try done; [congruence|].
    exists (set_cnt (bump Stor1 (cnt db2)) db2), idx2, dat2, io2, do2, Stor1. split; [done|].
    split; [db_okt Hok2|]. split_and!; simpl; try done; [congruence|lia|by left|congruence].
  - destruct (reuse_ok (count Stor2) key data idx1 dat P R g C m pre x post r p db1 io1 do
      (chain_lock E key true :: lk) er)
      as (db2 & idx2 & dat2 & io2 & do2 & -> & [Hok2 Hch2 Hcnt2] & Hrep & Hli & Hld); try done; [lia|congruence|].
    exists (set_cnt (bump Stor2 (cnt db2)) db2), idx2, dat2, io2, do2, Stor2. split; [done|].
    split; [db_okt Hok2|]. split_and!; simpl; try done; [congruence|lia|lia|by right|congruence].
Qed.

Lemma store_old_ok key data idx dat P R g C m pre x post r p db io do lk er :
  entry_ok key data -> disk idx dat P R g -> links P R C m [] ->
  len idx <= PTR_MAX -> len dat <= LONG_MAX ->
  db_ok E db -> chainoff db = 7 * bucket key -> quiet (e_ino E) lk -> quiet (e_dno E) lk ->
  C (bucket key) = pre ++ x :: post -> R !! x = Some r -> P !! x = Some p -> r_key r = key ->
  ptroff db = last_of (7 * bucket key) pre -> db_at db x r p ->
  exists db' idx' dat' io' do',
    store_old key data (st E db idx dat io do (chain_lock E key true :: lk) er) =
      Ret tt (st E db' idx' dat' io' do' (chain_lock E key true :: lk) er) /\
    db_ok E db' /\ chainoff db' = chainoff db /\ repr idx' dat' (<[key := data]> m) /\
    len idx' <= len idx + 1035 /\ len dat' <= len dat + 1024 /\
    cnt db' = bump (if len (r_dat r) =? len data then Stor4 else Stor3) (cnt db).
Proof.
  intros He HD HL Hi Hd Hdb Hch Hq Hqd HC Hr Hp Hk Hpo Hat. pose proof (bucket_range key) as Hbr.
  pose proof (en_dlen _ _ He). unfold store_old. db_norm. rewrite (at_dlen _ _ _ _ Hat).
  destruct (Z.eqb_spec (len (r_dat r)) (len data)) as [Hl|Hl]; db_if.
  - db_norm. rewrite (at_doff _ _ _ _ Hat).
    destruct (writedat_set_ok E HE _ _ _ _ _ HD db x r data io do (chain_lock E key true :: lk) er Hdb Hr)
      as (dat1 & do1 & Hw1 & HD1 & Hl1); [unfold len in Hl; lia|apply He|].
    rewrite (bind_ret _ _ _ _ _ Hw1). do 5 eexists. split; [done|]. split; [db_okt Hdb|].
    split_and!; try done; [|lia|lia]. do 4 eexists. split; [exact HD1|]. subst key.
    eapply links_set_dat; [done| |rewrite HC; set_solver|done]. lia.
  - destruct (dodelete_ok E HE key (bucket key) idx dat P R g C m db pre x post r p io do lk er)
      as (db2 & idx' & dat' & io' & do' & P' & R' & g' & C' & Hdel & Hdb2 & Hc2 & Hch2 & HD' & HL' & Hl1 & Hl2);
      try done; [lia|]. rewrite Hk in HL'.
    rewrite (bind_ret _ _ _ _ _ Hdel). db_norm. rewrite Hch2, Hch.
    erewrite bind_ret; [|eapply readptr_ok; [exact HD'|done|apply chain_first; eapply ln_chain; [done|lia]]].
    cbv beta.
    destruct (append_ok (count Stor3) key data idx' dat' P' R' g' C' (delete key m) db2 (7 * bucket key + 7) do' lk er)
      as (db3 & idx3 & dat3 & io3 & do3 & -> & [Hok2 Hch3 Hcnt2] & Hrep & Hli & Hld); try done;
      [apply lookup_delete_eq|lia|lia|congruence|].
    rewrite insert_delete_eq in Hrep.
    exists (set_cnt (bump Stor3 (cnt db3)) db3), idx3, dat3, io3, do3. split; [done|].
    split; [db_okt Hok2|]. split_and!; simpl; try done; [congruence|lia|lia|congruence].
Qed.

(** The body of an operation, followed by the release of the chain lock. *)
Lemma then_unlock {A} (body : M St A) msg key w s rc db idx dat io do lk er :
  quiet (e_ino E) lk -> db_ok E db -> chainoff db = 7 * bucket key ->
  body s = Ret rc (st E db idx dat io do (chain_lock E key w :: lk) er) ->
  (r <- body ;; unlock_chain msg ;;; ret r)%c s = Ret rc (st E db idx dat io do lk er).
Proof.
  intros Hq Hdb Hch Hrun. rewrite (bind_ret _ _ _ _ _ Hrun).
  erewrite bind_ret; [done|]. apply unlock_chain_ok; [done|apply Hdb|done].
Qed.

Lemma db_store_repr key data flag m idx dat db io do lk er :
  entry_ok key data -> repr idx dat m -> len idx <= PTR_MAX -> len dat <= LONG_MAX ->
  flag = DB_INSERT \/ flag = DB_REPLACE \/ flag = DB_STORE ->
  db_ok E db -> quiet (e_ino E) lk -> quiet (e_dno E) lk ->
  exists db' idx' dat' io' do' c,
    db_store key data flag (st E db idx dat io do lk er) =
      Ret (store_res flag m key)
        (st E db' idx' dat' io' do' lk (store_errno flag m key er)) /\
    db_ok E db' /\ repr idx' dat' (store_map flag m key data) /\
    len idx' <= len idx + 1035 /\ len dat' <= len dat + 1024 /\
    store_cnt flag m key data c /\ cnt db' = bump c (cnt db).
Proof.
  intros He Hrep Hi Hd Hfl Hdb Hq Hqd. destruct Hrep as (P & R & g & C & HD & HL).
  pose proof (bucket_range key) as Hbr.
  destruct (find_and_lock_ok E HE idx dat P R g C m [] HD HL key true db io do lk er Hdb Hq)
    as (res & db1 & io1 & Hrun & Hok & Hcnt & Hch & Hres).
  assert (Hfl' : negb (flag =? DB_INSERT) && negb (flag =? DB_REPLACE) && negb (flag =? DB_STORE) = false)
    by (destruct Hfl as [-> | [-> | ->]]; done).
  pose proof (en_dlen _ _ He).
  unfold db_store. rewrite Hfl'. db_if. rewrite (bind_ret _ _ _ _ _ Hrun).
  unfold store_map, store_errno, store_cnt, store_res.
  destruct Hres as [[-> Hm]|(-> & pre & x & post & r & p & HC & Hr & Hp & Hk & Hpo & Hat)].
  - rewrite Hm. db_if. destruct (Z.eqb_spec flag DB_REPLACE) as [->|Hf]; cbv iota.
    + exists (set_cnt (bump Storerr (cnt db1)) db1), idx, dat, io1, do, Storerr.
      split; [apply then_unlock with (key := key) (w := true); try done; db_okt Hok|].
      split; [db_okt Hok|]. split_and!; try lia; [by exists P, R, g, C|done|]. simpl. congruence.
    + destruct (store_new_ok key data idx dat P R g C m db1 io1 do lk er)
        as (db2 & idx2 & dat2 & io2 & do2 & c & Hst & Hok2 & Hch2 & Hrep & Hli & Hld & Hc & Hcnt2); try done.
      exists db2, idx2, dat2, io2, do2, c.
      split; [apply then_unlock with (key := key) (w := true); try done; [congruence|]|].
      * by rewrite (bind_ret _ _ _ _ _ Hst).
      * split_and!; try done. congruence.
  - assert (Hm : m !! key = Some (r_dat r)) by (by eapply (found_lookup E HE)).
    rewrite Hm. db_if. destruct (Z.eqb_spec flag DB_INSERT) as [->|Hf]; cbv iota.
    + exists (set_cnt (bump Storerr (cnt db1)) db1), idx, dat, io1, do, Storerr.
      split; [apply then_unlock with (key := key) (w := true); try done; db_okt Hok|].
      split; [db_okt Hok|]. split_and!; try lia; [by exists P, R, g, C|done|]. simpl. congruence.
    + destruct (store_old_ok key data idx dat P R g C m pre x post r p db1 io1 do lk er)
        as (db2 & idx2 & dat2 & io2 & do2 & Hst & Hok2 & Hch2 & Hrep & Hli & Hld & Hcnt2); try done.
      exists db2, idx2, dat2, io2, do2, (if len (r_dat r) =? len data then Stor4 else Stor3).
      split; [apply then_unlock with (key := key) (w := true); try done; [congruence|]|].
      * by rewrite (bind_ret _ _ _ _ _ Hst).
      * split_and!; try done. congruence.
Qed.
End store.
