(* ===== verification/DbNext.v ===== *)
(** * Sequential access: [db_rewind] and [db_nextrec]

    The index records tile the file behind the hash table; [rec_run] lists them from an
    offset to the end of the file.  [db_nextrec] returns the next record of that list
    whose key is not blank, so that a loop over it enumerates the abstract map. *)

From Stdlib Require Import Strings.Byte ZArith Lia.
From S2P Require Import Prelude Libc Posix SegFile DbModel DbDisk DbRecords DbChain DbLinks DbOps.
From stdpp Require Import base strings numbers functions gmap list.
#[local] Open Scope Z_scope.

Fixpoint rec_run (R : gmap Z rec) (e a : Z) (xs : list Z) : Prop :=
  match xs with
  | [] => a = e
  | x :: xs' => x = a /\ exists r, R !! a = Some r /\ rec_run R e (a + 11 + len (r_body r)) xs'
  end.

(** The records that a scan shows. *)
Definition shown (R : gmap Z rec) (x : Z) : option (bytes * bytes) :=
  r ← R !! x; if all_blank (r_key r) then None else Some (r_key r, r_dat r).

Definition entries (R : gmap Z rec) (xs : list Z) : list (bytes * bytes) := omap (shown R) xs.

Section scan.
Context (E : env) (HE : env_ok E).
Context (idx dat : bytes) (P : gmap Z Z) (R : gmap Z rec) (g : gmap Z bytes).
Context (HD : disk idx dat P R g).

(** ** The records of the file *)

Lemma rec_extent a r :
  R !! a = Some r ->
  a + 11 + len (r_body r) <= len idx /\
  (a + 11 + len (r_body r) = len idx \/ is_Some (P !! (a + 11 + len (r_body r)))) /\
  forall b, is_Some (P !! b) -> a < b -> a + 11 + len (r_body r) <= b.
Proof.
  intros Hr. destruct (dk_rec _ _ _ _ _ HD _ _ Hr) as (Hrok & [p Hp] & Ha & _).
  destruct (dk_idx _ _ _ _ _ HD) as (m & Hm & Hma). pose proof (Hma a) as Hs.
  rewrite Hp in Hs. simpl in Hs. unfold payload_at in Hs. rewrite Hr in Hs.
  assert (El : len (ptr_field p ++ payload r) = 11 + len (r_body r)).
  { rewrite len_app, len_ptr_field, len_payload by (done || by eapply (dk_ptr _ _ _ _ _ HD)). lia. }
  destruct (seg_rep_bounds _ _ _ _ Hm Hs) as (_ & Hb & _).
  destruct (seg_rep_next _ _ _ _ Hm Hs) as [Hn|Hn]; rewrite El in Hb, Hn; split_and!; try lia.
  - intros b [q Hq] Hlt. specialize (Hma b). rewrite Hq in Hma. simpl in Hma.
    pose proof (seg_rep_disjoint _ _ _ _ _ _ Hm Hs Hma Hlt). lia.
  - right. rewrite Hma, fmap_is_Some in Hn. by rewrite Z.add_assoc in Hn.
  - intros b [q Hq] Hlt. specialize (Hma b). rewrite Hq in Hma. simpl in Hma.
    pose proof (seg_rep_disjoint _ _ _ _ _ _ Hm Hs Hma Hlt). lia.
Qed.

Lemma rec_run_exists n a :
  len idx - a <= Z.of_nat n -> HDR_END <= a -> a = len idx \/ is_Some (P !! a) ->
  exists xs, rec_run R (len idx) a xs /\ NoDup xs /\
    forall x, x ∈ xs <-> a <= x /\ is_Some (R !! x).
Proof.
  revert a. induction n as [|n IH]; intros a Hn Ha Hc.
  all: destruct (decide (a = len idx)) as [->|Hne].
  1,3: exists []; split; [done|]; split; [constructor|]; intros x; split; [set_solver|];
    intros [Hx [r Hr]]; destruct (rec_extent _ _ Hr) as [? _]; pose proof (len_nonneg (r_body r)); lia.
  all: destruct Hc as [?|[p Hp]]; [done|];
    destruct (dk_all _ _ _ _ _ HD _ _ Hp Ha) as [r Hr]; destruct (rec_extent _ _ Hr) as (Hb & Hnx & Hd);
    pose proof (len_nonneg (r_body r)) as Hl; try lia.
  destruct (IH (a + 11 + len (r_body r))) as (xs & Hrun & Hnd & Hin); [lia|lia|done|].
  exists (a :: xs). split; [split; [done|]; by exists r|]. split.
  - constructor; [|done]. rewrite Hin. lia.
  - intros x. rewrite elem_of_cons, Hin. split.
    + intros [->|[? ?]]; [split; [lia|by exists r]|split; [lia|done]].
    + intros [Hx Hs]. destruct (decide (x = a)) as [->|Hxa]; [by left|]. right. split; [|done].
      apply Hd; [|lia]. destruct Hs as [q Hq]. by destruct (dk_rec _ _ _ _ _ HD _ _ Hq) as (_ & ? & _).
Qed.

(** ** One call *)

Lemma readidx_eof db io do lk er :
  db_ok E db -> io = len idx ->
  _db_readidx 0 (st E db idx dat io do lk er) =
  Ret (-1) (st E (set_idxoff io db) idx dat io do lk er).
Proof.
  intros Hdb ->. pose proof (len_nonneg idx). unfold _db_readidx. db_norm. rewrite (db_ifd _ _ Hdb).
  change (if 0 =? 0 then SEEK_CUR else SEEK_SET) with SEEK_CUR.
  erewrite bind_ret; [|by apply lseek_cur_idx]. db_norm. db_if.
  erewrite bind_ret; [|apply read_idx; by apply file_read_eof]. cbv beta iota.
  by rewrite Z.add_0_r.
Qed.

Lemma next_loop_ok xs a fuel db do lk er :
  db_ok E db -> rec_run R (len idx) a xs -> (length xs < fuel)%nat ->
  exists res db' io', next_loop fuel (st E db idx dat a do lk er) =
    Ret res (st E db' idx dat io' do lk er) /\ db_frame E db db' /\
    ((res = false /\ entries R xs = [] /\ io' = len idx) \/
     (res = true /\ exists x r p post, R !! x = Some r /\ db_at db' x r p /\
        rec_run R (len idx) io' post /\ (length post < length xs)%nat /\
        entries R xs = (r_key r, r_dat r) :: entries R post)).
Proof.
  revert a fuel db. induction xs as [|x xs IH]; intros a fuel db Hdb Hrun Hf.
  all: destruct fuel as [|fuel]; [simpl in Hf; lia|]; cbn [next_loop].
  - simpl in Hrun. erewrite bind_ret; [|by apply readidx_eof].
    exists false, (set_idxoff a db), a. split; [done|]. split; [split; try done; db_okt Hdb|]. by left.
  - destruct Hrun as [-> (r & Hr & Hrun)].
    destruct (dk_rec _ _ _ _ _ HD _ _ Hr) as (Hrok & [p Hp] & Ha & _).
    pose proof (dk_ptr _ _ _ _ _ HD _ _ Hp).
    destruct (readidx_ok E idx dat P R g HD db a p r 0 a do lk er Hdb Hp Hr ltac:(by right))
      as (b & Hread & Hbl & Hkey).
    rewrite (bind_ret _ _ _ _ _ Hread). db_if. db_norm. cbn [idxbuf rd_db]. rewrite Hkey.
    pose proof (rd_db_frame E b a r p db Hdb Hbl) as Hfr.
    destruct (all_blank (r_key r)) eqn:Hbk.
    + destruct (IH (a + 11 + len (r_body r)) fuel (rd_db b a r p db) (fr_ok _ _ _ Hfr) Hrun)
        as (res & db' & io' & Hgo & Hfr' & Hres); [simpl in Hf; lia|].
      exists res, db', io'. split; [done|]. split; [by eapply db_frame_trans|].
      assert (Ee : entries R (a :: xs) = entries R xs) by (unfold entries, shown; simpl; by rewrite Hr; simpl; rewrite Hbk).
      rewrite Ee. destruct Hres as [?|(? & x & r' & p' & post & ? & ? & ? & ? & ?)]; [by left|].
      right. split; [done|]. exists x, r', p', post. split_and!; try done. simpl. lia.
    + do 3 eexists. split; [done|]. split; [done|]. right. split; [done|].
      exists a, r, p, xs. split_and!; try done; [simpl; lia|].
      unfold entries, shown. simpl. rewrite Hr. simpl. by rewrite Hbk.
Qed.

Lemma rec_run_fuel xs a :
  rec_run R (len idx) a xs -> 0 <= a -> (length xs <= length idx)%nat.
Proof.
  intros H Ha. assert (Z.of_nat (length xs) <= len idx - a); [|unfold len in *; lia].
  revert a H Ha. induction xs as [|x xs IH]; intros a H Ha; simpl in H; [simpl; lia|].
  destruct H as [-> (r & Hr & H)]. apply IH in H; simpl; pose proof (len_nonneg (r_body r)); lia.
Qed.

Lemma db_nextrec_ok xs a db do lk er :
  db_ok E db -> quiet (e_ino E) lk -> rec_run R (len idx) a xs -> 0 <= a ->
  exists db' io' do' xs',
    db_nextrec true (st E db idx dat a do lk er) =
      Ret (match entries R xs with [] => (None, None) | (k, d) :: _ => (Some d, Some k) end)
        (st E db' idx dat io' do' lk er) /\
    db_ok E db' /\ rec_run R (len idx) io' xs' /\ 0 <= io' /\
    entries R xs' = tail (entries R xs) /\
    cnt db' = (if decide (entries R xs = []) then cnt db else bump Nextrec (cnt db)).
Proof.
  intros Hdb Hq Hrun Ha. pose proof (rec_run_fuel _ _ Hrun Ha) as Hf. pose proof (len_nonneg idx).
  unfold db_nextrec. rewrite bind_getst. cbn [st_db st]. rewrite (db_ifd _ _ Hdb), (idx_fuel_st E) by done.
  set (lkf := Rlock (e_ino E) 0 (Some 1) false :: lk).
  assert (Hlock : forall d msg i o, or_dump (readw_lock (e_ifd E) FREE_OFF SEEK_SET 1) msg (st E d idx dat i o lk er) =
    Ret tt (st E d idx dat i o lkf er)).
  { intros d msg i o. apply or_dump_ok. unfold readw_lock. rewrite (lock_idx E HE F_SETLKW false) by done.
    change (hi_of FREE_OFF 1) with (Some 1). by rewrite lk_release_quiet. }
  assert (Hunlock : forall d msg i o, or_dump (un_lock (e_ifd E) FREE_OFF SEEK_SET 1) msg (st E d idx dat i o lkf er) =
    Ret tt (st E d idx dat i o lk er)).
  { intros d msg i o. apply or_dump_ok. rewrite unlock_idx by done.
    change (hi_of FREE_OFF 1) with (Some 1). unfold lkf.
    rewrite lk_release_cons, lk_release_quiet, lk_minus_self by done. done. }
  erewrite bind_ret; [|apply Hlock]. cbv beta.
  destruct (next_loop_ok xs a (S (length idx)) db do lkf er Hdb Hrun ltac:(lia))
    as (res & db1 & io1 & Hgo & [Hok1 Hch1 Hcnt1] & Hres).
  rewrite (bind_ret _ _ _ _ _ Hgo).
  destruct Hres as [(-> & -> & ->)|(-> & x & r & p & post & Hr & Hat & Hpost & _ & ->)]; cbn [negb].
  - rewrite bind_ret_l. erewrite bind_ret; [|apply Hunlock].
    exists db1, (len idx), do, []. split_and!; try done.
  - destruct (readdat_ok E HE idx dat P R g HD db1 x r io1 do lkf er Hok1 Hr)
      as (b & Hread & Hbl); [apply Hat|apply Hat|].
    db_norm. rewrite (bind_ret _ _ _ _ _ Hread). db_norm.
    rewrite (at_key _ _ _ _ Hat). erewrite bind_ret; [|apply Hunlock].
    do 3 eexists. exists post. split; [done|]. split; [db_okt Hok1|]. split_and!; try done.
    + destruct post as [|y post]; simpl in Hpost; [lia|]. destruct Hpost as [_ (q & Hq' & _)].
      destruct (dk_rec _ _ _ _ _ HD _ _ Hq') as (_ & _ & ? & _). db_lia.
    + simpl. congruence.
Qed.
End scan.

(** ** The whole scan *)

(** What a caller sees that rewinds and calls [db_nextrec] until it returns NULL. *)
Fixpoint db_scan (fuel : nat) : M St (list (bytes * bytes)) :=
  match fuel with
  | O => fun _ => NoFuel
  | S f =>
    p <- db_nextrec true ;;
    match p with
    | (Some d, Some k) => l <- db_scan f ;; ret ((k, d) :: l)
    | _ => ret []
    end
  end.

Lemma entries_shown R xs k d :
  (k, d) ∈ entries R xs <-> exists x r, x ∈ xs /\ R !! x = Some r /\ r_key r = k /\ r_dat r = d /\
    all_blank k = false.
Proof.
  unfold entries. rewrite list_elem_of_omap. split.
  - intros (x & Hx & Hs). unfold shown in Hs. destruct (R !! x) as [r|] eqn:Hr; [|done]. simpl in Hs.
    destruct (all_blank (r_key r)) eqn:Hb; [done|]. simplify_eq. exists x, r. by split_and!.
  - intros (x & r & Hx & Hr & <- & <- & Hb). exists x. split; [done|]. unfold shown. rewrite Hr. simpl.
    by rewrite Hb.
Qed.

Definition visible (m : gmap bytes bytes) : gmap bytes bytes :=
  filter (fun kd => all_blank kd.1 = false) m.

Lemma entries_map P R C m xs :
  links P R C m [] -> NoDup xs -> (forall x, x ∈ xs <-> is_Some (R !! x)) ->
  entries R xs ≡ₚ map_to_list (visible m).
Proof.
  intros HL Hnd Hin.
  assert (Hact : forall x r, R !! x = Some r -> all_blank (r_key r) = false -> x ∈ C (bucket (r_key r))).
  { intros x r Hr Hb. destruct (ln_all _ _ _ _ _ HL x) as [[j Hj]|Hj]; [eauto| |set_solver].
    destruct (decide (j = 0)) as [->|Hj0].
    - pose proof (ln_free _ _ _ _ _ HL _ _ Hj Hr). congruence.
    - by rewrite (ln_hash _ _ _ _ _ HL _ _ _ Hj0 Hj Hr). }
  apply NoDup_Permutation; [|apply NoDup_map_to_list|].
  - clear Hin. induction Hnd as [|x xs Hx _ IH]; [constructor|]. unfold entries in *. simpl.
    destruct (shown R x) as [[k d]|] eqn:Hs; [|done]. constructor; [|done].
    intros Hkd. apply entries_shown in Hkd as (y & ry & Hy & Hry & Ek & Ed & Hb).
    unfold shown in Hs. destruct (R !! x) as [r|] eqn:Hr; [|done]. simpl in Hs.
    destruct (all_blank (r_key r)) eqn:Hbr; [done|]. injection Hs as <- <-. apply Hx.
    pose proof (bucket_range (r_key r)).
    rewrite (ln_key _ _ _ _ _ HL (bucket (r_key r)) x y r ry); try done; [lia|by apply Hact|].
    rewrite <- Ek. apply Hact; [done|congruence].
  - intros [k d]. rewrite entries_shown, elem_of_map_to_list. unfold visible.
    rewrite map_lookup_filter_Some. simpl. rewrite (ln_map _ _ _ _ _ HL). split.
    + intros (x & r & Hx & Hr & <- & <- & Hb). split; [|done]. exists x, r. split_and!; auto.
    + intros [(x & r & Hx & Hr & <- & <-) Hb]. exists x, r. split_and!; try done. apply Hin. eauto.
Qed.

Section scan_all.
Context (E : env) (HE : env_ok E).

Lemma db_rewind_ok db idx dat io do lk er :
  db_ok E db ->
  db_rewind (st E db idx dat io do lk er) = Ret tt (st E (set_idxoff HDR_END db) idx dat HDR_END do lk er).
Proof.
  intros Hdb. unfold db_rewind. db_norm. rewrite (db_ifd _ _ Hdb), (db_nhash _ _ Hdb).
  change ((NHASH_DEF + 1) * PTR_SZ + 1) with HDR_END.
  erewrite bind_ret; [|by apply lseek_set_idx]. db_norm. done.
Qed.

Lemma db_scan_ok n idx dat P R g xs a db do lk er :
  disk idx dat P R g -> db_ok E db -> quiet (e_ino E) lk -> rec_run R (len idx) a xs -> 0 <= a ->
  (length (entries R xs) < n)%nat ->
  exists db' io' do', db_scan n (st E db idx dat a do lk er) =
    Ret (entries R xs) (st E db' idx dat io' do' lk er) /\ db_ok E db'.
Proof.
  intros HD. revert xs a db do. induction n as [|n IH]; intros xs a db do Hdb Hq Hrun Ha Hn; [lia|].
  destruct (db_nextrec_ok E HE idx dat P R g HD xs a db do lk er Hdb Hq Hrun Ha)
    as (db1 & io1 & do1 & xs' & Hgo & Hok & Hrun' & Hio & Ht & _).
  cbn [db_scan]. rewrite (bind_ret _ _ _ _ _ Hgo).
  destruct (entries R xs) as [|[k d] es] eqn:Ee; [by exists db1, io1, do1|].
  destruct (IH xs' io1 db1 do1) as (db2 & io2 & do2 & Hgo2 & Hok2); try done.
  { rewrite Ht. simpl in *. lia. }
  rewrite (bind_ret _ _ _ _ _ Hgo2). exists db2, io2, do2. split; [|done]. by rewrite Ht.
Qed.

Lemma header_end idx dat P R g C m :
  disk idx dat P R g -> links P R C m [] -> HDR_END = len idx \/ is_Some (P !! HDR_END).
Proof.
  intros HD HL. assert (Hc : P !! HDR_LAST = Some (first_of (C NHASH_DEF))).
  { apply chain_first. by apply (ln_chain _ _ _ _ _ HL NHASH_DEF). }
  destruct (dk_idx _ _ _ _ _ HD) as (mm & Hm & Hma). pose proof (Hma HDR_LAST) as Hs.
  rewrite Hc in Hs. simpl in Hs. unfold payload_at in Hs.
  assert (HR : R !! HDR_LAST = None).
  { destruct (R !! HDR_LAST) as [r|] eqn:HR; [|done].
    destruct (dk_rec _ _ _ _ _ HD _ _ HR) as (_ & _ & H & _). db_lia. }
  rewrite HR in Hs. change (if HDR_LAST =? HDR_LAST then [NEWLINE] else []) with [NEWLINE] in Hs.
  assert (El : len (ptr_field (first_of (C NHASH_DEF)) ++ [NEWLINE]) = 8).
  { rewrite len_app, len_ptr_field by (by eapply (dk_ptr _ _ _ _ _ HD)). done. }
  apply (seg_rep_next idx mm) in Hs; [|done]. rewrite El in Hs. change (HDR_LAST + 8) with HDR_END in Hs.
  rewrite Hma, fmap_is_Some in Hs. done.
Qed.

(** Rewinding and scanning lists the visible part of the map. *)
Lemma db_scan_repr n m idx dat db io do lk er :
  repr idx dat m -> db_ok E db -> quiet (e_ino E) lk -> (size m < n)%nat ->
  exists l db' io' do', (db_rewind ;;; db_scan n)%c (st E db idx dat io do lk er) =
    Ret l (st E db' idx dat io' do' lk er) /\ db_ok E db' /\ l ≡ₚ map_to_list (visible m).
Proof.
  intros (P & R & g & C & HD & HL) Hdb Hq Hn.
  destruct (rec_run_exists E HE idx dat P R g HD (Z.to_nat (len idx)) HDR_END) as (xs & Hrun & Hnd & Hin);
    [db_lia|done|by eapply header_end|].
  assert (Hperm : entries R xs ≡ₚ map_to_list (visible m)).
  { eapply entries_map; [done|done|]. intros x. rewrite Hin. split; [tauto|]. intros Hs.
    split; [|done]. by eapply (ln_addr _ _ _ _ _ HL). }
  rewrite (bind_ret _ _ _ _ _ (db_rewind_ok db idx dat io do lk er Hdb)).
  destruct (db_scan_ok n idx dat P R g xs HDR_END (set_idxoff HDR_END db) do lk er HD) as (db' & io' & do' & Hgo & Hok);
    try done; [db_okt Hdb| |].
  - rewrite Hperm, length_map_to_list. unfold visible. eapply Nat.le_lt_trans; [apply map_size_filter|done].
  - exists (entries R xs), db', io', do'. done.
Qed.
End scan_all.
