(* ===== verification/DbOpen.v ===== *)
(** * Opening and closing a database

    [db_open] with [O_RDWR|O_CREAT|O_TRUNC] makes files that hold the empty map, whatever
    the directory held before; [db_open] with [O_RDWR] on files that hold a map gives a
    handle on that map; [db_close] leaves the files as they are. *)

From Stdlib Require Import Strings.Byte ZArith Lia.
From S2P Require Import Prelude Libc Posix SegFile DbModel DbDisk DbRecords DbChain DbLinks DbOps DbNext.
From stdpp Require Import base strings numbers functions gmap list.
#[local] Open Scope Z_scope.

(** ** The initial index file *)

Definition init_segs : list bytes :=
  replicate 137 (ptr_field 0) ++ [ptr_field 0 ++ [NEWLINE]].

Definition init_ptrs : gmap Z Z := (fun _ => 0) <$> seg_map 0 init_segs.

Lemma init_segs_join : mjoin init_segs = init_hash.
Proof. by vm_compute. Qed.

Lemma init_ptrs_segs :
  seg_map 0 init_segs = map_imap (fun a p => Some (ptr_field p ++ payload_at ∅ a)) init_ptrs.
Proof. by vm_compute. Qed.

Lemma init_heads j : 0 <= j <= NHASH_DEF -> init_ptrs !! (7 * j) = Some 0.
Proof.
  intros Hj. assert (Hall : forallb (fun j => bool_decide (init_ptrs !! (7 * j) = Some 0)) (seqZ 0 138) = true)
    by (by vm_compute).
  rewrite forallb_forall in Hall. eapply bool_decide_eq_true_1, Hall, list_elem_of_In, elem_of_seqZ.
  unfold NHASH_DEF in Hj. lia.
Qed.

Lemma init_ptrs_zero a p : init_ptrs !! a = Some p -> p = 0 /\ a < HDR_END.
Proof.
  intros Ha. unfold init_ptrs in Ha. rewrite lookup_fmap, fmap_Some in Ha. destruct Ha as (s & Hs & ->).
  split; [done|]. assert (Hrep : seg_rep init_hash (seg_map 0 init_segs)).
  { exists init_segs; [|by rewrite init_segs_join|done]. by apply (bool_decide_unpack _). }
  apply (seg_rep_bounds init_hash) in Hs; [|done]. change (len init_hash) with HDR_END in Hs. lia.
Qed.

Lemma init_disk : disk init_hash [] init_ptrs ∅ ∅.
Proof.
  split.
  - exists (seg_map 0 init_segs). split.
    + exists init_segs; [|by rewrite init_segs_join|done]. by apply (bool_decide_unpack _).
    + intros a. rewrite init_ptrs_segs, map_lookup_imap. by destruct (init_ptrs !! a).
  - by exists [].
  - intros a p Ha. apply init_ptrs_zero in Ha as [-> _]. done.
  - intros a r Hr. by rewrite lookup_empty in Hr.
  - intros a b r r' Hr. by rewrite lookup_empty in Hr.
  - intros a p Ha Hlt. apply init_ptrs_zero in Ha as [_ ?]. lia.
Qed.

Lemma init_links : links init_ptrs ∅ (fun _ => []) ∅ [].
Proof.
  assert (Hno : forall x, is_Some ((∅ : gmap Z rec) !! x) -> False).
  { intros x [r Hr]. by rewrite lookup_empty in Hr. }
  split; try (by intros *; set_solver).
  - intros j Hj. by apply init_heads.
  - constructor.
Qed.

Lemma init_repr : repr init_hash [] ∅.
Proof. exists init_ptrs, ∅, ∅, (fun _ => []). split; [apply init_disk|apply init_links]. Qed.

(** ** Kernels *)

(** Distinct names have distinct inodes, below the next one to be given out. *)
Record kernel_ok (k : kernel) : Prop := KernelOk {
  ko_inj : forall p q i, k_dir k !! p = Some i -> k_dir k !! q = Some i -> p = q;
  ko_lt : forall p i, k_dir k !! p = Some i -> i < k_nextino k;
  ko_locks : Forall (fun l => l_ino l < k_nextino k) (k_locks k ++ k_others k)
}.

(** No process holds a lock on the file. *)
Definition unlocked (k : kernel) (path : bytes) : Prop :=
  forall i, k_dir k !! path = Some i -> Forall (fun l => l_ino l <> i) (k_locks k ++ k_others k).

Definition idx_name (path : bytes) : bytes := path ++ bs ".idx".
Definition dat_name (path : bytes) : bytes := path ++ bs ".dat".

Lemma names_differ path : idx_name path <> dat_name path.
Proof. unfold idx_name, dat_name. intros H. by apply app_inv_head in H. Qed.

Definition DB_CREATE : Z := Z.lor O_RDWR (Z.lor O_CREAT O_TRUNC).

(** Opening with [O_RDWR|O_CREAT|O_TRUNC] gives an empty file. *)
Lemma sys_open_create path k :
  kernel_ok k -> unlocked k path ->
  exists ino next',
    sys_open path DB_CREATE k =
      (new_fd (k_fds k),
       Kernel (<[path := ino]> (k_dir k)) (<[ino := []]> (k_files k)) next'
         (<[new_fd (k_fds k) := Ofd ino 0 true true false]> (k_fds k))
         (k_locks k) (k_others k) (k_errno k)) /\
    kernel_ok (Kernel (<[path := ino]> (k_dir k)) (<[ino := []]> (k_files k)) next'
         (<[new_fd (k_fds k) := Ofd ino 0 true true false]> (k_fds k))
         (k_locks k) (k_others k) (k_errno k)) /\
    Forall (fun l => l_ino l <> ino) (k_locks k ++ k_others k) /\
    (k_dir k !! path = Some ino \/ ino = k_nextino k).
Proof.
  intros [Hinj Hlt Hlk] Hun. unfold sys_open. destruct (k_dir k !! path) as [ino|] eqn:Hp.
  - exists ino, (k_nextino k). rewrite (insert_id (k_dir k)) by done.
    split_and!; [by destruct k| |by apply Hun|by left]. split; try done.
  - exists (k_nextino k), (k_nextino k + 1). split; [done|]. split; [split; simpl|split].
    + intros p q i Hi Hj. apply lookup_insert_Some in Hi as [[<- <-]|[Hn Hi]];
        apply lookup_insert_Some in Hj as [[<- Hj]|[Hn' Hj]]; try done.
      * apply Hlt in Hj. lia.
      * subst i. apply Hlt in Hi. lia.
      * by eapply Hinj.
    + intros p i Hi. apply lookup_insert_Some in Hi as [[_ <-]|[_ Hi]]; [lia|]. apply Hlt in Hi. lia.
    + eapply Forall_impl; [exact Hlk|]. intros l Hl. simpl in Hl. lia.
    + eapply Forall_impl; [exact Hlk|]. intros l Hl. simpl in Hl. lia.
    + by right.
Qed.

Lemma sys_open_existing path k ino :
  k_dir k !! path = Some ino ->
  sys_open path O_RDWR k =
    (new_fd (k_fds k), set_fds (<[new_fd (k_fds k) := Ofd ino 0 true true false]> (k_fds k)) k).
Proof. intros Hp. unfold sys_open. rewrite Hp. by destruct k. Qed.

(** The handle of a database that is open under [path]. *)
Record opened (E : env) (path : bytes) : Prop := Opened {
  op_ok : env_ok E;
  op_idx : e_dir E !! idx_name path = Some (e_ino E);
  op_dat : e_dir E !! dat_name path = Some (e_dno E);
  op_inj : forall p q i, e_dir E !! p = Some i -> e_dir E !! q = Some i -> p = q;
  op_lt : forall p i, e_dir E !! p = Some i -> i < e_next E;
  op_others : Forall (fun l => l_ino l < e_next E) (e_others E)
}.

Definition quiet_db (E : env) (lk : list rlock) : Prop :=
  quiet (e_ino E) lk /\ quiet (e_dno E) lk /\ Forall (fun l => l_ino l < e_next E) lk.

Definition new_db (path : bytes) (ifd dfd : Z) : DB :=
  set_datfd dfd (set_idxfd ifd (set_dbname (dat_name path ++ [NUL])
    (set_hashoff HASH_OFF (set_nhash NHASH_DEF (_db_alloc (len path)))))).

Lemma new_db_ok E path : db_ok E (new_db path (e_ifd E) (e_dfd E)).
Proof. split; try done; apply length_replicate. Qed.

(** The initialisation of an empty index file. *)
Lemma db_open_init_ok E db dat lk er :
  env_ok E -> db_ok E db -> quiet (e_ino E) lk ->
  db_open_init (st E db [] dat 0 0 lk er) = Ret tt (st E db init_hash dat HDR_END 0 lk er).
Proof.
  intros HE Hdb Hq. unfold db_open_init. db_norm. rewrite (db_ifd _ _ Hdb).
  erewrite bind_ret; [|apply or_dump_ok; by apply (lock_idx E HE F_SETLKW true)].
  change (hi_of 0 0) with (@None Z). rewrite lk_release_quiet by done. cbv beta.
  assert (Hs : sys (sys_fstat_size (e_ifd E)) (st E db [] dat 0 0 (Rlock (e_ino E) 0 None true :: lk) er) =
    Ret (Some 0) (st E db [] dat 0 0 (Rlock (e_ino E) 0 None true :: lk) er)).
  { unfold sys, sys_fstat_size, st, st_k. rewrite kst_ifd. cbn [o_ino]. by rewrite kst_idx. }
  rewrite (bind_ret _ _ _ _ _ Hs). cbv iota. unfold when at 1. change (0 =? 0) with true. cbv iota.
  rewrite bind_assoc. erewrite bind_ret; [|apply write_idx]. cbv beta. rewrite Z.eqb_refl, bind_ret_l.
  apply or_dump_ok. rewrite unlock_idx by done. change (hi_of 0 0) with (@None Z).
  rewrite lk_release_cons, lk_minus_self, lk_release_quiet by done. simpl app.
  change (file_write [] 0 init_hash) with (file_write [] (len (@nil byte)) init_hash). rewrite file_write_end.
  change (0 + len init_hash) with HDR_END. done.
Qed.

Lemma kst_open (k : kernel) dir next ifd dfd ino dno idx dat :
  ifd <> dfd -> ino <> dno ->
  Kernel dir (<[dno := dat]> (<[ino := idx]> (k_files k))) next
    (<[dfd := Ofd dno 0 true true false]> (<[ifd := Ofd ino 0 true true false]> (k_fds k)))
    (k_locks k) (k_others k) (k_errno k) =
  kst (Env dir (k_files k) next (k_fds k) (k_others k) ifd dfd ino dno) idx dat 0 0 (k_locks k) (k_errno k).
Proof.
  intros H1 H2. unfold kst. simpl. by rewrite (insert_insert_ne _ dfd), (insert_insert_ne _ dno).
Qed.

(** ** Creating *)

Lemma db_open_create_ok path k :
  kernel_ok k -> unlocked k (idx_name path) -> unlocked k (dat_name path) ->
  exists E db,
    db_open path DB_CREATE k = Ret (Some db) (st_k (st E db init_hash [] HDR_END 0 (k_locks k) (k_errno k))) /\
    opened E path /\ db_ok E db /\ quiet_db E (k_locks k) /\ cnt db = Counts 0 0 0 0 0 0 0 0 0 0.
Proof.
  intros Hk Hu1 Hu2.
  destruct (sys_open_create _ _ Hk Hu1) as (ino & n1 & Ho1 & Hk1 & Hl1 & Hc1).
  set (k1 := Kernel _ _ _ _ _ _ _) in Ho1, Hk1.
  assert (Hu2' : unlocked k1 (dat_name path)).
  { intros i. simpl. rewrite lookup_insert_ne by apply names_differ. apply Hu2. }
  destruct (sys_open_create _ _ Hk1 Hu2') as (dno & n2 & Ho2 & Hk2 & Hl2 & Hc2).
  set (ifd := new_fd (k_fds k)) in *. set (dfd := new_fd (k_fds k1)) in *.
  assert (Hfd : ifd <> dfd).
  { intros Ef. pose proof (new_fd_None (k_fds k1)) as Hn. fold dfd in Hn. rewrite <- Ef in Hn.
    simpl in Hn. fold ifd in Hn. by rewrite lookup_insert_eq in Hn. }
  assert (Hno : ino <> dno).
  { intros <-. apply (names_differ path). eapply (ko_inj _ Hk2); simpl; [|by rewrite lookup_insert_eq].
    rewrite lookup_insert_ne by (intros Ex; by apply (names_differ path)). by rewrite lookup_insert_eq. }
  destruct Hk2 as [Hinj Hlt Hlk]. simpl in Hinj, Hlt, Hlk, Hl2.
  apply Forall_app in Hl1 as [Hl1 Hl1'], Hl2 as [Hl2 Hl2'], Hlk as [Hlk Hlk'].
  set (E := Env (<[dat_name path := dno]> (<[idx_name path := ino]> (k_dir k))) (k_files k) n2 (k_fds k)
    (k_others k) ifd dfd ino dno).
  assert (HE : env_ok E).
  { split; simpl; try done; [split; apply new_fd_nonneg|]. apply Forall_and. done. }
  assert (Hop : opened E path).
  { split; simpl; try done; [|by rewrite lookup_insert_eq].
    rewrite lookup_insert_ne by (intros Ex; by apply (names_differ path)). by rewrite lookup_insert_eq. }
  exists E, (set_idxoff HDR_END (new_db path ifd dfd)).
  split; [|split_and!; first [done | apply (new_db_ok E) | by split_and!]].
  unfold db_open. change (path ++ bs ".idx") with (idx_name path).
  change (path ++ bs ".dat") with (dat_name path). rewrite Ho1, Ho2.
  pose proof (new_fd_nonneg (k_fds k)) as H0. pose proof (new_fd_nonneg (k_fds k1)) as H0'.
  fold ifd in H0. fold dfd in H0'.
  replace ((ifd <? 0) || (dfd <? 0)) with false by lia.
  fold (new_db path ifd dfd). unfold k1 at 1. simpl k_dir. simpl k_files. simpl k_fds. simpl k_locks.
  simpl k_others. simpl k_errno. fold ifd.
  rewrite kst_open by done. fold E. fold (st E (new_db path ifd dfd) [] [] 0 0 (k_locks k) (k_errno k)).
  change (when _ db_open_init) with db_open_init.
  pose proof (new_db_ok E path) as Hdb. simpl in Hdb.
  rewrite (bind_ret _ _ _ _ _ (db_open_init_ok E _ [] (k_locks k) (k_errno k) HE Hdb Hl1)).
  rewrite db_rewind_ok by done. done.
Qed.

(** ** Opening existing files *)

Lemma db_open_existing_ok path k ino dno idx dat :
  kernel_ok k -> unlocked k (idx_name path) -> unlocked k (dat_name path) ->
  k_dir k !! idx_name path = Some ino -> k_dir k !! dat_name path = Some dno ->
  k_files k !! ino = Some idx -> k_files k !! dno = Some dat ->
  exists E db,
    db_open path O_RDWR k = Ret (Some db) (st_k (st E db idx dat HDR_END 0 (k_locks k) (k_errno k))) /\
    opened E path /\ db_ok E db /\ quiet_db E (k_locks k) /\ cnt db = Counts 0 0 0 0 0 0 0 0 0 0.
Proof.
  intros [Hinj Hlt Hlk] Hu1 Hu2 Hi Hd Hfi Hfd.
  pose proof (sys_open_existing _ _ _ Hi) as Ho1.
  set (ifd := new_fd (k_fds k)) in *.
  set (k1 := set_fds (<[ifd := Ofd ino 0 true true false]> (k_fds k)) k) in *.
  pose proof (sys_open_existing _ k1 _ Hd) as Ho2. set (dfd := new_fd (k_fds k1)) in *.
  assert (Hne : ifd <> dfd).
  { intros Ef. pose proof (new_fd_None (k_fds k1)) as Hn. fold dfd in Hn. rewrite <- Ef in Hn.
    simpl in Hn. by rewrite lookup_insert_eq in Hn. }
  assert (Hno : ino <> dno).
  { intros <-. apply (names_differ path). by eapply Hinj. }
  pose proof (Hu1 _ Hi) as [Hl1 Hl1']%Forall_app. pose proof (Hu2 _ Hd) as [Hl2 Hl2']%Forall_app.
  apply Forall_app in Hlk as [Hlk Hlk'].
  set (E := Env (k_dir k) (k_files k) (k_nextino k) (k_fds k) (k_others k) ifd dfd ino dno).
  assert (HE : env_ok E).
  { split; simpl; try done; [split; apply new_fd_nonneg|]. apply Forall_and. done. }
  assert (Hop : opened E path) by (split; done).
  exists E, (set_idxoff HDR_END (new_db path ifd dfd)).
  split; [|split_and!; first [done | apply (new_db_ok E) | by split_and!]].
  unfold db_open. change (path ++ bs ".idx") with (idx_name path).
  change (path ++ bs ".dat") with (dat_name path). rewrite Ho1, Ho2.
  pose proof (new_fd_nonneg (k_fds k)) as H0. pose proof (new_fd_nonneg (k_fds k1)) as H0'.
  fold ifd in H0. fold dfd in H0'. replace ((ifd <? 0) || (dfd <? 0)) with false by lia.
  fold (new_db path ifd dfd).
  assert (Hst : set_fds (<[dfd := Ofd dno 0 true true false]> (k_fds k1)) k1 =
    kst E idx dat 0 0 (k_locks k) (k_errno k)).
  { unfold E. rewrite <- kst_open by done. unfold set_fds. simpl.
    rewrite (insert_id (k_files k)) by done. by rewrite (insert_id (k_files k)). }
  rewrite Hst. fold (st E (new_db path ifd dfd) idx dat 0 0 (k_locks k) (k_errno k)).
  change (when _ db_open_init) with (@ret St unit tt). rewrite bind_ret_l.
  pose proof (new_db_ok E path) as Hdb. simpl in Hdb. by rewrite db_rewind_ok.
Qed.

(** ** Closing *)

Lemma db_close_ok E path db idx dat io do lk er :
  opened E path -> db_ok E db -> quiet_db E lk ->
  let k := db_close (st E db idx dat io do lk er) in
  kernel_ok k /\ unlocked k (idx_name path) /\ unlocked k (dat_name path) /\
  k_dir k !! idx_name path = Some (e_ino E) /\ k_dir k !! dat_name path = Some (e_dno E) /\
  k_files k !! e_ino E = Some idx /\ k_files k !! e_dno E = Some dat /\
  k_locks k = lk /\ k_errno k = er /\ k_fds k = delete (e_dfd E) (delete (e_ifd E) (e_fds E)).
Proof.
  intros Hop Hdb (Hq1 & Hq2 & Hlk) k. pose proof (op_ok _ _ Hop) as HE.
  destruct (env_fd0 _ HE) as [H1 H2]. destruct Hop as [_ Hi Hd Hinj Hlt Hoth].
  assert (Hfil : forall ino, quiet ino lk -> filter (fun l => l_ino l <> ino) lk = lk).
  { clear. intros ino H. induction H as [|l ls Hl _ IH]; [done|]. by rewrite filter_cons_True, IH. }
  assert (Ek : k = Kernel (e_dir E) (<[e_ino E := idx]> (<[e_dno E := dat]> (e_files E))) (e_next E)
    (delete (e_dfd E) (delete (e_ifd E) (e_fds E))) lk (e_others E) er).
  { unfold k, db_close, _db_free. cbn [st_db st st_k].
    rewrite (db_ifd _ _ Hdb), (db_dfd _ _ Hdb).
    replace (0 <=? e_ifd E) with true by lia. replace (0 <=? e_dfd E) with true by lia.
    unfold sys_close at 2. rewrite kst_ifd. cbn [snd o_ino]. unfold sys_close.
    unfold set_locks, set_fds, kst. simpl. rewrite Hfil by done.
    rewrite delete_insert_eq, lookup_delete_ne, lookup_insert_eq by apply HE. simpl.
    rewrite Hfil by done. rewrite delete_insert_ne by (intros Ex; by apply (env_fd _ HE)).
    by rewrite delete_insert_eq. }
  rewrite Ek. simpl. pose proof (env_others _ HE) as Ho. apply Forall_and in Ho as [Ho1 Ho2].
  split_and!; try done.
  - split; simpl; try done. by apply Forall_app.
  - intros i Hi'. simpl in *. replace i with (e_ino E) by congruence. by apply Forall_app.
  - intros i Hi'. simpl in *. replace i with (e_dno E) by congruence. by apply Forall_app.
  - by rewrite lookup_insert_eq.
  - rewrite lookup_insert_ne by apply HE. by rewrite lookup_insert_eq.
Qed.
