(* ===== verification/DbSpec.v ===== *)
(** * The contract of the database library

    The abstract database is a finite map from keys to data with three operations.  The
    theorems say that the byte-level functions of db.c, run on the files they keep,
    behave as that map: through any sequence of operations, across closing and
    reopening, and under the sequential scan; and what happens outside the contract. *)

From Stdlib Require Import Strings.Byte ZArith Lia.
From S2P Require Import Prelude Libc Posix SegFile DbModel DbDisk DbRecords DbChain DbLinks.
From S2P Require Import Refine DbOps DbStore DbNext DbOpen.
From stdpp Require Import base strings numbers functions gmap list.
#[local] Open Scope Z_scope.

(** ** The abstract database *)

Inductive op :=
| OFetch (key : bytes)
| OStore (key data : bytes) (flag : Z)
| ODelete (key : bytes).

Inductive out := RData (d : option bytes) | RInt (z : Z).

Definition spec_op (o : op) (m : gmap bytes bytes) : out * gmap bytes bytes :=
  match o with
  | OFetch key => (RData (m !! key), m)
  | OStore key data flag => (RInt (store_res flag m key), store_map flag m key data)
  | ODelete key => (RInt (match m !! key with Some _ => 0 | None => -1 end), delete key m)
  end.

Definition spec_ops : list op -> gmap bytes bytes -> list out * gmap bytes bytes := spec_seq spec_op.

(** ** The implementation *)

Definition run_op (o : op) : M St out :=
  match o with
  | OFetch key => d <- db_fetch key ;; ret (RData d)
  | OStore key data flag => r <- db_store key data flag ;; ret (RInt r)
  | ODelete key => r <- db_delete key ;; ret (RInt r)
  end.

Definition run_ops : list op -> M St (list out) := run_seq run_op.

(** Stores have a printable key without the separator, data of a legal length and one of
    the three flags; fetches and deletes take any key. *)
Definition valid_op (o : op) : Prop :=
  match o with
  | OStore key data flag =>
    entry_ok key data /\ (flag = DB_INSERT \/ flag = DB_REPLACE \/ flag = DB_STORE)
  | _ => True
  end.

(** The open database holds [m], with room in both files for [n] more operations. *)
Definition holds (path : bytes) (lk : list rlock) (m : gmap bytes bytes) (n : nat) (s : St) : Prop :=
  exists E db idx dat io do er,
    s = st E db idx dat io do lk er /\ opened E path /\ db_ok E db /\ quiet_db E lk /\
    repr idx dat m /\
    len idx + 1035 * Z.of_nat n <= PTR_MAX /\ len dat + 1024 * Z.of_nat n <= LONG_MAX.

#[export] Instance db_refines path lk : Refines run_op spec_op valid_op (holds path lk).
Proof.
  intros m n o s (E & db & idx & dat & io & do & er & -> & Hop & Hdb & Hq & Hrep & Hi & Hd) Hok.
  pose proof (op_ok _ _ Hop) as HE. destruct Hq as (Hq1 & Hq2 & Hq3).
  destruct o as [key|key data flag|key]; simpl.
  - destruct (db_fetch_repr E HE key m idx dat db io do lk er) as (db' & io' & do' & Hgo & Hok' & _); try done.
    rewrite (bind_ret _ _ _ _ _ Hgo). eexists. split; [done|].
    exists E, db', idx, dat, io', do', er. split_and!; try done; lia.
  - destruct Hok as [He Hf].
    destruct (db_store_repr E HE key data flag m idx dat db io do lk er)
      as (db' & idx' & dat' & io' & do' & c & Hgo & Hok' & Hrep' & Hli & Hld & _); try done; try lia.
    rewrite (bind_ret _ _ _ _ _ Hgo). eexists. split; [done|].
    exists E, db', idx', dat', io', do'. eexists. split_and!; try done; lia.
  - destruct (db_delete_repr E HE key m idx dat db io do lk er)
      as (db' & idx' & dat' & io' & do' & Hgo & Hok' & Hrep' & Hli & Hld & _); try done.
    rewrite (bind_ret _ _ _ _ _ Hgo). eexists. split; [done|].
    exists E, db', idx', dat', io', do', er. split_and!; try done; lia.
Qed.

Lemma run_ops_holds path lk os m n s :
  holds path lk m (length os + n) s -> Forall valid_op os ->
  exists s', run_ops os s = Ret (fst (spec_ops os m)) s' /\ holds path lk (snd (spec_ops os m)) n s'.
Proof. apply refines_seq, _. Qed.

(** What may be opened: a sane kernel in which nobody locks the two files. *)
Definition ready (path : bytes) (k : kernel) : Prop :=
  kernel_ok k /\ unlocked k (idx_name path) /\ unlocked k (dat_name path).

Definition ROOM : nat := Z.to_nat 9660.

Lemma open_create_holds path k :
  ready path k ->
  exists db k', db_open path DB_CREATE k = Ret (Some db) k' /\
    holds path (k_locks k) ∅ ROOM (MkSt k' db).
Proof.
  intros (Hk & Hu1 & Hu2).
  destruct (db_open_create_ok path k Hk Hu1 Hu2) as (E & db & Hgo & Hop & Hdb & Hq & _).
  do 2 eexists. split; [exact Hgo|]. exists E, db, init_hash, [], HDR_END, 0, (k_errno k).
  split_and!; try done. apply init_repr.
Qed.

(** Closing and opening again gives the same map. *)
Lemma reopen_holds path lk m n s :
  holds path lk m n s ->
  exists db k', db_open path O_RDWR (db_close s) = Ret (Some db) k' /\ holds path lk m n (MkSt k' db).
Proof.
  intros (E & db & idx & dat & io & do & er & -> & Hop & Hdb & Hq & Hrep & Hi & Hd).
  destruct (db_close_ok E path db idx dat io do lk er Hop Hdb Hq)
    as (Hk & Hu1 & Hu2 & Hd1 & Hd2 & Hf1 & Hf2 & Hlk & Her & _).
  destruct (db_open_existing_ok path _ _ _ _ _ Hk Hu1 Hu2 Hd1 Hd2 Hf1 Hf2)
    as (E' & db' & Hgo & Hop' & Hdb' & Hq' & _).
  rewrite Hlk, Her in *. do 2 eexists. split; [exact Hgo|].
  exists E', db', idx, dat, HDR_END, 0, er. by split_and!.
Qed.

(** ** Theorems *)

(** C1: The database refines a finite map.  After [db_open] with
    [O_RDWR|O_CREAT|O_TRUNC], whatever files existed before, any sequence of up to 9660
    fetches, stores and deletes returns exactly the results of the abstract map that
    starts empty, terminates without [err_dump], and leaves the record locks of the
    process as they were. *)
Theorem db_refines_map (path : bytes) (k : kernel) (os : list op) :
  ready path k -> Forall valid_op os -> (length os <= ROOM)%nat ->
  exists db k' s', db_open path DB_CREATE k = Ret (Some db) k' /\
    run_ops os (MkSt k' db) = Ret (fst (spec_ops os ∅)) s' /\
    k_locks (st_k s') = k_locks k.
Proof.
  intros Hr Hos Hn. destruct (open_create_holds path k Hr) as (db & k' & Hgo & Hh).
  replace ROOM with (length os + (ROOM - length os))%nat in Hh by lia.
  destruct (run_ops_holds _ _ _ _ _ _ Hh Hos) as (s' & Hrun & Hh').
  exists db, k', s'. split_and!; [done|done|].
  by destruct Hh' as (E & db' & idx & dat & io & do & er & -> & _).
Qed.

(** C2: The map survives closing.  Operations [os1], then [db_close], then [db_open] with
    [O_RDWR], then operations [os2] return what the abstract map returns for [os1]
    followed by [os2]. *)
Theorem db_persistent (path : bytes) (k : kernel) (os1 os2 : list op) :
  ready path k -> Forall valid_op (os1 ++ os2) -> (length (os1 ++ os2) <= ROOM)%nat ->
  exists db k' s1 db2 k2 s2, db_open path DB_CREATE k = Ret (Some db) k' /\
    run_ops os1 (MkSt k' db) = Ret (fst (spec_ops os1 ∅)) s1 /\
    db_open path O_RDWR (db_close s1) = Ret (Some db2) k2 /\
    run_ops os2 (MkSt k2 db2) = Ret (fst (spec_ops os2 (snd (spec_ops os1 ∅)))) s2.
Proof.
  intros Hr Hos Hn. apply Forall_app in Hos as [Hos1 Hos2]. rewrite length_app in Hn.
  destruct (open_create_holds path k Hr) as (db & k' & Hgo & Hh).
  replace ROOM with (length os1 + (length os2 + (ROOM - length os1 - length os2)))%nat in Hh by lia.
  destruct (run_ops_holds _ _ _ _ _ _ Hh Hos1) as (s1 & Hrun1 & Hh1).
  destruct (reopen_holds _ _ _ _ _ Hh1) as (db2 & k2 & Hgo2 & Hh2).
  destruct (run_ops_holds _ _ _ _ _ _ Hh2 Hos2) as (s2 & Hrun2 & _).
  exists db, k', s1, db2, k2, s2. done.
Qed.

(** C3: A scan enumerates the database.  After any valid operations, [db_rewind] followed
    by [db_nextrec] until NULL lists every record once (keys made of blanks only, which
    the library uses to mark free records, are skipped). *)
Theorem db_nextrec_enumerates (path : bytes) (k : kernel) (os : list op) (n : nat) :
  ready path k -> Forall valid_op os -> (length os <= ROOM)%nat ->
  (size (snd (spec_ops os ∅)) < n)%nat ->
  exists db k' s1 s2 l, db_open path DB_CREATE k = Ret (Some db) k' /\
    run_ops os (MkSt k' db) = Ret (fst (spec_ops os ∅)) s1 /\
    (db_rewind ;;; db_scan n)%c s1 = Ret l s2 /\
    l ≡ₚ map_to_list (visible (snd (spec_ops os ∅))).
Proof.
  intros Hr Hos Hn Hsz. destruct (open_create_holds path k Hr) as (db & k' & Hgo & Hh).
  replace ROOM with (length os + (ROOM - length os))%nat in Hh by lia.
  destruct (run_ops_holds _ _ _ _ _ _ Hh Hos) as (s1 & Hrun & Hh1).
  pose proof Hh1 as (E & db1 & idx & dat & io & do & er & Es & Hop & Hdb & (Hq & _) & Hrep & _).
  destruct (db_scan_repr E (op_ok _ _ Hop) n _ idx dat db1 io do (k_locks k) er Hrep Hdb Hq Hsz)
    as (l & db2 & io2 & do2 & Hscan & _ & Hl).
  rewrite <- Es in Hscan. by do 5 eexists.
Qed.

(** *** Witnesses *)

Definition k_empty : kernel := Kernel ∅ ∅ 1 ∅ [] [] 0.

Lemma k_empty_ready path : ready path k_empty.
Proof. split_and!; [split; done|done|done]. Qed.

Definition ops_ex : list op :=
  [OStore (bs "alpha") (bs "data1") DB_INSERT; OStore (bs "beta") (bs "d2") DB_STORE;
   OStore (bs "alpha") (bs "longer data") DB_REPLACE; OFetch (bs "alpha");
   ODelete (bs "beta"); ODelete (bs "beta"); OStore (bs "zeta") (bs "d3") DB_INSERT;
   OStore (bs "zeta") (bs "d4") DB_INSERT; OFetch (bs "zeta")].

Lemma entry_ok_dec key data :
  forallb (fun c => negb (bool_decide (c = NUL)) && negb (bool_decide (c = SEP))) key = true ->
  forallb (fun c => negb (bool_decide (c = NUL))) data = true ->
  1 <= len key <= 998 -> 1 <= len data <= 1023 -> entry_ok key data.
Proof.
  intros H1 H2 Hk Hd. rewrite forallb_forall in H1, H2. split; try done.
  - split.
    + apply Forall_forall. intros c Hc. apply list_elem_of_In in Hc. specialize (H1 c Hc).
      apply andb_true_iff in H1 as [H1 _]. by rewrite negb_true_iff, bool_decide_eq_false in H1.
    + intros Hs. apply list_elem_of_In in Hs. specialize (H1 _ Hs). by vm_compute in H1.
  - apply Forall_forall. intros c Hc. apply list_elem_of_In in Hc. specialize (H2 c Hc).
    by rewrite negb_true_iff, bool_decide_eq_false in H2.
Qed.

Lemma ops_ex_valid : Forall valid_op ops_ex.
Proof.
  unfold ops_ex. repeat apply Forall_cons_2; [..|apply Forall_nil_2]; simpl; try exact I.
  all: split; [apply entry_ok_dec; done|auto].
Qed.

(** What the example must return. *)
Example ops_ex_spec :
  fst (spec_ops ops_ex ∅) =
  [RInt 0; RInt 0; RInt 0; RData (Some (bs "longer data")); RInt 0; RInt (-1); RInt 0; RInt 1;
   RData (Some (bs "d3"))].
Proof. by vm_compute. Qed.

(** The same by evaluating the byte-level model. *)
Example ops_ex_run :
  match db_open (bs "db4") DB_CREATE k_empty with
  | Ret (Some db) k => match run_ops ops_ex (MkSt k db) with Ret l _ => l | _ => [] end
  | _ => []
  end = fst (spec_ops ops_ex ∅).
Proof. by vm_compute. Qed.

Lemma db_refines_map_witness :
  exists db k' s', db_open (bs "db4") DB_CREATE k_empty = Ret (Some db) k' /\
    run_ops ops_ex (MkSt k' db) = Ret (fst (spec_ops ops_ex ∅)) s' /\
    k_locks (st_k s') = k_locks k_empty.
Proof.
  apply (db_refines_map (bs "db4") k_empty ops_ex);
    [apply k_empty_ready|apply ops_ex_valid|apply Nat.leb_le; vm_compute; reflexivity].
Defined.

Lemma db_persistent_witness :
  exists db k' s1 db2 k2 s2, db_open (bs "db4") DB_CREATE k_empty = Ret (Some db) k' /\
    run_ops ops_ex (MkSt k' db) = Ret (fst (spec_ops ops_ex ∅)) s1 /\
    db_open (bs "db4") O_RDWR (db_close s1) = Ret (Some db2) k2 /\
    run_ops ops_ex (MkSt k2 db2) = Ret (fst (spec_ops ops_ex (snd (spec_ops ops_ex ∅)))) s2.
Proof.
  apply (db_persistent (bs "db4") k_empty ops_ex ops_ex);
    [apply k_empty_ready|apply Forall_app_2; apply ops_ex_valid
    |apply Nat.leb_le; vm_compute; reflexivity].
Defined.

Lemma db_nextrec_enumerates_witness :
  exists db k' s1 s2 l, db_open (bs "db4") DB_CREATE k_empty = Ret (Some db) k' /\
    run_ops ops_ex (MkSt k' db) = Ret (fst (spec_ops ops_ex ∅)) s1 /\
    (db_rewind ;;; db_scan 3)%c s1 = Ret l s2 /\
    l ≡ₚ map_to_list (visible (snd (spec_ops ops_ex ∅))).
Proof.
  apply (db_nextrec_enumerates (bs "db4") k_empty ops_ex 3);
    [apply k_empty_ready|apply ops_ex_valid|apply Nat.leb_le; vm_compute; reflexivity
    |apply Nat.ltb_lt; vm_compute; reflexivity].
Defined.
