(* ===== verification/DbFacts.v ===== *)
(** * Behaviour of each database operation, and its limits

    The functional contract of the three operations with their counters and errno, the
    calls that are rejected, the exclusion of other processes, and what happens to keys
    that the file format cannot hold. *)

From Stdlib Require Import Strings.Byte ZArith Lia.
From S2P Require Import Prelude Libc Posix SegFile DbModel DbDisk DbRecords DbChain DbLinks.
From S2P Require Import Refine DbOps DbStore DbNext DbOpen DbSpec.
From stdpp Require Import base strings numbers functions gmap list.
#[local] Open Scope Z_scope.

(** ** The operations *)

(** C37: [db_store].  On a database that holds [m] the return value is 0 when the record
    is written (new, or replaced with DB_REPLACE or DB_STORE), 1 for DB_INSERT of an
    existing key, -1 with errno ENOENT for DB_REPLACE of a missing one; the map changes
    only on 0; and exactly one counter is incremented: storerr on failure, stor1 or stor2
    for a new key, stor4 for a replacement of equal length and stor3 for any other. *)
Theorem db_store_spec path lk m n key data flag s :
  holds path lk m (S n) s -> entry_ok key data ->
  flag = DB_INSERT \/ flag = DB_REPLACE \/ flag = DB_STORE ->
  exists s' c, db_store key data flag s = Ret (store_res flag m key) s' /\
    holds path lk (store_map flag m key data) n s' /\
    k_errno (st_k s') = store_errno flag m key (k_errno (st_k s)) /\
    store_cnt flag m key data c /\ cnt (st_db s') = bump c (cnt (st_db s)).
Proof.
  intros (E & db & idx & dat & io & do & er & -> & Hop & Hdb & (Hq1 & Hq2 & Hq3) & Hrep & Hi & Hd) He Hf.
  destruct (db_store_repr E (op_ok _ _ Hop) key data flag m idx dat db io do lk er)
    as (db' & idx' & dat' & io' & do' & c & Hgo & Hok' & Hrep' & Hli & Hld & Hc & Hcnt); try done; try lia.
  do 2 eexists. split; [exact Hgo|]. split; [|by split_and!].
  exists E, db', idx', dat', io', do'. eexists. split_and!; try done; lia.
Qed.

(** [db_delete] returns 0 and removes the key when it is there, -1 and nothing else
    when it is not; the counters record which. *)
Theorem db_delete_spec path lk m n key s :
  holds path lk m n s ->
  exists s', db_delete key s = Ret (match m !! key with Some _ => 0 | None => -1 end) s' /\
    holds path lk (delete key m) n s' /\ k_errno (st_k s') = k_errno (st_k s) /\
    cnt (st_db s') = bump (match m !! key with Some _ => Delok | None => Delerr end) (cnt (st_db s)).
Proof.
  intros (E & db & idx & dat & io & do & er & -> & Hop & Hdb & (Hq1 & Hq2 & Hq3) & Hrep & Hi & Hd).
  destruct (db_delete_repr E (op_ok _ _ Hop) key m idx dat db io do lk er)
    as (db' & idx' & dat' & io' & do' & Hgo & Hok' & Hrep' & Hli & Hld & Hcnt); try done.
  eexists. split; [exact Hgo|]. split; [|by split_and!].
  exists E, db', idx', dat', io', do', er. split_and!; try done; lia.
Qed.

(** [db_fetch] returns the data of the key or NULL, changes neither file, and counts
    the outcome. *)
Theorem db_fetch_spec path lk m n key s :
  holds path lk m n s ->
  exists s', db_fetch key s = Ret (m !! key) s' /\ holds path lk m n s' /\
    k_files (st_k s') = k_files (st_k s) /\ k_errno (st_k s') = k_errno (st_k s) /\
    cnt (st_db s') = bump (match m !! key with Some _ => Fetchok | None => Fetcherr end) (cnt (st_db s)).
Proof.
  intros (E & db & idx & dat & io & do & er & -> & Hop & Hdb & (Hq1 & Hq2 & Hq3) & Hrep & Hi & Hd).
  destruct (db_fetch_repr E (op_ok _ _ Hop) key m idx dat db io do lk er)
    as (db' & io' & do' & Hgo & Hok' & Hcnt); try done.
  eexists. split; [exact Hgo|]. split; [|by split_and!].
  exists E, db', idx, dat, io', do', er. by split_and!.
Qed.

(** ** Rejected calls *)

(** A flag that is none of the three gives -1 with errno EINVAL and touches nothing;
    empty data or data of more than 1023 bytes ends the process in [err_dump] before any
    file access. *)
Theorem db_store_rejects key data flag s :
  (flag <> DB_INSERT -> flag <> DB_REPLACE -> flag <> DB_STORE ->
   db_store key data flag s = Ret (-1) (MkSt (set_errno EINVAL (st_k s)) (st_db s))) /\
  (flag = DB_INSERT \/ flag = DB_REPLACE \/ flag = DB_STORE ->
   len data = 0 \/ 1023 < len data ->
   db_store key data flag s = Die (DDump "db_store: invalid data length") s).
Proof.
  split.
  - intros H1 H2 H3. unfold db_store.
    rewrite (proj2 (Z.eqb_neq _ _) H1), (proj2 (Z.eqb_neq _ _) H2), (proj2 (Z.eqb_neq _ _) H3). done.
  - intros Hf Hl. unfold db_store.
    replace (negb (flag =? DB_INSERT) && negb (flag =? DB_REPLACE) && negb (flag =? DB_STORE)) with false
      by (destruct Hf as [-> | [-> | ->]]; done).
    replace ((len data + 1 <? DATLEN_MIN) || (DATLEN_MAX <? len data + 1)) with true by db_lia. done.
Qed.

(** ** Exclusion *)

(** Another process holds a write lock that covers byte [a] of the file. *)
Definition write_locked (k : kernel) (ino a : Z) : Prop :=
  exists l, l ∈ k_others k /\ l_ino l = ino /\ l_wr l = true /\ l_lo l <= a /\
    match l_hi l with None => True | Some h => a < h end.

(** The byte of the index file that stands for the chain of a key. *)
Definition chain_byte (db : DB) (key : bytes) : Z := _db_hash db key * PTR_SZ + hashoff db.

Lemma fcntl_waits k fd o type a :
  k_fds k !! fd = Some o -> write_locked k (o_ino o) a -> type = F_RDLCK \/ type = F_WRLCK -> 0 <= a ->
  sys_fcntl_lk fd F_SETLKW type a SEEK_SET 1 k = LkWait.
Proof.
  intros Hfd (l & Hl & Hino & Hw & Hlo & Hhi) Ht Ha. unfold sys_fcntl_lk. rewrite Hfd.
  change ((negb (SEEK_SET =? SEEK_SET) || (a <? 0) || (1 <? 0))) with ((false || (a <? 0) || false)).
  replace (false || (a <? 0) || false) with false by lia. cbv iota.
  replace (type =? F_UNLCK) with false by (destruct Ht as [-> | ->]; done).
  rewrite (proj2 (existsb_exists _ _)); [done|]. exists l. split; [by apply list_elem_of_In|].
  rewrite Hw, orb_true_l, andb_true_r. unfold overlaps. rewrite Hino, Z.eqb_refl.
  unfold below. simpl. destruct (l_hi l); lia.
Qed.

(** Mutual exclusion of writers.  While another process holds a write lock on the byte
    of a hash chain, no operation on a key of that chain gets past its lock: fetch, store
    and delete wait (they neither read nor write a record). *)
Theorem db_ops_wait key data flag k db o :
  k_fds k !! idxfd db = Some o -> write_locked k (o_ino o) (chain_byte db key) ->
  0 <= chain_byte db key -> valid_op (OStore key data flag) ->
  db_fetch key (MkSt k db) = NoFuel /\ db_delete key (MkSt k db) = NoFuel /\
  db_store key data flag (MkSt k db) = NoFuel.
Proof.
  intros Hfd Hl Ha [He Hf].
  assert (Hw : forall w, _db_find_and_lock key w (MkSt k db) = NoFuel).
  { intros w. unfold _db_find_and_lock. rewrite bind_getst. cbn [st_db]. fold (chain_byte db key).
    unfold bind at 1 2 3, setf at 1 2, modst, or_dump, readw_lock, writew_lock, lock_reg, bind.
    cbn [st_k st_db idxfd set_chainoff set_ptroff].
    destruct w; rewrite (fcntl_waits k (idxfd db) o) by auto; done. }
  assert (Hb : forall w B (f : Z -> M St B), bind (_db_find_and_lock key w) f (MkSt k db) = NoFuel).
  { intros w B f. unfold bind. by rewrite Hw. }
  unfold db_fetch, db_delete, db_store.
  replace (negb (flag =? DB_INSERT) && negb (flag =? DB_REPLACE) && negb (flag =? DB_STORE)) with false
    by (destruct Hf as [-> | [-> | ->]]; done).
  pose proof (en_dlen _ _ He).
  replace ((len data + 1 <? DATLEN_MIN) || (DATLEN_MAX <? len data + 1)) with false by db_lia.
  by rewrite !Hb.
Qed.

(** ** Keys the format cannot hold *)

Lemma long_key_no_free (key : bytes) R C P m idx dat g x r :
  disk idx dat P R g -> links P R C m [] -> 1024 <= len key -> x ∈ C 0 -> R !! x = Some r ->
  len (r_key r) <> len key.
Proof.
  intros HD _ Hk _ Hr. destruct (dk_rec _ _ _ _ _ HD _ _ Hr) as (Hrok & _).
  pose proof (ro_body _ Hrok) as Hb. unfold r_body in Hb. rewrite len_idx_body in Hb.
  pose proof (len_nonneg (dec (r_off r))). pose proof (len_nonneg (dec (len (r_dat r) + 1))). db_lia.
Qed.

(** A key of 1024 bytes or more overflows the heap buffer [idxbuf]: storing it as a
    new record appends its data record and then formats the index record into the buffer
    before the length check of [_db_writeidx]. *)
Theorem db_store_long_key path lk m n (key data : bytes) flag s :
  holds path lk m n s -> 1024 <= len key -> 1 <= len data <= 1023 -> m !! key = None ->
  flag = DB_INSERT \/ flag = DB_STORE ->
  db_store key data flag s = Undef "store outside idxbuf".
Proof.
  intros (E & db & idx & dat & io & do & er & -> & Hop & Hdb & (Hq1 & Hq2 & _) & Hrep & Hi & Hd) Hk Hdl Hm Hf.
  pose proof (op_ok _ _ Hop) as HE. destruct Hrep as (P & R & g & C & HD & HL).
  pose proof (bucket_range key) as Hbr.
  destruct (find_and_lock_ok E HE idx dat P R g C m [] HD HL key true db io do lk er Hdb Hq1)
    as (res & db1 & io1 & Hrun & Hok & _ & Hch & [[-> _]|(_ & pre & x & post & r & p & HC & Hr & _ & Hkr & _)]).
  2:{ rewrite (found_lookup E HE idx dat P R g C m [] HD HL key pre x post r HC Hr Hkr) in Hm. done. }
  assert (Hc : P !! (7 * bucket key) = Some (first_of (C (bucket key)))).
  { apply chain_first. eapply ln_chain; [done|lia]. }
  pose proof (dk_ptr _ _ _ _ _ HD _ _ Hc) as Hp.
  unfold db_store.
  replace (negb (flag =? DB_INSERT) && negb (flag =? DB_REPLACE) && negb (flag =? DB_STORE)) with false
    by (destruct Hf as [-> | ->]; done).
  db_if. rewrite (bind_ret _ _ _ _ _ Hrun). db_if.
  replace (flag =? DB_REPLACE) with false by (destruct Hf as [-> | ->]; done).
  rewrite bind_assoc. unfold store_new. db_norm. rewrite Hch.
  erewrite bind_ret; [|eapply readptr_ok; [exact HD|done|exact Hc]]. cbv beta. rewrite !bind_assoc.
  destruct (findfree_ok E HE key (len key) (len data + 1) idx dat P R g C m db1 (7 * bucket key + 7) do lk er
    HD HL Hok Hq1) as (res & db2 & idx2 & io2 & Hff & [Hok2 _ _] & _ & Hres).
  rewrite (bind_ret _ _ _ _ _ Hff).
  destruct Hres as [[-> ->]|(-> & pre & x & post & r & p & HC & Hr & _ & Hkl & _)].
  2:{ destruct (long_key_no_free key R C P m idx dat g x r HD HL Hk) ; [rewrite HC; set_solver|done|done]. }
  db_if. destruct (writedat_end_ok E HE idx dat db2 data io2 do (chain_lock E key true :: lk) er Hok2)
    as (do3 & Hwd); [by apply quiet_dat|].
  rewrite !bind_assoc, (bind_ret _ _ _ _ _ Hwd). unfold _db_writeidx. db_norm.
  db_if.
  unfold put_idxbuf. db_norm. unfold buf_put. rewrite decide_False; [done|].
  rewrite (db_ibuf _ _ Hok2), length_app. pose proof (len_idx_body key (len dat) (len data + 1)) as Hb.
  pose proof (len_nonneg (dec (len dat))). pose proof (len_nonneg (dec (len data + 1))).
  unfold IDXLEN_MAX, len in *. simpl length. lia.
Qed.

Lemma bind_field_any {A B} (f : DB -> A) (g : A -> M St B) s :
  bind (field f) g s = g (f (st_db s)) s.
Proof. done. Qed.

Lemma put_idxbuf_any o d s :
  (o + length d <= length (idxbuf (st_db s)))%nat ->
  put_idxbuf o d s = Ret tt (MkSt (st_k s) (set_idxbuf (splice o d (idxbuf (st_db s))) (st_db s))).
Proof. intros H. unfold put_idxbuf. rewrite bind_field_any. unfold buf_put. by rewrite decide_True. Qed.

(** A third separator in the record is refused. *)
Lemma split_idx_three a b c rest s :
  is_cstr (a ++ SEP :: b ++ SEP :: c) -> SEP ∉ a -> SEP ∉ b -> SEP ∈ c ->
  idxbuf (st_db s) = (a ++ SEP :: b ++ SEP :: c) ++ NUL :: rest ->
  exists s', split_idx s = Die (DDump "_db_readidx: too many separators") s'.
Proof.
  intros Hs Ha Hb Hc Hbuf.
  assert (Hbc : is_cstr (b ++ SEP :: c)) by (apply Forall_app in Hs as [_ Hs]; by inversion Hs).
  assert (Hcc : is_cstr c) by (apply Forall_app in Hbc as [_ Hbc']; by inversion Hbc').
  unfold split_idx. rewrite bind_field_any, Hbuf, cstr_app_nul, strchr_app by done.
  assert (B1 : splice (length a) [NUL] ((a ++ SEP :: b ++ SEP :: c) ++ NUL :: rest) =
    a ++ NUL :: (b ++ SEP :: c) ++ NUL :: rest).
  { rewrite <- app_assoc. simpl. by apply (splice_app a [SEP]). }
  erewrite bind_ret; [|apply put_idxbuf_any; rewrite Hbuf; len_solve]. rewrite bind_field_any, Hbuf.
  cbn [st_db idxbuf set_idxbuf]. rewrite B1, drop_app_cons, cstr_app_nul, strchr_app by done.
  assert (B2 : splice (S (length a) + length b) [NUL] (a ++ NUL :: (b ++ SEP :: c) ++ NUL :: rest) =
    a ++ NUL :: b ++ NUL :: c ++ NUL :: rest).
  { pose proof (splice_app ((a ++ [NUL]) ++ b) [SEP] (c ++ NUL :: rest) [NUL]
      (S (length a) + length b) ltac:(len_solve) eq_refl) as HB.
    rewrite <- !app_assoc in HB. simpl in HB. rewrite <- app_assoc. exact HB. }
  erewrite bind_ret; [|apply put_idxbuf_any; cbn [st_db idxbuf set_idxbuf]; len_solve].
  rewrite bind_field_any. cbn [st_db idxbuf set_idxbuf]. rewrite B2.
  assert (D3 : drop (S (S (length a) + length b)) (a ++ NUL :: b ++ NUL :: c ++ NUL :: rest) = c ++ NUL :: rest).
  { rewrite <- Nat.add_succ_r, <- drop_drop, drop_app_cons. apply drop_app_cons. }
  rewrite D3, cstr_app_nul by done. apply list_elem_of_split_l in Hc as (c1 & c2 & -> & Hc1).
  rewrite strchr_app by done. by eexists.
Qed.

(** A key that contains the separator makes its record unreadable: whenever
    [_db_readidx] has such a record in its buffer (the bytes [_db_writeidx] wrote for the
    key, with the newline replaced), it ends in [err_dump]. *)
Theorem split_idx_colon_key k1 k2 off n body rest s :
  key_ok k1 -> is_cstr k2 -> 0 <= off -> 0 <= n ->
  idx_body (k1 ++ SEP :: k2) off n = body ++ [NEWLINE] ->
  idxbuf (st_db s) = body ++ NUL :: rest ->
  exists s', split_idx s = Die (DDump "_db_readidx: too many separators") s'.
Proof.
  intros [Hk1 Hs1] Hk2 Ho Hn Hbody Hbuf.
  assert (Eb : body = k1 ++ SEP :: k2 ++ SEP :: dec off ++ SEP :: dec n).
  { apply (app_inv_tail [NEWLINE]). rewrite <- Hbody. unfold idx_body. by simplify_list_eq. }
  subst body. pose proof (is_cstr_dec_pos off Ho) as Hco. pose proof (is_cstr_dec_pos n Hn) as Hcn.
  assert (HSEP : SEP <> NUL) by done.
  destruct (decide (SEP ∈ k2)) as [Hin|Hin].
  - apply list_elem_of_split_l in Hin as (b & c & -> & Hb). simplify_list_eq.
    apply (split_idx_three k1 b (c ++ SEP :: dec off ++ SEP :: dec n) rest); try done; [|set_solver|by simplify_list_eq].
    apply is_cstr_app in Hk2 as [Hkb Hkc]. apply is_cstr_cons in Hkc as [_ Hkc]. cstr_solve.
  - apply (split_idx_three k1 k2 (dec off ++ SEP :: dec n) rest); try done; [|set_solver].
    cstr_solve.
Qed.

(** ** Witnesses *)

Lemma db_store_spec_witness :
  exists db k s' c, db_open (bs "db4") DB_CREATE k_empty = Ret (Some db) k /\
    db_store (bs "key") (bs "value") DB_INSERT (MkSt k db) = Ret (store_res DB_INSERT ∅ (bs "key")) s' /\
    holds (bs "db4") [] (store_map DB_INSERT ∅ (bs "key") (bs "value")) (pred ROOM) s' /\
    store_cnt DB_INSERT ∅ (bs "key") (bs "value") c.
Proof.
  destruct (open_create_holds (bs "db4") k_empty (k_empty_ready _)) as (db & k & Hgo & Hh).
  destruct (db_store_spec (bs "db4") [] ∅ (pred ROOM) (bs "key") (bs "value") DB_INSERT (MkSt k db))
    as (s' & c & H1 & H2 & _ & H4 & _);
    [replace (S (pred ROOM)) with ROOM by (vm_compute; reflexivity); exact Hh
    |by apply entry_ok_dec|by left|].
  exists db, k, s', c. auto.
Defined.

Lemma db_delete_spec_witness :
  exists db k s', db_open (bs "db4") DB_CREATE k_empty = Ret (Some db) k /\
    db_delete (bs "key") (MkSt k db) = Ret (-1) s'.
Proof.
  destruct (open_create_holds (bs "db4") k_empty (k_empty_ready _)) as (db & k & Hgo & Hh).
  destruct (db_delete_spec (bs "db4") [] ∅ ROOM (bs "key") (MkSt k db) Hh) as (s' & H1 & _).
  exists db, k, s'. auto.
Defined.

Lemma db_fetch_spec_witness :
  exists db k s', db_open (bs "db4") DB_CREATE k_empty = Ret (Some db) k /\
    db_fetch (bs "key") (MkSt k db) = Ret None s'.
Proof.
  destruct (open_create_holds (bs "db4") k_empty (k_empty_ready _)) as (db & k & Hgo & Hh).
  destruct (db_fetch_spec (bs "db4") [] ∅ ROOM (bs "key") (MkSt k db) Hh) as (s' & H1 & _).
  exists db, k, s'. auto.
Defined.

Definition db_ex : DB := new_db (bs "db4") 3 4.
Definition s_ex : St := MkSt k_empty db_ex.

Lemma db_store_rejects_witness :
  db_store (bs "key") (bs "v") 4 s_ex = Ret (-1) (MkSt (set_errno EINVAL k_empty) db_ex) /\
  db_store (bs "key") [] DB_STORE s_ex = Die (DDump "db_store: invalid data length") s_ex.
Proof.
  split.
  - apply (proj1 (db_store_rejects (bs "key") (bs "v") 4 s_ex)); done.
  - apply (proj2 (db_store_rejects (bs "key") [] DB_STORE s_ex)); [by right; right|by left].
Defined.

(** A kernel in which another process has the whole of inode 7 locked for writing. *)
Definition k_busy : kernel :=
  Kernel ∅ ∅ 9 (<[3 := Ofd 7 0 true true false]> ∅) [] [Rlock 7 0 None true] 0.

Lemma db_ops_wait_witness :
  db_fetch (bs "key") (MkSt k_busy db_ex) = NoFuel /\ db_delete (bs "key") (MkSt k_busy db_ex) = NoFuel /\
  db_store (bs "key") (bs "v") DB_STORE (MkSt k_busy db_ex) = NoFuel.
Proof.
  apply (db_ops_wait (bs "key") (bs "v") DB_STORE k_busy db_ex (Ofd 7 0 true true false)).
  - reflexivity.
  - exists (Rlock 7 0 None true). split_and!; try done. by apply list_elem_of_singleton.
  - by vm_compute.
  - split; [by apply entry_ok_dec|auto].
Defined.

Lemma db_store_long_key_witness :
  exists db k, db_open (bs "db4") DB_CREATE k_empty = Ret (Some db) k /\
    db_store (replicate 1024 "k"%byte) (bs "v") DB_INSERT (MkSt k db) = Undef "store outside idxbuf".
Proof.
  destruct (open_create_holds (bs "db4") k_empty (k_empty_ready _)) as (db & k & Hgo & Hh).
  exists db, k. split; [exact Hgo|].
  apply (db_store_long_key (bs "db4") [] ∅ ROOM (replicate 1024 "k"%byte) (bs "v") DB_INSERT (MkSt k db));
    [exact Hh|by vm_compute|by vm_compute|done|by left].
Defined.

Definition s_colon : St :=
  MkSt k_empty (set_idxbuf (bs "a:b:0:2" ++ [NUL]) db_ex).

Lemma split_idx_colon_key_witness :
  exists s', split_idx s_colon = Die (DDump "_db_readidx: too many separators") s'.
Proof.
  apply (split_idx_colon_key (bs "a") (bs "b") 0 2 (bs "a:b:0:2") [] s_colon).
  - split; [by repeat constructor|]. intros H. apply list_elem_of_singleton in H. done.
  - by repeat constructor.
  - done.
  - done.
  - reflexivity.
  - reflexivity.
Defined.

(** The whole of it, by evaluation: the store of such a key reports success and the next
    fetch of it kills the process. *)
Example colon_key_fatal :
  match db_open (bs "db4") DB_CREATE k_empty with
  | Ret (Some db) k =>
    match db_store (bs "a:b") (bs "v") DB_INSERT (MkSt k db) with
    | Ret r s => match db_fetch (bs "a:b") s with Die d _ => Some (r, d) | _ => None end
    | _ => None
    end
  | _ => None
  end = Some (0, DDump "_db_readidx: too many separators").
Proof. by vm_compute. Qed.
