(* ===== verification/Inet.v ===== *)
(** * Internet addresses: unpv13e/libfree inet_pton.c, inet_ntop.c, inet_aton.c, in_cksum.c

    Presentation strings are byte lists without their terminator; network addresses are
    lists of [u_char] values.  The parsers fill a local array [tmp] through an index; a
    store outside it is the separate outcome [POob]. *)

From Stdlib Require Import Strings.Byte ZArith Lia.
From S2P Require Import Prelude Libc.
From stdpp Require Import base strings numbers list.
#[local] Open Scope Z_scope.

Definition IN6ADDRSZ : Z := 16.
Definition INADDRSZ : Z := 4.
Definition INT16SZ : Z := 2.
Definition AF_INET : Z := 2.
Definition AF_INET6 : Z := 10.
Definition EAFNOSUPPORT : Z := 97.
Definition ENOSPC : Z := 28.

Definition c_dot : byte := "."%byte.
Definition c_colon : byte := ":"%byte.
Definition digits : bytes := bs "0123456789".
Definition xdigits_l : bytes := bs "0123456789abcdef".
Definition xdigits_u : bytes := bs "0123456789ABCDEF".

(** [tmp[i] = v] *)
Definition arr_put (i : Z) (v : Z) (a : list Z) : option (list Z) :=
  if (0 <=? i) && (i <? len a) then Some (<[Z.to_nat i := v]> a) else None.
Definition arr_get (i : Z) (a : list Z) : Z := nth (Z.to_nat i) a 0.

(** The outcomes of a parser: 1 with the address, 0, or a store outside [tmp]. *)
Inductive pton := POk (a : list Z) | PInvalid | POob.

(** ** inet_pton4 *)

Fixpoint pton4_loop (src : bytes) (tmp : list Z) (tp : Z) (saw_digit : bool) (octets : Z)
    (k : list Z -> Z -> pton) : pton :=
  match src with
  | [] => k tmp octets
  | ch :: src' =>
    match strchr digits ch with
    | Some pch =>
      let new := u32 (arr_get tp tmp * 10 + Z.of_nat pch) in
      if 255 <? new then PInvalid
      else
        match arr_put tp new tmp with
        | None => POob
        | Some tmp' =>
          if saw_digit then pton4_loop src' tmp' tp true octets k
          else if 4 <? octets + 1 then PInvalid
          else pton4_loop src' tmp' tp true (octets + 1) k
        end
    | None =>
      if bool_decide (ch = c_dot) && saw_digit then
        if octets =? 4 then PInvalid
        else
          match arr_put (tp + 1) 0 tmp with
          | None => POob
          | Some tmp' => pton4_loop src' tmp' (tp + 1) false octets k
          end
      else PInvalid
    end
  end.

(** The array is zeroed element by element before it is read. *)
Definition inet_pton4 (src : bytes) : pton :=
  pton4_loop src (replicate 4 0) 0 false 0 (fun tmp octets => if octets <? 4 then PInvalid else POk tmp).

(** ** inet_pton6 *)

(** The shift by hand: [for (i = 1; i <= n; i++)]. *)
Fixpoint shift_loop (fuel : nat) (i n colonp : Z) (tmp : list Z) : option (list Z) :=
  match fuel with
  | O => Some tmp
  | S f =>
    if n <? i then Some tmp
    else
      tmp1 ← arr_put (IN6ADDRSZ - i) (arr_get (colonp + n - i) tmp) tmp;
      tmp2 ← arr_put (colonp + n - i) 0 tmp1;
      shift_loop f (i + 1) n colonp tmp2
  end.

Definition pton6_shift (tmp : list Z) (tp : Z) (colonp : option Z) : pton :=
  match colonp with
  | None => if tp =? IN6ADDRSZ then POk tmp else PInvalid
  | Some c =>
    match shift_loop (Z.to_nat (tp - c)) 1 (tp - c) c tmp with
    | Some tmp' => POk tmp'
    | None => POob
    end
  end.

(** [*tp++ = (u_char) (val >> 8) & 0xff; *tp++ = (u_char) val & 0xff;] *)
Definition put_word (tp val : Z) (tmp : list Z) : option (list Z) :=
  tmp1 ← arr_put tp (Z.land (u8 (Z.shiftr val 8)) 255) tmp;
  arr_put (tp + 1) (Z.land (u8 val) 255) tmp1.

Definition pton6_finish (tmp : list Z) (tp : Z) (colonp : option Z) (saw_xdigit : bool) (val : Z) : pton :=
  if saw_xdigit then
    if IN6ADDRSZ <? tp + INT16SZ then PInvalid
    else
      match put_word tp val tmp with
      | None => POob
      | Some tmp' => pton6_shift tmp' (tp + 2) colonp
      end
  else pton6_shift tmp tp colonp.

Definition xdigit_of (ch : byte) : option nat :=
  match strchr xdigits_l ch with Some p => Some p | None => strchr xdigits_u ch end.

Fixpoint pton6_loop (src curtok : bytes) (tmp : list Z) (tp : Z) (colonp : option Z)
    (saw_xdigit : bool) (val : Z) : pton :=
  match src with
  | [] => pton6_finish tmp tp colonp saw_xdigit val
  | ch :: src' =>
    match xdigit_of ch with
    | Some pch =>
      let val' := Z.lor (u32 (Z.shiftl val 4)) (Z.of_nat pch) in
      if 65535 <? val' then PInvalid else pton6_loop src' curtok tmp tp colonp true val'
    | None =>
      if bool_decide (ch = c_colon) then
        if negb saw_xdigit then
          match colonp with
          | Some _ => PInvalid
          | None => pton6_loop src' src' tmp tp (Some tp) false val
          end
        else if IN6ADDRSZ <? tp + INT16SZ then PInvalid
        else
          match put_word tp val tmp with
          | None => POob
          | Some tmp' => pton6_loop src' src' tmp' (tp + 2) colonp false 0
          end
      else if bool_decide (ch = c_dot) && (tp + INADDRSZ <=? IN6ADDRSZ) then
        match inet_pton4 curtok with
        | POk a4 => pton6_finish (splice (Z.to_nat tp) a4 tmp) (tp + INADDRSZ) colonp false val
        | PInvalid => PInvalid
        | POob => POob
        end
      else PInvalid
    end
  end.

Definition inet_pton6 (src : bytes) : pton :=
  let start s := pton6_loop s s (replicate 16 0) 0 None false 0 in
  match src with
  | c :: s =>
    if bool_decide (c = c_colon) then
      match s with
      | c2 :: _ => if bool_decide (c2 = c_colon) then start s else PInvalid
      | [] => PInvalid
      end
    else start src
  | [] => start []
  end.

(** [inet_pton]: the return value, the new contents of [dst] and errno. *)
Definition inet_pton (af : Z) (src : bytes) (dst : list Z) (errno : Z) : option (Z * list Z * Z) :=
  let result p := match p with
                  | POk a => Some (1, splice 0 a dst, errno)
                  | PInvalid => Some (0, dst, errno)
                  | POob => None
                  end in
  if af =? AF_INET then result (inet_pton4 src)
  else if af =? AF_INET6 then result (inet_pton6 src)
  else Some (-1, dst, EAFNOSUPPORT).

(** ** inet_ntop4 *)

(** [dst] is an array of [size] bytes; the outcomes: filled, ENOSPC, stored past the end. *)
Inductive ntop := NOk (dst : bytes) | NNoSpc | NOver.

Definition strcpy (dst s : bytes) : ntop :=
  if (length s <? length dst)%nat then NOk (splice 0 (s ++ [NUL]) dst) else NOver.

Definition ntop4_text (src : list Z) : bytes :=
  dec (arr_get 0 src) ++ [c_dot] ++ dec (arr_get 1 src) ++ [c_dot] ++
  dec (arr_get 2 src) ++ [c_dot] ++ dec (arr_get 3 src).

Definition inet_ntop4 (src : list Z) (dst : bytes) : ntop :=
  let tmp := ntop4_text src in
  if len dst <? len tmp then NNoSpc else strcpy dst tmp.

(** ** inet_ntop6 *)

Definition hexdigit (d : Z) : byte := default x00 (xdigits_l !! Z.to_nat d).

Fixpoint hex_go (fuel : nat) (n : Z) (acc : bytes) : bytes :=
  match fuel with
  | O => acc
  | S f =>
    let acc' := hexdigit (n mod 16) :: acc in
    if n <? 16 then acc' else hex_go f (n / 16) acc'
  end.

(** ["%x"] of an unsigned int: at most eight digits. *)
Definition hex (n : Z) : bytes := hex_go 8 n [].

(** [words[i / 2] |= (src[i] << ((1 - (i % 2)) << 3))] over the whole address. *)
Fixpoint words_of (src : list Z) : list Z :=
  match src with
  | a :: b :: rest => Z.lor (Z.shiftl a 8) b :: words_of rest
  | _ => []
  end.

Record run := Run { r_base : Z; r_len : Z }.

Definition better (best cur : run) : run :=
  if (r_base best =? -1) || (r_len best <? r_len cur) then cur else best.

Fixpoint best_loop (ws : list Z) (i : Z) (best cur : run) : run :=
  match ws with
  | [] => if negb (r_base cur =? -1) then better best cur else best
  | w :: ws' =>
    if w =? 0 then
      best_loop ws' (i + 1) best
        (if r_base cur =? -1 then Run i 1 else Run (r_base cur) (r_len cur + 1))
    else if negb (r_base cur =? -1) then best_loop ws' (i + 1) (better best cur) (Run (-1) (r_len cur))
    else best_loop ws' (i + 1) best cur
  end.

Definition best_run (ws : list Z) : run :=
  let best := best_loop ws 0 (Run (-1) 0) (Run (-1) 0) in
  if negb (r_base best =? -1) && (r_len best <? 2) then Run (-1) (r_len best) else best.

(** Is this address an encapsulated IPv4? *)
Definition encapsulated (best : run) (words : list Z) : bool :=
  (r_base best =? 0) && ((r_len best =? 6) || ((r_len best =? 5) && (arr_get 5 words =? 65535))).

(** The formatting loop from word [i] on; [tmp] is what precedes [tp]. *)
Fixpoint fmt6_loop (src words : list Z) (best : run) (ws : list Z) (i : Z) (tmp : bytes) : bytes :=
  match ws with
  | [] => tmp
  | w :: ws' =>
    if negb (r_base best =? -1) && (r_base best <=? i) && (i <? r_base best + r_len best) then
      fmt6_loop src words best ws' (i + 1) (if i =? r_base best then tmp ++ [c_colon] else tmp)
    else
      let tmp := if negb (i =? 0) then tmp ++ [c_colon] else tmp in
      if (i =? 6) && encapsulated best words then tmp ++ ntop4_text (drop 12 src)
      else fmt6_loop src words best ws' (i + 1) (tmp ++ hex w)
  end.

Definition ntop6_text (src : list Z) : bytes :=
  let words := words_of src in
  let best := best_run words in
  let tmp := fmt6_loop src words best words 0 [] in
  if negb (r_base best =? -1) && (r_base best + r_len best =? IN6ADDRSZ / INT16SZ)
  then tmp ++ [c_colon] else tmp.

(** [tp - tmp] counts the terminator. *)
Definition inet_ntop6 (src : list Z) (dst : bytes) : ntop :=
  let tmp := ntop6_text src in
  if len dst <? len tmp + 1 then NNoSpc else strcpy dst tmp.

Definition inet_ntop (af : Z) (src : list Z) (dst : bytes) (errno : Z) : option (option bytes * Z) :=
  let result n := match n with
                  | NOk d => Some (Some d, errno)
                  | NNoSpc => Some (None, ENOSPC)
                  | NOver => None
                  end in
  if af =? AF_INET then result (inet_ntop4 src dst)
  else if af =? AF_INET6 then result (inet_ntop6 src dst)
  else Some (None, EAFNOSUPPORT).

(** ** inet_aton *)

(** The loop runs over the string and its terminator; [u_long] is 64 bits wide. *)
Fixpoint aton_loop (cp : bytes) (dots acc addr : Z) : option (Z * Z) :=
  match cp with
  | [] => if 255 <? acc then None else Some (dots, Z.lor (u64 (Z.shiftl addr 8)) acc)
  | cc :: cp' =>
    if isdigit cc then aton_loop cp' dots (u64 (acc * 10 + (uc cc - 48))) addr
    else if bool_decide (cc = c_dot) then
      if 3 <? dots + 1 then None
      else if 255 <? acc then None
      else aton_loop cp' (dots + 1) 0 (Z.lor (u64 (Z.shiftl addr 8)) acc)
    else None
  end.

(** The address in host order, or 0. *)
Definition inet_aton (cp : bytes) : option Z :=
  '(dots, addr) ← aton_loop cp 0 0 0;
  Some (u32 (if dots <? 3 then u64 (Z.shiftl addr (8 * (3 - dots))) else addr)).

(** ** in_cksum *)

(** [addr] as 16-bit words of the machine (little endian) and a last odd byte. *)
Fixpoint cksum_loop (addr : list Z) (sum : Z) : Z :=
  match addr with
  | a :: b :: rest => cksum_loop rest (u32 (sum + (a + 256 * b)))
  | [a] => u32 (sum + a)
  | [] => sum
  end.

Definition in_cksum (addr : list Z) : Z :=
  let sum := cksum_loop addr 0 in
  let sum := u32 (Z.shiftr sum 16 + Z.land sum 65535) in
  let sum := u32 (sum + Z.shiftr sum 16) in
  u16 (Z.lnot sum).
