(* ===== verification/InetProofs.v ===== *)
(** * Properties of the address conversions

    Parsing and formatting are inverse, no store leaves a local array, the size checks of
    the formatters, the forms of [inet_aton], and the self-check of the Internet checksum.
    The operations are those of Inet.v. *)

From Stdlib Require Import Strings.Byte ZArith Lia.
From S2P Require Import Prelude Libc Inet.
From stdpp Require Import base strings numbers list.
#[local] Open Scope Z_scope.

(** ** Arrays *)

Lemma arr_put_Some i v a :
  0 <= i < len a -> arr_put i v a = Some (<[Z.to_nat i := v]> a) /\ len (<[Z.to_nat i := v]> a) = len a.
Proof.
  intros H. unfold arr_put. replace ((0 <=? i) && (i <? len a)) with true by lia.
  split; [done|]. unfold len. by rewrite length_insert.
Qed.

Lemma arr_put_inv i v a a' :
  arr_put i v a = Some a' -> 0 <= i < len a /\ a' = <[Z.to_nat i := v]> a /\ len a' = len a.
Proof.
  unfold arr_put. destruct (_ && _) eqn:E; [|done]. intros [= <-]. split; [lia|]. split; [done|].
  unfold len. by rewrite length_insert.
Qed.

Definition u_char (v : Z) : Prop := 0 <= v < 256.

Lemma Forall_arr_put i v a a' :
  arr_put i v a = Some a' -> u_char v -> Forall u_char a -> Forall u_char a'.
Proof. intros H Hv Ha. apply arr_put_inv in H as (_ & -> & _). by apply Forall_insert. Qed.

Lemma u_char_mask v : u_char (Z.land v 255).
Proof.
  unfold u_char. change 255 with (Z.ones 8). rewrite Z.land_ones by lia. apply Z.mod_pos_bound. lia.
Qed.

(** ** The parsers never store outside their array, and produce addresses *)

Definition addr_or_invalid (n : Z) (p : pton) : Prop :=
  match p with POk a => len a = n /\ Forall u_char a | PInvalid => True | POob => False end.

Lemma pton4_loop_ok src tmp tp (saw : bool) octets k :
  len tmp = 4 -> Forall u_char tmp -> 0 <= tp <= 3 -> octets = tp + (if saw then 1 else 0) ->
  (forall tmp' o, len tmp' = 4 -> Forall u_char tmp' -> addr_or_invalid 4 (k tmp' o)) ->
  addr_or_invalid 4 (pton4_loop src tmp tp saw octets k).
Proof.
  intros Hl Hf Htp Ho Hk. revert tmp tp saw octets Hl Hf Htp Ho.
  induction src as [|ch src IH]; intros tmp tp saw octets Hl Hf Htp Ho;
    cbn [pton4_loop]; [by apply Hk|].
  destruct (strchr digits ch) as [p|].
  - set (new := u32 (arr_get tp tmp * 10 + Z.of_nat p)). cbv zeta. fold new.
    destruct (Z.ltb_spec 255 new) as [|Hnew]; [exact I|].
    destruct (arr_put_Some tp new tmp ltac:(lia)) as [Hput Hl']. rewrite Hput.
    assert (Hf' : Forall u_char (<[Z.to_nat tp:=new]> tmp)).
    { eapply Forall_arr_put; [exact Hput| |done]. pose proof (wrap_range 32 (arr_get tp tmp * 10 + Z.of_nat p)).
      unfold u_char, new in *. lia. }
    destruct saw; [apply IH; try done; lia|].
    destruct (Z.ltb_spec 4 (octets + 1)); [exact I|]. apply IH; try done; lia.
  - destruct (bool_decide (ch = c_dot) && saw) eqn:E; [|exact I]. apply andb_true_iff in E as [_ ->].
    destruct (Z.eqb_spec octets 4); [exact I|].
    destruct (arr_put_Some (tp + 1) 0 tmp ltac:(lia)) as [Hput Hl']. rewrite Hput.
    apply IH; try done; try lia. eapply Forall_arr_put; [exact Hput|unfold u_char; lia|done].
Qed.

Lemma inet_pton4_ok src : addr_or_invalid 4 (inet_pton4 src).
Proof.
  apply pton4_loop_ok; try done; [by repeat constructor|].
  intros tmp o Hl Hf. by destruct (o <? 4).
Qed.

Lemma shift_loop_ok fuel i n c tmp :
  len tmp = 16 -> Forall u_char tmp -> 0 <= c -> c + n <= 16 -> 1 <= i ->
  exists tmp', shift_loop fuel i n c tmp = Some tmp' /\ len tmp' = 16 /\ Forall u_char tmp'.
Proof.
  revert i tmp. induction fuel as [|f IH]; intros i tmp Hl Hf Hc Hn Hi; simpl; [by exists tmp|].
  destruct (Z.ltb_spec n i); [by exists tmp|]. unfold IN6ADDRSZ.
  assert (Hget : u_char (arr_get (c + n - i) tmp)).
  { unfold arr_get. rewrite Forall_lookup in Hf. destruct (tmp !! Z.to_nat (c + n - i)) as [x|] eqn:E.
    - rewrite (nth_lookup_Some _ _ _ _ E). eauto.
    - rewrite nth_overflow; [by unfold u_char|]. by apply lookup_ge_None in E. }
  destruct (arr_put_Some (16 - i) (arr_get (c + n - i) tmp) tmp ltac:(lia)) as [Hp1 Hl1].
  pose proof (Forall_arr_put _ _ _ _ Hp1 Hget Hf) as Hf1. rewrite Hp1. simpl.
  set (t1 := <[Z.to_nat (16 - i) := _]> tmp) in *.
  destruct (arr_put_Some (c + n - i) 0 t1 ltac:(lia)) as [Hp2 Hl2].
  pose proof (Forall_arr_put _ _ _ _ Hp2 ltac:(unfold u_char; lia) Hf1) as Hf2. rewrite Hp2. simpl.
  apply IH; try done; lia.
Qed.

Lemma pton6_shift_ok tmp tp colonp :
  len tmp = 16 -> Forall u_char tmp -> tp <= 16 -> (forall c, colonp = Some c -> 0 <= c <= tp) ->
  addr_or_invalid 16 (pton6_shift tmp tp colonp).
Proof.
  intros Hl Hf Htp Hc. unfold pton6_shift. destruct colonp as [c|]; [|by destruct (_ =? _)].
  specialize (Hc c eq_refl).
  destruct (shift_loop_ok (Z.to_nat (tp - c)) 1 (tp - c) c tmp) as (t & -> & ? & ?); try done; lia.
Qed.

Lemma put_word_ok tp val tmp :
  len tmp = 16 -> Forall u_char tmp -> 0 <= tp -> tp + 2 <= 16 ->
  exists tmp', put_word tp val tmp = Some tmp' /\ len tmp' = 16 /\ Forall u_char tmp'.
Proof.
  intros Hl Hf H0 H1. unfold put_word.
  destruct (arr_put_Some tp (Z.land (u8 (Z.shiftr val 8)) 255) tmp ltac:(lia)) as [Hp Hl1].
  pose proof (Forall_arr_put _ _ _ _ Hp (u_char_mask _) Hf) as Hf1. rewrite Hp. simpl.
  set (t1 := <[_ := _]> tmp) in *.
  destruct (arr_put_Some (tp + 1) (Z.land (u8 val) 255) t1 ltac:(lia)) as [Hp2 Hl2].
  pose proof (Forall_arr_put _ _ _ _ Hp2 (u_char_mask _) Hf1) as Hf2. rewrite Hp2.
  eexists. split; [done|]. split; [lia|done].
Qed.

Lemma pton6_finish_ok tmp tp colonp saw val :
  len tmp = 16 -> Forall u_char tmp -> 0 <= tp <= 16 -> (forall c, colonp = Some c -> 0 <= c <= tp) ->
  addr_or_invalid 16 (pton6_finish tmp tp colonp saw val).
Proof.
  intros Hl Hf Htp Hc. unfold pton6_finish, IN6ADDRSZ, INT16SZ. destruct saw; [|apply pton6_shift_ok; try done; lia].
  destruct (Z.ltb_spec 16 (tp + 2)); [done|].
  destruct (put_word_ok tp val tmp) as (t & -> & ? & ?); try done; try lia.
  apply pton6_shift_ok; try done; try lia. intros c Ec. specialize (Hc c Ec). lia.
Qed.

Lemma pton6_loop_ok src curtok tmp tp colonp saw val :
  len tmp = 16 -> Forall u_char tmp -> 0 <= tp <= 16 -> (forall c, colonp = Some c -> 0 <= c <= tp) ->
  addr_or_invalid 16 (pton6_loop src curtok tmp tp colonp saw val).
Proof.
  revert curtok tmp tp colonp saw val.
  induction src as [|ch src IH]; intros curtok tmp tp colonp saw val Hl Hf Htp Hc;
    cbn [pton6_loop]; cbv zeta;
    [by apply pton6_finish_ok|].
  destruct (xdigit_of ch) as [p|].
  { destruct (65535 <? _); [exact I|]. by apply IH. }
  destruct (bool_decide (ch = c_colon)).
  { destruct saw; cbn [negb].
    - unfold IN6ADDRSZ, INT16SZ. destruct (Z.ltb_spec 16 (tp + 2)); [done|].
      destruct (put_word_ok tp val tmp) as (t & -> & ? & ?); try done; try lia.
      apply IH; try done; try lia. intros c Ec. specialize (Hc c Ec). lia.
    - destruct colonp as [c|]; [done|]. apply IH; try done. intros c [= <-]. lia. }
  destruct (bool_decide (ch = c_dot) && (tp + INADDRSZ <=? IN6ADDRSZ)) eqn:E; [|done].
  apply andb_true_iff in E as [_ E]. unfold IN6ADDRSZ, INADDRSZ in *.
  pose proof (inet_pton4_ok curtok) as H4. destruct (inet_pton4 curtok) as [a| |]; try done.
  destruct H4 as [Hla Hfa]. apply pton6_finish_ok; try lia.
  - unfold len in *. rewrite length_splice; lia.
  - unfold splice. rewrite !Forall_app. split_and!; [by apply Forall_take|done|by apply Forall_drop].
  - intros c Ec. specialize (Hc c Ec). lia.
Qed.

Lemma inet_pton6_ok src : addr_or_invalid 16 (inet_pton6 src).
Proof.
  assert (Hs : forall s, addr_or_invalid 16 (pton6_loop s s (replicate 16 0) 0 None false 0)).
  { intros s. apply pton6_loop_ok; try done. by repeat constructor. }
  unfold inet_pton6. destruct src as [|c s]; [apply Hs|]. destruct (bool_decide _); [|apply Hs].
  destruct s as [|c2 s]; [done|]. destruct (bool_decide _); [apply Hs|done].
Qed.

(** ** Round trip of IPv4 *)

(** The value a run of decimal digits leaves in [*tp]. *)
Fixpoint dfold (v : Z) (s : bytes) : option Z :=
  match s with
  | [] => Some v
  | c :: s' =>
    match strchr digits c with
    | Some p => let v' := v * 10 + Z.of_nat p in if 255 <? v' then None else dfold v' s'
    | None => None
    end
  end.

Lemma dfold_dec n : 0 <= n <= 255 -> dfold 0 (dec n) = Some n /\ dec n <> [].
Proof.
  intros Hn. split; [|apply dec_nonnil; lia].
  assert (Hall : forallb (fun n => bool_decide (dfold 0 (dec n) = Some n)) (seqZ 0 256) = true)
    by (by vm_compute).
  rewrite forallb_forall in Hall. eapply bool_decide_eq_true_1, Hall, list_elem_of_In, elem_of_seqZ. lia.
Qed.

Lemma arr_get_insert i v a : 0 <= i < len a -> arr_get i (<[Z.to_nat i := v]> a) = v.
Proof.
  intros H. unfold arr_get. apply nth_lookup_Some, list_lookup_insert_eq. unfold len in H. lia.
Qed.

Lemma arr_get_lookup i a : 0 <= i < len a -> a !! Z.to_nat i = Some (arr_get i a).
Proof.
  intros H. destruct (lookup_lt_is_Some_2 a (Z.to_nat i)) as [x Hx]; [unfold len in H; lia|].
  rewrite Hx. unfold arr_get. by rewrite (nth_lookup_Some _ _ _ _ Hx).
Qed.

Lemma pton4_digits s v v' tmp tp octets k rest :
  dfold v s = Some v' -> 0 <= v -> 0 <= tp < len tmp -> arr_get tp tmp = v ->
  pton4_loop (s ++ rest) tmp tp true octets k =
  pton4_loop rest (<[Z.to_nat tp := v']> tmp) tp true octets k.
Proof.
  revert v tmp. induction s as [|c s IH]; intros v tmp Hf Hv Htp Hg; cbn [app dfold pton4_loop] in *.
  - injection Hf as <-. rewrite list_insert_id; [done|]. rewrite <- Hg. by apply arr_get_lookup.
  - destruct (strchr digits c) as [p|]; [|done]. cbv zeta in *. rewrite Hg.
    destruct (Z.ltb_spec 255 (v * 10 + Z.of_nat p)); [done|].
    rewrite wrap_small by lia. destruct (Z.ltb_spec 255 (v * 10 + Z.of_nat p)); [lia|].
    destruct (arr_put_Some tp (v * 10 + Z.of_nat p) tmp Htp) as [Hput Hl]. rewrite Hput.
    rewrite (IH _ _ Hf); [by rewrite list_insert_insert_eq|lia|lia|by apply arr_get_insert].
Qed.

Lemma pton4_octet n tmp tp octets k rest :
  0 <= n <= 255 -> 0 <= tp < len tmp -> arr_get tp tmp = 0 -> octets + 1 <= 4 ->
  pton4_loop (dec n ++ rest) tmp tp false octets k =
  pton4_loop rest (<[Z.to_nat tp := n]> tmp) tp true (octets + 1) k.
Proof.
  intros Hn Htp Hg Ho. destruct (dfold_dec n Hn) as [Hf Hne].
  destruct (dec n) as [|c s]; [done|]. cbn [app dfold pton4_loop] in *.
  destruct (strchr digits c) as [p|]; [|done]. cbv zeta in *. rewrite Hg.
  destruct (Z.ltb_spec 255 (0 * 10 + Z.of_nat p)); [done|]. rewrite wrap_small by lia.
  destruct (Z.ltb_spec 255 (0 * 10 + Z.of_nat p)); [lia|].
  destruct (arr_put_Some tp (0 * 10 + Z.of_nat p) tmp Htp) as [Hput Hl]. rewrite Hput.
  destruct (Z.ltb_spec 4 (octets + 1)); [lia|].
  rewrite (pton4_digits s (0 * 10 + Z.of_nat p) n); [by rewrite list_insert_insert_eq|done|lia|lia|].
  by apply arr_get_insert.
Qed.

Lemma pton4_dot s tmp tp octets k :
  0 <= tp + 1 < len tmp -> octets <> 4 ->
  pton4_loop ([c_dot] ++ s) tmp tp true octets k =
  pton4_loop s (<[Z.to_nat (tp + 1) := 0]> tmp) (tp + 1) false octets k.
Proof.
  intros Htp Ho. destruct (arr_put_Some (tp + 1) 0 tmp Htp) as [Hput _].
  change ([c_dot] ++ s) with (c_dot :: s). cbn [pton4_loop].
  change (strchr digits c_dot) with (@None nat). change (bool_decide (c_dot = c_dot) && true) with true.
  cbv iota. destruct (Z.eqb_spec octets 4); [done|]. by rewrite Hput.
Qed.

Lemma pton4_ntop4 a b c d :
  u_char a -> u_char b -> u_char c -> u_char d -> inet_pton4 (ntop4_text [a; b; c; d]) = POk [a; b; c; d].
Proof.
  unfold u_char. intros Ha Hb Hc Hd. unfold inet_pton4, ntop4_text.
  change (arr_get 0 [a; b; c; d]) with a. change (arr_get 1 [a; b; c; d]) with b.
  change (arr_get 2 [a; b; c; d]) with c. change (arr_get 3 [a; b; c; d]) with d.
  rewrite <- (app_nil_r (dec d)).
  repeat first [rewrite pton4_octet by (done || lia) | rewrite pton4_dot by (done || lia)]. done.
Qed.

(** ** Round trip of IPv6 *)

Fixpoint hexfold (v : Z) (s : bytes) : option Z :=
  match s with
  | [] => Some v
  | c :: s' =>
    match xdigit_of c with
    | Some p => let v' := Z.lor (u32 (Z.shiftl v 4)) (Z.of_nat p) in
                if 65535 <? v' then None else hexfold v' s'
    | None => None
    end
  end.

Lemma lor_add_low v d n : 0 <= n -> 0 <= d < 2 ^ n -> Z.lor (Z.shiftl v n) d = v * 2 ^ n + d.
Proof.
  intros Hn Hd. rewrite <- Z.shiftl_mul_pow2 by done. symmetry.
  assert (Hz : Z.land (Z.shiftl v n) d = 0).
  { destruct (Z.eq_dec d 0) as [->|Hd0]; [apply Z.land_0_r|].
    apply Z.bits_inj'. intros i Hi. rewrite Z.land_spec, Z.bits_0.
    destruct (Z.ltb_spec i n); [by rewrite Z.shiftl_spec_low|].
    pose proof (proj1 (Z.log2_lt_pow2 d n ltac:(lia)) ltac:(lia)).
    rewrite (Z.bits_above_log2 d) by lia. apply andb_false_r. }
  rewrite Z.add_nocarry_lxor by done. by apply Z.lxor_lor.
Qed.

Lemma xdigit_hexdigit d :
  0 <= d < 16 -> xdigit_of (hexdigit d) = Some (Z.to_nat d) /\ hexdigit d <> c_colon.
Proof.
  intros Hd.
  assert (Hall : forallb (fun d => bool_decide (xdigit_of (hexdigit d) = Some (Z.to_nat d)) &&
    negb (bool_decide (hexdigit d = c_colon))) (seqZ 0 16) = true) by (by vm_compute).
  rewrite forallb_forall in Hall. specialize (Hall d ltac:(apply list_elem_of_In, elem_of_seqZ; lia)).
  by rewrite andb_true_iff, negb_true_iff, bool_decide_eq_true, bool_decide_eq_false in Hall.
Qed.

Lemma hexfold_digit v d s :
  0 <= d < 16 -> 0 <= v -> v * 16 + d <= 65535 -> hexfold v (hexdigit d :: s) = hexfold (v * 16 + d) s.
Proof.
  intros Hd Hv Hb. cbn [hexfold]. rewrite (proj1 (xdigit_hexdigit d Hd)). cbv zeta.
  rewrite Z2Nat.id, wrap_small by (rewrite ?Z.shiftl_mul_pow2; lia).
  rewrite (lor_add_low v d 4) by lia. change (2 ^ 4) with 16. by destruct (Z.ltb_spec 65535 (v * 16 + d)); [lia|].
Qed.

(** The digits of ["%x"] read back as the number, after any digits read before them. *)
Lemma hex_go_fold fuel n acc :
  0 <= n -> n < 16 ^ Z.of_nat fuel -> n <= 65535 -> (1 <= fuel)%nat ->
  exists s, hex_go fuel n acc = s ++ acc /\ (1 <= length s)%nat /\
    (forall k : nat, (1 <= k)%nat -> n < 16 ^ Z.of_nat k -> (length s <= k)%nat) /\
    (forall r, hexfold 0 (s ++ r) = hexfold n r) /\ head s <> Some c_colon.
Proof.
  revert n acc. induction fuel as [|f IH]; intros n acc Hn Hlt Hb Hf; [lia|]. cbn [hex_go].
  pose proof (Z.mod_pos_bound n 16 ltac:(lia)) as Hm. pose proof (Z.div_mod n 16 ltac:(lia)) as Edm.
  destruct (xdigit_hexdigit (n mod 16) Hm) as [_ Hcol].
  destruct (Z.ltb_spec n 16) as [H16|H16].
  - exists [hexdigit (n mod 16)]. split_and!; [done|simpl; lia|simpl; lia| |simpl; congruence].
    intros r. simpl app. rewrite hexfold_digit by lia. rewrite Z.mod_small by lia. done.
  - rewrite Nat2Z.inj_succ, Z.pow_succ_r in Hlt by lia.
    assert (Hq : 1 <= n / 16 < 16 ^ Z.of_nat f).
    { split; [apply Z.div_le_lower_bound|apply Z.div_lt_upper_bound]; lia. }
    destruct f as [|f']; [simpl in Hq; lia|].
    destruct (IH (n / 16) (hexdigit (n mod 16) :: acc)) as (s & -> & H1 & Hl & Hr & Hh); try lia.
    exists (s ++ [hexdigit (n mod 16)]). split_and!.
    + by rewrite <- app_assoc.
    + rewrite length_app. lia.
    + intros k Hk Hlt'. rewrite length_app. simpl. destruct k as [|[|k]]; [lia| |].
      { change (16 ^ Z.of_nat 1) with 16 in Hlt'. lia. }
      assert (length s <= S k)%nat; [|lia]. apply Hl; [lia|].
      rewrite (Nat2Z.inj_succ (S k)), Z.pow_succ_r in Hlt' by lia. apply Z.div_lt_upper_bound; lia.
    + intros r. rewrite <- app_assoc, Hr. simpl app. rewrite hexfold_digit by lia. f_equal. lia.
    + destruct s as [|c s]; [simpl in H1; lia|]. done.
Qed.

(** A word prints to one to four digits that read back as the word. *)
Lemma hex_word w :
  0 <= w <= 65535 ->
  hexfold 0 (hex w) = Some w /\ (1 <= length (hex w) <= 4)%nat /\ head (hex w) <> Some c_colon.
Proof.
  intros Hw. destruct (hex_go_fold 8 w []) as (s & E & H1 & Hl & Hr & Hh); try lia.
  unfold hex. rewrite E. split_and!; [by rewrite Hr|by rewrite app_nil_r| |by rewrite app_nil_r].
  rewrite app_nil_r. apply Hl; lia.
Qed.

Lemma pton6_hexfold s v v' cur tmp tp c saw rest :
  hexfold v s = Some v' ->
  pton6_loop (s ++ rest) cur tmp tp c saw v =
  pton6_loop rest cur tmp tp c (saw || negb (bool_decide (s = []))) v'.
Proof.
  revert v saw. induction s as [|ch s IH]; intros v saw Hf; cbn [app hexfold pton6_loop] in *.
  - injection Hf as <-. by rewrite orb_false_r.
  - destruct (xdigit_of ch) as [p|]; [|done]. cbv zeta in *.
    destruct (65535 <? _); [done|]. rewrite (IH _ _ Hf). simpl. by rewrite orb_true_r.
Qed.

Definition hi_byte (w : Z) : Z := Z.land (u8 (Z.shiftr w 8)) 255.
Definition lo_byte (w : Z) : Z := Z.land (u8 w) 255.

(** [tmp] with the bytes [acc] filled in. *)
Definition filled (acc : list Z) : list Z := acc ++ replicate (16 - length acc) 0.

Lemma put_word_filled acc w :
  (length acc + 2 <= 16)%nat ->
  put_word (len acc) w (filled acc) = Some (filled (acc ++ [hi_byte w; lo_byte w])).
Proof.
  intros Hl. unfold put_word, filled.
  assert (E : replicate (16 - length acc) 0 = 0 :: 0 :: replicate (16 - length acc - 2) 0).
  { destruct (16 - length acc)%nat as [|[|n]] eqn:En; [lia|lia|]. simpl. by rewrite Nat.sub_0_r. }
  rewrite E.
  destruct (arr_put_Some (len acc) (hi_byte w) (acc ++ 0 :: 0 :: replicate (16 - length acc - 2) 0)) as [H1 H1'].
  { unfold len. rewrite length_app. simpl. lia. }
  fold (hi_byte w). rewrite H1. simpl.
  assert (E1 : <[Z.to_nat (len acc) := hi_byte w]> (acc ++ 0 :: 0 :: replicate (16 - length acc - 2) 0) =
    acc ++ hi_byte w :: 0 :: replicate (16 - length acc - 2) 0).
  { unfold len. rewrite Nat2Z.id. rewrite <- (Nat.add_0_r (length acc)) at 1. by rewrite insert_app_r. }
  rewrite E1 in *.
  destruct (arr_put_Some (len acc + 1) (lo_byte w) (acc ++ hi_byte w :: 0 :: replicate (16 - length acc - 2) 0)) as [H2 _].
  { unfold len. rewrite length_app. simpl. lia. }
  fold (lo_byte w). rewrite H2. f_equal.
  replace (Z.to_nat (len acc + 1)) with (length acc + 1)%nat by (unfold len; lia).
  rewrite insert_app_r. simpl. rewrite <- app_assoc. simpl. rewrite length_app. simpl.
  by rewrite Nat.sub_add_distr.
Qed.

Lemma pton6_word w cur acc c rest :
  0 <= w <= 65535 -> pton6_loop (hex w ++ rest) cur (filled acc) (len acc) c false 0 =
  pton6_loop rest cur (filled acc) (len acc) c true w.
Proof.
  intros Hw. destruct (hex_word w Hw) as (Hf & Hl & _). rewrite (pton6_hexfold _ _ _ _ _ _ _ _ _ Hf).
  rewrite bool_decide_false; [done|]. intros E. rewrite E in Hl. simpl in Hl. lia.
Qed.

(** A group and its colon. *)
Lemma pton6_group w cur acc c rest :
  0 <= w <= 65535 -> (length acc + 2 <= 16)%nat ->
  pton6_loop (hex w ++ c_colon :: rest) cur (filled acc) (len acc) c false 0 =
  pton6_loop rest rest (filled (acc ++ [hi_byte w; lo_byte w])) (len (acc ++ [hi_byte w; lo_byte w])) c false 0.
Proof.
  intros Hw Hl. rewrite pton6_word by done. cbn [pton6_loop].
  change (xdigit_of c_colon) with (@None nat). change (bool_decide (c_colon = c_colon)) with true.
  cbn [negb]. unfold IN6ADDRSZ, INT16SZ.
  destruct (Z.ltb_spec 16 (len acc + 2)) as [H|_]; [unfold len in H; lia|].
  rewrite put_word_filled by done. f_equal. unfold len. rewrite length_app. simpl. lia.
Qed.

(** The last group. *)
Lemma pton6_last w cur acc c :
  0 <= w <= 65535 -> (length acc + 2 <= 16)%nat ->
  pton6_loop (hex w) cur (filled acc) (len acc) c false 0 =
  pton6_shift (filled (acc ++ [hi_byte w; lo_byte w])) (len (acc ++ [hi_byte w; lo_byte w])) c.
Proof.
  intros Hw Hl. rewrite <- (app_nil_r (hex w)), pton6_word by done. cbn [pton6_loop].
  unfold pton6_finish, IN6ADDRSZ, INT16SZ.
  destruct (Z.ltb_spec 16 (len acc + 2)) as [H|_]; [unfold len in H; lia|].
  rewrite put_word_filled by done. f_equal. unfold len. rewrite length_app. simpl. lia.
Qed.

(** The second colon of a double colon. *)
Lemma pton6_double cur acc rest :
  pton6_loop (c_colon :: rest) cur (filled acc) (len acc) None false 0 =
  pton6_loop rest rest (filled acc) (len acc) (Some (len acc)) false 0.
Proof. done. Qed.

(** A trailing dotted quad. *)
Lemma pton6_quad a b c d acc col :
  u_char a -> u_char b -> u_char c -> u_char d -> (length acc + 4 <= 16)%nat ->
  let quad := ntop4_text [a; b; c; d] in
  pton6_loop quad quad (filled acc) (len acc) col false 0 =
  pton6_shift (filled (acc ++ [a; b; c; d])) (len (acc ++ [a; b; c; d])) col.
Proof.
  intros Ha Hb Hc Hd Hl quad. pose proof (pton4_ntop4 a b c d Ha Hb Hc Hd) as H4. fold quad in H4.
  assert (Hhex : exists v, hexfold 0 (dec a) = Some v).
  { assert (Hall : forallb (fun n => match hexfold 0 (dec n) with Some _ => true | None => false end)
      (seqZ 0 256) = true) by (by vm_compute).
    rewrite forallb_forall in Hall. unfold u_char in Ha.
    specialize (Hall a ltac:(apply list_elem_of_In, elem_of_seqZ; lia)). destruct (hexfold 0 (dec a)); [eauto|done]. }
  destruct Hhex as [v Hv].
  assert (Eq : exists r, quad = dec a ++ c_dot :: r) by (by eexists). destruct Eq as [r Eq].
  rewrite Eq at 1. rewrite (pton6_hexfold _ _ _ _ _ _ _ _ _ Hv). cbn [pton6_loop].
  change (xdigit_of c_dot) with (@None nat). change (bool_decide (c_dot = c_colon)) with false.
  cbv iota. unfold IN6ADDRSZ, INADDRSZ. replace (bool_decide (c_dot = c_dot) && (len acc + 4 <=? 16)) with true.
  2:{ symmetry. apply andb_true_iff. split; [done|]. unfold len. lia. }
  rewrite H4. unfold pton6_finish. f_equal; [|unfold len; rewrite length_app; simpl; lia].
  unfold filled. replace (replicate (16 - length acc) 0) with ([0; 0; 0; 0] ++ replicate (16 - length acc - 4) 0).
  - rewrite splice_app by (unfold len; rewrite ?Nat2Z.id; done). rewrite <- app_assoc. do 2 f_equal.
    rewrite length_app. simpl. f_equal. lia.
  - change [0; 0; 0; 0] with (replicate 4 0). rewrite <- replicate_add. f_equal. lia.
Qed.

(** Text that starts with a group is parsed from its first character. *)
Lemma pton6_start w rest :
  0 <= w <= 65535 ->
  inet_pton6 (hex w ++ rest) =
  pton6_loop (hex w ++ rest) (hex w ++ rest) (filled []) (len (@nil Z)) None false 0.
Proof.
  intros Hw. destruct (hex_word w Hw) as (_ & Hl & Hh). unfold inet_pton6, filled.
  destruct (hex w) as [|c s]; [simpl in Hl; lia|]. change ((c :: s) ++ rest) with (c :: s ++ rest).
  cbv beta iota zeta. rewrite (bool_decide_false (c = c_colon)); [done|].
  intros ->. done.
Qed.

Lemma pton6_start_double rest :
  inet_pton6 (c_colon :: c_colon :: rest) =
  pton6_loop (c_colon :: rest) (c_colon :: rest) (filled []) (len (@nil Z)) None false 0.
Proof. done. Qed.

(** ** The run of zeros *)

Definition zero_run (ws : list Z) (r : run) : Prop :=
  r_base r = -1 \/
  (0 <= r_base r /\ 1 <= r_len r /\ r_base r + r_len r <= len ws /\
   forall i, r_base r <= i < r_base r + r_len r -> arr_get i ws = 0).

Lemma best_loop_ok full ws i best cur :
  0 <= i -> full = take (Z.to_nat i) full ++ ws -> len full = i + len ws ->
  zero_run full best -> zero_run full cur -> (r_base cur <> -1 -> r_base cur + r_len cur = i) ->
  zero_run full (best_loop ws i best cur).
Proof.
  revert i best cur. induction ws as [|w ws IH]; intros i best cur Hi Hf Hl Hb Hc He; cbn [best_loop].
  - destruct (negb (r_base cur =? -1)); [|done]. unfold better. by destruct (_ || _).
  - assert (Hget : arr_get i full = w).
    { unfold arr_get. rewrite Hf at 1. rewrite app_nth2; rewrite length_take; unfold len in *; simpl in *; [|lia].
      rewrite Nat.min_l by lia. by rewrite Nat.sub_diag. }
    assert (Hf' : full = take (Z.to_nat (i + 1)) full ++ ws).
    { rewrite <- (take_drop (Z.to_nat (i + 1)) full) at 1. f_equal. rewrite Hf at 1.
      replace (Z.to_nat (i + 1)) with (length (take (Z.to_nat i) full) + 1)%nat.
      - by rewrite drop_app_add.
      - rewrite length_take. unfold len in *. simpl in *. lia. }
    assert (Hl' : len full = i + 1 + len ws) by (unfold len in *; simpl in *; lia).
    assert (Hbt : r_base cur <> -1 -> zero_run full (better best cur)).
    { intros _. unfold better. by destruct (_ || _). }
    destruct (Z.eqb_spec w 0) as [->|Hw].
    + apply IH; try done; [lia| |].
      * destruct (Z.eqb_spec (r_base cur) (-1)) as [E|E]; right; simpl; unfold len in *; simpl in *.
        -- split_and!; try lia. intros j Hj. by replace j with i by lia.
        -- destruct Hc as [?|(H1 & H2 & H3 & H4)]; [done|]. specialize (He E). split_and!; try lia.
           intros j Hj. destruct (decide (j = i)) as [->|]; [done|]. apply H4. lia.
      * destruct (Z.eqb_spec (r_base cur) (-1)) as [E|E]; simpl; [lia|]. specialize (He E). lia.
    + destruct (Z.eqb_spec (r_base cur) (-1)) as [E|E]; cbn [negb].
      * apply IH; try done; lia.
      * apply IH; try done; [lia|auto|by left].
Qed.

Lemma best_run_ok ws :
  r_base (best_run ws) = -1 \/
  (0 <= r_base (best_run ws) /\ 2 <= r_len (best_run ws) /\
   r_base (best_run ws) + r_len (best_run ws) <= len ws /\
   forall i, r_base (best_run ws) <= i < r_base (best_run ws) + r_len (best_run ws) -> arr_get i ws = 0).
Proof.
  unfold best_run. set (b := best_loop ws 0 (Run (-1) 0) (Run (-1) 0)).
  assert (Hz : zero_run ws b) by (apply best_loop_ok; try done; by left).
  destruct (negb (r_base b =? -1) && (r_len b <? 2)) eqn:E; [by left|].
  destruct Hz as [?|(H1 & H2 & H3 & H4)]; [by left|]. right. split_and!; try done. lia.
Qed.

(** ** Words and bytes *)

Lemma hi_byte_eq w : 0 <= w <= 65535 -> hi_byte w = w / 256.
Proof.
  intros Hw. unfold hi_byte. rewrite Z.shiftr_div_pow2 by lia. change (2 ^ 8) with 256.
  assert (0 <= w / 256 < 256) by (split; [apply Z.div_pos|apply Z.div_lt_upper_bound]; lia).
  rewrite wrap_small by lia. change 255 with (Z.ones 8). rewrite Z.land_ones by lia. by apply Z.mod_small.
Qed.

Lemma lo_byte_eq w : lo_byte w = w mod 256.
Proof.
  unfold lo_byte, wrap. change 255 with (Z.ones 8). rewrite Z.land_ones by lia.
  change (2 ^ 8) with 256. apply Z.mod_mod. lia.
Qed.

Lemma word_bytes a b :
  u_char a -> u_char b ->
  let w := Z.lor (Z.shiftl a 8) b in 0 <= w <= 65535 /\ hi_byte w = a /\ lo_byte w = b.
Proof.
  intros Ha Hb w. unfold w. unfold u_char in *. rewrite lor_add_low by lia. change (2 ^ 8) with 256.
  assert (Hr : 0 <= a * 256 + b <= 65535) by lia.
  rewrite hi_byte_eq, lo_byte_eq by done. split_and!; try lia.
  - rewrite Z.div_add_l by lia. rewrite Z.div_small by lia. lia.
  - rewrite Z.add_comm, Z.mod_add by lia. apply Z.mod_small. lia.
Qed.

Lemma u_char_hi w : u_char (hi_byte w).
Proof. apply u_char_mask. Qed.
Lemma u_char_lo w : u_char (lo_byte w).
Proof. apply u_char_mask. Qed.

(** Parsing a formatted address: one step per group, colon pair or quad. *)
Ltac parse6 :=
  rewrite ?app_nil_l, <- ?app_assoc; cbn [app];
  first [ rewrite pton6_start by done | rewrite pton6_start_double ];
  repeat first
    [ rewrite pton6_group by (first [done | simpl; lia])
    | rewrite pton6_last by (first [done | simpl; lia])
    | rewrite pton6_double
    | rewrite pton6_quad by (first [apply u_char_hi | apply u_char_lo | simpl; lia]) ];
  reflexivity.

Ltac unfold6 := change (IN6ADDRSZ / INT16SZ) with 8;
  cbv [fmt6_loop negb andb orb Z.eqb Z.leb Z.ltb Z.compare Z.add Pos.add Pos.eqb Pos.compare
       Pos.compare_cont Pos.succ Pos.add_carry r_base r_len].

Definition run_cases (b l : Z) : Prop :=
  (b = 0 /\ (l = 2 \/ l = 3 \/ l = 4 \/ l = 5 \/ l = 6 \/ l = 7 \/ l = 8)) \/
  (b = 1 /\ (l = 2 \/ l = 3 \/ l = 4 \/ l = 5 \/ l = 6 \/ l = 7)) \/
  (b = 2 /\ (l = 2 \/ l = 3 \/ l = 4 \/ l = 5 \/ l = 6)) \/
  (b = 3 /\ (l = 2 \/ l = 3 \/ l = 4 \/ l = 5)) \/
  (b = 4 /\ (l = 2 \/ l = 3 \/ l = 4)) \/ (b = 5 /\ (l = 2 \/ l = 3)) \/ (b = 6 /\ l = 2).

Definition word (w : Z) : Prop := 0 <= w <= 65535.

Lemma pton6_ntop6_words w0 w1 w2 w3 w4 w5 w6 w7 src :
  word w0 -> word w1 -> word w2 -> word w3 -> word w4 -> word w5 -> word w6 -> word w7 ->
  words_of src = [w0; w1; w2; w3; w4; w5; w6; w7] ->
  drop 12 src = [hi_byte w6; lo_byte w6; hi_byte w7; lo_byte w7] ->
  inet_pton6 (ntop6_text src) =
  POk [hi_byte w0; lo_byte w0; hi_byte w1; lo_byte w1; hi_byte w2; lo_byte w2; hi_byte w3; lo_byte w3;
       hi_byte w4; lo_byte w4; hi_byte w5; lo_byte w5; hi_byte w6; lo_byte w6; hi_byte w7; lo_byte w7].
Proof.
  intros H0 H1 H2 H3 H4 H5 H6 H7 Hw Hd. unfold ntop6_text. rewrite Hw. pose proof (best_run_ok [w0; w1; w2; w3; w4; w5; w6; w7]) as Hb.
  destruct (best_run _) as [b l]. cbn [r_base r_len] in *.
  destruct Hb as [->|(Hb0 & Hl & Hbl & Hz)].
  - unfold6. rewrite Hd. destruct (encapsulated _ _); parse6.
  - assert (Hc : run_cases b l) by (unfold run_cases; unfold len in Hbl; simpl in Hbl; lia).
    assert (Hz' : forall i w, b <= i < b + l -> arr_get i [w0; w1; w2; w3; w4; w5; w6; w7] = w -> w = 0)
      by (intros i w Hi <-; by apply Hz).
    unfold run_cases in Hc.
    repeat match type of Hc with
    | _ \/ _ => destruct Hc as [Hc|Hc]
    | _ /\ _ => let Eb := fresh in destruct Hc as [Eb Hc]
    end; subst b l.
    all: try (assert (w0 = 0) by (apply (Hz' 0); [lia|reflexivity])).
    all: try (assert (w1 = 0) by (apply (Hz' 1); [lia|reflexivity])).
    all: try (assert (w2 = 0) by (apply (Hz' 2); [lia|reflexivity])).
    all: try (assert (w3 = 0) by (apply (Hz' 3); [lia|reflexivity])).
    all: try (assert (w4 = 0) by (apply (Hz' 4); [lia|reflexivity])).
    all: try (assert (w5 = 0) by (apply (Hz' 5); [lia|reflexivity])).
    all: try (assert (w6 = 0) by (apply (Hz' 6); [lia|reflexivity])).
    all: try (assert (w7 = 0) by (apply (Hz' 7); [lia|reflexivity])).
    all: clear Hz Hz' Hw.
    all: unfold6; rewrite ?Hd; try destruct (encapsulated _ _); subst.
    all: parse6.
Qed.

(** ** The text fits its buffers *)

Lemma byte_text n : u_char n -> is_cstr (dec n) /\ (length (dec n) <= 3)%nat.
Proof. unfold u_char. intros H. split; [apply is_cstr_dec_pos; lia|apply length_dec_le; lia]. Qed.

Lemma arr_get_u_char i a : Forall u_char a -> u_char (arr_get i a).
Proof.
  intros Hf. unfold arr_get. destruct (a !! Z.to_nat i) as [x|] eqn:E.
  - rewrite (nth_lookup_Some _ _ _ _ E). by eapply (proj1 (Forall_lookup _ _) Hf).
  - rewrite nth_overflow; [by unfold u_char|]. by apply lookup_ge_None in E.
Qed.

Lemma ntop4_text_ok a : Forall u_char a -> is_cstr (ntop4_text a) /\ (length (ntop4_text a) <= 15)%nat.
Proof.
  intros Ha. unfold ntop4_text.
  destruct (byte_text (arr_get 0 a) (arr_get_u_char _ _ Ha)).
  destruct (byte_text (arr_get 1 a) (arr_get_u_char _ _ Ha)).
  destruct (byte_text (arr_get 2 a) (arr_get_u_char _ _ Ha)).
  destruct (byte_text (arr_get 3 a) (arr_get_u_char _ _ Ha)).
  split; [|rewrite !length_app; simpl; lia]. repeat (apply is_cstr_app; split); try done; by repeat constructor.
Qed.

Lemma hex_is_cstr w : word w -> is_cstr (hex w).
Proof.
  intros Hw. destruct (hex_word w Hw) as (Hf & _). clear Hw. revert Hf. generalize 0, (hex w). intros v s.
  revert v. induction s as [|c s IH]; intros v Hf; [constructor|]. cbn [hexfold] in Hf.
  destruct (xdigit_of c) eqn:E; [|done]. cbv zeta in Hf. destruct (65535 <? _); [done|].
  constructor; [|by eapply IH]. intros ->. by vm_compute in E.
Qed.

Definition room6 (i : Z) : nat := Z.to_nat (5 * i - 1).

Lemma fmt6_loop_ok src words best ws i tmp :
  Forall u_char src -> Forall word ws -> 0 <= i -> i + len ws = 8 -> is_cstr tmp -> (length tmp <= room6 i)%nat ->
  let t := fmt6_loop src words best ws i tmp in
  is_cstr t /\ ((length t <= 39)%nat \/ (encapsulated best words = true /\ length t <= 45)%nat).
Proof.
  intros Hs Hws. revert i tmp. induction Hws as [|w ws Hw _ IH]; intros i tmp Hi Hl Ht Hr; cbv zeta; cbn [fmt6_loop].
  - split; [done|left]. unfold room6, len in *. simpl in *. lia.
  - assert (Hl' : i + 1 + len ws = 8) by (unfold len in *; simpl in *; lia).
    assert (Hcol : is_cstr [c_colon]) by (by repeat constructor).
    destruct (negb _ && _ && _).
    + apply IH; try done; [lia| |].
      * destruct (i =? _); [apply is_cstr_app; split; done|done].
      * unfold room6, len in *. destruct (i =? _); rewrite ?length_app; simpl; lia.
    + set (tmp' := if negb (i =? 0) then _ else _).
      assert (Ht' : is_cstr tmp' /\ (length tmp' <= Z.to_nat (5 * i))%nat).
      { unfold tmp', room6 in *. destruct (Z.eqb_spec i 0); cbn [negb]; [split; [done|lia]|].
        split; [apply is_cstr_app; done|]. rewrite length_app. simpl. lia. }
      destruct Ht' as [Ht1 Ht2].
      destruct ((i =? 6) && encapsulated best words) eqn:E.
      * apply andb_true_iff in E as [E1 E2]. apply Z.eqb_eq in E1. subst i.
        destruct (ntop4_text_ok (drop 12 src)) as [H1 H2]; [by apply Forall_drop|].
        split; [by apply is_cstr_app|]. right. split; [done|]. rewrite length_app. simpl in Ht2. lia.
      * destruct (hex_word w Hw) as (_ & Hlw & _).
        apply IH; try done; [lia|apply is_cstr_app; split; [done|by apply hex_is_cstr]|].
        rewrite length_app. unfold room6. lia.
Qed.

Lemma hi_word a b : u_char a -> u_char b -> hi_byte (Z.lor (Z.shiftl a 8) b) = a.
Proof. intros Ha Hb. by apply word_bytes. Qed.
Lemma lo_word a b : u_char a -> u_char b -> lo_byte (Z.lor (Z.shiftl a 8) b) = b.
Proof. intros Ha Hb. by apply word_bytes. Qed.

(** Sixteen bytes make eight words. *)
Lemma words_of_ok n src : length src = (2 * n)%nat -> Forall u_char src -> Forall word (words_of src) /\ length (words_of src) = n.
Proof.
  revert src. induction n as [|n IH]; intros src Hl Hf.
  - destruct src; [|done]. split; [constructor|done].
  - destruct src as [|a [|b src]]; [done|simpl in Hl; lia|]. cbn [words_of].
    apply Forall_cons in Hf as [Ha Hf]. apply Forall_cons in Hf as [Hb Hf].
    destruct (IH src) as [H1 H2]; [simpl in Hl; lia|done|]. split; [|simpl; lia].
    constructor; [|done]. unfold word. by apply word_bytes.
Qed.

Lemma ntop6_text_ok src :
  length src = 16%nat -> Forall u_char src -> is_cstr (ntop6_text src) /\ (length (ntop6_text src) <= 45)%nat.
Proof.
  intros Hl Hf. destruct (words_of_ok 8 src Hl Hf) as [Hw Hwl]. unfold ntop6_text. cbv zeta.
  set (ws := words_of src) in *. set (best := best_run ws).
  destruct (fmt6_loop_ok src ws best ws 0 [] Hf Hw) as [H1 H2]; [lia|unfold len; lia|constructor|simpl; lia|].
  cbv zeta in *. set (t := fmt6_loop _ _ _ _ _ _) in *.
  destruct (negb (r_base best =? -1) && (r_base best + r_len best =? IN6ADDRSZ / INT16SZ)) eqn:E.
  - split; [apply is_cstr_app; split; [done|by repeat constructor]|]. rewrite length_app. simpl.
    destruct H2 as [H2|[He H2]]; [lia|]. unfold encapsulated in He.
    change (IN6ADDRSZ / INT16SZ) with 8 in E. lia.
  - split; [done|]. destruct H2 as [H2|[_ H2]]; lia.
Qed.

(** The text of an address is read back as the address. *)
Lemma pton6_ntop6 src : length src = 16%nat -> Forall u_char src -> inet_pton6 (ntop6_text src) = POk src.
Proof.
  intros Hl Hf. do 16 (destruct src as [|? src]; [done|]). destruct src; [|done].
  repeat (apply Forall_cons in Hf as [? Hf]).
  erewrite pton6_ntop6_words; try reflexivity.
  all: try (unfold word; apply word_bytes; done).
  all: cbn [drop]; rewrite ?hi_word, ?lo_word by done; reflexivity.
Qed.

Lemma strcpy_ok dst s : (length s < length dst)%nat -> is_cstr s -> exists d, strcpy dst s = NOk d /\ cstr d = s /\ length d = length dst.
Proof.
  intros Hl Hs. unfold strcpy. apply Nat.ltb_lt in Hl as Hl'. rewrite Hl'. eexists. split; [done|]. split.
  - rewrite splice_0, <- app_assoc. by apply cstr_app_nul.
  - rewrite length_splice; [done|]. rewrite length_app. simpl. lia.
Qed.

(** ** Theorems *)

(** C26: IPv6 round trip.  Into a buffer of at least 46 bytes (INET6_ADDRSTRLEN)
    [inet_ntop] formats every 16-byte address, and [inet_pton] reads the text back as
    the same address, whatever run of zeros was shortened and with the embedded IPv4
    forms included. *)
Theorem inet6_roundtrip (src dst0 : list Z) (dst : bytes) (e : Z) :
  length src = 16%nat -> Forall u_char src -> 46 <= len dst ->
  exists d, inet_ntop AF_INET6 src dst e = Some (Some d, e) /\ length d = length dst /\
    inet_pton AF_INET6 (cstr d) dst0 e = Some (1, splice 0 src dst0, e).
Proof.
  intros Hl Hf Hd. destruct (ntop6_text_ok src Hl Hf) as [Ht Htl].
  pose proof (pton6_ntop6 src Hl Hf) as Hrt.
  unfold inet_ntop, inet_pton. simpl. unfold inet_ntop6.
  destruct (Z.ltb_spec (len dst) (len (ntop6_text src) + 1)); [unfold len in *; lia|].
  destruct (strcpy_ok dst (ntop6_text src)) as (d & -> & Hc & Hld); [unfold len in *; lia|done|].
  exists d. split; [done|]. split; [done|]. by rewrite Hc, Hrt.
Qed.

(** IPv4 formatting and the size check.  With room for the text and its terminator
    [inet_ntop] succeeds and [inet_pton] reads the address back; with less room than the
    text it fails with ENOSPC; with room for exactly the text the check [strlen(tmp) >
    size] lets it through and the terminator is stored past the end of the buffer. *)
Theorem inet4_size (a b c d : Z) (dst : bytes) (dst0 : list Z) (e : Z) :
  u_char a -> u_char b -> u_char c -> u_char d ->
  let text := ntop4_text [a; b; c; d] in
  (len text < len dst ->
     exists s, inet_ntop AF_INET [a; b; c; d] dst e = Some (Some s, e) /\
       inet_pton AF_INET (cstr s) dst0 e = Some (1, splice 0 [a; b; c; d] dst0, e)) /\
  (len dst < len text -> inet_ntop AF_INET [a; b; c; d] dst e = Some (None, ENOSPC)) /\
  (len dst = len text -> inet_ntop AF_INET [a; b; c; d] dst e = None).
Proof.
  intros Ha Hb Hc Hd text.
  destruct (ntop4_text_ok [a; b; c; d]) as [Ht _];
    [repeat (apply Forall_cons_2; [done|]); apply Forall_nil_2|].
  unfold inet_ntop, inet_pton. simpl (AF_INET =? AF_INET). cbv iota. unfold inet_ntop4. fold text.
  split_and!; intros Hl.
  - destruct (Z.ltb_spec (len dst) (len text)); [lia|].
    destruct (strcpy_ok dst text) as (s & -> & Hs & _); [unfold len in *; lia|done|].
    exists s. split; [done|]. unfold text in Hs. by rewrite Hs, pton4_ntop4.
  - by destruct (Z.ltb_spec (len dst) (len text)); [|lia].
  - destruct (Z.ltb_spec (len dst) (len text)); [lia|]. unfold strcpy.
    by destruct (Nat.ltb_spec (length text) (length dst)); [unfold len in *; lia|].
Qed.

(** C38: [inet_pton] is memory safe and all-or-nothing on every input: it never stores
    outside its local array, returns 1 only with a complete address of octets stored in
    [dst], and otherwise leaves [dst] untouched. *)
Theorem inet_pton_safe (af : Z) (src : bytes) (dst : list Z) (e : Z) :
  exists rc dst' e', inet_pton af src dst e = Some (rc, dst', e') /\
    ((rc = 1 /\ exists a, dst' = splice 0 a dst /\ Forall u_char a /\
        (af = AF_INET /\ len a = 4 \/ af = AF_INET6 /\ len a = 16)) \/
     ((rc = 0 \/ rc = -1 /\ e' = EAFNOSUPPORT) /\ dst' = dst)).
Proof.
  unfold inet_pton. destruct (Z.eqb_spec af AF_INET) as [->|H4]; [|destruct (Z.eqb_spec af AF_INET6) as [->|H6]].
  - pose proof (inet_pton4_ok src) as H. destruct (inet_pton4 src) as [a| |]; simpl in H; [| |done].
    + do 3 eexists. split; [done|]. left. split; [done|]. exists a. destruct H. auto.
    + do 3 eexists. split; [done|]. right. auto.
  - pose proof (inet_pton6_ok src) as H. destruct (inet_pton6 src) as [a| |]; simpl in H; [| |done].
    + do 3 eexists. split; [done|]. left. split; [done|]. exists a. destruct H. auto.
    + do 3 eexists. split; [done|]. right. auto.
  - do 3 eexists. split; [done|]. right. auto.
Qed.

(** The text of an IPv6 address never overflows the local buffer of 46 bytes nor the
    caller's: for every size of [dst] the outcome is success when text and terminator
    fit, and ENOSPC when they do not. *)
Theorem inet_ntop6_fits (src : list Z) (dst : bytes) (e : Z) :
  length src = 16%nat -> Forall u_char src ->
  len (ntop6_text src) + 1 <= 46 /\
  (if len (ntop6_text src) <? len dst
   then exists s, inet_ntop AF_INET6 src dst e = Some (Some s, e) /\ cstr s = ntop6_text src
   else inet_ntop AF_INET6 src dst e = Some (None, ENOSPC)).
Proof.
  intros Hl Hf. destruct (ntop6_text_ok src Hl Hf) as [Ht Htl]. split; [unfold len; lia|].
  unfold inet_ntop. simpl (AF_INET6 =? _). cbv iota. unfold inet_ntop6.
  destruct (Z.ltb_spec (len (ntop6_text src)) (len dst)).
  - destruct (Z.ltb_spec (len dst) (len (ntop6_text src) + 1)); [lia|].
    destruct (strcpy_ok dst (ntop6_text src)) as (s & -> & Hs & _); [unfold len in *; lia|done|]. eauto.
  - by destruct (Z.ltb_spec (len dst) (len (ntop6_text src) + 1)); [|lia].
Qed.

(** A double colon in a full address is not ignored: the parser accepts eight groups
    with "::" before the last one, and zeroes the last group. *)
Theorem inet_pton6_full_double_colon (w0 w1 w2 w3 w4 w5 w6 w7 : Z) :
  word w0 -> word w1 -> word w2 -> word w3 -> word w4 -> word w5 -> word w6 -> word w7 ->
  inet_pton6 (hex w0 ++ c_colon :: hex w1 ++ c_colon :: hex w2 ++ c_colon :: hex w3 ++ c_colon ::
              hex w4 ++ c_colon :: hex w5 ++ c_colon :: hex w6 ++ c_colon :: c_colon :: hex w7) =
  POk [hi_byte w0; lo_byte w0; hi_byte w1; lo_byte w1; hi_byte w2; lo_byte w2; hi_byte w3; lo_byte w3;
       hi_byte w4; lo_byte w4; hi_byte w5; lo_byte w5; hi_byte w6; lo_byte w6; 0; 0].
Proof. intros. parse6. Qed.

(** ** inet_aton *)

Lemma isdigit_strchr c : match strchr digits c with
  | Some p => isdigit c = true /\ uc c - 48 = Z.of_nat p
  | None => isdigit c = false
  end.
Proof. destruct c; vm_compute; auto. Qed.

Lemma aton_digits s v v' dots addr rest :
  dfold v s = Some v' -> 0 <= v ->
  aton_loop (s ++ rest) dots v addr = aton_loop rest dots v' addr.
Proof.
  revert v. induction s as [|c s IH]; intros v Hf Hv; cbn [dfold app aton_loop] in *; [congruence|].
  pose proof (isdigit_strchr c) as Hc. destruct (strchr digits c) as [p|]; [|done].
  destruct Hc as [-> ->]. cbv zeta in Hf. destruct (Z.ltb_spec 255 (v * 10 + Z.of_nat p)); [done|].
  rewrite wrap_small by lia. apply IH; [done|lia].
Qed.

Lemma aton_octet n dots addr rest :
  u_char n -> aton_loop (dec n ++ rest) dots 0 addr = aton_loop rest dots n addr.
Proof. unfold u_char. intros Hn. apply aton_digits; [apply dfold_dec; lia|lia]. Qed.

Lemma aton_dot n dots addr rest :
  u_char n -> dots + 1 <= 3 -> 0 <= addr < 2 ^ 48 ->
  aton_loop ([c_dot] ++ rest) dots n addr = aton_loop rest (dots + 1) 0 (addr * 256 + n).
Proof.
  unfold u_char. intros Hn Hd Ha. change ([c_dot] ++ rest) with (c_dot :: rest). cbn [aton_loop].
  change (isdigit c_dot) with false. change (bool_decide (c_dot = c_dot)) with true. cbv iota.
  destruct (Z.ltb_spec 3 (dots + 1)); [lia|]. destruct (Z.ltb_spec 255 n); [lia|].
  rewrite wrap_small by (rewrite Z.shiftl_mul_pow2 by lia; lia). by rewrite lor_add_low by lia.
Qed.

Lemma aton_end n dots addr :
  u_char n -> 0 <= addr < 2 ^ 48 -> aton_loop [] dots n addr = Some (dots, addr * 256 + n).
Proof.
  unfold u_char. intros Hn Ha. cbn [aton_loop]. destruct (Z.ltb_spec 255 n); [lia|].
  rewrite wrap_small by (rewrite Z.shiftl_mul_pow2 by lia; lia). by rewrite lor_add_low by lia.
Qed.

(** [inet_aton] of a dotted quad is its 32-bit value; two numbers are read as the
    first and second octet of the address, the rest zero. *)
Theorem inet_aton_quad (a b c d : Z) :
  u_char a -> u_char b -> u_char c -> u_char d ->
  inet_aton (ntop4_text [a; b; c; d]) = Some (a * 2 ^ 24 + b * 2 ^ 16 + c * 2 ^ 8 + d) /\
  inet_aton (dec a ++ [c_dot] ++ dec b) = Some (a * 2 ^ 24 + b * 2 ^ 16).
Proof.
  intros Ha Hb Hc Hd. pose proof Ha as Ha'. pose proof Hb as Hb'. pose proof Hc as Hc'. pose proof Hd as Hd'.
  unfold u_char in Ha', Hb', Hc', Hd'. unfold inet_aton, ntop4_text.
  change (arr_get 0 [a; b; c; d]) with a. change (arr_get 1 [a; b; c; d]) with b.
  change (arr_get 2 [a; b; c; d]) with c. change (arr_get 3 [a; b; c; d]) with d.
  split.
  - rewrite <- (app_nil_r (dec d)).
    repeat first [rewrite aton_octet by done | rewrite aton_dot by (done || lia)].
    rewrite aton_end by (done || lia). simpl. rewrite wrap_small by lia. f_equal. lia.
  - rewrite <- (app_nil_r (dec b)).
    repeat first [rewrite aton_octet by done | rewrite aton_dot by (done || lia)].
    rewrite aton_end by (done || lia). simpl. rewrite Z.shiftl_mul_pow2 by lia.
    change (2 ^ (8 * (3 - (0 + 1)))) with 65536. rewrite (wrap_small 64), (wrap_small 32) by lia. f_equal. lia.
Qed.

(** The accumulator of [inet_aton] wraps, so that a number far above 255 is accepted. *)
Example inet_aton_wraps : inet_aton (bs "18446744073709551617.2.3.4") = Some 16909060.
Proof. by vm_compute. Qed.

(** ** in_cksum *)

(** The plain sum of the 16-bit words. *)
Fixpoint word_sum (addr : list Z) : Z :=
  match addr with
  | a :: b :: rest => a + 256 * b + word_sum rest
  | [a] => a
  | [] => 0
  end.

Lemma word_sum_bound addr :
  Forall u_char addr -> 0 <= word_sum addr /\ 2 * word_sum addr <= 65535 * (len addr + 1).
Proof.
  remember (length addr) as n eqn:En. revert addr En.
  induction n as [n IH] using lt_wf_ind. intros addr -> Hf.
  destruct addr as [|a [|b addr]]; [by vm_compute| |].
  - apply Forall_cons in Hf as [Ha _]. unfold u_char in Ha. simpl. unfold len. simpl. lia.
  - apply Forall_cons in Hf as [Ha Hf]. apply Forall_cons in Hf as [Hb Hf]. unfold u_char in Ha, Hb.
    destruct (IH (length addr)) with (addr := addr) as [H1 H2]; [simpl; lia|done|done|].
    cbn [word_sum]. unfold len in *. simpl length. lia.
Qed.

Lemma cksum_loop_sum addr sum :
  Forall u_char addr -> 0 <= sum -> sum + word_sum addr < 2 ^ 32 ->
  cksum_loop addr sum = sum + word_sum addr.
Proof.
  remember (length addr) as n eqn:En. revert addr sum En.
  induction n as [n IH] using lt_wf_ind. intros addr sum -> Hf Hs Hb.
  destruct addr as [|a [|b addr]]; cbn [cksum_loop word_sum] in *; [lia| |].
  - apply Forall_cons in Hf as [Ha _]. unfold u_char in Ha. rewrite wrap_small by lia. done.
  - apply Forall_cons in Hf as [Ha Hf]. apply Forall_cons in Hf as [Hb' Hf]. unfold u_char in Ha, Hb'.
    destruct (word_sum_bound addr Hf) as [H0 _].
    rewrite wrap_small by lia. rewrite (IH (length addr)); [lia|simpl; lia|done|done|lia|lia].
Qed.

(** The folding of the carries computes the sum modulo [2^16 - 1], with 0 only for 0. *)
Definition ones_sum (s : Z) : Z := if s =? 0 then 0 else (s - 1) mod 65535 + 1.

Definition cksum_fold (sum : Z) : Z :=
  let s1 := u32 (Z.shiftr sum 16 + Z.land sum 65535) in u16 (u32 (s1 + Z.shiftr s1 16)).

Lemma cksum_fold_eq s : 0 <= s < 2 ^ 32 -> cksum_fold s = ones_sum s.
Proof.
  intros Hs. unfold cksum_fold, ones_sum. cbv zeta. rewrite !Z.shiftr_div_pow2 by lia.
  assert (El : Z.land s 65535 = s mod 65536) by (change 65535 with (Z.ones 16); by rewrite Z.land_ones by lia).
  rewrite El. clear El. change (2 ^ 16) with 65536.
  pose proof (Z.div_mod s 65536 ltac:(lia)) as E. pose proof (Z.mod_pos_bound s 65536 ltac:(lia)) as Hm.
  assert (Hd : 0 <= s / 65536 <= 65535).
  { split; [apply Z.div_pos; lia|]. assert (s / 65536 < 65536) by (apply Z.div_lt_upper_bound; lia). lia. }
  set (h := s / 65536) in *. set (l := s mod 65536) in *. rewrite (wrap_small 32 (h + l)) by lia.
  assert (Hq : (h + l) / 65536 = if h + l <? 65536 then 0 else 1).
  { destruct (Z.ltb_spec (h + l) 65536); [apply Z.div_small; lia|].
    symmetry. apply (Z.div_unique _ _ _ (h + l - 65536)); lia. }
  rewrite Hq. destruct (Z.eqb_spec s 0) as [E0|E0].
  - replace (h + l) with 0 by lia. done.
  - destruct (Z.ltb_spec (h + l) 65536) as [Hlt|Hge]; rewrite (wrap_small 32) by lia.
    + rewrite wrap_small by lia. replace (s - 1) with (h + l - 1 + h * 65535) by lia.
      rewrite Z.mod_add by lia. rewrite Z.mod_small by lia. lia.
    + unfold wrap. change (2 ^ 16) with 65536. replace (h + l + 1) with (h + l - 65535 + 1 * 65536) by lia.
      rewrite Z.mod_add by lia. rewrite Z.mod_small by lia.
      replace (s - 1) with (h + l - 65535 - 1 + (h + 1) * 65535) by lia.
      rewrite Z.mod_add by lia. rewrite Z.mod_small by lia. lia.
Qed.

Lemma in_cksum_eq addr :
  Forall u_char addr -> len addr <= 131070 -> in_cksum addr = 65535 - ones_sum (word_sum addr).
Proof.
  intros Hf Hl. destruct (word_sum_bound addr Hf) as [H0 H1]. unfold in_cksum.
  rewrite cksum_loop_sum by (done || lia). rewrite Z.add_0_l.
  pose proof (cksum_fold_eq (word_sum addr) ltac:(lia)) as Hfold. unfold cksum_fold in Hfold. cbv zeta in *.
  rewrite <- Hfold. set (x := u32 _ + _). unfold wrap. unfold Z.lnot.
  change (2 ^ 16) with 65536. change (2 ^ 32) with 4294967296.
  set (y := x mod 4294967296). pose proof (Z.mod_pos_bound y 65536 ltac:(lia)) as Hy.
  symmetry. apply (Z.mod_unique _ _ (- (y / 65536) - 1)); [lia|]. pose proof (Z.div_mod y 65536 ltac:(lia)). lia.
Qed.

Lemma word_sum_app a b :
  Nat.even (length a) = true -> word_sum (a ++ b) = word_sum a + word_sum b.
Proof.
  remember (length a) as n eqn:En. revert a En. induction n as [n IH] using lt_wf_ind. intros a -> He.
  destruct a as [|x [|y a]]; [done|done|]. cbn [app word_sum]. rewrite (IH (length a)); [lia|simpl; lia|done|done].
Qed.

(** The Internet checksum detects itself: with the checksum of an even number of
    bytes appended to them (in the byte order of the machine), the checksum of the whole
    is zero.  The 32-bit accumulator does not overflow up to 131068 bytes. *)
Theorem in_cksum_verifies (addr : list Z) :
  Forall u_char addr -> Nat.even (length addr) = true -> len addr <= 131068 ->
  in_cksum (addr ++ [in_cksum addr mod 256; in_cksum addr / 256]) = 0.
Proof.
  intros Hf He Hl. set (c := in_cksum addr). assert (Ec : c = 65535 - ones_sum (word_sum addr)).
  { apply in_cksum_eq; [done|lia]. }
  destruct (word_sum_bound addr Hf) as [H0 H1].
  assert (Ho : 0 <= ones_sum (word_sum addr) <= 65535).
  { unfold ones_sum. destruct (_ =? 0); [lia|]. pose proof (Z.mod_pos_bound (word_sum addr - 1) 65535). lia. }
  pose proof (Z.div_mod c 256 ltac:(lia)) as Edm. pose proof (Z.mod_pos_bound c 256 ltac:(lia)) as Hm.
  assert (Hq : 0 <= c / 256 < 256) by (split; [apply Z.div_pos|apply Z.div_lt_upper_bound]; lia).
  rewrite in_cksum_eq, word_sum_app; [|done| |unfold len in *; rewrite length_app; simpl; lia].
  - cbn [word_sum]. replace (c mod 256 + 256 * (c / 256) + 0) with c by lia.
    unfold ones_sum in *. destruct (Z.eqb_spec (word_sum addr) 0) as [E|E].
    + replace (word_sum addr + c) with 65535 by lia. done.
    + pose proof (Z.div_mod (word_sum addr - 1) 65535 ltac:(lia)) as Ed.
      pose proof (Z.mod_pos_bound (word_sum addr - 1) 65535 ltac:(lia)).
      assert (0 <= (word_sum addr - 1) / 65535) by (apply Z.div_pos; lia).
      destruct (Z.eqb_spec (word_sum addr + c) 0); [lia|].
      replace (word_sum addr + c - 1) with (65534 + ((word_sum addr - 1) / 65535) * 65535) by lia.
      rewrite Z.mod_add by lia. rewrite Z.mod_small by lia. lia.
  - apply Forall_app. split; [done|]. repeat (apply Forall_cons_2; [unfold u_char; lia|]). apply Forall_nil_2.
Qed.

(** ** Witnesses *)

Definition addr6_ex : list Z := [254; 128; 0; 0; 0; 0; 0; 0; 2; 2; 179; 255; 254; 30; 131; 41].

Lemma u_chars_dec a : forallb (fun v => (0 <=? v) && (v <? 256)) a = true -> Forall u_char a.
Proof. intros H. apply Forall_forall. intros x Hx. rewrite forallb_forall in H. apply list_elem_of_In, H in Hx. unfold u_char. lia. Qed.

Lemma inet6_roundtrip_witness :
  exists d, inet_ntop AF_INET6 addr6_ex (replicate 46 NUL) 0 = Some (Some d, 0) /\
    length d = length (replicate 46 NUL) /\
    inet_pton AF_INET6 (cstr d) (replicate 16 0) 0 = Some (1, splice 0 addr6_ex (replicate 16 0), 0).
Proof. apply (inet6_roundtrip addr6_ex (replicate 16 0) (replicate 46 NUL) 0); [done|by apply u_chars_dec|done]. Defined.

Lemma inet4_size_witness :
  inet_ntop AF_INET [10; 0; 0; 255] (replicate 10 NUL) 0 = None /\
  inet_ntop AF_INET [10; 0; 0; 255] (replicate 9 NUL) 0 = Some (None, ENOSPC).
Proof.
  assert (H : forall v, 0 <= v < 256 -> u_char v) by done.
  split.
  - apply (inet4_size 10 0 0 255 (replicate 10 NUL) [] 0); [apply H; lia..|reflexivity].
  - apply (inet4_size 10 0 0 255 (replicate 9 NUL) [] 0); [apply H; lia..|reflexivity].
Defined.

Lemma inet_ntop6_fits_witness :
  len (ntop6_text addr6_ex) + 1 <= 46 /\
  (if len (ntop6_text addr6_ex) <? len (replicate 8 NUL)
   then exists s, inet_ntop AF_INET6 addr6_ex (replicate 8 NUL) 0 = Some (Some s, 0) /\ cstr s = ntop6_text addr6_ex
   else inet_ntop AF_INET6 addr6_ex (replicate 8 NUL) 0 = Some (None, ENOSPC)).
Proof. apply (inet_ntop6_fits addr6_ex (replicate 8 NUL) 0); [done|by apply u_chars_dec]. Defined.

Lemma inet_pton6_full_double_colon_witness :
  inet_pton6 (bs "1:2:3:4:5:6:7::8") = POk [0; 1; 0; 2; 0; 3; 0; 4; 0; 5; 0; 6; 0; 7; 0; 0].
Proof.
  apply (inet_pton6_full_double_colon 1 2 3 4 5 6 7 8); unfold word; lia.
Defined.

Lemma inet_aton_quad_witness :
  inet_aton (bs "127.0.0.1") = Some (127 * 2 ^ 24 + 0 * 2 ^ 16 + 0 * 2 ^ 8 + 1).
Proof. apply (inet_aton_quad 127 0 0 1); unfold u_char; lia. Defined.

Lemma in_cksum_verifies_witness :
  in_cksum ([69; 0; 0; 60] ++ [in_cksum [69; 0; 0; 60] mod 256; in_cksum [69; 0; 0; 60] / 256]) = 0.
Proof. apply (in_cksum_verifies [69; 0; 0; 60]); [by apply u_chars_dec|done|done]. Defined.
