(* ===== verification/SpoolQueue.v ===== *)
(** * The shared data of the print daemon (apue.3e/printer/printd.c)

    The queue of pending jobs (a doubly linked list of malloc'ed nodes with a head and a
    tail pointer), the job counter and the list of worker threads.  Nodes live in a heap
    from addresses to records; address 0 is NULL, and following a pointer that is not in
    the heap is undefined behaviour.  Each function holds its mutex for the whole of its
    access, so it is one atomic step. *)

From Stdlib Require Import Strings.Byte ZArith Lia.
From S2P Require Import Prelude Libc Refine.
From stdpp Require Import base strings numbers gmap list.
#[local] Open Scope Z_scope.

(** ** Requests and jobs *)

Definition USERNM_MAX : Z := 64.
Definition JOBNM_MAX : Z := 256.
Definition PR_TEXT : Z := 1.

Record printreq := Req { rq_size : Z; rq_flags : Z; rq_usernm : bytes; rq_jobnm : bytes }.

Record job := Job { j_next : Z; j_prev : Z; j_id : Z; j_req : printreq }.

Definition set_jnext v j := Job v (j_prev j) (j_id j) (j_req j).
Definition set_jprev v j := Job (j_next j) v (j_id j) (j_req j).

(** [q_brk] is the next address that malloc returns. *)
Record queue := Queue {
  q_heap : gmap Z job; q_brk : Z; jobhead : Z; jobtail : Z; nextjob : Z
}.

Definition set_qheap v q := Queue v (q_brk q) (jobhead q) (jobtail q) (nextjob q).
Definition set_jobhead v q := Queue (q_heap q) (q_brk q) v (jobtail q) (nextjob q).
Definition set_jobtail v q := Queue (q_heap q) (q_brk q) (jobhead q) v (nextjob q).
Definition set_nextjob v q := Queue (q_heap q) (q_brk q) (jobhead q) (jobtail q) v.

Definition deref (p : Z) : M queue job := fun q =>
  match q_heap q !! p with Some j => Ret j q | None => Undef "invalid job pointer" end.

(** [p->field = v] *)
Definition jstore (p : Z) (f : job -> job) : M queue unit :=
  j <- deref p ;; modst (fun q => set_qheap (<[p := f j]> (q_heap q)) q).

Definition jmalloc (j : job) : M queue Z := fun q =>
  Ret (q_brk q) (Queue (<[q_brk q := j]> (q_heap q)) (q_brk q + 1) (jobhead q) (jobtail q) (nextjob q)).

Definition jfree (p : Z) : M queue unit :=
  deref p ;;; modst (fun q => set_qheap (delete p (q_heap q)) q).

(** ** The functions *)

Definition INT_MAX : Z := 2 ^ 31 - 1.

(** [nextjob++] on the largest number is a signed overflow. *)
Definition get_newjobno : M queue Z :=
  jobid <- gets nextjob ;;
  (if jobid =? INT_MAX then undef "signed overflow of nextjob" else modst (set_nextjob (jobid + 1))) ;;;
  n <- gets nextjob ;;
  when (n <=? 0) (modst (set_nextjob 1)) ;;;
  ret jobid.

(** Returns the new node, for the callers of the model; the C function is void. *)
Definition add_job (reqp : printreq) (jobid : Z) : M queue Z :=
  jp <- jmalloc (Job 0 0 jobid reqp) ;;
  t <- gets jobtail ;;
  jstore jp (set_jprev t) ;;;
  (if t =? 0 then modst (set_jobhead jp) else jstore t (set_jnext jp)) ;;;
  modst (set_jobtail jp) ;;;
  ret jp.

Definition replace_job (jp : Z) : M queue unit :=
  jstore jp (set_jprev 0) ;;;
  h <- gets jobhead ;;
  jstore jp (set_jnext h) ;;;
  (if h =? 0 then modst (set_jobtail jp) else jstore h (set_jprev jp)) ;;;
  modst (set_jobhead jp).

Definition remove_job (target : Z) : M queue unit :=
  t <- deref target ;;
  (if negb (j_next t =? 0) then jstore (j_next t) (set_jprev (j_prev t))
   else modst (set_jobtail (j_prev t))) ;;;
  t <- deref target ;;
  if negb (j_prev t =? 0) then jstore (j_prev t) (set_jnext (j_next t))
  else modst (set_jobhead (j_next t)).

(** The printer thread's wait for a job: [None] while the queue is empty. *)
Definition pick_job : M queue (option Z) :=
  h <- gets jobhead ;;
  if h =? 0 then ret None
  else remove_job h ;;; ret (Some h).

(** ** Representation *)

Abbreviation entry := (Z * printreq)%type.

(** A segment of the list: the nodes from [p], the first with back pointer [pv], the last
    ([lst], or [pv] when there is none) with forward pointer [e]. *)
Fixpoint dseg (h : gmap Z job) (pv p : Z) (xs : list (Z * entry)) (e lst : Z) : Prop :=
  match xs with
  | [] => p = e /\ lst = pv
  | (x, (i, r)) :: xs' =>
    p = x /\ x <> 0 /\ exists nx, h !! x = Some (Job nx pv i r) /\ dseg h x nx xs' e lst
  end.

Record qrep (q : queue) (xs : list (Z * entry)) : Prop := QRep {
  qr_seg : dseg (q_heap q) 0 (jobhead q) xs 0 (jobtail q);
  qr_nodup : NoDup xs.*1;
  qr_brk : 0 < q_brk q /\ forall x, is_Some (q_heap q !! x) -> x < q_brk q
}.

Lemma dseg_app h pv p xs ys e lst :
  dseg h pv p (xs ++ ys) e lst <-> exists m lm, dseg h pv p xs m lm /\ dseg h lm m ys e lst.
Proof.
  revert pv p. induction xs as [|[x [i r]] xs IH]; intros pv p; simpl.
  - split; [intros H; by exists p, pv|]. by intros (m & lm & [-> ->] & H).
  - split.
    + intros (-> & H0 & nx & Hx & H). apply IH in H as (m & lm & H1 & H2).
      exists m, lm. split; [|done]. split; [done|]. split; [done|]. by exists nx.
    + intros (m & lm & (-> & H0 & nx & Hx & H1) & H2). split; [done|]. split; [done|].
      exists nx. split; [done|]. apply IH. eauto.
Qed.

Lemma dseg_frame h pv p xs e lst a j :
  a ∉ xs.*1 -> dseg h pv p xs e lst -> dseg (<[a := j]> h) pv p xs e lst.
Proof.
  revert pv p. induction xs as [|[x [i r]] xs IH]; intros pv p Ha; simpl in *; [done|].
  intros (-> & H0 & nx & Hx & H). split; [done|]. split; [done|]. exists nx.
  rewrite lookup_insert_ne by set_solver. split; [done|]. apply IH; set_solver.
Qed.

Lemma dseg_delete h pv p xs e lst a :
  a ∉ xs.*1 -> dseg h pv p xs e lst -> dseg (delete a h) pv p xs e lst.
Proof.
  revert pv p. induction xs as [|[x [i r]] xs IH]; intros pv p Ha; simpl in *; [done|].
  intros (-> & H0 & nx & Hx & H). split; [done|]. split; [done|]. exists nx.
  rewrite lookup_delete_ne by set_solver. split; [done|]. apply IH; set_solver.
Qed.

Lemma dseg_nodes h pv p xs e lst x : dseg h pv p xs e lst -> x ∈ xs.*1 -> is_Some (h !! x) /\ x <> 0.
Proof.
  revert pv p. induction xs as [|[y [i r]] xs IH]; intros pv p; simpl; [set_solver|].
  intros (-> & H0 & nx & Hx & H) Hin. apply elem_of_cons in Hin as [->|Hin]; [eauto|by eapply IH].
Qed.

(** The last node of a non-empty segment. *)
Lemma dseg_last h pv p xs e lst :
  dseg h pv p xs e lst -> (xs = [] /\ lst = pv /\ p = e) \/
  (exists ys x i r, xs = ys ++ [(x, (i, r))] /\ lst = x /\ x <> 0 /\ p <> 0 /\
     exists py, dseg h pv p ys x py /\ h !! x = Some (Job e py i r)).
Proof.
  destruct xs as [|[x [i r]] ys _] using rev_ind; simpl; [intros [-> ->]; by left|].
  intros H. right. assert (Hp : p <> 0).
  { destruct ys as [|[y [iy ry]] ys]; simpl in H; by destruct H as (-> & ? & _). }
  apply dseg_app in H as (m & lm & H1 & -> & Hx & nx & Hn & -> & ->).
  exists ys, x, i, r. split_and!; try done. by exists lm.
Qed.

(** Changing the forward pointer of the last node, the back pointer of the first. *)
Lemma dseg_set_next h pv p ys x i r e py e' :
  dseg h pv p ys x py -> h !! x = Some (Job e py i r) -> x <> 0 -> x ∉ ys.*1 ->
  dseg (<[x := Job e' py i r]> h) pv p (ys ++ [(x, (i, r))]) e' x.
Proof.
  intros H Hx H0 Hn. apply dseg_app. exists x, py. split; [by apply dseg_frame|].
  split; [done|]. split; [done|]. exists e'. by rewrite lookup_insert_eq.
Qed.

Lemma dseg_set_prev h pv p x i r xs e lst pv' nx :
  dseg h pv p ((x, (i, r)) :: xs) e lst -> h !! x = Some (Job nx pv i r) -> x ∉ xs.*1 ->
  dseg (<[x := Job nx pv' i r]> h) pv' p ((x, (i, r)) :: xs) e lst.
Proof.
  intros (-> & H0 & n' & Hx & H) Hx' Hn. rewrite Hx in Hx'. injection Hx' as ->.
  split; [done|]. split; [done|]. exists nx. rewrite lookup_insert_eq. split; [done|]. by apply dseg_frame.
Qed.

(** ** The operations on the representation *)

(** Nodes outside the list are left alone. *)
Definition same_outside (h h' : gmap Z job) (ps : list Z) : Prop := forall y, y ∉ ps -> h' !! y = h !! y.

Lemma jstore_run p f q j :
  q_heap q !! p = Some j -> jstore p f q = Ret tt (set_qheap (<[p := f j]> (q_heap q)) q).
Proof. intros H. unfold jstore, bind, deref. by rewrite H. Qed.

Lemma add_job_ok q xs r i :
  qrep q xs ->
  exists q', add_job r i q = Ret (q_brk q) q' /\ qrep q' (xs ++ [(q_brk q, (i, r))]) /\
    nextjob q' = nextjob q /\ same_outside (q_heap q) (q_heap q') (q_brk q :: xs.*1).
Proof.
  intros [Hs Hnd [Hb Hlt]]. set (b := q_brk q).
  assert (Hfresh : b ∉ xs.*1).
  { intros Hin. eapply dseg_nodes in Hin as [Hin _]; [|exact Hs]. apply Hlt in Hin. unfold b in Hin. lia. }
  assert (Hnd' : NoDup (xs ++ [(b, (i, r))]).*1).
  { rewrite fmap_app. simpl. apply NoDup_app. split_and!; [done|set_solver|apply NoDup_singleton]. }
  unfold add_job, jmalloc, bind at 1. fold b. unfold gets, bind at 1. cbn [jobtail].
  set (q1 := Queue _ _ _ _ _).
  rewrite (bind_ret _ _ _ _ _ (jstore_run b (set_jprev (jobtail q)) q1 (Job 0 0 i r) ltac:(apply lookup_insert_eq))).
  cbn [q_heap q1 set_jprev j_next j_id j_req]. rewrite insert_insert_eq. set (q2 := set_qheap _ q1).
  assert (H2 : q_heap q2 = <[b := Job 0 (jobtail q) i r]> (q_heap q)) by done.
  assert (Hlt2 : forall (h : gmap Z job) y, (is_Some (h !! y) -> y = b \/ is_Some (q_heap q !! y)) -> is_Some (h !! y) -> y < b + 1).
  { intros h y Hy Hy'. apply Hy in Hy' as [->|Hy']; [lia|]. apply Hlt in Hy'. unfold b. lia. }
  apply dseg_last in Hs as [(-> & Ht & Hh)|(ys & x & ix & rx & -> & Ht & Hx0 & Hp & py & Hseg & Hx)].
  - rewrite Ht in *. change (0 =? 0) with true. cbv iota. eexists. split; [done|]. split_and!; [|done|].
    + split; [|done|]; simpl; unfold b in *.
      * split; [done|]. split; [lia|]. exists 0. rewrite lookup_insert_eq. unfold set_jprev. simpl. by rewrite Ht.
      * split; [lia|]. intros y. apply Hlt2. rewrite lookup_insert_is_Some'. intuition.
    + intros y Hy. simpl. rewrite lookup_insert_ne; [done|set_solver].
  - rewrite Ht in *. destruct (Z.eqb_spec x 0) as [|_]; [done|].
    assert (Hxb : x <> b) by (intros ->; apply Hfresh; rewrite fmap_app; set_solver).
    assert (Hxy : x ∉ ys.*1).
    { rewrite fmap_app in Hnd. apply NoDup_app in Hnd as (_ & Hnd & _). intros Hin. eapply Hnd; [done|set_solver]. }
    erewrite bind_ret; [|apply jstore_run; rewrite H2, lookup_insert_ne by done; exact Hx].
    eexists. split; [done|]. split_and!; [|done|].
    + split; [|done|]; simpl.
      * apply dseg_app. exists b, x. split.
        -- apply (dseg_set_next _ _ _ _ _ _ _ 0); try done.
           ++ apply dseg_frame; [rewrite fmap_app in Hfresh; set_solver|done].
           ++ by rewrite lookup_insert_ne.
        -- split; [done|]. split; [unfold b; lia|]. exists 0. rewrite lookup_insert_ne, lookup_insert_eq by done.
           unfold set_jprev. simpl. by rewrite Ht.
      * split; [unfold b; lia|]. intros y. apply Hlt2. rewrite !lookup_insert_is_Some'. intuition. subst. right. eauto.
    + intros y Hy. rewrite fmap_app in Hy. simpl. rewrite !lookup_insert_ne; [done|set_solver|set_solver].
Qed.

Lemma replace_job_ok q xs jp j :
  qrep q xs -> q_heap q !! jp = Some j -> jp ∉ xs.*1 -> jp <> 0 ->
  exists q', replace_job jp q = Ret tt q' /\ qrep q' ((jp, (j_id j, j_req j)) :: xs) /\
    nextjob q' = nextjob q /\ q_brk q' = q_brk q /\ same_outside (q_heap q) (q_heap q') (jp :: xs.*1).
Proof.
  intros [Hs Hnd [Hb Hlt]] Hj Hn H0. unfold replace_job.
  rewrite (bind_ret _ _ _ _ _ (jstore_run jp (set_jprev 0) q j Hj)). unfold gets, bind at 1.
  cbn [jobhead set_qheap]. set (q1 := set_qheap _ q).
  rewrite (bind_ret _ _ _ _ _ (jstore_run jp (set_jnext (jobhead q)) q1 (set_jprev 0 j) ltac:(apply lookup_insert_eq))).
  cbn [q_heap q1 set_qheap set_jnext set_jprev j_prev j_id j_req]. rewrite insert_insert_eq.
  assert (Hlt' : forall h : gmap Z job, (forall y, is_Some (h !! y) -> is_Some (q_heap q !! y)) -> forall y, is_Some (h !! y) -> y < q_brk q)
    by (intros h Hh y Hy; apply Hlt, Hh, Hy).
  destruct xs as [|[x [i r]] xs]; simpl in Hs.
  - destruct Hs as [-> Ht]. change (0 =? 0) with true. eexists. split; [done|]. split_and!; try done.
    + split; simpl; [|by repeat constructor; set_solver|].
      * split; [done|]. split; [done|]. exists 0. by rewrite lookup_insert_eq.
      * split; [done|]. apply Hlt'. intros y. rewrite lookup_insert_is_Some'. intros [<-|?]; eauto.
    + intros y Hy. simpl. rewrite lookup_insert_ne; [done|set_solver].
  - destruct Hs as (Hh & Hx0 & nx & Hx & Hs). rewrite Hh. destruct (Z.eqb_spec x 0); [done|].
    assert (Hxj : x <> jp) by set_solver. simpl in Hnd. apply NoDup_cons in Hnd as [Hxn Hnd].
    erewrite bind_ret; [|apply jstore_run; simpl; rewrite lookup_insert_ne by done; exact Hx].
    eexists. split; [done|]. split_and!; try done.
    + split; simpl.
      * split; [done|]. split; [done|]. exists x. rewrite lookup_insert_ne, lookup_insert_eq by done. split; [done|].
        split; [done|]. split; [done|]. exists nx. rewrite lookup_insert_eq. split; [done|].
        apply dseg_frame; [done|]. apply dseg_frame; [set_solver|done].
      * apply NoDup_cons. split; [set_solver|]. by apply NoDup_cons.
      * split; [done|]. apply Hlt'. intros y. rewrite !lookup_insert_is_Some'. intros [<-|[<-|?]]; eauto.
    + intros y Hy. simpl. rewrite !lookup_insert_ne; [done|set_solver|set_solver].
Qed.

Lemma deref_run {B} p (f : job -> M queue B) q j :
  q_heap q !! p = Some j -> bind (deref p) f q = f j q.
Proof. intros H. unfold bind, deref. by rewrite H. Qed.

(** The successor of a node that leaves the list. *)
Lemma unlink_successor q x i r pre post lm nx :
  q_heap q !! x = Some (Job nx lm i r) -> dseg (q_heap q) x nx post 0 (jobtail q) -> dseg (q_heap q) 0 (jobhead q) pre x lm ->
  (x ∉ post.*1) -> NoDup post.*1 -> (forall y, y ∈ pre.*1 -> y ∉ post.*1) ->
  exists q1, (if negb (nx =? 0) then jstore nx (set_jprev lm) else modst (set_jobtail lm)) q = Ret tt q1 /\
    dseg (q_heap q1) lm nx post 0 (jobtail q1) /\ dseg (q_heap q1) 0 (jobhead q) pre x lm /\
    q_heap q1 !! x = Some (Job nx lm i r) /\ jobhead q1 = jobhead q /\ nextjob q1 = nextjob q /\ q_brk q1 = q_brk q /\
    (forall y, is_Some (q_heap q1 !! y) -> is_Some (q_heap q !! y)) /\ same_outside (q_heap q) (q_heap q1) post.*1.
Proof.
  intros Hx H2 H1 Hxp Hn2 Hdis. destruct post as [|[y [iy ry]] post]; simpl in H2.
  - destruct H2 as [-> _]. change (0 =? 0) with true. eexists. split; [done|]. split_and!; try done.
  - destruct H2 as (-> & Hy0 & ny & Hy & H2). destruct (Z.eqb_spec y 0); [done|]. cbn [negb].
    rewrite (jstore_run _ _ _ _ Hy). eexists. split; [done|]. simpl in Hxp, Hn2.
    apply NoDup_cons in Hn2 as [Hyn Hn2]. split_and!; simpl; try done.
    + split; [done|]. split; [done|]. exists ny. rewrite lookup_insert_eq. split; [done|]. by apply dseg_frame.
    + apply dseg_frame; [|done]. intros Hin. apply (Hdis y Hin). set_solver.
    + rewrite lookup_insert_ne; [done|set_solver].
    + intros z. rewrite lookup_insert_is_Some'. intros [<-|?]; eauto.
    + intros z Hz. rewrite lookup_insert_ne; [done|set_solver].
Qed.

Lemma remove_job_ok q pre x i r post :
  qrep q (pre ++ (x, (i, r)) :: post) ->
  exists q' j, remove_job x q = Ret tt q' /\ qrep q' (pre ++ post) /\ nextjob q' = nextjob q /\
    q_brk q' = q_brk q /\ q_heap q' !! x = Some j /\ j_id j = i /\ j_req j = r /\
    same_outside (q_heap q) (q_heap q') (pre ++ post).*1.
Proof.
  intros [Hs Hnd [Hb Hlt]]. apply dseg_app in Hs as (m & lm & H1 & -> & Hx0 & nx & Hx & H2).
  rewrite fmap_app in Hnd. simpl in Hnd. apply NoDup_app in Hnd as (Hn1 & Hn12 & Hn2).
  apply NoDup_cons in Hn2 as [Hxp Hn2].
  assert (Hxpre : x ∉ pre.*1) by (intros Hin; apply (Hn12 x Hin); set_solver).
  assert (Hnd' : NoDup (pre ++ post).*1).
  { rewrite fmap_app. apply NoDup_app. split_and!; [done| |done]. intros y Hy Hy'. apply (Hn12 y Hy). set_solver. }
  assert (Hlt' : forall h : gmap Z job, (forall y, is_Some (h !! y) -> is_Some (q_heap q !! y)) ->
    0 < q_brk q /\ forall y, is_Some (h !! y) -> y < q_brk q)
    by (intros h Hh; split; [done|]; intros y Hy; apply Hlt, Hh, Hy).
  unfold remove_job. rewrite (deref_run _ _ _ _ Hx). cbn [j_next j_prev].
  assert (Hdis : forall y, y ∈ pre.*1 -> y ∉ post.*1) by (intros y Hy Hy'; apply (Hn12 y Hy); set_solver).
  destruct (unlink_successor q x i r pre post lm nx Hx H2 H1 Hxp Hn2 Hdis) as (q1 & Hrun & Hpost & Hpre & Hx1 & Hh1 & Hj1 & Hb1 & Hdom & Hout).
  rewrite (bind_ret _ _ _ _ _ Hrun), (deref_run _ _ _ _ Hx1). cbn [j_prev j_next].
  (* the predecessor *)
  apply dseg_last in Hpre as [(-> & -> & Hp)|(ys & z & iz & rz & -> & -> & Hz0 & Hp & pz & Hys & Hz)].
  - change (0 =? 0) with true. cbn [negb]. eexists _, (Job nx 0 i r). split; [done|]. split_and!; try done.
    split; simpl; [done|done|rewrite Hb1; by apply Hlt'].
  - destruct (Z.eqb_spec z 0); [done|]. cbn [negb]. rewrite (jstore_run _ _ _ _ Hz). unfold set_jnext. cbn [j_prev j_id j_req].
    assert (Hzp : z ∉ post.*1) by (intros Hin; apply (Hn12 z); rewrite ?fmap_app; set_solver).
    assert (Hzy : z ∉ ys.*1).
    { rewrite fmap_app in Hn1. apply NoDup_app in Hn1 as (_ & Hn1 & _). intros Hin. eapply Hn1; [done|set_solver]. }
    assert (Hzx : z <> x) by (intros ->; apply Hxpre; rewrite fmap_app; set_solver).
    eexists _, (Job nx z i r). split; [done|]. split_and!; simpl; try done.
    + split; simpl; [|done|rewrite Hb1; apply Hlt'].
      * apply dseg_app. exists nx, z. rewrite Hh1. split; [|by apply dseg_frame].
        by apply (dseg_set_next _ _ _ _ _ _ _ x).
      * intros y. rewrite lookup_insert_is_Some'. intros [<-|?]; eauto.
    + by rewrite lookup_insert_ne.
    + intros y Hy. rewrite fmap_app, fmap_app in Hy. simpl in Hy. rewrite lookup_insert_ne by set_solver.
      apply Hout. set_solver.
Qed.

(** ** The queue as an abstract machine

    Client threads append jobs; the printer thread takes the first job and later either
    puts it back at the front or frees it.  [snd] of the state is the job it holds. *)

Inductive qop := QAdd (e : entry) | QPick | QRequeue | QDone.
Inductive qout := ONone | OPicked (e : entry) | OFreed (e : entry).

Definition spec_q (o : qop) (a : list entry * option entry) : qout * (list entry * option entry) :=
  match o, a with
  | QAdd e, (l, h) => (ONone, (l ++ [e], h))
  | QPick, (e :: l, None) => (OPicked e, (l, Some e))
  | QRequeue, (l, Some e) => (ONone, (e :: l, None))
  | QDone, (l, Some e) => (OFreed e, (l, None))
  | _, _ => (ONone, a)
  end.

Definition lift {A} (m : M queue A) : M (queue * Z) A := fun s =>
  match m (fst s) with
  | Ret a q => Ret a (q, snd s)
  | Die d q => Die d (q, snd s)
  | Undef w => Undef w
  | NoFuel => NoFuel
  end.

Definition run_q (o : qop) : M (queue * Z) qout :=
  held <- gets snd ;;
  match o with
  | QAdd (i, r) => lift (add_job r i) ;;; ret ONone
  | QPick =>
    if held =? 0 then
      p <- lift pick_job ;;
      match p with
      | None => ret ONone
      | Some jp => j <- lift (deref jp) ;; modst (fun s => (fst s, jp)) ;;; ret (OPicked (j_id j, j_req j))
      end
    else ret ONone
  | QRequeue =>
    if held =? 0 then ret ONone
    else lift (replace_job held) ;;; modst (fun s => (fst s, 0)) ;;; ret ONone
  | QDone =>
    if held =? 0 then ret ONone
    else j <- lift (deref held) ;; lift (jfree held) ;;; modst (fun s => (fst s, 0)) ;;;
         ret (OFreed (j_id j, j_req j))
  end.

(** The heap holds exactly the queued nodes and the held one. *)
Definition q_holds (a : list entry * option entry) (n : nat) (s : queue * Z) : Prop :=
  exists xs, qrep (fst s) xs /\ xs.*2 = fst a /\
    match snd a with
    | None => snd s = 0
    | Some e => snd s <> 0 /\ (snd s ∉ xs.*1) /\
                exists j, q_heap (fst s) !! snd s = Some j /\ (j_id j, j_req j) = e
    end /\
    (forall y, is_Some (q_heap (fst s) !! y) -> y ∈ xs.*1 \/ (y = snd s /\ snd s <> 0)).

Lemma lift_run {A B} (m : M queue A) (f : A -> M (queue * Z) B) q held a q' :
  m q = Ret a q' -> bind (lift m) f (q, held) = f a (q', held).
Proof. intros H. unfold bind, lift. simpl. by rewrite H. Qed.

Lemma run_q_add e l h q held n :
  q_holds (l, h) n (q, held) ->
  exists s', run_q (QAdd e) (q, held) = Ret ONone s' /\ q_holds (l ++ [e], h) n s'.
Proof.
  destruct e as [i r]. intros (xs & Hq & Hl & Hh & Hdom). simpl in *.
  destruct (add_job_ok q xs r i Hq) as (q' & Hrun & Hq' & _ & Hout).
  unfold run_q, gets, bind at 1. cbn [snd]. rewrite (lift_run _ _ _ _ _ _ Hrun). eexists. split; [done|].
  pose proof (qr_brk _ _ Hq) as [Hb Hlt].
  exists (xs ++ [(q_brk q, (i, r))]). rewrite !fmap_app. simpl. rewrite Hl. split_and!; [done|done| |].
  - destruct h as [e|]; [|done]. destruct Hh as (H0 & Hn & j & Hj & He).
    assert (Hne : held <> q_brk q) by (intros ->; specialize (Hlt _ (mk_is_Some _ _ Hj)); lia).
    split; [done|]. split; [set_solver|]. exists j. rewrite Hout by set_solver. done.
  - intros y Hy. destruct (decide (y ∈ q_brk q :: xs.*1)) as [Hin|Hin].
    + left. set_solver.
    + rewrite Hout in Hy by done. destruct (Hdom y Hy); set_solver.
Qed.

Lemma run_q_pick e l q n :
  q_holds (e :: l, None) n (q, 0) ->
  exists s', run_q QPick (q, 0) = Ret (OPicked e) s' /\ q_holds (l, Some e) n s'.
Proof.
  intros (xs & Hq & Hl & _ & Hdom). simpl in *. destruct xs as [|[x [i r]] xs]; [done|].
  simpl in Hl. injection Hl as <- Hl.
  destruct (remove_job_ok q [] x i r xs Hq) as (q' & j & Hrun & Hq' & _ & _ & Hx & Hi & Hr & Hout).
  assert (Hhd : jobhead q = x /\ x <> 0) by (destruct Hq as [(-> & ? & _) _ _]; done).
  destruct Hhd as [Hhd Hx0].
  assert (Hpick : pick_job q = Ret (Some x) q').
  { unfold pick_job, gets, bind at 1. rewrite Hhd. destruct (Z.eqb_spec x 0); [done|].
    by rewrite (bind_ret _ _ _ _ _ Hrun). }
  unfold run_q, gets, bind at 1. cbn [snd]. change (0 =? 0) with true. cbv iota.
  rewrite (lift_run _ _ _ _ _ _ Hpick). cbv iota.
  assert (Hd : deref x q' = Ret j q') by (unfold deref; by rewrite Hx).
  rewrite (lift_run _ _ _ _ _ _ Hd). eexists. split; [by subst i r|].
  pose proof (qr_nodup _ _ Hq) as Hnd. simpl in Hnd, Hdom, Hout. apply NoDup_cons in Hnd as [Hnx Hnd].
  exists xs. cbn [fst snd]. split; [done|]. split; [done|]. split.
  - split; [done|]. split; [done|]. exists j. subst. done.
  - intros y Hy. destruct (decide (y ∈ xs.*1)) as [|Hn]; [by left|]. rewrite Hout in Hy by done.
    destruct (Hdom y Hy) as [Hin|[-> ?]]; [|done]. apply elem_of_cons in Hin as [->|?]; [by right|done].
Qed.

Lemma run_q_requeue e l q held n :
  q_holds (l, Some e) n (q, held) ->
  exists s', run_q QRequeue (q, held) = Ret ONone s' /\ q_holds (e :: l, None) n s'.
Proof.
  intros (xs & Hq & Hl & (H0 & Hn & j & Hj & He) & Hdom). simpl in *.
  destruct (replace_job_ok q xs held j Hq Hj Hn H0) as (q' & Hrun & Hq' & _ & _ & Hout).
  unfold run_q, gets, bind at 1. cbn [snd]. destruct (Z.eqb_spec held 0); [done|].
  rewrite (lift_run _ _ _ _ _ _ Hrun). eexists. split; [done|].
  exists ((held, (j_id j, j_req j)) :: xs). cbn [fst snd]. split_and!; [done|rewrite fmap_cons; cbn [snd]; by rewrite He, Hl|done|].
  intros y Hy. left. destruct (decide (y ∈ held :: xs.*1)) as [|Hn']; [done|].
  rewrite Hout in Hy by done. destruct (Hdom y Hy) as [?|[-> _]]; set_solver.
Qed.

Lemma run_q_done e l q held n :
  q_holds (l, Some e) n (q, held) ->
  exists s', run_q QDone (q, held) = Ret (OFreed e) s' /\ q_holds (l, None) n s'.
Proof.
  intros (xs & [Hs Hnd [Hb Hlt]] & Hl & (H0 & Hn & j & Hj & He) & Hdom). simpl in *.
  unfold run_q, gets, bind at 1. cbn [snd]. destruct (Z.eqb_spec held 0); [done|].
  assert (Hd : deref held q = Ret j q) by (unfold deref; by rewrite Hj).
  rewrite (lift_run _ _ _ _ _ _ Hd).
  assert (Hf : jfree held q = Ret tt (set_qheap (delete held (q_heap q)) q)).
  { unfold jfree. by rewrite (bind_ret _ _ _ _ _ Hd). }
  rewrite (lift_run _ _ _ _ _ _ Hf), <- He. eexists. split; [done|].
  exists xs. cbn [fst snd]. split_and!; [|done|done|].
  - split; simpl; [by apply dseg_delete|done|]. split; [done|]. intros y [z Hy].
    apply lookup_delete_Some in Hy as [_ Hy]. eauto.
  - intros y [z Hy]. simpl in Hy. apply lookup_delete_Some in Hy as [Hne Hy].
    destruct (Hdom y (mk_is_Some _ _ Hy)) as [?|[-> _]]; [by left|done].
Qed.

#[export] Instance queue_refines : Refines run_q spec_q (fun _ => True) q_holds.
Proof.
  intros [l h] n o [q held] Hh _.
  assert (Hweak : forall a s, q_holds a (S n) s -> q_holds a n s) by done.
  apply Hweak in Hh. destruct o as [e| | |].
  - by apply run_q_add.
  - destruct h as [e|]; [|destruct l as [|e l]].
    + exists (q, held). split; [|by destruct l]. pose proof Hh as (xs & _ & _ & (H0 & _) & _). simpl in H0.
      unfold run_q, gets, bind at 1. cbn [snd]. by destruct (Z.eqb_spec held 0); [|destruct l].
    + exists (q, held). split; [|done]. destruct Hh as (xs & Hq & Hl & H0 & _). simpl in *. subst held.
      destruct xs; [|done]. destruct Hq as [[Hhd _] _ _]. unfold run_q, gets, bind at 1. simpl.
      unfold lift, pick_job, gets, bind. simpl. by rewrite Hhd.
    + pose proof Hh as (xs & _ & _ & H0 & _). simpl in H0. subst held. by apply run_q_pick.
  - destruct h as [e|]; [by apply run_q_requeue|]. exists (q, held). split; [|by destruct l].
    pose proof Hh as (xs & _ & _ & H0 & _). simpl in H0. subst held. by destruct l.
  - destruct h as [e|]; [by apply run_q_done|]. exists (q, held). split; [|by destruct l].
    pose proof Hh as (xs & _ & _ & H0 & _). simpl in H0. subst held. by destruct l.
Qed.

(** ** Theorems on the queue *)

Definition q_empty (n : Z) : queue * Z := (Queue ∅ 1 0 0 n, 0).

Lemma q_empty_holds n k : q_holds ([], None) k (q_empty n).
Proof.
  assert (Hno : forall x, is_Some (q_heap (fst (q_empty n)) !! x) -> False).
  { intros x [j Hj]. cbn in Hj. by apply lookup_empty_Some in Hj. }
  exists []. split; [|split; [done|split; [done|]]].
  - split; [done|constructor|]. split; [done|]. intros x Hx. by apply Hno in Hx.
  - intros y Hy. by apply Hno in Hy.
Qed.

Definition added (os : list qop) : list entry := omap (fun o => match o with QAdd e => Some e | _ => None end) os.
Definition picked (rs : list qout) : list entry := omap (fun r => match r with OPicked e => Some e | _ => None end) rs.
Definition freed (rs : list qout) : list entry := omap (fun r => match r with OFreed e => Some e | _ => None end) rs.

Lemma added_cons o os : added (o :: os) = match o with QAdd e => e :: added os | _ => added os end.
Proof. by destruct o. Qed.
Lemma picked_cons r rs : picked (r :: rs) = match r with OPicked e => e :: picked rs | _ => picked rs end.
Proof. by destruct r. Qed.
Lemma freed_cons r rs : freed (r :: rs) = match r with OFreed e => e :: freed rs | _ => freed rs end.
Proof. by destruct r. Qed.

Lemma spec_q_conserves os l h :
  let '(rs, (l', h')) := spec_seq spec_q os (l, h) in
  freed rs ++ l' ++ option_list h' ≡ₚ added os ++ l ++ option_list h.
Proof.
  revert l h. induction os as [|o os IH]; intros l h; [simpl; reflexivity|]. cbn [spec_seq].
  destruct (spec_q o (l, h)) as [r [l1 h1]] eqn:E. specialize (IH l1 h1).
  destruct (spec_seq spec_q os (l1, h1)) as [rs [l2 h2]].
  unfold spec_q in E. destruct o, l as [|e1 l], h as [e2|]; simplify_eq;
    rewrite added_cons, freed_cons; simpl app; simpl option_list in *; rewrite ?IH; solve_Permutation.
Qed.

Lemma spec_q_fifo os l h :
  Forall (fun o => o <> QRequeue) os ->
  let '(rs, (l', h')) := spec_seq spec_q os (l, h) in picked rs ++ l' = l ++ added os.
Proof.
  intros H. revert l h. induction H as [|o os Ho _ IH]; intros l h; [by rewrite app_nil_r|]. cbn [spec_seq].
  destruct (spec_q o (l, h)) as [r [l1 h1]] eqn:E. specialize (IH l1 h1).
  destruct (spec_seq spec_q os (l1, h1)) as [rs [l2 h2]].
  unfold spec_q in E. destruct o, l as [|e1 l], h as [e2|]; simplify_eq;
    rewrite added_cons, picked_cons; simpl app; rewrite ?IH; by simplify_list_eq.
Qed.

(** C13: The linked list is the queue.  Any interleaving of the daemon's accesses (client
    threads appending jobs, the printer thread taking the first one and later freeing it
    or putting it back in front) follows only valid pointers and returns what the abstract
    queue returns; no job is lost or duplicated, and the heap holds no node besides the
    queued ones and the one in hand. *)
Theorem queue_conserves_jobs (os : list qop) (n : Z) :
  exists s' l h, run_seq run_q os (q_empty n) = Ret (fst (spec_seq spec_q os ([], None))) s' /\
    q_holds (l, h) 0 s' /\
    freed (fst (spec_seq spec_q os ([], None))) ++ l ++ option_list h ≡ₚ added os.
Proof.
  pose proof (refines_seq run_q spec_q (fun _ => True) q_holds os ([], None) 0 (q_empty n)
    ltac:(apply q_empty_holds) ltac:(by apply Forall_true)) as (s' & Hrun & Hh).
  pose proof (spec_q_conserves os [] None) as Hc.
  destruct (spec_seq spec_q os ([], None)) as [rs [l h]]. simpl in *. rewrite app_nil_r in Hc.
  exists s', l, h. done.
Qed.

(** First in, first out: as long as no job is put back, jobs are printed in the order
    in which they were added. *)
Theorem queue_fifo (os : list qop) (n : Z) :
  Forall (fun o => o <> QRequeue) os ->
  exists rs s', run_seq run_q os (q_empty n) = Ret rs s' /\ picked rs `prefix_of` added os.
Proof.
  intros Hos. pose proof (refines_seq run_q spec_q (fun _ => True) q_holds os ([], None) 0 (q_empty n)
    ltac:(apply q_empty_holds) ltac:(by apply Forall_true)) as (s' & Hrun & _).
  pose proof (spec_q_fifo os [] None Hos) as Hc.
  destruct (spec_seq spec_q os ([], None)) as [rs [l h]]. simpl in *.
  exists rs, s'. split; [done|]. exists l. done.
Qed.

(** ** Job numbers *)

Lemma get_newjobno_run q :
  1 <= nextjob q < INT_MAX -> get_newjobno q = Ret (nextjob q) (set_nextjob (nextjob q + 1) q).
Proof.
  intros Hn. unfold get_newjobno, gets, modst, when, bind. destruct (Z.eqb_spec (nextjob q) INT_MAX); [lia|].
  cbn [nextjob set_nextjob]. by destruct (Z.leb_spec (nextjob q + 1) 0); [lia|].
Qed.

(** Job numbers.  Starting from a positive counter, k requests get k consecutive numbers,
    and so different ones, as long as the counter stays below [INT_MAX]; the increment of
    a counter of [INT_MAX] overflows, and a counter that is not positive hands out that
    number once and then starts again with 1. *)
Theorem get_newjobno_counts (k : nat) (q : queue) :
  (1 <= nextjob q -> nextjob q + Z.of_nat k <= INT_MAX ->
   exists q', run_seq (fun _ : unit => get_newjobno) (replicate k tt) q = Ret (seqZ (nextjob q) (Z.of_nat k)) q' /\
     nextjob q' = nextjob q + Z.of_nat k) /\
  (nextjob q = INT_MAX -> exists w, get_newjobno q = Undef w) /\
  (nextjob q <= -1 -> get_newjobno q = Ret (nextjob q) (set_nextjob 1 q)).
Proof.
  split_and!.
  - revert q. induction k as [|k IH]; intros q Hn Hk; [exists q; split; [done|lia]|].
    cbn [replicate run_seq]. rewrite (bind_ret _ _ _ _ _ (get_newjobno_run q ltac:(lia))).
    destruct (IH (set_nextjob (nextjob q + 1) q)) as (q' & Hrun & Hlast); [simpl; lia|simpl; lia|].
    rewrite (bind_ret _ _ _ _ _ Hrun). exists q'. split; [|rewrite Hlast; simpl; lia].
    unfold ret. f_equal. rewrite (seqZ_cons (nextjob q) (Z.of_nat (S k))) by lia. f_equal. simpl nextjob. f_equal; lia.
  - intros E. unfold get_newjobno, gets, bind. rewrite E, Z.eqb_refl. by eexists.
  - intros E. unfold get_newjobno, gets, modst, when, bind. destruct (Z.eqb_spec (nextjob q) INT_MAX); [unfold INT_MAX in *; lia|].
    cbn [nextjob set_nextjob]. by destruct (Z.leb_spec (nextjob q + 1) 0); [|lia].
Qed.

(** ** Worker threads *)

Record worker := Worker { w_next : Z; w_prev : Z; w_tid : Z; w_sockfd : Z }.

Record wlist := Wlist { w_heap : gmap Z worker; w_brk : Z; workers : Z }.

Definition wderef (p : Z) : M wlist worker := fun s =>
  match w_heap s !! p with Some w => Ret w s | None => Undef "invalid worker pointer" end.

Definition wstore (p : Z) (f : worker -> worker) : M wlist unit :=
  w <- wderef p ;; modst (fun s => Wlist (<[p := f w]> (w_heap s)) (w_brk s) (workers s)).

Definition set_wnext v w := Worker v (w_prev w) (w_tid w) (w_sockfd w).
Definition set_wprev v w := Worker (w_next w) v (w_tid w) (w_sockfd w).
Definition set_workers v s := Wlist (w_heap s) (w_brk s) v.

Definition add_worker (tid sockfd : Z) : M wlist unit :=
  s <- getst ;;
  let wtp := w_brk s in
  putst (Wlist (<[wtp := Worker 0 0 tid sockfd]> (w_heap s)) (wtp + 1) (workers s)) ;;;
  wstore wtp (set_wprev 0) ;;;
  w <- gets workers ;;
  wstore wtp (set_wnext w) ;;;
  if w =? 0 then modst (set_workers wtp) else wstore w (set_wprev wtp).

(** The thread ids that [pthread_cancel] is called on; a list without a cycle is no longer
    than the heap. *)
Fixpoint kill_loop (fuel : nat) (wtp : Z) : M wlist (list Z) :=
  if wtp =? 0 then ret []
  else
    match fuel with
    | O => fun _ => NoFuel
    | S f => w <- wderef wtp ;; l <- kill_loop f (w_next w) ;; ret (w_tid w :: l)
    end.

Definition kill_workers : M wlist (list Z) :=
  s <- getst ;; kill_loop (size (w_heap s)) (workers s).

(** The search loop of [client_cleanup]: the node of the thread, or NULL. *)
Fixpoint cleanup_loop (fuel : nat) (tid wtp : Z) : M wlist Z :=
  if wtp =? 0 then ret 0
  else
    match fuel with
    | O => fun _ => NoFuel
    | S f =>
      w <- wderef wtp ;;
      if w_tid w =? tid then
        when (negb (w_next w =? 0)) (wstore (w_next w) (set_wprev (w_prev w))) ;;;
        w <- wderef wtp ;;
        (if negb (w_prev w =? 0) then wstore (w_prev w) (set_wnext (w_next w))
         else modst (set_workers (w_next w))) ;;;
        ret wtp
      else cleanup_loop f tid (w_next w)
    end.

(** Returns the socket that is closed. *)
Definition client_cleanup (tid : Z) : M wlist (option Z) :=
  s <- getst ;;
  wtp <- cleanup_loop (size (w_heap s)) tid (workers s) ;;
  if negb (wtp =? 0) then
    w <- wderef wtp ;;
    modst (fun s => Wlist (delete wtp (w_heap s)) (w_brk s) (workers s)) ;;;
    ret (Some (w_sockfd w))
  else ret None.

Definition w_empty : wlist := Wlist ∅ 1 0.

Definition add_workers (ts : list (Z * Z)) : M wlist (list unit) :=
  run_seq (fun t => add_worker (fst t) (snd t)) ts.

(** The list after the first worker: it alone is reachable from [workers]. *)
Definition one_reachable (t : Z) (s : wlist) : Prop :=
  workers s = 1 /\ 1 < w_brk s /\ (forall x, is_Some (w_heap s !! x) -> x < w_brk s) /\
  exists pv fd, w_heap s !! 1 = Some (Worker 0 pv t fd).

Lemma add_worker_more t s tid fd :
  one_reachable t s -> exists s', add_worker tid fd s = Ret tt s' /\ one_reachable t s'.
Proof.
  intros (Hw & Hb & Hlt & pv & fd1 & H1). unfold add_worker, bind at 1, getst, putst, bind at 1.
  set (b := w_brk s) in *. assert (Hb1 : b <> 1) by lia.
  unfold wstore, wderef, bind, modst, gets. simpl. rewrite lookup_insert_eq. simpl.
  rewrite insert_insert_eq, lookup_insert_eq. simpl. rewrite insert_insert_eq, Hw. simpl.
  rewrite lookup_insert_ne, H1 by done. eexists. split; [done|].
  split; [done|]. split; [simpl; lia|]. split.
  - intros x. simpl. rewrite !lookup_insert_is_Some'. intros [<-|[<-|Hx]]; [lia|lia|]. apply Hlt in Hx. lia.
  - exists b, fd1. simpl. by rewrite lookup_insert_eq.
Qed.

Lemma add_worker_first t fd : exists s', add_worker t fd w_empty = Ret tt s' /\ one_reachable t s'.
Proof.
  eexists. split; [by vm_compute|]. split; [done|]. split; [done|]. split; [|by exists 0, fd].
  intros x [w Hx]. destruct (decide (x = 1)) as [->|Hn]; [done|]. exfalso.
  change (<[1 := Worker 0 0 t fd]> (∅ : gmap Z worker) !! x = Some w) in Hx.
  rewrite lookup_insert_ne in Hx by done. by apply lookup_empty_Some in Hx.
Qed.

(** [add_worker] never makes a later worker reachable: after any number of clients
    have connected, [kill_workers] cancels only the thread of the first one. *)
Theorem kill_workers_first (t fd : Z) (ts : list (Z * Z)) :
  exists s' us, add_workers ((t, fd) :: ts) w_empty = Ret us s' /\ kill_workers s' = Ret [t] s'.
Proof.
  destruct (add_worker_first t fd) as (s1 & Hrun & H1). unfold add_workers. cbn [run_seq fst snd].
  rewrite (bind_ret _ _ _ _ _ Hrun).
  assert (Hall : forall s, one_reachable t s ->
    exists s' us, run_seq (fun t => add_worker (fst t) (snd t)) ts s = Ret us s' /\ one_reachable t s').
  { clear. induction ts as [|[a b] ts IH]; intros s Hs; [by exists s, []|]. cbn [run_seq fst snd].
    destruct (add_worker_more t s a b Hs) as (s1 & Hrun & H1). rewrite (bind_ret _ _ _ _ _ Hrun).
    destruct (IH s1 H1) as (s2 & us & Hrun2 & H2). rewrite (bind_ret _ _ _ _ _ Hrun2). by do 2 eexists. }
  destruct (Hall s1 H1) as (s2 & us & Hrun2 & Hw & _ & _ & pv & fd' & H2).
  rewrite (bind_ret _ _ _ _ _ Hrun2). do 2 eexists. split; [done|].
  unfold kill_workers, bind at 1, getst. rewrite Hw. destruct (size (w_heap s2)) as [|n] eqn:En.
  { apply map_size_empty_inv in En. rewrite En in H2. by apply lookup_empty_Some in H2. }
  simpl. unfold bind, wderef. rewrite H2. simpl. by destruct n.
Qed.

(** When the first of two connected clients finishes, [workers] is left pointing to
    its freed node, and the next connection follows that pointer. *)
Theorem worker_use_after_free (t1 t2 t3 fd1 fd2 fd3 : Z) :
  exists s', (add_worker t1 fd1 ;;; add_worker t2 fd2 ;;; client_cleanup t1)%c w_empty = Ret (Some fd1) s' /\
    workers s' = 1 /\ w_heap s' !! 1 = None /\ add_worker t3 fd3 s' = Undef "invalid worker pointer".
Proof.
  set (s2 := Wlist (<[1 := Worker 0 2 t1 fd1]> (<[2 := Worker 1 0 t2 fd2]> ∅)) 3 1).
  assert (H2 : (add_worker t1 fd1 ;;; add_worker t2 fd2)%c w_empty = Ret tt s2) by (by vm_compute).
  set (s3 := Wlist (<[2 := Worker 0 0 t2 fd2]> ∅) 3 1).
  assert (H3 : client_cleanup t1 s2 = Ret (Some fd1) s3).
  { assert (Hd : wderef 1 s2 = Ret (Worker 0 2 t1 fd1) s2) by done.
    assert (Hl : cleanup_loop 2 t1 1 s2 = Ret 1 (Wlist (<[1 := Worker 0 2 t1 fd1]> (<[2 := Worker 0 0 t2 fd2]> ∅)) 3 1)).
    { cbn [cleanup_loop]. change (1 =? 0) with false. cbv iota. rewrite (bind_ret _ _ _ _ _ Hd).
      cbn [w_tid]. rewrite Z.eqb_refl. by vm_compute. }
    unfold client_cleanup, bind at 1, getst. change (size (w_heap s2)) with 2%nat.
    change (workers s2) with 1. rewrite (bind_ret _ _ _ _ _ Hl). by vm_compute. }
  exists s3. split.
  - unfold bind in *. destruct (add_worker t1 fd1 w_empty); try done. by rewrite H2.
  - split; [done|]. split; [by vm_compute|by vm_compute].
Qed.

(** ** Witnesses *)

Definition req_ex : printreq := Req 10 0 (bs "sar") (bs "report.ps").

Lemma queue_fifo_witness :
  exists rs s', run_seq run_q [QAdd (1, req_ex); QAdd (2, req_ex); QPick; QDone; QPick] (q_empty 3) = Ret rs s' /\
    picked rs `prefix_of` added [QAdd (1, req_ex); QAdd (2, req_ex); QPick; QDone; QPick].
Proof.
  apply (queue_fifo [QAdd (1, req_ex); QAdd (2, req_ex); QPick; QDone; QPick] 3).
  repeat (apply Forall_cons_2; [done|]). apply Forall_nil_2.
Defined.

Lemma get_newjobno_counts_witness :
  exists q', run_seq (fun _ : unit => get_newjobno) (replicate 3 tt) (Queue ∅ 1 0 0 7) = Ret (seqZ 7 3) q' /\ nextjob q' = 10.
Proof. apply (get_newjobno_counts 3 (Queue ∅ 1 0 0 7)); by vm_compute. Defined.
