(* ===== verification/SpoolIo.v ===== *)
(** * Sockets and message formats of the print spooler

    apue.3e/lib/readn.c and writen.c, [tread] and [treadn] of apue.3e/printer/util.c, and
    the two messages of print.h.  What the peer and the network do is a list of events:
    each says what the next [select] or [read] finds.  A write consumes one outcome per
    call. *)

From Stdlib Require Import Strings.Byte ZArith Lia.
From S2P Require Import Prelude Libc Posix SpoolQueue.
From stdpp Require Import base strings numbers gmap list.
#[local] Open Scope Z_scope.

Definition ETIME : Z := 62.
Definition IOBUFSZ : Z := 8192.
Definition MSGLEN_MAX : Z := 512.

(** ** Sockets *)

Inductive ev := EvData (d : bytes) | EvEof | EvTimeout | EvSelErr (e : Z) | EvErr (e : Z).
Inductive wev := WAll | WSome (n : Z) | WErr (e : Z).

Record ios := Ios { s_in : list ev; s_out : bytes; s_wr : list wev; s_errno : Z }.

Definition set_in v s := Ios v (s_out s) (s_wr s) (s_errno s).
Definition set_serrno v s := Ios (s_in s) (s_out s) (s_wr s) v.

(** [select] with a timeout, on one descriptor: 0, -1 or 1. *)
Definition sys_select : M ios Z :=
  l <- gets s_in ;;
  match l with
  | [] => ret 0
  | EvTimeout :: r => modst (set_in r) ;;; ret 0
  | EvSelErr e :: r => modst (set_in r) ;;; modst (set_serrno e) ;;; ret (-1)
  | _ => ret 1
  end.

(** [read]: [None] is -1.  It waits for ever on a silent peer. *)
Fixpoint read_events (l : list ev) (n : Z) : M ios (option bytes) :=
  match l with
  | [] => fun _ => NoFuel
  | EvTimeout :: r => read_events r n
  | EvSelErr e :: r | EvErr e :: r => modst (set_in r) ;;; modst (set_serrno e) ;;; ret None
  | EvEof :: r => modst (set_in l) ;;; ret (Some [])
  | EvData d :: r =>
    let rest := drop (Z.to_nat n) d in
    modst (set_in (if bool_decide (rest = []) then r else EvData rest :: r)) ;;;
    ret (Some (take (Z.to_nat n) d))
  end.

Definition sock_read (n : Z) : M ios (option bytes) := l <- gets s_in ;; read_events l n.

Definition sock_write (d : bytes) : M ios Z := fun s =>
  match s_wr s with
  | WErr e :: r => Ret (-1) (Ios (s_in s) (s_out s) r e)
  | WSome n :: r =>
    let k := Z.max 0 (Z.min n (len d)) in
    Ret k (Ios (s_in s) (s_out s ++ take (Z.to_nat k) d) r (s_errno s))
  | WAll :: r => Ret (len d) (Ios (s_in s) (s_out s ++ d) r (s_errno s))
  | [] => Ret (len d) (Ios (s_in s) (s_out s ++ d) [] (s_errno s))
  end.

(** ** tread, treadn, readn, writen *)

(** [None] is -1. *)
Definition tread (nbytes : Z) : M ios (option bytes) :=
  nfds <- sys_select ;;
  if nfds <=? 0 then
    when (nfds =? 0) (modst (set_serrno ETIME)) ;;; ret None
  else sock_read nbytes.

(** The loops shared by [treadn] and [readn]: the return value and the bytes stored. *)
Fixpoint readn_loop (rd : Z -> M ios (option bytes)) (fuel : nat) (n nleft : Z) (buf : bytes) : M ios (Z * bytes) :=
  if nleft <=? 0 then ret (n - nleft, buf)
  else
    match fuel with
    | O => fun _ => NoFuel
    | S f =>
      r <- rd nleft ;;
      match r with
      | None => if nleft =? n then ret (-1, buf) else ret (n - nleft, buf)
      | Some [] => ret (n - nleft, buf)
      | Some d => readn_loop rd f n (nleft - len d) (buf ++ d)
      end
    end.

Definition treadn (nbytes : Z) : M ios (Z * bytes) := readn_loop tread (Z.to_nat nbytes) nbytes nbytes [].
Definition readn (n : Z) : M ios (Z * bytes) := readn_loop sock_read (Z.to_nat n) n n [].

Fixpoint writen_loop (fuel : nat) (n : Z) (ptr : bytes) : M ios Z :=
  let nleft := len ptr in
  if nleft <=? 0 then ret (n - nleft)
  else
    match fuel with
    | O => fun _ => NoFuel
    | S f =>
      w <- sock_write ptr ;;
      if w <? 0 then (if nleft =? n then ret (-1) else ret (n - nleft))
      else if w =? 0 then ret (n - nleft)
      else writen_loop f n (drop (Z.to_nat w) ptr)
    end.

Definition writen (d : bytes) : M ios Z := writen_loop (length d) (len d) d.

(** ** Integers on the wire and in memory *)

Definition le32 (v : Z) : bytes := [bz v; bz (v / 2 ^ 8); bz (v / 2 ^ 16); bz (v / 2 ^ 24)].
Definition be32 (v : Z) : bytes := rev (le32 v).
Definition un_le32 (b : bytes) : Z :=
  match b with
  | [b0; b1; b2; b3] => uc b0 + uc b1 * 2 ^ 8 + uc b2 * 2 ^ 16 + uc b3 * 2 ^ 24
  | _ => 0
  end.
Definition be16 (v : Z) : bytes := [bz (v / 2 ^ 8); bz v].

(** [htonl] and [ntohl] on a little-endian machine. *)
Definition htonl (v : Z) : Z := un_le32 (be32 v).

(** ** struct printreq and struct printresp *)

Definition REQ_SIZE : Z := 328.
Definition RESP_SIZE : Z := 520.

Definition encode_req (r : printreq) : bytes := le32 (rq_size r) ++ le32 (rq_flags r) ++ rq_usernm r ++ rq_jobnm r.

Definition decode_req (b : bytes) : printreq :=
  Req (un_le32 (slice 0 4 b)) (un_le32 (slice 4 4 b)) (slice 8 64 b) (slice 72 256 b).

Record printresp := Resp { rs_retcode : Z; rs_jobid : Z; rs_msg : bytes }.

Definition encode_resp (r : printresp) : bytes := le32 (rs_retcode r) ++ le32 (rs_jobid r) ++ rs_msg r.

Definition decode_resp (b : bytes) : printresp :=
  Resp (un_le32 (slice 0 4 b)) (un_le32 (slice 4 4 b)) (slice 8 512 b).

(** [strncpy] into an array of [n] bytes pads with NULs. *)
Definition strncpy (s : bytes) (n : nat) : bytes := take n s ++ replicate (n - length s) NUL.

(** ** Facts *)

Definition u32_ok (v : Z) : Prop := 0 <= v < 2 ^ 32.

Lemma un_le32_le32 v : u32_ok v -> un_le32 (le32 v) = v.
Proof.
  unfold u32_ok. intros H. unfold un_le32, le32. rewrite !uc_bz.
  change (2 ^ 24) with (2 ^ 16 * 2 ^ 8). rewrite <- Z.div_div by lia.
  change (2 ^ 16) with (2 ^ 8 * 2 ^ 8). rewrite <- !Z.div_div by lia. change (2 ^ 8) with 256.
  assert (v / 256 / 256 / 256 < 256) by (repeat apply Z.div_lt_upper_bound; lia).
  assert (0 <= v / 256 / 256 / 256) by (repeat apply Z.div_pos; lia).
  rewrite (Z.mod_small (v / 256 / 256 / 256)) by lia.
  pose proof (Z.div_mod v 256). pose proof (Z.div_mod (v / 256) 256). pose proof (Z.div_mod (v / 256 / 256) 256). lia.
Qed.

Lemma le32_un_le32 b : length b = 4%nat -> le32 (un_le32 b) = b /\ u32_ok (un_le32 b).
Proof.
  intros Hl. destruct b as [|b0 [|b1 [|b2 [|b3 [|]]]]]; try done. unfold un_le32, u32_ok, le32.
  pose proof (uc_range b0). pose proof (uc_range b1). pose proof (uc_range b2). pose proof (uc_range b3).
  change (2 ^ 24) with 16777216. change (2 ^ 16) with 65536. change (2 ^ 8) with 256. change (2 ^ 32) with 4294967296.
  set (v := uc b0 + _ + _ + _). split; [|unfold v; lia].
  assert (E1 : v / 256 = uc b1 + uc b2 * 256 + uc b3 * 65536)
    by (symmetry; apply (Z.div_unique _ _ _ (uc b0)); unfold v; lia).
  assert (E2 : v / 65536 = uc b2 + uc b3 * 256)
    by (symmetry; apply (Z.div_unique _ _ _ (uc b0 + uc b1 * 256)); unfold v; lia).
  assert (E3 : v / 16777216 = uc b3)
    by (symmetry; apply (Z.div_unique _ _ _ (uc b0 + uc b1 * 256 + uc b2 * 65536)); unfold v; lia).
  rewrite E1, E2, E3.
  assert (Hbz : forall b z, (exists q, z = uc b + q * 256) -> bz z = b).
  { intros b z [k ->]. rewrite <- (bz_uc b) at 2. unfold bz. do 3 f_equal. apply Z.mod_add. lia. }
  f_equal; [|f_equal; [|f_equal; [|f_equal]]].
  - apply Hbz. exists (uc b1 + uc b2 * 256 + uc b3 * 65536). unfold v. lia.
  - apply Hbz. exists (uc b2 + uc b3 * 256). lia.
  - apply Hbz. exists (uc b3). lia.
  - apply Hbz. exists 0. lia.
Qed.

Lemma htonl_invol v : u32_ok v -> htonl (htonl v) = v.
Proof.
  intros H. unfold htonl, be32. rewrite (proj1 (le32_un_le32 (rev (le32 v)) eq_refl)), rev_involutive.
  by apply un_le32_le32.
Qed.

Lemma le32_htonl v : le32 (htonl v) = be32 v.
Proof. unfold htonl. by apply le32_un_le32. Qed.

Record req_ok (r : printreq) : Prop := ReqOk {
  ro_size : u32_ok (rq_size r); ro_flags : u32_ok (rq_flags r);
  ro_user : length (rq_usernm r) = 64%nat; ro_job : length (rq_jobnm r) = 256%nat
}.

Lemma decode_encode_req r : req_ok r -> decode_req (encode_req r) = r /\ len (encode_req r) = REQ_SIZE.
Proof.
  intros [H1 H2 H3 H4]. destruct r as [sz fl us jb]. simpl in *. unfold decode_req, encode_req. simpl rq_size.
  simpl rq_flags. simpl rq_usernm. simpl rq_jobnm. split.
  - f_equal.
    + rewrite <- (app_nil_l (le32 sz ++ _)), (slice_app [] (le32 sz)) by done. by apply un_le32_le32.
    + rewrite (slice_app (le32 sz) (le32 fl)) by done. by apply un_le32_le32.
    + rewrite app_assoc, (slice_app (le32 sz ++ le32 fl) us) by done. done.
    + rewrite !app_assoc, <- (app_nil_r jb) at 1. rewrite <- app_assoc.
      rewrite (slice_app ((le32 sz ++ le32 fl) ++ us) jb []); [done| |done]. rewrite length_app. simpl. lia.
  - unfold len. rewrite !length_app, H3, H4. done.
Qed.

Lemma encode_decode_req b : length b = 328%nat -> encode_req (decode_req b) = b /\ req_ok (decode_req b).
Proof.
  intros Hl. unfold encode_req, decode_req. cbn [rq_size rq_flags rq_usernm rq_jobnm].
  assert (H1 : length (slice 0 4 b) = 4%nat) by (rewrite length_slice; lia).
  assert (H2 : length (slice 4 4 b) = 4%nat) by (rewrite length_slice; lia).
  destruct (le32_un_le32 _ H1) as [E1 R1]. destruct (le32_un_le32 _ H2) as [E2 R2].
  split; [|split; simpl; try done; rewrite length_slice; lia].
  rewrite E1, E2. unfold slice. rewrite drop_0. symmetry.
  etransitivity; [symmetry; apply (take_drop 4 b)|]. f_equal.
  etransitivity; [symmetry; apply (take_drop 4)|]. f_equal. rewrite drop_drop.
  etransitivity; [symmetry; apply (take_drop 64)|]. f_equal. rewrite drop_drop.
  symmetry. apply take_ge. rewrite length_drop. lia.
Qed.

(** ** What the reads return *)

(** The data that arrives before anything else happens, and what happens then. *)
Fixpoint avail (l : list ev) : bytes := match l with EvData d :: r => d ++ avail r | _ => [] end.
Fixpoint after (l : list ev) : list ev := match l with EvData _ :: r => after r | _ => l end.

(** No read returns an empty piece of data: that is how the end of file looks. *)
Definition nonempty_ev (e : ev) : Prop := match e with EvData [] => False | _ => True end.

Lemma avail_after l : after l <> [] -> avail (after l) = [].
Proof. induction l as [|[| | | |] l IH]; simpl; try done. Qed.

Definition rest_of (n : Z) (d : bytes) (r : list ev) : list ev :=
  if bool_decide (drop (Z.to_nat n) d = []) then r else EvData (drop (Z.to_nat n) d) :: r.

Lemma rest_of_ok n d r :
  Forall nonempty_ev r ->
  avail (rest_of n d r) = drop (Z.to_nat n) d ++ avail r /\ after (rest_of n d r) = after r /\
  Forall nonempty_ev (rest_of n d r).
Proof.
  intros Hr. unfold rest_of. case_bool_decide as E; [by rewrite E|]. split; [done|]. split; [done|].
  constructor; [|done]. simpl. by destruct (drop (Z.to_nat n) d).
Qed.

(** The events left after the first [n] bytes have been read, in pieces of any size. *)
Fixpoint cut (n : nat) (l : list ev) : list ev :=
  match n, l with
  | O, _ => l
  | _, EvData d :: r => if (length d <=? n)%nat then cut (n - length d) r else EvData (drop n d) :: r
  | _, _ => l
  end.

Lemma cut_rest_of n d r :
  (n <= length d)%nat -> (n <> 0)%nat -> cut n (EvData d :: r) = rest_of (Z.of_nat n) d r.
Proof.
  intros Hn H0. unfold rest_of. rewrite Nat2Z.id. destruct n as [|n]; [done|]. cbn [cut].
  destruct (Nat.leb_spec (length d) (S n)) as [Hl|Hl].
  - rewrite drop_ge by lia. rewrite bool_decide_true by done. replace (S n - length d)%nat with 0%nat by lia. by destruct r.
  - rewrite bool_decide_false; [done|]. intros E. apply (f_equal length) in E. rewrite length_drop in E. simpl in E. lia.
Qed.

Lemma cut_ok n l :
  Forall nonempty_ev l -> Z.of_nat n <= len (avail l) ->
  avail (cut n l) = drop n (avail l) /\ after (cut n l) = after l /\ Forall nonempty_ev (cut n l).
Proof.
  revert n. induction l as [|e l IH]; intros n Hl Hn; [by destruct n|]. destruct n as [|n]; [done|].
  inversion Hl; subst. destruct e as [d| | | |]; try (unfold len in Hn; simpl in Hn; lia). cbn [cut avail after] in *.
  destruct (Nat.leb_spec (length d) (S n)) as [Hd|Hd].
  - rewrite len_app in Hn. destruct (IH (S n - length d)%nat) as (-> & -> & ?); [done|unfold len in *; lia|].
    by rewrite drop_app_ge by lia.
  - split_and!; [by rewrite drop_app_le by lia|done|]. constructor; [|done]. simpl.
    destruct (drop (S n) d) eqn:E; [|done]. apply (f_equal length) in E. rewrite length_drop in E. simpl in E. lia.
Qed.

Lemma set_in_id s : set_in (s_in s) s = s.
Proof. by destruct s. Qed.

Lemma tread_data n d r s :
  s_in s = EvData d :: r -> tread n s = Ret (Some (take (Z.to_nat n) d)) (set_in (rest_of n d r) s).
Proof. intros H. unfold tread, sys_select, sock_read, gets, bind. by rewrite H; simpl; rewrite H. Qed.

Lemma sock_read_data n d r s :
  s_in s = EvData d :: r -> sock_read n s = Ret (Some (take (Z.to_nat n) d)) (set_in (rest_of n d r) s).
Proof. intros H. unfold sock_read, gets, bind. by rewrite H. Qed.

Section readn.
Context (rd : Z -> M ios (option bytes)).
Context (Hrd : forall n d r s, s_in s = EvData d :: r ->
  rd n s = Ret (Some (take (Z.to_nat n) d)) (set_in (rest_of n d r) s)).

(** Enough data: exactly [n] bytes, in order, however they were cut into pieces. *)
Lemma readn_loop_exact fuel n nleft buf s :
  Forall nonempty_ev (s_in s) -> 0 <= nleft <= len (avail (s_in s)) -> nleft <= Z.of_nat fuel ->
  readn_loop rd fuel n nleft buf s =
    Ret (n, buf ++ take (Z.to_nat nleft) (avail (s_in s))) (set_in (cut (Z.to_nat nleft) (s_in s)) s).
Proof.
  assert (Hend : forall s, Ret (n - 0, buf) s = Ret (n, buf ++ take 0 (avail (s_in s))) (set_in (cut 0 (s_in s)) s)).
  { intros t. rewrite Z.sub_0_r, take_0, app_nil_r. destruct t as [l ? ? ?]. by destruct l. }
  revert nleft buf s Hend. induction fuel as [|f IH]; intros nleft buf s Hend Hne Hn Hf; cbn [readn_loop].
  { replace nleft with 0 by lia. apply Hend. }
  destruct (Z.leb_spec nleft 0) as [H0|H0]; [replace nleft with 0 by lia; apply Hend|].
  destruct (s_in s) as [|[d| | | |e] r] eqn:El; simpl in Hn; try (unfold len in Hn; simpl in Hn; lia).
  rewrite (bind_ret _ _ _ _ _ (Hrd nleft d r s El)). rewrite len_app in Hn.
  inversion Hne as [|? ? Hd Hr]; subst. destruct (rest_of_ok nleft d r Hr) as (Ha & Haf & Hne').
  set (k := Z.to_nat nleft) in *. set (t1 := take k d) in *.
  assert (Hlen : len t1 + len (drop k d) = len d) by (rewrite <- len_app; unfold t1; by rewrite take_drop).
  assert (Hlt : 1 <= len t1 <= nleft).
  { unfold t1, len. rewrite length_take. destruct d as [|c d]; [done|]. simpl. lia. }
  destruct t1 as [|c t] eqn:Et; [unfold len in Hlt; simpl in Hlt; lia|]. rewrite <- Et in *.
  rewrite IH; cbn [s_in set_in]; [..|lia].
  2: { intros u. rewrite Z.sub_0_r, take_0, app_nil_r. destruct u as [l ? ? ?]. by destruct l. }
  2: done.
  2: { rewrite Ha, len_app. fold k. lia. }
  rewrite Ha. fold k. rewrite <- app_assoc. cbn [avail].
  assert (Hk : k = (length t1 + Z.to_nat (nleft - len t1))%nat) by (unfold len in *; lia).
  f_equal.
  - do 2 f_equal. rewrite <- (take_drop k d) at 2. fold t1. rewrite <- app_assoc.
    rewrite Hk at 2. by rewrite take_app_add.
  - unfold set_in. f_equal. cbn [s_out s_wr s_errno]. unfold rest_of. fold k. destruct (Nat.leb_spec (length d) k) as [Hd'|Hd'].
    + rewrite drop_ge by lia. rewrite bool_decide_true by done.
      assert (Et1 : t1 = d) by (unfold t1; by rewrite take_ge by lia). rewrite Et1.
      replace (Z.to_nat (nleft - len d)) with (k - length d)%nat by (unfold len; lia).
      assert (Hk0 : k <> 0%nat) by lia. clearbody k. destruct k as [|k']; [done|]. cbn [cut]. by destruct (Nat.leb_spec (length d) (S k')); [|lia].
    + replace (Z.to_nat (nleft - len t1)) with 0%nat by (unfold t1, len; rewrite length_take; lia).
      rewrite (cut_rest_of k d r) by lia. unfold rest_of. rewrite Nat2Z.id. by destruct (bool_decide _); destruct r.
Qed.
End readn.

(** A read that finds no data: -1 or the end of the stream. *)
Lemma tread_nodata n s :
  avail (s_in s) = [] -> Forall nonempty_ev (s_in s) ->
  exists r s', tread n s = Ret r s' /\ (r = None \/ r = Some []) /\ s_out s' = s_out s /\ s_wr s' = s_wr s.
Proof.
  destruct s as [l o w e]. simpl. intros Ha Hne.
  destruct l as [|[d| | |e'|e'] l]; cbn; try (by eexists _, _; split_and!; eauto).
  inversion Hne. by destruct d.
Qed.

(** Not enough data: what there is, and a count that says so. *)
Lemma treadn_loop_short fuel n nleft buf s :
  Forall nonempty_ev (s_in s) -> len (avail (s_in s)) < nleft <= n -> nleft <= Z.of_nat fuel -> len buf = n - nleft ->
  exists k s', readn_loop tread fuel n nleft buf s = Ret (k, buf ++ avail (s_in s)) s' /\
    (k = len (buf ++ avail (s_in s)) \/ k = -1 /\ buf ++ avail (s_in s) = []) /\ s_out s' = s_out s /\ s_wr s' = s_wr s.
Proof.
  revert nleft buf s. induction fuel as [|f IH]; intros nleft buf s Hne Hn Hf Hb; pose proof (len_nonneg (avail (s_in s))).
  { lia. }
  cbn [readn_loop]. destruct (Z.leb_spec nleft 0); [lia|].
  assert (Hcase : avail (s_in s) = [] \/ exists d r, s_in s = EvData d :: r /\ d <> []).
  { destruct (s_in s) as [|[d| | | |] r]; try (by left). right. exists d, r. inversion Hne. by destruct d. }
  destruct Hcase as [E|(d & r & E & Hd)].
  - destruct (tread_nodata nleft s E Hne) as (x & s' & Ht & Hx & Ho & Hw). rewrite (bind_ret _ _ _ _ _ Ht), E, app_nil_r.
    assert (nleft = n -> buf = []) by (intros ->; destruct buf; [done|unfold len in Hb; simpl in Hb; lia]).
    destruct Hx as [-> | ->].
    + destruct (Z.eqb_spec nleft n); eexists _, _; (split; [done|]); split_and!; auto.
    + eexists _, _. split; [done|]. split_and!; auto.
  - rewrite (bind_ret _ _ _ _ _ (tread_data nleft d r s E)). rewrite E in Hn, Hne, H |- *. cbn [avail] in *.
    rewrite len_app in Hn, H. inversion Hne; subst. pose proof (len_nonneg (avail r)).
    assert (Hall : take (Z.to_nat nleft) d = d) by (apply take_ge; unfold len in *; lia).
    assert (Hrest : rest_of nleft d r = r).
    { unfold rest_of. rewrite drop_ge by (unfold len in *; lia). by rewrite bool_decide_true. }
    rewrite Hall, Hrest. destruct d as [|c d]; [done|]. set (d' := c :: d) in *.
    assert (1 <= len d') by (unfold len, d'; simpl; lia).
    destruct (IH (nleft - len d') (buf ++ d') (set_in r s)) as (k & s' & Hgo & Hk & Ho & Hw); cbn [s_in set_in]; try done; try lia.
    { rewrite len_app. lia. }
    exists k, s'. rewrite app_assoc. split_and!; try done.
Qed.

(** C36: [treadn] reads exactly what it is asked for: when at least [n] bytes arrive
    before a timeout, an error or the end of the stream, it returns [n] and stores the
    first [n] bytes of the stream, in whatever pieces they arrive, and leaves the rest
    unread.  Otherwise it stores what did arrive and returns its length, or -1 when
    nothing arrived. *)
Theorem treadn_exact (n : Z) (s : ios) :
  Forall nonempty_ev (s_in s) -> 0 <= n ->
  if decide (n <= len (avail (s_in s)))
  then exists l', treadn n s = Ret (n, take (Z.to_nat n) (avail (s_in s))) (set_in l' s) /\
    avail l' = drop (Z.to_nat n) (avail (s_in s)) /\ after l' = after (s_in s) /\ Forall nonempty_ev l'
  else exists k s', treadn n s = Ret (k, avail (s_in s)) s' /\
    (k = len (avail (s_in s)) \/ k = -1 /\ avail (s_in s) = []) /\ s_out s' = s_out s /\ s_wr s' = s_wr s.
Proof.
  intros Hne Hn. case_decide as Hd.
  - eexists. split; [apply (readn_loop_exact tread tread_data (Z.to_nat n) n n [] s Hne (conj Hn Hd)); lia|].
    apply cut_ok; [done|lia].
  - apply (treadn_loop_short (Z.to_nat n) n n [] s); [done|lia|lia|by rewrite Z.sub_diag].
Qed.

Lemma treadn_short (n : Z) (s : ios) :
  Forall nonempty_ev (s_in s) -> len (avail (s_in s)) < n ->
  exists k b s', treadn n s = Ret (k, b) s' /\ k <> n /\ s_out s' = s_out s /\ s_wr s' = s_wr s.
Proof.
  intros Hne Hn. pose proof (len_nonneg (avail (s_in s))).
  destruct (treadn_loop_short (Z.to_nat n) n n [] s) as (k & s' & Hgo & Hk & Ho & Hw); [done|lia|lia|by rewrite Z.sub_diag|].
  exists k, (avail (s_in s)), s'. split_and!; try done. simpl in Hk. lia.
Qed.

Lemma treadn_cut (n : Z) (s : ios) :
  Forall nonempty_ev (s_in s) -> 0 <= n <= len (avail (s_in s)) ->
  treadn n s = Ret (n, take (Z.to_nat n) (avail (s_in s))) (set_in (cut (Z.to_nat n) (s_in s)) s).
Proof. intros Hne Hn. apply (readn_loop_exact tread tread_data (Z.to_nat n) n n [] s Hne Hn). lia. Qed.

Lemma readn_exact (n : Z) (s : ios) :
  Forall nonempty_ev (s_in s) -> 0 <= n <= len (avail (s_in s)) ->
  readn n s = Ret (n, take (Z.to_nat n) (avail (s_in s))) (set_in (cut (Z.to_nat n) (s_in s)) s).
Proof. intros Hne Hn. apply (readn_loop_exact sock_read sock_read_data (Z.to_nat n) n n [] s Hne Hn). lia. Qed.

(** A write that makes progress. *)
Definition progress (w : wev) : Prop := match w with WAll => True | WSome n => 0 < n | WErr _ => False end.

(** The outcome of writing the buffer [d] to a socket with output [out]. *)
Definition wrote (d out : bytes) (inp : list ev) (wr : list wev) (r : Z) (s' : ios) : Prop :=
  s_in s' = inp /\ s_out s' = out ++ take (Z.to_nat r) d /\ -1 <= r <= len d /\
  (Forall progress wr -> r = len d /\ Forall progress (s_wr s')).

(** One [write] stores between 0 and all of the bytes, or fails. *)
Lemma sock_write_cases d s :
  (exists e, sock_write d s = Ret (-1) (Ios (s_in s) (s_out s) (tail (s_wr s)) e) /\ ~ Forall progress (s_wr s)) \/
  (exists k, sock_write d s = Ret k (Ios (s_in s) (s_out s ++ take (Z.to_nat k) d) (tail (s_wr s)) (s_errno s)) /\
     0 <= k <= len d /\ (Forall progress (s_wr s) -> 0 < len d -> 0 < k)).
Proof.
  pose proof (len_nonneg d). unfold sock_write. destruct (s_wr s) as [|[|n|e] wr]; simpl.
  - right. exists (len d). rewrite take_ge by (unfold len; lia). split; [done|]. split; [lia|auto].
  - right. exists (len d). rewrite take_ge by (unfold len; lia). split; [done|]. split; [lia|auto].
  - right. eexists. split; [done|]. split; [lia|]. intros Hw. inversion Hw. simpl in *. lia.
  - left. exists e. split; [done|]. intros Hw. by inversion Hw.
Qed.

Lemma Forall_tail {A} (P : A -> Prop) l : Forall P l -> Forall P (tail l).
Proof. by destruct 1. Qed.

(** The loop after the bytes [pre] have gone out. *)
Lemma writen_loop_spec fuel pre ptr s out inp :
  (length ptr <= fuel)%nat -> s_out s = out ++ pre -> s_in s = inp ->
  exists r s', writen_loop fuel (len (pre ++ ptr)) ptr s = Ret r s' /\ wrote (pre ++ ptr) out inp (s_wr s) r s'.
Proof.
  revert pre ptr s. induction fuel as [|f IH]; intros pre ptr s Hl Ho Hin; cbn [writen_loop]; cbv zeta.
  all: pose proof (len_nonneg ptr) as Hp; pose proof (len_nonneg pre) as Hq.
  all: assert (Hpre : take (Z.to_nat (len pre)) (pre ++ ptr) = pre) by (unfold len; rewrite Nat2Z.id; by rewrite take_app_length).
  all: assert (Hall : len (pre ++ ptr) - len ptr = len pre) by (rewrite len_app; lia).
  all: destruct (Z.leb_spec (len ptr) 0) as [H0|H0].
  1,3: exists (len pre), s; rewrite Hall; split; [done|]; unfold wrote; rewrite Hpre, len_app;
    split_and!; try done; try lia; intros Hw; split; [lia|done].
  - unfold len in H0. lia.
  - destruct (sock_write_cases ptr s) as [(e & Hw & Hno)|(k & Hw & Hk & Hpr)]; rewrite (bind_ret _ _ _ _ _ Hw).
    + change (-1 <? 0) with true. cbv iota. rewrite Hall. destruct (Z.eqb_spec (len ptr) (len (pre ++ ptr))) as [Ez|Ez].
      * assert (pre = []) as ->. { rewrite len_app in Ez. destruct pre; [done|]. unfold len in Ez. simpl in Ez. lia. }
        eexists (-1), _. split; [done|]. unfold wrote. simpl. rewrite Ho.
        split_and!; try done; try (unfold len; lia); try (intros Hf; by apply Hno in Hf).
      * eexists (len pre), _. split; [done|]. unfold wrote. rewrite Hpre, len_app.
        split_and!; try done; try lia; try (intros Hf; by apply Hno in Hf).
    + destruct (Z.ltb_spec k 0); [lia|]. destruct (Z.eqb_spec k 0) as [->|Hk0].
      * eexists (len pre), _. rewrite Hall. split; [done|]. unfold wrote. rewrite Hpre, len_app. simpl.
        rewrite app_nil_r. split_and!; try done; try lia. intros Hf. specialize (Hpr Hf H0). lia.
      * assert (Ecut : pre ++ ptr = (pre ++ take (Z.to_nat k) ptr) ++ drop (Z.to_nat k) ptr)
          by (by rewrite <- app_assoc, take_drop).
        destruct (IH (pre ++ take (Z.to_nat k) ptr) (drop (Z.to_nat k) ptr)
          (Ios (s_in s) (s_out s ++ take (Z.to_nat k) ptr) (tail (s_wr s)) (s_errno s))) as (r & s' & Hrun & Hwr).
        { rewrite length_drop. unfold len in *. lia. }
        { simpl. by rewrite Ho, app_assoc. }
        { done. }
        rewrite <- Ecut in Hrun, Hwr. exists r, s'. split; [done|]. destruct Hwr as (W1 & W2 & W3 & W4). simpl in W4.
        split_and!; try done; try lia. intros Hf. by apply W4, Forall_tail.
Qed.

Lemma writen_run (d : bytes) (s : ios) :
  exists r s', writen d s = Ret r s' /\ wrote d (s_out s) (s_in s) (s_wr s) r s'.
Proof. apply (writen_loop_spec (length d) [] d s); [lia|by rewrite app_nil_r|done]. Qed.

(** [writen] always returns; it returns -1 only when nothing was written, and
    otherwise the number of bytes of its buffer that went out, in order; it returns the
    full length when every [write] makes progress. *)
Theorem writen_spec (d : bytes) (s : ios) :
  exists r s', writen d s = Ret r s' /\ wrote d (s_out s) (s_in s) (s_wr s) r s'.
Proof. apply writen_run. Qed.

(** The request survives the spool directory: decoding the 328 bytes that the
    request structure occupies gives the request back, and every 328 bytes decode to a
    request that encodes to them. *)
Theorem printreq_roundtrip (r : printreq) (b : bytes) :
  (req_ok r -> decode_req (encode_req r) = r /\ len (encode_req r) = REQ_SIZE) /\
  (length b = 328%nat -> encode_req (decode_req b) = b /\ req_ok (decode_req b)).
Proof. split; [apply decode_encode_req|apply encode_decode_req]. Qed.

(** ** Witnesses *)

Definition ios_ex : ios := Ios [EvData (bs "he"); EvData (bs "llo wor"); EvTimeout; EvData (bs "ld")] [] [] 0.

Lemma treadn_exact_witness :
  (exists l', treadn 5 ios_ex = Ret (5, take 5 (avail (s_in ios_ex))) (set_in l' ios_ex) /\
    avail l' = drop 5 (avail (s_in ios_ex)) /\ after l' = after (s_in ios_ex) /\ Forall nonempty_ev l') /\
  (exists k s', treadn 20 ios_ex = Ret (k, avail (s_in ios_ex)) s' /\
    (k = len (avail (s_in ios_ex)) \/ k = -1 /\ avail (s_in ios_ex) = []) /\ s_out s' = s_out ios_ex /\ s_wr s' = s_wr ios_ex).
Proof.
  assert (Hne : Forall nonempty_ev (s_in ios_ex)) by (repeat (apply Forall_cons_2; [exact I|]); apply Forall_nil_2).
  split.
  - exact (treadn_exact 5 ios_ex Hne ltac:(lia)).
  - exact (treadn_exact 20 ios_ex Hne ltac:(lia)).
Defined.

Lemma printreq_roundtrip_witness :
  length (replicate 328 NUL) = 328%nat /\ encode_req (decode_req (replicate 328 NUL)) = replicate 328 NUL.
Proof.
  split; [done|]. apply (proj2 (printreq_roundtrip (Req 0 0 [] []) (replicate 328 NUL))). reflexivity.
Defined.
