(* ===== verification/SpoolServer.v ===== *)
(** * The threads of the print daemon that take jobs in

    [client_thread], [build_qonstart], [init_request] and [update_jobno] of
    apue.3e/printer/printd.c and [submit_file] of print.c.  Files of the spool directory
    are a map from names to contents; each call on a file ([creat], [open], [read],
    [write], [unlink]) consumes one entry of a list of outcomes, so that the theorems
    speak of every pattern of disk failures.
    [strerror] is a parameter, as are the contents of uninitialised stack buffers. *)

From Stdlib Require Import Strings.Byte ZArith Lia.
From S2P Require Import Prelude Libc Posix Refine SpoolQueue SpoolIo.
From stdpp Require Import base strings numbers gmap list.
#[local] Open Scope Z_scope.

Definition SPOOLDIR : bytes := bs "/var/spool/printer".
Definition JOBFILE : bytes := bs "jobno".
Definition DATADIR : bytes := bs "data".
Definition REQDIR : bytes := bs "reqs".
Definition FILENMSZ : Z := 64.

Definition slash : byte := "/"%byte.
Definition spool_name (dir file : bytes) : bytes := SPOOLDIR ++ slash :: dir ++ slash :: file.
Definition data_name (jobid : Z) : bytes := spool_name DATADIR (dec jobid).
Definition req_name (jobid : Z) : bytes := spool_name REQDIR (dec jobid).
Definition job_file : bytes := SPOOLDIR ++ slash :: JOBFILE.

(** ** State *)

Inductive fault := FOk | FFail (e : Z) | FShort (n : Z).

Record dstate := Dst {
  d_q : queue; d_w : wlist; d_fs : gmap bytes bytes; d_faults : list fault; d_io : ios
}.

Definition set_fs v d := Dst (d_q d) (d_w d) v (d_faults d) (d_io d).
Definition set_derrno e d := Dst (d_q d) (d_w d) (d_fs d) (d_faults d) (set_serrno e (d_io d)).

Definition on_q {A} (m : M queue A) : M dstate A := fun d =>
  match m (d_q d) with
  | Ret a q => Ret a (Dst q (d_w d) (d_fs d) (d_faults d) (d_io d))
  | Die x q => Die x (Dst q (d_w d) (d_fs d) (d_faults d) (d_io d))
  | Undef w => Undef w
  | NoFuel => NoFuel
  end.

Definition on_w {A} (m : M wlist A) : M dstate A := fun d =>
  match m (d_w d) with
  | Ret a w => Ret a (Dst (d_q d) w (d_fs d) (d_faults d) (d_io d))
  | Die x w => Die x (Dst (d_q d) w (d_fs d) (d_faults d) (d_io d))
  | Undef u => Undef u
  | NoFuel => NoFuel
  end.

Definition on_io {A} (m : M ios A) : M dstate A := fun d =>
  match m (d_io d) with
  | Ret a s => Ret a (Dst (d_q d) (d_w d) (d_fs d) (d_faults d) s)
  | Die x s => Die x (Dst (d_q d) (d_w d) (d_fs d) (d_faults d) s)
  | Undef w => Undef w
  | NoFuel => NoFuel
  end.

Definition next_fault : M dstate fault := fun d =>
  match d_faults d with
  | [] => Ret FOk d
  | f :: r => Ret f (Dst (d_q d) (d_w d) (d_fs d) r (d_io d))
  end.

Definition d_errno : M dstate Z := gets (fun d => s_errno (d_io d)).

(** [creat]: 0 or -1.  The descriptor is known by its file name. *)
Definition sys_creat (name : bytes) : M dstate Z :=
  f <- next_fault ;;
  match f with
  | FFail e => modst (set_derrno e) ;;; ret (-1)
  | _ => modst (fun d => set_fs (<[name := []]> (d_fs d)) d) ;;; ret 0
  end.

(** [write] to a file created by this thread appends. *)
Definition file_append (name d : bytes) : M dstate Z :=
  f <- next_fault ;;
  match f with
  | FFail e => modst (set_derrno e) ;;; ret (-1)
  | FShort n =>
    let k := Z.max 0 (Z.min n (len d)) in
    modst (fun s => set_fs (<[name := default [] (d_fs s !! name) ++ take (Z.to_nat k) d]> (d_fs s)) s) ;;; ret k
  | FOk => modst (fun s => set_fs (<[name := default [] (d_fs s !! name) ++ d]> (d_fs s)) s) ;;; ret (len d)
  end.

(** No caller tests the result of [unlink]: a file that cannot be removed stays. *)
Definition unlink (name : bytes) : M dstate unit :=
  f <- next_fault ;;
  match f with
  | FFail e => modst (set_derrno e)
  | _ => modst (fun s => set_fs (delete name (d_fs s)) s)
  end.

Section server.
Context (strerror : Z -> bytes) (stk_buf stk_msg : bytes).

(** [res.jobid = 0; res.retcode = htonl(e); strncpy(res.msg, strerror(res.retcode), ...);
    writen(...)] *)
Definition send_error (e : Z) : M dstate unit :=
  let rc := htonl e in
  on_io (writen (encode_resp (Resp rc 0 (strncpy (strerror rc) (Z.to_nat MSGLEN_MAX))))) ;;; ret tt.

(** The error number after a call that returned [n] instead of the full count. *)
Definition short_errno (n : Z) : M dstate Z := if n <? 0 then d_errno else ret EIO.

(** Every event is consumed or shortened by a read that returns data. *)
Fixpoint ev_size (l : list ev) : nat :=
  match l with
  | [] => 0
  | EvData d :: r => S (length d) + ev_size r
  | _ :: r => S (ev_size r)
  end.

(** The loop that stores the document: the final flags, or [None] after a write error. *)
Fixpoint store_loop (fuel : nat) (name : bytes) (first : bool) (flags : Z) (buf : bytes) : M dstate (option Z) :=
  match fuel with
  | O => fun _ => NoFuel
  | S f =>
    r <- on_io (tread IOBUFSZ) ;;
    match r with
    | None | Some [] => ret (Some flags)
    | Some d =>
      let buf := splice 0 d buf in
      let flags := if first && negb (strncmp buf (bs "%!PS") 4 =? 0) then Z.lor flags PR_TEXT else flags in
      nw <- file_append name d ;;
      if negb (nw =? len d) then
        e <- short_errno nw ;; send_error e ;;; unlink name ;;; ret None
      else store_loop f name false flags buf
    end
  end.

(** [client_thread] from the control file on: the exit status of the thread. *)
Definition store_req (jobid : Z) (req : printreq) : M dstate Z :=
  fd <- sys_creat (req_name jobid) ;;
  if fd <? 0 then
    e <- d_errno ;; send_error e ;;; unlink (data_name jobid) ;;; ret 1
  else
    nw <- file_append (req_name jobid) (encode_req req) ;;
    if negb (nw =? REQ_SIZE) then
      e <- short_errno nw ;; send_error e ;;; unlink (req_name jobid) ;;; unlink (data_name jobid) ;;; ret 1
    else
      on_io (writen (encode_resp (Resp 0 (htonl jobid)
        (splice 0 (bs "request ID " ++ dec jobid ++ [NUL]) stk_msg)))) ;;;
      on_q (add_job req jobid) ;;;
      ret 0.

(** [client_thread] between the registration of the worker and its cleanup: the exit
    status of the thread. *)
Definition client_body : M dstate Z :=
  nb <- on_io (treadn REQ_SIZE) ;;
  let '(n, b) := nb in
  if negb (n =? REQ_SIZE) then
    e <- short_errno n ;; send_error e ;;; ret 1
  else
    let req := decode_req b in
    let req := Req (htonl (rq_size req)) (htonl (rq_flags req)) (rq_usernm req) (rq_jobnm req) in
    jobid <- on_q get_newjobno ;;
    fd <- sys_creat (data_name jobid) ;;
    if fd <? 0 then
      e <- d_errno ;; send_error e ;;; ret 1
    else
      s <- getst ;;
      fl <- store_loop (S (ev_size (s_in (d_io s)))) (data_name jobid) true (rq_flags req) stk_buf ;;
      match fl with
      | None => ret 1
      | Some flags =>
        let req := Req (rq_size req) flags (rq_usernm req) (rq_jobnm req) in
        store_req jobid req
      end.

(** [pthread_exit] and the end of the thread both run the cleanup handler. *)
Definition client_thread (tid sockfd : Z) : M dstate (Z * option Z) :=
  on_w (add_worker tid sockfd) ;;;
  rc <- client_body ;;
  closed <- on_w (client_cleanup tid) ;;
  ret (rc, closed).

(** ** Job numbers on disk *)

(** [running]: another process holds the lock on the file.  The buffer [name] still holds
    the path behind the bytes that are read into it. *)
Definition init_request (running : bool) : M dstate unit :=
  o <- next_fault ;;
  match o with
  | FFail e => modst (set_derrno e) ;;; die (DQuit "daemon already running")
  | _ =>
    s <- getst ;;
    let f := default [] (d_fs s !! job_file) in
    modst (set_fs (<[job_file := f]> (d_fs s))) ;;;
    if running then die (DQuit "daemon already running")
    else
      r <- next_fault ;;
      match r with
      | FFail e => modst (set_derrno e) ;;; die (DSys "can't read job file")
      | _ =>
        let name := splice 0 (job_file ++ [NUL]) (replicate (Z.to_nat FILENMSZ) NUL) in
        let d := take (Z.to_nat FILENMSZ) f in
        on_q (modst (set_nextjob (if len d =? 0 then 1 else i32 (atol (splice 0 d name)))))
      end
  end.

Definition update_jobno : M dstate unit :=
  n <- on_q (gets nextjob) ;;
  f <- next_fault ;;
  let put b := modst (fun s => set_fs (<[job_file := file_write (default [] (d_fs s !! job_file)) 0 b]> (d_fs s)) s) in
  match f with
  | FFail e => modst (set_derrno e) ;;; die (DSys "can't update job file")
  | FShort k => put (take (Z.to_nat k) (dec n))
  | FOk => put (dec n)
  end.

(** ** Rebuilding the queue *)

(** [entries] is the directory as [readdir] lists it.  A name that does not fit [fname]
    overflows it. *)
Fixpoint build_qonstart (entries : list bytes) : M dstate unit :=
  match entries with
  | [] => ret tt
  | e :: rest =>
    if bool_decide (e = bs ".") || bool_decide (e = bs "..") then build_qonstart rest
    else
      let fname := spool_name REQDIR e in
      if FILENMSZ <=? len fname then undef "store outside fname"
      else
        o <- next_fault ;;
        s <- getst ;;
        match (match o with FFail _ => None | _ => d_fs s !! fname end) with
        | None => build_qonstart rest
        | Some f =>
          r <- next_fault ;;
          let b := match r with
                   | FFail _ => []
                   | FShort n => take (Z.to_nat (Z.min n REQ_SIZE)) f
                   | FOk => take (Z.to_nat REQ_SIZE) f
                   end in
          if negb (len b =? REQ_SIZE) then
            unlink fname ;;; unlink (spool_name DATADIR e) ;;; build_qonstart rest
          else
            on_q (add_job (decode_req b) (i32 (atol e))) ;;; build_qonstart rest
        end
  end.
End server.

(** ** The client *)

(** [submit_file]: [pw_name] is the user's name from the password file, [fname] the name of
    the document.  The request it sends, in network byte order. *)
Definition submit_req (pw_name : option bytes) (fname : bytes) (nbytes : Z) (text : bool) (stk : printreq) : printreq :=
  let usernm := match pw_name with
                | None => splice 0 (bs "unknown" ++ [NUL]) (rq_usernm stk)
                | Some nm => splice 63 [NUL] (splice 0 (strncpy nm 63) (rq_usernm stk))
                end in
  let jobnm := if JOBNM_MAX <=? len fname
               then splice 0 (bs "... " ++ take 251 (drop (Z.to_nat (len fname - JOBNM_MAX + 5)) fname) ++ [NUL]) (rq_jobnm stk)
               else splice 0 (fname ++ [NUL]) (rq_jobnm stk) in
  Req (htonl (u32 nbytes)) (if text then htonl PR_TEXT else 0) usernm jobnm.

(** The loop that sends the document, [IOBUFSZ] bytes at a time. *)
Fixpoint send_loop (fuel : nat) (doc : bytes) : M ios unit :=
  match fuel with
  | O => fun _ => NoFuel
  | S f =>
    match doc with
    | [] => ret tt
    | _ =>
      let d := take (Z.to_nat IOBUFSZ) doc in
      nw <- writen d ;;
      if negb (nw =? len d) then
        (if nw <? 0 then die (DSys "can't write to print server") else die (DQuit "short write to print server"))
      else send_loop f (drop (Z.to_nat IOBUFSZ) doc)
    end
  end.

(** Returns the job number, or the server's message. *)
Definition submit_file (pw_name : option bytes) (fname doc : bytes) (nbytes : Z) (text : bool) (stk : printreq)
    : M ios (Z + bytes) :=
  let req := encode_req (submit_req pw_name fname nbytes text stk) in
  nw <- writen req ;;
  if negb (nw =? REQ_SIZE) then
    (if nw <? 0 then die (DSys "can't write to print server") else die (DQuit "short write to print server"))
  else
    send_loop (S (length doc)) doc ;;;
    nb <- readn RESP_SIZE ;;
    let '(n, b) := nb in
    if negb (n =? RESP_SIZE) then die (DSys "can't read response from server")
    else
      let res := decode_resp b in
      if negb (rs_retcode res =? 0) then ret (inr (cstr (rs_msg res)))
      else ret (inl (htonl (rs_jobid res))).
