(* ===== verification/SpoolAccept.v ===== *)
(** * Theorems on the threads that take jobs in

    A job is stored and queued, or rejected without a trace unless two calls on the disk go
    wrong; the queue and the job counter survive a restart; what the print command sends is
    what the daemon stores.  The operations are those of SpoolServer.v. *)

From Stdlib Require Import Strings.Byte ZArith Lia.
From S2P Require Import Prelude Libc Posix Refine SpoolQueue SpoolIo SpoolServer.
From stdpp Require Import base strings numbers gmap list.
#[local] Open Scope Z_scope.

(** ** Frames *)

(** The number of calls on the disk that go wrong. *)
Definition faulty (f : fault) : nat := match f with FOk => 0 | _ => 1 end.
Definition bad (l : list fault) : nat := sum_list_with faulty l.

(** [d'] differs from [d] in the files, in the input and perhaps in the error number. *)
Record quiet (d d' : dstate) (fs : gmap bytes bytes) : Prop := Quiet {
  qt_q : d_q d' = d_q d; qt_w : d_w d' = d_w d; qt_fs : d_fs d' = fs;
  qt_out : s_out (d_io d') = s_out (d_io d); qt_wr : s_wr (d_io d') = s_wr (d_io d);
  qt_bad : (bad (d_faults d') <= bad (d_faults d))%nat
}.

(** ... and in what was sent. *)
Record noisy (d d' : dstate) (fs : gmap bytes bytes) : Prop := Noisy {
  ns_q : d_q d' = d_q d; ns_w : d_w d' = d_w d; ns_fs : d_fs d' = fs;
  ns_bad : (bad (d_faults d') <= bad (d_faults d))%nat
}.

(** The files [ns] are removed: all of them when at most [k] calls go wrong.  No other
    file changes. *)
Record dropped (k : nat) (d d' : dstate) (ns : list bytes) : Prop := Dropped {
  dr_q : d_q d' = d_q d; dr_w : d_w d' = d_w d;
  dr_fs : forall n, n ∉ ns -> d_fs d' !! n = d_fs d !! n;
  dr_clean : (bad (d_faults d) <= k)%nat -> d_fs d' = foldr delete (d_fs d) ns;
  dr_some : forall n f, d_fs d' !! n = Some f -> d_fs d !! n = Some f;
  dr_bad : (bad (d_faults d') <= bad (d_faults d))%nat
}.

Lemma noisy_trans d1 d2 d3 f1 f2 : noisy d1 d2 f1 -> noisy d2 d3 f2 -> noisy d1 d3 f2.
Proof. intros [] []. split; try congruence. lia. Qed.

Lemma quiet_noisy d d' f : quiet d d' f -> noisy d d' f.
Proof. intros []. by split. Qed.

Lemma quiet_trans d1 d2 d3 f1 f2 : quiet d1 d2 f1 -> quiet d2 d3 f2 -> quiet d1 d3 f2.
Proof. intros [] []. split; try congruence. lia. Qed.

Lemma dropped_app k d1 d2 d3 ns ms :
  dropped k d1 d2 ns -> dropped k d2 d3 ms -> dropped k d1 d3 (ms ++ ns).
Proof.
  intros [Q1 W1 F1 C1 S1 B1] [Q2 W2 F2 C2 S2 B2]. split; try congruence; [| |eauto|lia].
  - intros n Hn. apply not_elem_of_app in Hn as [Hm Hn]. by rewrite F2, F1.
  - intros Hb. rewrite C2, C1, foldr_app by lia. done.
Qed.

(** The error exits of a thread: after a fault the files [ns] of its job are removed; a
    second fault, in [unlink], may leave some of them. *)
Record removed (d d' : dstate) (ns : list bytes) : Prop := Removed {
  rm_q : d_q d' = d_q d; rm_w : d_w d' = d_w d;
  rm_fs : forall n, n ∉ ns -> d_fs d' !! n = d_fs d !! n;
  rm_clean : (bad (d_faults d) <= 1)%nat -> d_fs d' = foldr delete (d_fs d) ns
}.

Lemma same_outside (m1 m2 : gmap bytes bytes) ns n :
  foldr delete m1 ns = foldr delete m2 ns -> n ∉ ns -> m1 !! n = m2 !! n.
Proof. intros E Hn. rewrite <- (lookup_foldr_delete_not_elem_of m1 ns n Hn), E. by apply lookup_foldr_delete_not_elem_of. Qed.

Lemma failed_dropped d d1 d2 fs1 ns :
  noisy d d1 fs1 -> (bad (d_faults d1) < bad (d_faults d))%nat -> foldr delete fs1 ns = foldr delete (d_fs d) ns ->
  dropped 0 d1 d2 ns -> removed d d2 ns.
Proof.
  intros [Q1 W1 F1 _] Hb E [Q2 W2 F2 C2 _ _]. subst fs1. split; try congruence.
  - intros n Hn. rewrite F2 by done. by apply (same_outside _ _ ns).
  - intros H. rewrite C2 by lia. done.
Qed.

Lemma removed_after d d1 d2 ns :
  d_q d1 = d_q d -> d_w d1 = d_w d -> (bad (d_faults d1) <= bad (d_faults d))%nat ->
  foldr delete (d_fs d1) ns = foldr delete (d_fs d) ns -> removed d1 d2 ns -> removed d d2 ns.
Proof.
  intros Q1 W1 Hb E [Q2 W2 F2 C2]. split; try congruence.
  - intros n Hn. rewrite F2 by done. by apply (same_outside _ _ ns).
  - intros H. rewrite C2 by lia. done.
Qed.

Lemma sys_creat_cases name d :
  (exists d', sys_creat name d = Ret 0 d' /\ quiet d d' (<[name := []]> (d_fs d)) /\ s_in (d_io d') = s_in (d_io d)) \/
  (exists d', sys_creat name d = Ret (-1) d' /\ noisy d d' (d_fs d) /\ (bad (d_faults d') < bad (d_faults d))%nat).
Proof.
  destruct d as [q w fs fl io]. unfold sys_creat, next_fault, bind, modst, ret. simpl.
  destruct fl as [|[|e|n] fl]; simpl; [left|left|right|left]; (eexists; split; [done|]); split; try by (split; simpl; auto; lia).
  simpl. lia.
Qed.

Lemma delete_insert_other (m : gmap bytes bytes) i x : delete i (<[i := x]> m) = delete i m.
Proof. apply delete_insert_eq. Qed.

Lemma file_append_cases name x d :
  (exists d', file_append name x d = Ret (len x) d' /\
     quiet d d' (<[name := default [] (d_fs d !! name) ++ x]> (d_fs d)) /\ s_in (d_io d') = s_in (d_io d)) \/
  (exists k d' fs', file_append name x d = Ret k d' /\ k <> len x /\ noisy d d' fs' /\
     (bad (d_faults d') < bad (d_faults d))%nat /\ delete name fs' = delete name (d_fs d) /\
     (d_fs d !! name = Some [] -> x <> [] -> forall f, fs' !! name = Some f -> len f < len x)).
Proof.
  destruct d as [q w fs fl io]. unfold file_append, next_fault, bind, modst, ret. simpl.
  pose proof (len_nonneg x). destruct fl as [|[|e|n] fl]; simpl.
  - left. eexists. split; [done|]. by split.
  - left. eexists. split; [done|]. by split.
  - right. eexists (-1), _, _. split; [done|]. split; [lia|]. split; [split; simpl; auto; lia|]. split; [simpl; lia|].
    split; [done|]. intros -> Hx f [= <-]. destruct x; [done|]. unfold len. simpl. lia.
  - set (k := Z.max 0 (Z.min n (len x))). destruct (Z.eq_dec k (len x)) as [->|Hk].
    + left. rewrite take_ge by (unfold len; lia). eexists. split; [done|]. split; [split; simpl; auto; lia|done].
    + right. eexists k, _, _. split; [done|]. split; [done|]. split; [split; simpl; auto; lia|]. split; [simpl; lia|].
      split; [simpl; apply delete_insert_other|]. intros Hn _ f. simpl. rewrite Hn, lookup_insert_eq. intros [= <-].
      simpl. unfold len. rewrite length_take. unfold len in *. lia.
Qed.

Lemma short_errno_run k d : exists e, short_errno k d = Ret e d.
Proof. unfold short_errno, d_errno, gets. destruct (k <? 0); eexists; done. Qed.

Lemma unlink_run name d : d_faults d = [] -> unlink name d = Ret tt (set_fs (delete name (d_fs d)) d).
Proof. intros H. unfold unlink, next_fault, bind, modst. by rewrite H. Qed.

Lemma unlink_dropped name d : exists d', unlink name d = Ret tt d' /\ dropped 0 d d' [name].
Proof.
  destruct d as [q w fs fl io]. unfold unlink, next_fault, bind, modst.
  destruct fl as [|[|e|n] fl]; simpl; (eexists; split; [reflexivity|]); split; simpl; try done; try lia.
  all: try (intros m Hm; apply lookup_delete_ne; set_solver).
  all: intros m f Hf; by apply lookup_delete_Some in Hf as [_ ?].
Qed.

Lemma on_io_run {A B} (m : M ios A) (f : A -> M dstate B) d a s' :
  m (d_io d) = Ret a s' -> bind (on_io m) f d = f a (Dst (d_q d) (d_w d) (d_fs d) (d_faults d) s').
Proof. intros H. unfold bind, on_io. by rewrite H. Qed.

Lemma on_q_run {A B} (m : M queue A) (f : A -> M dstate B) d a q' :
  m (d_q d) = Ret a q' -> bind (on_q m) f d = f a (Dst q' (d_w d) (d_fs d) (d_faults d) (d_io d)).
Proof. intros H. unfold bind, on_q. by rewrite H. Qed.

Lemma htonl_u32 v : u32_ok (htonl v).
Proof. unfold htonl. by apply le32_un_le32. Qed.

(** The part of a stream that decides the type of the document: its first piece, in the
    first bytes of the buffer. *)
Definition doc_flags (flags : Z) (stk : bytes) (l : list ev) : Z :=
  match l with
  | EvData d :: _ =>
    if strncmp (splice 0 (take (Z.to_nat IOBUFSZ) d) stk) (bs "%!PS") 4 =? 0 then flags else Z.lor flags PR_TEXT
  | _ => flags
  end.

Section server.
Context (strerror : Z -> bytes) (stk_buf stk_msg : bytes).

Lemma send_error_run e d : exists d', send_error strerror e d = Ret tt d' /\ noisy d d' (d_fs d).
Proof.
  unfold send_error. set (b := encode_resp _). destruct (writen_run b (d_io d)) as (r & s' & Hw & _).
  rewrite (on_io_run _ _ _ _ _ Hw). eexists. split; [done|]. by split.
Qed.

(** The error exits: report, remove the files of the job. *)
Lemma send_error_then {A} (k : M dstate A) e d :
  exists d', (send_error strerror e ;;; k) d = k d' /\ noisy d d' (d_fs d).
Proof.
  destruct (send_error_run e d) as (d' & H & Hn). exists d'. by rewrite (bind_ret _ _ _ _ _ H).
Qed.

Lemma short_error_then {A} (k : M dstate A) n d :
  exists d', (e <- short_errno n ;; send_error strerror e ;;; k) d = k d' /\ noisy d d' (d_fs d).
Proof.
  destruct (short_errno_run n d) as (e & H). rewrite (bind_ret _ _ _ _ _ H). apply send_error_then.
Qed.

Lemma ev_size_rest_of d r :
  d <> [] -> (ev_size (rest_of IOBUFSZ d r) < ev_size (EvData d :: r))%nat.
Proof.
  intros Hd. unfold rest_of. case_bool_decide; simpl; [lia|]. rewrite length_drop.
  assert (length d <> 0)%nat by (by destruct d). change (Z.to_nat IOBUFSZ) with (Z.to_nat 8192). lia.
Qed.

(** The loop stores the data that arrives, or removes the file after a disk error. *)
Lemma store_loop_ok fuel name first flags buf d old :
  (ev_size (s_in (d_io d)) < fuel)%nat -> Forall nonempty_ev (s_in (d_io d)) -> d_fs d !! name = Some old ->
  (exists d', store_loop strerror fuel name first flags buf d =
       Ret (Some (if first then doc_flags flags buf (s_in (d_io d)) else flags)) d' /\
     quiet d d' (<[name := old ++ avail (s_in (d_io d))]> (d_fs d))) \/
  ((0 < bad (d_faults d))%nat /\ exists d', store_loop strerror fuel name first flags buf d = Ret None d' /\
     removed d d' [name]).
Proof.
  revert first flags buf d old. induction fuel as [|f IH]; intros first flags buf d old Hf Hne Hold; [lia|].
  cbn [store_loop].
  assert (Hcase : avail (s_in (d_io d)) = [] /\ doc_flags flags buf (s_in (d_io d)) = flags \/
    exists p r, s_in (d_io d) = EvData p :: r /\ p <> []).
  { destruct (s_in (d_io d)) as [|[p| | | |] r]; try (by left). right. exists p, r. inversion Hne. by destruct p. }
  destruct Hcase as [[E Ef]|(p & r & E & Hp)].
  { left. destruct (tread_nodata IOBUFSZ (d_io d) E Hne) as (x & s' & Ht & Hx & Ho & Hw).
    rewrite (on_io_run _ _ _ _ _ Ht), E, app_nil_r, Ef. exists (Dst (d_q d) (d_w d) (d_fs d) (d_faults d) s').
    split; [by destruct Hx as [-> | ->]; destruct first|]. split; try done. simpl. by rewrite insert_id. }
  rewrite (on_io_run _ _ _ _ _ (tread_data IOBUFSZ p r (d_io d) E)). set (d1 := Dst _ _ _ _ _).
  set (t := take (Z.to_nat IOBUFSZ) p).
  assert (Ht : t <> []) by (unfold t; change (Z.to_nat IOBUFSZ) with (S (Z.to_nat 8191)); by destruct p).
  destruct t as [|c t'] eqn:Et; [done|]. rewrite <- Et. clear Ht. cbv zeta. set (fl := if first && _ then _ else _).
  assert (Hfl : (if first then doc_flags flags buf (s_in (d_io d)) else flags) = fl).
  { unfold fl, doc_flags. rewrite E. fold t. destruct first; [|done]. cbn [andb]. by destruct (_ =? 0). }
  assert (Hr : Forall nonempty_ev r) by (rewrite E in Hne; by inversion Hne).
  destruct (rest_of_ok IOBUFSZ p r Hr) as (Ha & _ & Hne').
  destruct (file_append_cases name t d1) as [(d2 & Hrun & Hq & Hin)|(k & d2 & fs' & Hrun & Hk & Hn & Hflt & Hdel & _)];
    rewrite (bind_ret _ _ _ _ _ Hrun).
  - rewrite Z.eqb_refl. cbn [negb]. change (d_fs d1) with (d_fs d) in Hq. rewrite Hold in Hq. simpl in Hq.
    destruct (IH false fl (splice 0 t buf) d2 (old ++ t)) as [(d3 & Hgo & Hq3)|(Hflt & d3 & Hgo & Hn3)].
    + rewrite Hin. pose proof (ev_size_rest_of p r Hp). rewrite E in Hf. simpl in *. lia.
    + by rewrite Hin.
    + rewrite (qt_fs _ _ _ Hq). by rewrite lookup_insert_eq.
    + left. exists d3. rewrite Hfl. split; [exact Hgo|].
      assert (Hq1 : quiet d d1 (d_fs d)) by by split.
      eapply quiet_trans in Hq; [|exact Hq1]. eapply quiet_trans in Hq3; [|exact Hq]. destruct Hq3 as [X1 X2 X3 X4 X5 X6].
      split; try done. rewrite X3, (qt_fs _ _ _ Hq), insert_insert_eq, Hin. simpl. rewrite Ha, E. simpl.
      f_equal. rewrite <- app_assoc. f_equal. rewrite app_assoc. f_equal. apply take_drop.
    + right. pose proof (qt_bad _ _ _ Hq) as Hb. change (d_faults d1) with (d_faults d) in Hb. split; [lia|]. exists d3. split; [exact Hgo|].
      destruct Hq as [Y1 Y2 Y3 _ _ _]. eapply (removed_after _ d2); [done|done|lia| |exact Hn3]. rewrite Y3. simpl.
      apply delete_insert_other.
  - right. change (d_faults d1) with (d_faults d) in Hflt. split; [lia|]. destruct (Z.eqb_spec k (len t)); [done|]. cbn [negb].
    destruct (short_error_then (unlink name ;;; ret (@None Z)) k d2) as (d3 & -> & Hn3).
    destruct (unlink_dropped name d3) as (d4 & Hu & Hd4). rewrite (bind_ret _ _ _ _ _ Hu). exists d4. split; [done|].
    assert (N1 : noisy d d1 (d_fs d)) by by split.
    apply (failed_dropped _ _ _ _ _ (noisy_trans _ _ _ _ _ N1 (noisy_trans _ _ _ _ _ Hn Hn3))); [|by rewrite (ns_fs _ _ _ Hn)|exact Hd4].
    pose proof (ns_bad _ _ _ Hn3). lia.
Qed.

(** The request and the document in a stream of events, and the job they make. *)
Definition hdr_req (l : list ev) : printreq := decode_req (take (Z.to_nat REQ_SIZE) (avail l)).
Definition document (l : list ev) : bytes := drop (Z.to_nat REQ_SIZE) (avail l).
Definition stored_req (l : list ev) : printreq :=
  Req (htonl (rq_size (hdr_req l)))
      (doc_flags (htonl (rq_flags (hdr_req l))) stk_buf (cut (Z.to_nat REQ_SIZE) l))
      (rq_usernm (hdr_req l)) (rq_jobnm (hdr_req l)).
Definition spooled (jobid : Z) (l : list ev) (fs : gmap bytes bytes) : gmap bytes bytes :=
  <[req_name jobid := encode_req (stored_req l)]> (<[data_name jobid := document l]> fs).
Definition accepted_resp (jobid : Z) : bytes :=
  encode_resp (Resp 0 (htonl jobid) (splice 0 (bs "request ID " ++ dec jobid ++ [NUL]) stk_msg)).

Lemma data_req_ne i j : data_name i <> req_name j.
Proof. unfold data_name, req_name, spool_name. intros E. apply app_inv_head in E. discriminate E. Qed.

Lemma len_encode_stored l : REQ_SIZE <= len (avail l) -> len (encode_req (stored_req l)) = REQ_SIZE.
Proof.
  intros H. unfold encode_req, stored_req, hdr_req. cbn [rq_size rq_flags rq_usernm rq_jobnm].
  unfold decode_req. cbn [rq_usernm rq_jobnm].
  assert (length (take (Z.to_nat REQ_SIZE) (avail l)) = 328%nat) by (rewrite length_take; unfold len, REQ_SIZE in *; lia).
  unfold len. rewrite !length_app, !length_slice by lia. done.
Qed.

Lemma stored_req_ok l : REQ_SIZE <= len (avail l) -> req_ok (stored_req l).
Proof.
  intros H. destruct (encode_decode_req (take (Z.to_nat REQ_SIZE) (avail l))) as [_ [H1 H2 H3 H4]].
  { rewrite length_take. unfold len, REQ_SIZE in *. lia. }
  split; [apply htonl_u32| |exact H3|exact H4]. unfold stored_req. cbn [rq_flags].
  set (f := htonl _). assert (Hf : u32_ok f) by (apply htonl_u32). unfold doc_flags.
  destruct (cut _ l) as [|[p| | | |] r]; try done. destruct (_ =? 0); [done|]. unfold u32_ok, PR_TEXT in *.
  split; [apply Z.lor_nonneg; lia|].
  assert (Hz : Z.lor f 1 = 0 \/ 0 < Z.lor f 1) by (pose proof (proj2 (Z.lor_nonneg f 1)); lia).
  destruct Hz as [-> |Hz]; [done|]. apply Z.log2_lt_pow2; [done|]. rewrite Z.log2_lor by lia.
  destruct (Z.eq_dec f 0) as [-> |Hf0]; [done|]. apply Z.max_lub_lt; [|done]. apply Z.log2_lt_pow2; lia.
Qed.

(** [client_thread] either rejects the job or stores and queues it.  A rejected job leaves
    no file, or, when a second call on the disk goes wrong, a part of its own files, never
    a complete request. *)
Definition rejected (d d' : dstate) (xs : list (Z * entry)) : Prop :=
  let j := nextjob (d_q d) in
  qrep (d_q d') xs /\ d_w d' = d_w d /\
  ((bad (d_faults d) <= 1)%nat -> d_fs d' = d_fs d) /\
  (forall n, n ∉ [data_name j; req_name j] -> d_fs d' !! n = d_fs d !! n) /\
  (forall f, d_fs d' !! req_name j = Some f -> len f < REQ_SIZE).
Definition queued (d d' : dstate) (xs : list (Z * entry)) : Prop :=
  let j := nextjob (d_q d) in let l := s_in (d_io d) in
  d_fs d' = spooled j l (d_fs d) /\ d_w d' = d_w d /\
  qrep (d_q d') (xs ++ [(q_brk (d_q d), (j, stored_req l))]) /\
  (Forall progress (s_wr (d_io d)) -> s_out (d_io d') = s_out (d_io d) ++ accepted_resp j).

Record can_accept (d : dstate) (xs : list (Z * entry)) : Prop := CanAccept {
  ca_ev : Forall nonempty_ev (s_in (d_io d));
  ca_q : qrep (d_q d) xs; ca_next : 1 <= nextjob (d_q d) < INT_MAX;
  ca_data : d_fs d !! data_name (nextjob (d_q d)) = None;
  ca_req : d_fs d !! req_name (nextjob (d_q d)) = None
}.

Lemma qrep_nextjob q xs n : qrep q xs -> qrep (set_nextjob n q) xs.
Proof. intros [? ? ?]. by split. Qed.

(** The second half of the thread: the control file, the answer and the queue. *)
Lemma store_req_ok d fs j req xs doc :
  d_fs d = <[data_name j := doc]> fs -> fs !! data_name j = None -> fs !! req_name j = None ->
  qrep (d_q d) xs -> len (encode_req req) = REQ_SIZE ->
  (exists d', store_req strerror stk_msg j req d = Ret 0 d' /\ d_fs d' = <[req_name j := encode_req req]> (d_fs d) /\ d_w d' = d_w d /\
     qrep (d_q d') (xs ++ [(q_brk (d_q d), (j, req))]) /\
     (Forall progress (s_wr (d_io d)) -> s_out (d_io d') = s_out (d_io d) ++ accepted_resp j)) \/
  ((0 < bad (d_faults d))%nat /\ exists d', store_req strerror stk_msg j req d = Ret 1 d' /\
     removed d d' [data_name j; req_name j] /\ (forall f, d_fs d' !! req_name j = Some f -> len f < REQ_SIZE)).
Proof.
  intros Hfs Hd Hr Hq Hl. unfold store_req. pose proof (data_req_ne j j) as Hne.
  assert (Hnone : d_fs d !! req_name j = None) by (rewrite Hfs; by rewrite lookup_insert_ne).
  destruct (sys_creat_cases (req_name j) d) as [(d1 & Hrun & Q1 & _)|(d1 & Hrun & N1 & Hf)]; rewrite (bind_ret _ _ _ _ _ Hrun).
  2: { right. split; [lia|]. change (-1 <? 0) with true. cbv iota.
    rewrite (bind_ret _ _ _ _ _ (eq_refl : d_errno d1 = Ret _ d1)).
    destruct (send_error_then (unlink (data_name j) ;;; ret 1) (s_errno (d_io d1)) d1) as (d2 & -> & N2).
    destruct (unlink_dropped (data_name j) d2) as (d3 & Hu & D3). rewrite (bind_ret _ _ _ _ _ Hu). exists d3. split; [done|].
    pose proof (noisy_trans _ _ _ _ _ N1 N2) as N. rewrite (ns_fs _ _ _ N1) in N.
    assert (E2 : d_fs d2 !! req_name j = None) by (by rewrite (ns_fs _ _ _ N)).
    split; [|intros f Hf3; apply (dr_some _ _ _ _ D3) in Hf3; congruence].
    apply (failed_dropped _ _ _ _ _ N); [pose proof (ns_bad _ _ _ N2); lia|done|]. destruct D3 as [X1 X2 X3 X4 X5 X6]. split; try done.
    - intros n Hn. apply X3. set_solver.
    - intros Hb. rewrite X4 by done. simpl. by rewrite (delete_id _ (req_name j)). }
  change (0 <? 0) with false. cbv iota.
  destruct (file_append_cases (req_name j) (encode_req req) d1) as [(d2 & Hrun2 & Q2 & _)|(k & d2 & fs2 & Hrun2 & Hk & N2 & Hf & Hdel & Hsh)];
    rewrite (bind_ret _ _ _ _ _ Hrun2); rewrite Hl in *.
  - left. rewrite Z.eqb_refl. cbn [negb]. rewrite (qt_fs _ _ _ Q1), lookup_insert_eq, insert_insert_eq in Q2. simpl in Q2.
    pose proof (quiet_trans _ _ _ _ _ Q1 Q2) as [X1 X2 X3 X4 X5 _].
    destruct (writen_run (accepted_resp j) (d_io d2)) as (w & s2 & Hw & _ & Ho & _ & Hp).
    rewrite (on_io_run _ _ _ _ _ Hw). rewrite <- X1 in Hq. destruct (add_job_ok (d_q d2) xs req j Hq) as (q3 & Ha & Hq3 & _).
    erewrite on_q_run; [|exact Ha]. eexists. split; [done|]. simpl. rewrite X1 in Hq3. split_and!; try done.
    rewrite Ho, X4, X5 in *. intros Hpr. destruct (Hp Hpr) as [-> _]. f_equal. apply take_ge. unfold len. lia.
  - right. pose proof (qt_bad _ _ _ Q1). split; [lia|]. destruct (Z.eqb_spec k REQ_SIZE); [done|]. cbn [negb].
    destruct (short_error_then (unlink (req_name j) ;;; unlink (data_name j) ;;; ret 1) k d2) as (d3 & -> & N3).
    destruct (unlink_dropped (req_name j) d3) as (d4 & Hu & D4). rewrite (bind_ret _ _ _ _ _ Hu).
    destruct (unlink_dropped (data_name j) d4) as (d5 & Hu5 & D5). rewrite (bind_ret _ _ _ _ _ Hu5).
    exists d5. split; [done|]. pose proof (dropped_app _ _ _ _ _ _ D4 D5) as D.
    pose proof (noisy_trans _ _ _ _ _ (quiet_noisy _ _ _ Q1) (noisy_trans _ _ _ _ _ N2 N3)) as N. split.
    + apply (failed_dropped _ _ _ _ _ N); [pose proof (ns_bad _ _ _ N3); lia| |exact D]. simpl.
      by rewrite (ns_fs _ _ _ N2), Hdel, (qt_fs _ _ _ Q1), delete_insert_other.
    + intros f Hf5. apply (dr_some _ _ _ _ D) in Hf5. rewrite (ns_fs _ _ _ N3), (ns_fs _ _ _ N2) in Hf5.
      apply Hsh; [by rewrite (qt_fs _ _ _ Q1), lookup_insert_eq| |done]. by intros E.
Qed.

(** A thread that removes its files leaves them as they were before. *)
Lemma removed_rejected d d1 d' xs :
  let j := nextjob (d_q d) in
  removed d1 d' [data_name j; req_name j] -> qrep (d_q d1) xs -> d_w d1 = d_w d ->
  (bad (d_faults d1) <= bad (d_faults d))%nat -> delete (data_name j) (delete (req_name j) (d_fs d1)) = d_fs d ->
  d_fs d !! data_name j = None -> d_fs d !! req_name j = None ->
  (forall f, d_fs d' !! req_name j = Some f -> len f < REQ_SIZE) -> rejected d d' xs.
Proof.
  intros j [Q W F C] Hq Hw Hb E Hd Hr Hs. split_and!; [by rewrite Q|congruence| | |done].
  - intros H. rewrite C by lia. exact E.
  - intros n Hn. rewrite F by done. apply (same_outside _ _ [data_name j; req_name j]); [|done]. simpl.
    by rewrite E, (delete_id _ (req_name j)), (delete_id _ (data_name j)).
Qed.

Lemma client_body_cases d xs :
  can_accept d xs ->
  (exists d', client_body strerror stk_buf stk_msg d = Ret 0 d' /\ queued d d' xs /\ REQ_SIZE <= len (avail (s_in (d_io d)))) \/
  (((0 < bad (d_faults d))%nat \/ len (avail (s_in (d_io d))) < REQ_SIZE) /\
   exists d', client_body strerror stk_buf stk_msg d = Ret 1 d' /\ rejected d d' xs).
Proof.
  intros [Hev Hq Hn Hdn Hrn]. set (l := s_in (d_io d)) in *. set (j := nextjob (d_q d)) in *. unfold client_body.
  assert (Hsame : forall d', qrep (d_q d') xs -> d_w d' = d_w d -> d_fs d' = d_fs d -> rejected d d' xs).
  { intros d' H1 H2 H3. unfold rejected. fold j. rewrite H3. split_and!; try done. intros f. by rewrite Hrn. }
  destruct (Z_lt_le_dec (len (avail l)) REQ_SIZE) as [Hlt|Hge].
  { right. split; [by right|]. destruct (treadn_short REQ_SIZE (d_io d) Hev Hlt) as (k & b & s' & Ht & Hk & _).
    rewrite (on_io_run _ _ _ _ _ Ht). cbv iota beta. destruct (Z.eqb_spec k REQ_SIZE); [done|]. cbn [negb].
    destruct (short_error_then (ret 1) k (Dst (d_q d) (d_w d) (d_fs d) (d_faults d) s')) as (d2 & -> & [X1 X2 X3 _]).
    eexists. split; [done|]. simpl in *. apply Hsame; [by rewrite X1|done|done]. }
  rewrite (on_io_run _ _ _ _ _ (treadn_cut REQ_SIZE (d_io d) Hev (conj (ltac:(discriminate) : 0 <= REQ_SIZE) Hge))). cbv iota beta. fold l.
  rewrite Z.eqb_refl. cbn [negb]. cbv zeta. fold (hdr_req l). set (d1 := Dst _ _ _ _ _).
  erewrite on_q_run; [|apply get_newjobno_run; exact Hn]. fold j. set (d2 := Dst _ _ _ _ _).
  destruct (cut_ok (Z.to_nat REQ_SIZE) l Hev) as (Hav & _ & Hev2); [unfold REQ_SIZE in *; lia|].
  destruct (sys_creat_cases (data_name j) d2) as [(d3 & Hrun & Q3 & Hin3)|(d3 & Hrun & N3 & Hf)]; rewrite (bind_ret _ _ _ _ _ Hrun).
  2: { right. change (d_faults d2) with (d_faults d) in Hf. split; [left; lia|]. change (-1 <? 0) with true. cbv iota.
    rewrite (bind_ret _ _ _ _ _ (eq_refl : d_errno d3 = Ret _ d3)).
    destruct (send_error_then (ret 1) (s_errno (d_io d3)) d3) as (d4 & -> & N4). eexists. split; [done|].
    pose proof (noisy_trans _ _ _ _ _ N3 N4) as [X1 X2 X3 _]. apply Hsame; [rewrite X1; by apply qrep_nextjob|by rewrite X2|].
    by rewrite X3, (ns_fs _ _ _ N3). }
  change (0 <? 0) with false. cbv iota. rewrite (bind_ret _ _ _ _ _ (eq_refl : getst d3 = Ret d3 d3)).
  cbn [rq_size rq_flags rq_usernm rq_jobnm].
  assert (Hin : s_in (d_io d3) = cut (Z.to_nat REQ_SIZE) l) by (rewrite Hin3; done).
  pose proof (qt_fs _ _ _ Q3) as Hfs3. change (d_fs d2) with (d_fs d) in Hfs3.
  pose proof (qt_bad _ _ _ Q3) as Hb3. change (d_faults d2) with (d_faults d) in Hb3.
  destruct (store_loop_ok (S (ev_size (s_in (d_io d3)))) (data_name j) true (htonl (rq_flags (hdr_req l))) stk_buf d3 [])
    as [(d4 & Hgo & Q4)|(Hf & d4 & Hgo & R4)]; [lia|by rewrite Hin|by rewrite Hfs3, lookup_insert_eq|..];
    rewrite (bind_ret _ _ _ _ _ Hgo).
  2: { right. split; [left; lia|]. eexists. split; [done|]. destruct Q3 as [Y1 Y2 _ _ _ _].
    assert (Hr3 : d_fs d3 !! req_name j = None) by (rewrite Hfs3, lookup_insert_ne; [done|apply data_req_ne]).
    destruct R4 as [X1 X2 X3 X4]. apply (removed_rejected d d3); fold j; try done.
    - split; try done; [intros n Hnn; apply X3; set_solver|]. intros H. rewrite X4 by done. simpl. by rewrite (delete_id _ (req_name j)).
    - rewrite Y1. by apply qrep_nextjob.
    - rewrite (delete_id _ (req_name j)), Hfs3 by done. by apply delete_insert_id.
    - intros f. rewrite X3, Hr3; [done|]. apply not_elem_of_cons. split; [intros E; by apply (data_req_ne j j)|set_solver]. }
  cbv beta iota. pose proof (qt_fs _ _ _ Q4) as Hfs4. rewrite Hfs3, insert_insert_eq, Hin, Hav in Hfs4. simpl in Hfs4.
  fold (document l) in Hfs4. rewrite Hin. fold (stored_req l).
  pose proof (quiet_trans _ _ _ _ _ Q3 Q4) as [Y1 Y2 _ Y4 Y5 Y6]. change (d_faults d2) with (d_faults d) in Y6.
  destruct (store_req_ok d4 (d_fs d) j (stored_req l) xs (document l)) as
    [(d5 & Hgo5 & F5 & W5 & R5 & O5)|(Hf & d5 & Hgo5 & R5 & S5)]; try done.
  { rewrite Y1. by apply qrep_nextjob. }
  { by apply len_encode_stored. }
  - left. exists d5. split; [exact Hgo5|]. split; [|done]. split_and!.
    + by rewrite F5, Hfs4.
    + by rewrite W5, Y2.
    + rewrite Y1 in R5. exact R5.
    + rewrite Y4, Y5 in O5. exact O5.
  - right. split; [left; lia|]. exists d5. split; [exact Hgo5|]. apply (removed_rejected d d4); fold j; try done.
    + rewrite Y1. by apply qrep_nextjob.
    + rewrite Hfs4, delete_insert_ne by (intros E; by apply (data_req_ne j j)). rewrite (delete_id (d_fs d)) by done. by apply delete_insert_id.
Qed.
End server.

(** ** The print command *)

(** What [strcpy] and [strncpy] leave in the request. *)
Definition short_name (fname : bytes) : bytes :=
  if JOBNM_MAX <=? len fname then bs "... " ++ drop (length fname - 251) fname else fname.

Lemma cstr_splice s l : is_cstr s -> (length s < length l)%nat ->
  cstr (splice 0 (s ++ [NUL]) l) = s /\ length (splice 0 (s ++ [NUL]) l) = length l.
Proof.
  intros Hs Hl. split; [|apply length_splice; rewrite length_app; simpl; lia].
  rewrite splice_0, <- app_assoc. by apply cstr_app_nul.
Qed.

Lemma cstr_strncpy s k : is_cstr s -> cstr (strncpy s k ++ [NUL]) = take k s.
Proof.
  intros Hs. unfold strncpy. rewrite <- app_assoc. assert (Ht : is_cstr (take k s)) by (by apply Forall_take).
  destruct (k - length s)%nat; simpl; by apply cstr_app_nul.
Qed.

Lemma length_strncpy s k : length (strncpy s k) = k.
Proof. unfold strncpy. rewrite length_app, length_take, length_replicate. lia. Qed.

Record stack_ok (stk : printreq) : Prop := StackOk {
  so_user : length (rq_usernm stk) = 64%nat; so_job : length (rq_jobnm stk) = 256%nat
}.

Section submit.
Context (pw_name : option bytes) (fname : bytes) (nbytes : Z) (text : bool) (stk : printreq).
Context (Hstk : stack_ok stk) (Hpw : forall nm, pw_name = Some nm -> is_cstr nm) (Hfn : is_cstr fname).

Local Abbreviation req := (submit_req pw_name fname nbytes text stk).

Lemma submit_user :
  length (rq_usernm req) = 64%nat /\
  cstr (rq_usernm req) = match pw_name with Some nm => take 63 nm | None => bs "unknown" end.
Proof.
  destruct Hstk as [Hu _]. unfold submit_req. cbn [rq_usernm]. destruct pw_name as [nm|] eqn:Ep.
  - assert (Hl : length (splice 0 (strncpy nm 63) (rq_usernm stk)) = 64%nat)
      by (rewrite length_splice; [done|rewrite length_strncpy; lia]).
    split; [rewrite length_splice; simpl; lia|].
    unfold splice at 1. rewrite drop_ge by (rewrite Hl; simpl; lia). rewrite splice_0, app_nil_r.
    rewrite <- (length_strncpy nm 63) at 1. rewrite take_app_length.
    by apply cstr_strncpy, Hpw.
  - destruct (cstr_splice (bs "unknown") (rq_usernm stk)) as [H1 H2]; [|rewrite Hu; simpl; lia|].
    + by repeat constructor.
    + split; [by rewrite H2|done].
Qed.

Lemma submit_job :
  length (rq_jobnm req) = 256%nat /\ cstr (rq_jobnm req) = short_name fname.
Proof.
  destruct Hstk as [_ Hj]. unfold submit_req, short_name. cbn [rq_jobnm]. unfold JOBNM_MAX, len.
  destruct (Z.leb_spec 256 (Z.of_nat (length fname))) as [H|H].
  - replace (Z.to_nat (Z.of_nat (length fname) - 256 + 5)) with (length fname - 251)%nat by lia.
    rewrite (take_ge _ 251) by (rewrite length_drop; lia). rewrite app_assoc.
    destruct (cstr_splice (bs "... " ++ drop (length fname - 251) fname) (rq_jobnm stk)) as [H1 H2].
    + apply is_cstr_app. split; [by repeat constructor|by apply Forall_drop].
    + rewrite length_app, length_drop, Hj. simpl. lia.
    + by rewrite H2.
  - destruct (cstr_splice fname (rq_jobnm stk)) as [H1 H2]; [done|rewrite Hj; lia|]. by rewrite H2.
Qed.

Lemma submit_req_ok : req_ok req.
Proof.
  split; [apply htonl_u32| |apply submit_user|apply submit_job]. unfold submit_req. cbn [rq_flags].
  destruct text; [apply htonl_u32|]. unfold u32_ok. lia.
Qed.
End submit.

(** ** One print job, from the command to the queue *)

(** [writen] on a socket that makes progress. *)
Lemma writen_all b s :
  Forall progress (s_wr s) -> exists s', writen b s = Ret (len b) s' /\ s_in s' = s_in s /\ s_out s' = s_out s ++ b /\
    Forall progress (s_wr s').
Proof.
  intros Hp. destruct (writen_run b s) as (r & s' & Hw & Hi & Ho & _ & H). destruct (H Hp) as [-> Hp'].
  exists s'. rewrite take_ge in Ho by (unfold len; lia). done.
Qed.

Lemma send_loop_ok fuel doc s :
  (length doc < fuel)%nat -> Forall progress (s_wr s) ->
  exists s', send_loop fuel doc s = Ret tt s' /\ s_in s' = s_in s /\ s_out s' = s_out s ++ doc /\ Forall progress (s_wr s').
Proof.
  revert doc s. induction fuel as [|f IH]; intros doc s Hf Hp; [lia|]. cbn [send_loop].
  destruct doc as [|c doc]; [exists s; by rewrite app_nil_r|]. cbv zeta. set (b := c :: doc) in *.
  destruct (writen_all (take (Z.to_nat IOBUFSZ) b) s Hp) as (s1 & Hw & Hi & Ho & Hp1).
  rewrite (bind_ret _ _ _ _ _ Hw), Z.eqb_refl. cbn [negb].
  destruct (IH (drop (Z.to_nat IOBUFSZ) b) s1) as (s2 & Hgo & Hi2 & Ho2 & Hp2); [|done|].
  { rewrite length_drop. unfold b in *. change (Z.to_nat IOBUFSZ) with (Z.to_nat 8192). simpl length in *. lia. }
  exists s2. split_and!; [done|congruence| |done]. by rewrite Ho2, Ho, <- app_assoc, take_drop.
Qed.

Lemma decode_accepted stk j :
  0 <= j < 2 ^ 31 -> length stk = 512%nat ->
  len (accepted_resp stk j) = RESP_SIZE /\
  rs_retcode (decode_resp (accepted_resp stk j)) = 0 /\ htonl (rs_jobid (decode_resp (accepted_resp stk j))) = j.
Proof.
  intros Hj Hs. unfold accepted_resp. set (m := splice _ _ _).
  assert (Hm : length m = 512%nat).
  { unfold m. rewrite length_splice; [done|]. rewrite !length_app.
    pose proof (length_dec_le j 10 ltac:(lia) ltac:(lia)). simpl. lia. }
  unfold encode_resp, decode_resp. cbn [rs_retcode rs_jobid rs_msg]. split_and!.
  - unfold len. rewrite !length_app, Hm. done.
  - rewrite <- (app_nil_l (le32 0 ++ _)), (slice_app [] (le32 0)) by done. by apply un_le32_le32.
  - rewrite (slice_app (le32 0) (le32 (htonl j))) by done. rewrite un_le32_le32 by apply htonl_u32.
    apply htonl_invol. unfold u32_ok. lia.
Qed.

(** ** The type of the document *)

Lemma strncmp_ps a b c d r :
  (strncmp (a :: b :: c :: d :: r) (bs "%!PS") 4 =? 0) = bool_decide ([a; b; c; d] = bs "%!PS").
Proof.
  assert (Hu : forall x y, (uc x =? uc y) = bool_decide (x = y)).
  { intros x y. destruct (Z.eqb_spec (uc x) (uc y)) as [E|E].
    - apply uc_inj in E as ->. by rewrite bool_decide_true.
    - rewrite bool_decide_false; [done|congruence]. }
  change (bs "%!PS") with ["%"%byte; "!"%byte; "P"%byte; "S"%byte]. cbn [strncmp]. rewrite !Hu.
  do 4 (case_bool_decide as E; [subst|rewrite bool_decide_false by congruence; by destruct (_ <? _)]).
  rewrite bool_decide_true by done. by destruct r.
Qed.

Lemma doc_flags_spec flags stk p r :
  4 <= len p ->
  doc_flags flags stk (EvData p :: r) =
  if bool_decide (take 4 p = bs "%!PS") then flags else Z.lor flags PR_TEXT.
Proof.
  intros H. unfold doc_flags. destruct p as [|a [|b [|c [|d p]]]]; try (unfold len in H; simpl in H; lia).
  change (Z.to_nat IOBUFSZ) with (S (S (S (S (Z.to_nat 8188))))). cbn [take]. rewrite splice_0. cbn [app].
  by rewrite strncmp_ps, take_0.
Qed.

(** The daemon takes a document for plain text unless it starts with the PostScript
    signature, provided that the first read after the request returns at least 4 bytes of
    the document. *)
Theorem document_type (stk_buf : bytes) (l r : list ev) (p : bytes) :
  Forall nonempty_ev l -> REQ_SIZE <= len (avail l) -> cut (Z.to_nat REQ_SIZE) l = EvData p :: r -> 4 <= len p ->
  rq_flags (stored_req stk_buf l) =
  if bool_decide (take 4 (document l) = bs "%!PS") then htonl (rq_flags (hdr_req l))
  else Z.lor (htonl (rq_flags (hdr_req l))) PR_TEXT.
Proof.
  intros Hne Hl Hc Hp. destruct (cut_ok (Z.to_nat REQ_SIZE) l Hne) as (Ha & _); [unfold REQ_SIZE in *; lia|].
  unfold stored_req. cbn [rq_flags]. rewrite Hc, doc_flags_spec by done. unfold document. rewrite <- Ha, Hc. cbn [avail].
  by rewrite take_app_le by (unfold len in Hp; lia).
Qed.

(** The type depends on how the network cuts the stream: when only the first byte of
    a PostScript document arrives with the first read, and the rest of the buffer holds
    zeros, the job is marked as plain text. *)
Theorem postscript_split (hdr doc : bytes) :
  length hdr = Z.to_nat REQ_SIZE ->
  let l := [EvData hdr; EvData (bs "%"); EvData (bs "!PS" ++ doc)] in
  take 4 (document l) = bs "%!PS" /\
  rq_flags (stored_req (replicate (Z.to_nat IOBUFSZ) NUL) l) = Z.lor (htonl (rq_flags (hdr_req l))) PR_TEXT.
Proof.
  intros Hh l.
  assert (Hc : cut (Z.to_nat REQ_SIZE) l = [EvData (bs "%"); EvData (bs "!PS" ++ doc)]).
  { unfold l. rewrite cut_rest_of by (rewrite ?Hh; done). unfold rest_of. rewrite Nat2Z.id, drop_ge by (rewrite Hh; done).
    by rewrite bool_decide_true. }
  split.
  - unfold document, l. cbn [avail]. by rewrite <- Hh, drop_app_length.
  - unfold stored_req. cbn [rq_flags]. rewrite Hc. unfold doc_flags.
    set (f := htonl _). clearbody f. change (Z.to_nat IOBUFSZ) with (S (S (Z.to_nat 8190))). generalize (Z.to_nat 8190) as k.
    intros k. reflexivity.
Qed.

(** ** The theorems on jobs *)

(** C4: A job is stored and queued, or not at all.  The job's number is below [INT_MAX]
    and its two files do not exist yet.  For every pattern of disk errors and short
    writes, those of [unlink] included, and for every behaviour of the client and the
    network, the thread ends.  Either it exits with status 0: the data file holds exactly
    the bytes that arrived after the request and before the stream ended, timed out or
    failed (their number is not compared with the size in the request), the request file
    holds the request, and the job is at the end of the queue.  Or it exits with status 1
    and the queue is as before; all files are as before when at most one call on the disk
    goes wrong, and after more than one fault only the job's own files can be left, never
    with a complete request, which a restart would queue.  It rejects a job only after a
    disk fault or an incomplete request. *)
Theorem client_thread_atomic (strerror : Z -> bytes) (stk_buf stk_msg : bytes) (d : dstate) (xs : list (Z * entry)) :
  can_accept d xs ->
  (exists d', client_body strerror stk_buf stk_msg d = Ret 0 d' /\ queued stk_buf stk_msg d d' xs) \/
  (((0 < bad (d_faults d))%nat \/ len (avail (s_in (d_io d))) < REQ_SIZE) /\
   exists d', client_body strerror stk_buf stk_msg d = Ret 1 d' /\ rejected d d' xs).
Proof.
  intros H. destruct (client_body_cases strerror stk_buf stk_msg d xs H) as [(d' & ? & ? & _)|?]; [left; eauto|by right].
Qed.

(** The stored request of a job that the print command sent. *)
Definition job_req (stk_buf : bytes) (pw_name : option bytes) (fname : bytes) (nbytes : Z) (text : bool) (stk : printreq) (l : list ev) : printreq :=
  let r := submit_req pw_name fname nbytes text stk in
  Req (u32 nbytes) (doc_flags (if text then PR_TEXT else 0) stk_buf (cut (Z.to_nat REQ_SIZE) l)) (rq_usernm r) (rq_jobnm r).

(** C17: One print job from end to end.  When the sockets and the disk work, the number of
    the job is below [INT_MAX] and its files do not exist yet, and each side receives what
    the other sends, in pieces of any size, the print command sends the request and the
    whole document and reports the job number that the daemon assigned; the daemon stores
    exactly the document, and the request with the user's name, the (shortened) file name,
    the size and the flags, under that number, and queues it. *)
Theorem print_end_to_end (strerror : Z -> bytes) (stk_buf stk_msg : bytes) (d : dstate) (xs : list (Z * entry))
    (pw_name : option bytes) (fname doc : bytes) (nbytes : Z) (text : bool) (stk : printreq) (s : ios) :
  can_accept d xs -> d_faults d = [] -> Forall progress (s_wr (d_io d)) ->
  stack_ok stk -> (forall nm, pw_name = Some nm -> is_cstr nm) -> is_cstr fname -> length stk_msg = 512%nat ->
  Forall progress (s_wr s) -> Forall nonempty_ev (s_in s) ->
  avail (s_in (d_io d)) = encode_req (submit_req pw_name fname nbytes text stk) ++ doc ->
  avail (s_in s) = accepted_resp stk_msg (nextjob (d_q d)) ->
  let j := nextjob (d_q d) in
  let r := job_req stk_buf pw_name fname nbytes text stk (s_in (d_io d)) in
  exists s' d',
    submit_file pw_name fname doc nbytes text stk s = Ret (inl j) s' /\
    s_out s' = s_out s ++ encode_req (submit_req pw_name fname nbytes text stk) ++ doc /\
    client_body strerror stk_buf stk_msg d = Ret 0 d' /\
    s_out (d_io d') = s_out (d_io d) ++ accepted_resp stk_msg j /\
    d_fs d' = <[req_name j := encode_req r]> (<[data_name j := doc]> (d_fs d)) /\
    qrep (d_q d') (xs ++ [(q_brk (d_q d), (j, r))]) /\
    cstr (rq_jobnm r) = short_name fname /\
    cstr (rq_usernm r) = match pw_name with Some nm => take 63 nm | None => bs "unknown" end.
Proof.
  intros Hca Hfl Hpd Hstk Hpw Hfn Hmsg Hps Hes Hin Hout j r. set (req := submit_req _ _ _ _ _) in *.
  destruct (decode_encode_req req (submit_req_ok _ _ _ _ _ Hstk Hpw Hfn)) as [Hdec Hlen].
  assert (Hlen' : length (encode_req req) = Z.to_nat REQ_SIZE) by (unfold len in Hlen; lia).
  assert (Hhdr : hdr_req (s_in (d_io d)) = req) by (unfold hdr_req; rewrite Hin, <- Hlen', take_app_length; exact Hdec).
  assert (Hdoc : document (s_in (d_io d)) = doc) by (unfold document; by rewrite Hin, <- Hlen', drop_app_length).
  assert (Hst : stored_req stk_buf (s_in (d_io d)) = r).
  { unfold stored_req, r, job_req. rewrite Hhdr. unfold req, submit_req. cbn [rq_size rq_flags rq_usernm rq_jobnm].
    rewrite htonl_invol by (apply wrap_range; lia). by destruct text. }
  destruct (writen_all (encode_req req) s Hps) as (s1 & Hw1 & Hi1 & Ho1 & Hp1).
  destruct (send_loop_ok (S (length doc)) doc s1) as (s2 & Hw2 & Hi2 & Ho2 & Hp2); [lia|done|].
  assert (Hj : 0 <= j < 2 ^ 31) by (pose proof (ca_next _ _ Hca) as Hn; unfold INT_MAX in Hn; unfold j; lia).
  destruct (decode_accepted stk_msg j Hj Hmsg) as (Hrl & Hrc & Hjd).
  assert (Hi : s_in s2 = s_in s) by congruence.
  pose proof (readn_exact RESP_SIZE s2) as Hrd. rewrite Hi, Hout in Hrd. fold j in Hrd.
  assert (Hr0 : 0 <= RESP_SIZE <= len (accepted_resp stk_msg j)) by (rewrite Hrl; unfold RESP_SIZE; lia).
  specialize (Hrd Hes Hr0).
  rewrite take_ge in Hrd by (unfold len in Hrl; lia).
  destruct (client_body_cases strerror stk_buf stk_msg d xs Hca) as [(d' & Hgo & (F & _ & Q & O) & _)|([Hf|Hf] & _)].
  2: { rewrite Hfl in Hf. inversion Hf. }
  2: { rewrite Hin, len_app, Hlen in Hf. pose proof (len_nonneg doc). lia. }
  eexists _, d'. split.
  { unfold submit_file. fold req. rewrite (bind_ret _ _ _ _ _ Hw1), Hlen, Z.eqb_refl. cbn [negb].
    rewrite (bind_ret _ _ _ _ _ Hw2), (bind_ret _ _ _ _ _ Hrd), Z.eqb_refl. cbn [negb]. rewrite Hrc. cbn [negb Z.eqb].
    rewrite Hjd. reflexivity. }
  cbn [s_out set_in]. split; [by rewrite Ho2, Ho1, <- app_assoc|]. split; [exact Hgo|]. split; [by apply O|].
  unfold spooled in F. rewrite Hst, Hdoc in F. rewrite Hst in Q. split; [exact F|]. split; [exact Q|].
  split; [exact (proj2 (submit_job pw_name fname nbytes text stk Hstk Hfn))|exact (proj2 (submit_user pw_name fname nbytes text stk Hstk Hpw))].
Qed.

(** ** Restarting the daemon *)

(** An entry of the request directory: a job, or a file that is too short. *)
Abbreviation spool_entry := (Z * (printreq + bytes))%type.

Definition entry_here (fs : gmap bytes bytes) (e : spool_entry) : Prop :=
  0 <= e.1 < 2 ^ 31 /\
  match e.2 with
  | inl r => req_ok r /\ fs !! req_name e.1 = Some (encode_req r)
  | inr junk => len junk < REQ_SIZE /\ fs !! req_name e.1 = Some junk
  end.

Definition recovered (es : list spool_entry) : list entry :=
  omap (fun e : spool_entry => match e.2 with inl r => Some (e.1, r) | inr _ => None end) es.

Definition cleaned (es : list spool_entry) (fs : gmap bytes bytes) : gmap bytes bytes :=
  foldl (fun fs (e : spool_entry) => match e.2 with
    | inl _ => fs | inr _ => delete (data_name e.1) (delete (req_name e.1) fs) end) fs es.

Lemma dec_inj i j : 0 <= i -> 0 <= j -> dec i = dec j -> i = j.
Proof. intros Hi Hj E. rewrite <- (dec_value i Hi), <- (dec_value j Hj). by rewrite E. Qed.

Lemma req_name_inj i j : 0 <= i -> 0 <= j -> req_name i = req_name j -> i = j.
Proof.
  intros Hi Hj E. apply dec_inj; try done. unfold req_name, spool_name in E. apply app_inv_head in E.
  by injection E.
Qed.

Lemma dec_not_dot i s : 0 <= i -> head s = Some "."%byte -> dec i <> s.
Proof.
  intros Hi Hs <-. pose proof (dec_digits i Hi) as Hd. destruct (dec i) as [|c r]; [done|]. injection Hs as ->.
  inversion Hd as [|? ? Hc]. by vm_compute in Hc.
Qed.

Lemma build_qonstart_entry i rest d :
  0 <= i < 2 ^ 31 -> d_faults d = [] ->
  build_qonstart (dec i :: rest) d =
  match d_fs d !! req_name i with
  | None => build_qonstart rest
  | Some f =>
    if negb (len (take (Z.to_nat REQ_SIZE) f) =? REQ_SIZE) then
      unlink (req_name i) ;;; unlink (data_name i) ;;; build_qonstart rest
    else on_q (add_job (decode_req (take (Z.to_nat REQ_SIZE) f)) i) ;;; build_qonstart rest
  end d.
Proof.
  intros Hi Hfl. cbn [build_qonstart].
  rewrite !bool_decide_false by (apply dec_not_dot; [lia|done]). cbn [orb].
  assert (Hl : len (spool_name REQDIR (dec i)) < FILENMSZ).
  { unfold spool_name, len. rewrite !length_app, length_cons, length_app, length_cons.
    pose proof (length_dec_le i 10 ltac:(lia) ltac:(lia)). unfold FILENMSZ. simpl. lia. }
  destruct (Z.leb_spec FILENMSZ (len (spool_name REQDIR (dec i)))); [lia|].
  assert (Hnf : next_fault d = Ret FOk d) by (unfold next_fault; by rewrite Hfl). rewrite (bind_ret _ _ _ _ _ Hnf).
  rewrite (bind_ret _ _ _ _ _ (eq_refl : getst d = Ret d d)). fold (req_name i) (data_name i).
  destruct (d_fs d !! req_name i); [|done]. rewrite (bind_ret _ _ _ _ _ Hnf).
  assert (Ha : i32 (atol (dec i)) = i).
  { rewrite <- (app_nil_r (dec i)), atol_dec; [apply swrap_small; lia|unfold LONG_MAX; lia|done]. }
  by rewrite Ha.
Qed.

Lemma build_qonstart_all (es : list spool_entry) (d : dstate) (xs : list (Z * entry)) :
  qrep (d_q d) xs -> d_faults d = [] -> NoDup es.*1 -> Forall (entry_here (d_fs d)) es ->
  exists d' ys, build_qonstart (bs "." :: bs ".." :: (dec <$> es.*1)) d = Ret tt d' /\
    qrep (d_q d') ys /\ ys.*2 = xs.*2 ++ recovered es /\ d_fs d' = cleaned es (d_fs d) /\ nextjob (d_q d') = nextjob (d_q d).
Proof.
  intros Hq Hfl Hnd Hes.
  change (build_qonstart (bs "." :: bs ".." :: (dec <$> es.*1))) with (build_qonstart (dec <$> es.*1)).
  revert d xs Hq Hfl Hnd Hes. induction es as [|[i c] es IH]; intros d xs Hq Hfl Hnd Hes.
  { exists d, xs. unfold recovered. simpl. by rewrite app_nil_r. }
  inversion Hes as [|? ? [Hi He] Hes']; subst. cbn [fst snd] in *. rewrite fmap_cons in Hnd |- *.
  apply NoDup_cons in Hnd as [Hn Hnd]. rewrite fmap_cons. cbn [fst]. rewrite build_qonstart_entry by done. destruct c as [r|junk].
  - destruct He as [Hr Hf]. rewrite Hf. destruct (decode_encode_req r Hr) as [Hdec Hlen].
    rewrite take_ge by (unfold len in Hlen; lia). rewrite Hlen, Z.eqb_refl, Hdec. cbn [negb].
    destruct (add_job_ok (d_q d) xs r i Hq) as (q' & Ha & Hq' & Hnj & _).
    rewrite (on_q_run _ _ _ _ _ Ha).
    destruct (IH (Dst q' (d_w d) (d_fs d) (d_faults d) (d_io d)) _ Hq' Hfl Hnd Hes') as (d' & ys & Hgo & Hqy & Hys & Hfs & Hj).
    exists d', ys. split_and!; try done; [|by rewrite Hj]. rewrite Hys, fmap_app, <- app_assoc. done.
  - destruct He as [Hl Hf]. rewrite Hf. destruct (Z.eqb_spec (len (take (Z.to_nat REQ_SIZE) junk)) REQ_SIZE) as [E|_].
    { unfold len in *. rewrite length_take in E. lia. }
    cbn [negb]. rewrite (bind_ret _ _ _ _ _ (unlink_run _ d Hfl)). erewrite bind_ret; [|by apply unlink_run].
    set (d1 := set_fs _ _). destruct (IH d1 xs) as (d' & ys & Hgo & Hqy & Hys & Hfs & Hj); try done.
    + rewrite Forall_forall in Hes' |- *. intros [i' c'] Hin. destruct (Hes' _ Hin) as [Hi' He']. split; [done|]. cbn [fst snd] in *.
      assert (Hlk : d_fs d1 !! req_name i' = d_fs d !! req_name i').
      { unfold d1. simpl. rewrite lookup_delete_ne by apply data_req_ne. apply lookup_delete_ne.
        intros E. apply req_name_inj in E as ->; [|lia|lia]. apply Hn. by apply (list_elem_of_fmap_2 fst _ (i', c')). }
      by rewrite Hlk.
    + exists d', ys. split_and!; try done.
Qed.

(** C27: A restart recovers the queue: when the disk works, reading the request directory
    adds to the queue the job of every complete request file, in the order in which the
    directory lists them, with the number and the request that were stored, and removes
    both files of every entry whose request is too short; all other files stay. *)
Theorem restart_recovers (es : list spool_entry) (d : dstate) (xs : list (Z * entry)) :
  qrep (d_q d) xs -> d_faults d = [] -> NoDup es.*1 -> Forall (entry_here (d_fs d)) es ->
  exists d' ys, build_qonstart (bs "." :: bs ".." :: (dec <$> es.*1)) d = Ret tt d' /\
    qrep (d_q d') ys /\ ys.*2 = xs.*2 ++ recovered es /\ d_fs d' = cleaned es (d_fs d) /\ nextjob (d_q d') = nextjob (d_q d).
Proof. apply build_qonstart_all. Qed.

(** ** The job counter on disk *)

(** A start of the daemon on the files [fs], while the disk works. *)
Definition restart (fs : gmap bytes bytes) (entries : list bytes) (d : dstate) : result dstate unit :=
  (init_request false ;;; build_qonstart entries) (Dst (Queue ∅ 1 0 0 0) w_empty fs [] (d_io d)).

Lemma file_write_prefix f x : (length f <= length x)%nat -> file_write f 0 x = x.
Proof.
  intros H. destruct (decide (x = [])) as [->|Hx]; [by destruct f; [|simpl in H; lia]|]. rewrite file_write_cons by done.
  change (Z.to_nat 0) with 0%nat. simpl replicate. rewrite splice_0, app_nil_r, drop_ge by lia.
  apply app_nil_r.
Qed.

Lemma name_not_digit k c :
  head (drop k (splice 0 (job_file ++ [NUL]) (replicate (Z.to_nat FILENMSZ) NUL))) = Some c -> isdigit c = false.
Proof.
  assert (Hall : Forall (fun c => isdigit c = false) (splice 0 (job_file ++ [NUL]) (replicate (Z.to_nat FILENMSZ) NUL))).
  { repeat (constructor; [reflexivity|]). constructor. }
  intros Hh. apply (Forall_drop _ k) in Hall. destruct (drop k _) as [|x r]; [done|]. injection Hh as ->. by inversion Hall.
Qed.

Lemma init_request_run n d :
  1 <= n <= INT_MAX -> d_faults d = [] -> d_fs d !! job_file = Some (dec n) ->
  init_request false d = Ret tt (Dst (set_nextjob n (d_q d)) (d_w d) (d_fs d) (d_faults d) (d_io d)).
Proof.
  intros Hn Hfl Hf. destruct d as [q w fs fl io]. simpl in Hfl, Hf. subst fl.
  unfold init_request, next_fault, getst, modst, set_fs, bind, on_q, ret. cbn [d_faults d_fs d_q d_w d_io]. rewrite Hf. cbn [default].
  pose proof (length_dec_le n 10 ltac:(lia) ltac:(unfold INT_MAX in *; lia)). pose proof (length_dec_pos n ltac:(lia)).
  rewrite (take_ge (dec n)) by (change (Z.to_nat FILENMSZ) with 64%nat; lia).
  destruct (Z.eqb_spec (len (dec n)) 0); [unfold len in *; lia|].
  rewrite splice_0, atol_dec; [|unfold INT_MAX, LONG_MAX in *; lia|intros c; apply name_not_digit].
  rewrite swrap_small by (unfold INT_MAX in *; lia). by rewrite (insert_id fs) by done.
Qed.

(** The job counter survives a restart: the number that [update_jobno] writes is the
    number that [init_request] reads, although it reads over a buffer that still holds the
    name of the file, as long as the number written is not shorter than the one in the
    file (the file is never truncated). *)
Theorem jobno_survives (d : dstate) (entries : list bytes) :
  1 <= nextjob (d_q d) <= INT_MAX -> d_faults d = [] -> len (default [] (d_fs d !! job_file)) <= len (dec (nextjob (d_q d))) ->
  exists d1, update_jobno d = Ret tt d1 /\
    restart (d_fs d1) entries d1 =
    build_qonstart entries (Dst (Queue ∅ 1 0 0 (nextjob (d_q d))) w_empty (d_fs d1) [] (d_io d1)).
Proof.
  intros Hn Hfl Hl. eexists. split.
  { unfold update_jobno. erewrite on_q_run; [|reflexivity]. unfold bind at 1, next_fault. cbn [d_faults]. rewrite Hfl. reflexivity. }
  cbn [d_fs set_fs d_faults d_io]. rewrite file_write_prefix by (unfold len in Hl; lia).
  unfold restart. erewrite bind_ret; [|apply init_request_run; [exact Hn|done|cbn [d_fs]; by rewrite lookup_insert_eq]]. done.
Qed.

(** The counter is saved only when the printer thread takes a job, so a crash before
    that hands a number out twice: when the counter on disk is the one the client was
    given, the restarted daemon has that job in its queue, its document on disk, and gives
    the same number to the next client, whose [creat] will empty that document. *)
Theorem restart_reuses_number (strerror : Z -> bytes) (stk_buf stk_msg : bytes) (d : dstate) :
  can_accept d [] -> d_faults d = [] -> REQ_SIZE <= len (avail (s_in (d_io d))) ->
  d_fs d !! job_file = Some (dec (nextjob (d_q d))) ->
  let j := nextjob (d_q d) in
  exists d1 d2 r, client_body strerror stk_buf stk_msg d = Ret 0 d1 /\
    restart (d_fs d1) [bs "."; bs ".."; dec j] d1 = Ret tt d2 /\
    (exists p, qrep (d_q d2) [(p, (j, r))]) /\ is_Some (d_fs d2 !! data_name j) /\
    exists q3, get_newjobno (d_q d2) = Ret j q3.
Proof.
  intros Hca Hfl Hlen Hjf j.
  destruct (client_body_cases strerror stk_buf stk_msg d [] Hca) as [(d1 & Hgo & (F & _ & _ & _) & _)|([Hb|?] & _)]; [|rewrite Hfl in Hb; inversion Hb|lia].
  pose proof (ca_next _ _ Hca) as Hn. fold j in Hn, F. set (r := stored_req stk_buf (s_in (d_io d))) in *.
  assert (Hjd : data_name j <> job_file) by (unfold data_name, spool_name, job_file; intros E; by apply app_inv_head in E).
  assert (Hjr : req_name j <> job_file) by (unfold req_name, spool_name, job_file; intros E; by apply app_inv_head in E).
  set (d0 := Dst (Queue ∅ 1 0 0 0) w_empty (d_fs d1) [] (d_io d1)).
  assert (Hini : init_request false d0 = Ret tt (Dst (Queue ∅ 1 0 0 j) w_empty (d_fs d1) [] (d_io d1))).
  { apply (init_request_run j d0 ltac:(lia) eq_refl). simpl. rewrite F. unfold spooled. by rewrite !lookup_insert_ne by done. }
  assert (Hr : req_ok r) by (apply stored_req_ok; done).
  destruct (build_qonstart_all [(j, inl r)] (Dst (Queue ∅ 1 0 0 j) w_empty (d_fs d1) [] (d_io d1)) [])
    as (d2 & ys & Hb & Hq & Hys & Hfs & Hj2).
  - destruct (q_empty_holds j 0) as (xs & Hx & Hxs & _). destruct xs; [exact Hx|done].
  - reflexivity.
  - apply NoDup_singleton.
  - constructor; [|constructor]. split; [cbn [fst]; unfold INT_MAX in Hn; lia|]. cbn [fst snd d_fs]. split; [done|].
    rewrite F. unfold spooled. by rewrite lookup_insert_eq.
  - exists d1, d2, r. split; [exact Hgo|]. split.
    { unfold restart. fold d0. rewrite (bind_ret _ _ _ _ _ Hini). exact Hb. }
    simpl in Hys. destruct ys as [|[p e] [|]]; try done. injection Hys as ->. split; [by exists p|]. split.
    + rewrite Hfs. simpl. rewrite F. unfold spooled. rewrite lookup_insert_ne by (intros E; by apply (data_req_ne j j)).
      rewrite lookup_insert_eq. eauto.
    + simpl in Hj2. eexists. rewrite get_newjobno_run by (by rewrite Hj2). by rewrite Hj2.
Qed.

(** ** Witnesses *)

Definition stk_ex : printreq := Req 0 0 (replicate 64 "x"%byte) (replicate 256 "y"%byte).
Definition wire_ex : bytes := encode_req (submit_req (Some (bs "paul")) (bs "report.ps") 12 false stk_ex).
Definition ev_ex : list ev := [EvData (take 100 wire_ex); EvData (drop 100 wire_ex ++ bs "%!PS-Ad"); EvData (bs "obe-3"); EvTimeout].
Definition d_ex : dstate :=
  Dst (Queue ∅ 1 0 0 7) w_empty {[ job_file := dec 7 ]} [] (Ios ev_ex [] [WSome 5] 0).
Definition msg_ex : bytes := replicate 512 NUL.

Lemma can_accept_ex : can_accept d_ex [].
Proof.
  split.
  - repeat (apply Forall_cons_2; [vm_compute; exact I|]). apply Forall_nil_2.
  - destruct (q_empty_holds 7 0) as (xs & Hx & Hxs & _). destruct xs; [exact Hx|done].
  - by vm_compute.
  - by vm_compute.
  - by vm_compute.
Qed.

Lemma client_thread_atomic_witness :
  (exists d', client_body (fun _ => bs "error") [] msg_ex d_ex = Ret 0 d' /\ queued [] msg_ex d_ex d' []) \/
  (((0 < bad (d_faults d_ex))%nat \/ len (avail (s_in (d_io d_ex))) < REQ_SIZE) /\
   exists d', client_body (fun _ => bs "error") [] msg_ex d_ex = Ret 1 d' /\ rejected d_ex d' []).
Proof. exact (client_thread_atomic (fun _ => bs "error") [] msg_ex d_ex [] can_accept_ex). Defined.

Definition ios_client_ex : ios := Ios [EvData (take 3 (accepted_resp msg_ex 7)); EvData (drop 3 (accepted_resp msg_ex 7))] [] [WSome 200] 0.

Lemma print_end_to_end_witness :
  exists s' d',
    submit_file (Some (bs "paul")) (bs "report.ps") (bs "%!PS-Adobe-3") 12 false stk_ex ios_client_ex = Ret (inl 7) s' /\
    client_body (fun _ => bs "error") [] msg_ex d_ex = Ret 0 d' /\
    d_fs d' = <[req_name 7 := encode_req (job_req [] (Some (bs "paul")) (bs "report.ps") 12 false stk_ex ev_ex)]>
      (<[data_name 7 := bs "%!PS-Adobe-3"]> (d_fs d_ex)).
Proof.
  destruct (print_end_to_end (fun _ => bs "error") [] msg_ex d_ex [] (Some (bs "paul")) (bs "report.ps") (bs "%!PS-Adobe-3")
    12 false stk_ex ios_client_ex) as (s' & d' & H1 & _ & H2 & _ & H3 & _).
  - exact can_accept_ex.
  - reflexivity.
  - apply Forall_cons_2; [vm_compute; reflexivity|apply Forall_nil_2].
  - split; reflexivity.
  - intros nm E. injection E as <-. repeat (apply Forall_cons_2; [discriminate|]). apply Forall_nil_2.
  - repeat (apply Forall_cons_2; [discriminate|]). apply Forall_nil_2.
  - reflexivity.
  - apply Forall_cons_2; [vm_compute; reflexivity|apply Forall_nil_2].
  - repeat (apply Forall_cons_2; [vm_compute; exact I|]). apply Forall_nil_2.
  - vm_compute. reflexivity.
  - vm_compute. reflexivity.
  - exists s', d'. split; [exact H1|]. split; [exact H2|exact H3].
Defined.

Lemma document_type_witness :
  rq_flags (stored_req [] ev_ex) = htonl (rq_flags (hdr_req ev_ex)).
Proof.
  rewrite (document_type [] ev_ex [EvData (bs "obe-3"); EvTimeout] (bs "%!PS-Ad")).
  - vm_compute. reflexivity.
  - repeat (apply Forall_cons_2; [vm_compute; exact I|]). apply Forall_nil_2.
  - by vm_compute.
  - vm_compute. reflexivity.
  - by vm_compute.
Defined.

Lemma postscript_split_witness :
  take 4 (document [EvData (replicate 328 NUL); EvData (bs "%"); EvData (bs "!PS" ++ bs "-Adobe")]) = bs "%!PS".
Proof. exact (proj1 (postscript_split (replicate 328 NUL) (bs "-Adobe") eq_refl)). Defined.

Definition req_ok_ex : printreq := Req 12 1 (replicate 64 NUL) (replicate 256 NUL).
Definition d_restart_ex : dstate :=
  Dst (Queue ∅ 1 0 0 9) w_empty
    (<[req_name 8 := bs "short"]> (<[req_name 7 := encode_req req_ok_ex]> {[ data_name 7 := bs "doc" ]})) [] (Ios [] [] [] 0).

Lemma restart_recovers_witness :
  exists d' ys, build_qonstart (bs "." :: bs ".." :: (dec <$> [8; 7])) d_restart_ex = Ret tt d' /\
    qrep (d_q d') ys /\ ys.*2 = [(7, req_ok_ex)] /\ d_fs d' = cleaned [(8, inr (bs "short")); (7, inl req_ok_ex)] (d_fs d_restart_ex) /\
    nextjob (d_q d') = 9.
Proof.
  apply (restart_recovers [(8, inr (bs "short")); (7, inl req_ok_ex)] d_restart_ex []).
  - destruct (q_empty_holds 9 0) as (xs & Hx & Hxs & _). destruct xs; [exact Hx|done].
  - reflexivity.
  - apply NoDup_cons. split; [set_solver|apply NoDup_singleton].
  - repeat apply Forall_cons_2; [| |apply Forall_nil_2].
    + split; [by vm_compute|]. split; [by vm_compute|]. vm_compute. reflexivity.
    + split; [by vm_compute|]. split; [split; by vm_compute|]. vm_compute. reflexivity.
Defined.

Lemma jobno_survives_witness :
  exists d1, update_jobno d_ex = Ret tt d1 /\
    restart (d_fs d1) [] d1 = build_qonstart [] (Dst (Queue ∅ 1 0 0 7) w_empty (d_fs d1) [] (d_io d1)).
Proof. apply (jobno_survives d_ex []); by vm_compute. Defined.

Lemma restart_reuses_number_witness :
  exists d1 d2 r, client_body (fun _ => bs "error") [] msg_ex d_ex = Ret 0 d1 /\
    restart (d_fs d1) [bs "."; bs ".."; dec 7] d1 = Ret tt d2 /\
    (exists p, qrep (d_q d2) [(p, (7, r))]) /\ is_Some (d_fs d2 !! data_name 7) /\
    exists q3, get_newjobno (d_q d2) = Ret 7 q3.
Proof.
  apply (restart_reuses_number (fun _ => bs "error") [] msg_ex d_ex can_accept_ex); by vm_compute.
Defined.
