(* ===== verification/SpoolPrinter.v ===== *)
(** * The printer thread of the print daemon

    [scan_configfile], [get_printserver] and [get_printaddr] of apue.3e/printer/util.c;
    [init_printer], [add_option], [printer_thread], [readmore], [printer_status] and
    [signal_thread] of printd.c, with the constants of ipp.h.  A store outside a fixed
    buffer and a read outside a malloc'ed one are undefined behaviour.  The resolver is a
    parameter, and so are the contents of fresh heap memory.  Each connection to the
    printer is one entry of a list: refused, or a socket with its future. *)

From Stdlib Require Import Strings.Byte ZArith Lia.
From S2P Require Import Prelude Libc Posix Refine SpoolQueue SpoolIo SpoolServer.
From stdpp Require Import base strings numbers gmap list.
#[local] Open Scope Z_scope.

Definition IBUFSZ : Z := 512.
Definition HBUFSZ : Z := 512.
Definition IPP_PORT : Z := 631.
Definition MAXCFGLINE : Z := 512.
Definition MAXKWLEN : Z := 16.

Definition OP_PRINT_JOB : Z := 2.
Definition TAG_OPERATION_ATTR : Z := 1.
Definition TAG_END_OF_ATTR : Z := 3.
Definition TAG_NAMEWOLANG : Z := 66.
Definition TAG_URI : Z := 69.
Definition TAG_CHARSET : Z := 71.
Definition TAG_NATULANG : Z := 72.
Definition TAG_MIMETYPE : Z := 73.

Definition STATCLASS_OK (x : Z) : bool := (0 <=? x) && (x <=? 255).
Definition HTTP_INFO (x : Z) : bool := (100 <=? x) && (x <=? 199).
Definition HTTP_SUCCESS (x : Z) : bool := (200 <=? x) && (x <=? 299).

Definition LF : byte := x0a.
Definition CR : byte := x0d.
Definition CRLF : bytes := [CR; LF].

(** ** The configuration file *)

(** [fgets(line, n, fp)]: at most [n - 1] bytes, up to and including a newline. *)
Fixpoint fgets_go (n : nat) (f : bytes) : bytes * bytes :=
  match n, f with
  | O, _ | _, [] => ([], f)
  | S n', c :: f' => if decide (c = LF) then ([c], f') else let '(l, r) := fgets_go n' f' in (c :: l, r)
  end.

Definition fgets (n : Z) (f : bytes) : option (bytes * bytes) :=
  match f with [] => None | _ => Some (fgets_go (Z.to_nat (n - 1)) f) end.

(** The directive [%<w>s] of [sscanf]: skips white space, then takes at most [w] others. *)
Fixpoint word (w : nat) (s : bytes) : bytes * bytes :=
  match w, s with
  | O, _ | _, [] => ([], s)
  | S w', c :: s' => if isspace c then ([], s) else let '(l, r) := word w' s' in (c :: l, r)
  end.

Definition scan_word (w : Z) (s : bytes) : bytes * bytes := word (Z.to_nat w) (skip_space s).

(** [sscanf(line, "%15s %511s", keybuf, valbuf)]: the two words when it returns 2. *)
Definition sscanf_line (line : bytes) : option (bytes * bytes) :=
  let '(key, r) := scan_word (MAXKWLEN - 1) (cstr line) in
  let '(val, _) := scan_word (MAXCFGLINE - 1) r in
  match key, val with
  | [], _ | _, [] => None
  | _, _ => Some (key, val)
  end.

Fixpoint scan_lines (fuel : nat) (keyword f : bytes) : option bytes :=
  match fuel with
  | O => None
  | S n =>
    match fgets MAXCFGLINE f with
    | None => None
    | Some (line, f') =>
      match sscanf_line line with
      | Some (key, val) => if strcmp keyword key =? 0 then Some val else scan_lines n keyword f'
      | None => scan_lines n keyword f'
      end
    end
  end.

(** The contents of the file; every line has at least one byte. *)
Definition scan_configfile (keyword f : bytes) : option bytes := scan_lines (S (length f)) keyword f.

Definition get_printserver (f : bytes) : option bytes := scan_configfile (bs "printserver") f.

(** ** State *)

Record pst := Pst {
  p_d : dstate; p_conns : list (option ios); p_sock : ios;
  printer_name : bytes; reread : bool; p_conf : bytes
}.

Definition on_d {A} (m : M dstate A) : M pst A := fun s =>
  match m (p_d s) with
  | Ret a d => Ret a (Pst d (p_conns s) (p_sock s) (printer_name s) (reread s) (p_conf s))
  | Die x d => Die x (Pst d (p_conns s) (p_sock s) (printer_name s) (reread s) (p_conf s))
  | Undef w => Undef w
  | NoFuel => NoFuel
  end.

Definition on_sock {A} (m : M ios A) : M pst A := fun s =>
  match m (p_sock s) with
  | Ret a k => Ret a (Pst (p_d s) (p_conns s) k (printer_name s) (reread s) (p_conf s))
  | Die x k => Die x (Pst (p_d s) (p_conns s) k (printer_name s) (reread s) (p_conf s))
  | Undef w => Undef w
  | NoFuel => NoFuel
  end.

Definition set_name n s := Pst (p_d s) (p_conns s) (p_sock s) n (reread s) (p_conf s).
Definition set_reread b s := Pst (p_d s) (p_conns s) (p_sock s) (printer_name s) b (p_conf s).

(** ** Bytes in buffers of a fixed size *)

(** The bytes stored so far, after [d] more; [put_str] also stores a NUL that the next
    store overwrites. *)
Definition put {S} (sz : Z) (b d : bytes) : M S bytes :=
  if len b + len d <=? sz then ret (b ++ d) else undef "store outside the buffer".
Definition put_str {S} (sz : Z) (b s : bytes) : M S bytes :=
  if len b + len s + 1 <=? sz then ret (b ++ s) else undef "store outside the buffer".

(** An array that a string function reads. *)
Definition c_string {S} (b : bytes) : M S bytes :=
  if bool_decide (NUL ∈ b) then ret (cstr b) else undef "string without a terminator".

Definition add_option {S} (cp : bytes) (tag : Z) (optname optval : bytes) : M S bytes :=
  cp <- put IBUFSZ cp [bz tag] ;;
  cp <- put IBUFSZ cp (be16 (len optname)) ;;
  cp <- put_str IBUFSZ cp optname ;;
  cp <- put IBUFSZ cp (be16 (len optval)) ;;
  put_str IBUFSZ cp optval.

Definition is_text (r : printreq) : bool := negb (Z.land (rq_flags r) PR_TEXT =? 0).

(** The IPP header. *)
Definition ipp_header {S} (pname : bytes) (jobid : Z) (req : printreq) : M S bytes :=
  icp <- put IBUFSZ [] ([bz 1; bz 1] ++ be16 OP_PRINT_JOB ++ be32 jobid) ;;
  icp <- put IBUFSZ icp [bz TAG_OPERATION_ATTR] ;;
  icp <- add_option icp TAG_CHARSET (bs "attributes-charset") (bs "utf-8") ;;
  icp <- add_option icp TAG_NATULANG (bs "attributes-natural-language") (bs "en-us") ;;
  str <- put_str 64 [] (bs "http://" ++ pname ++ bs "/ipp") ;;
  icp <- add_option icp TAG_URI (bs "printer-uri") str ;;
  usernm <- c_string (rq_usernm req) ;;
  icp <- add_option icp TAG_NAMEWOLANG (bs "requesting-user-name") usernm ;;
  jobnm <- c_string (rq_jobnm req) ;;
  icp <- add_option icp TAG_NAMEWOLANG (bs "job-name") jobnm ;;
  icp <- add_option icp TAG_MIMETYPE (bs "document-format")
    (if is_text req then bs "text/plain" else bs "application/postscript") ;;
  put IBUFSZ icp [bz TAG_END_OF_ATTR].

(** The HTTP header. *)
Definition http_header {S} (pname : bytes) (clen : Z) : M S bytes :=
  hcp <- put_str HBUFSZ [] (bs "POST /ipp HTTP/1.1" ++ CRLF) ;;
  hcp <- put_str HBUFSZ hcp (bs "Content-Length: " ++ dec clen ++ CRLF) ;;
  hcp <- put_str HBUFSZ hcp (bs "Content-Type: application/ipp" ++ CRLF) ;;
  hcp <- put_str HBUFSZ hcp (bs "Host: " ++ pname ++ bs ":" ++ dec IPP_PORT ++ CRLF) ;;
  put HBUFSZ hcp CRLF.

Section printer.
Context (resolve : bytes -> option (option bytes)) (junk : Z -> byte).

(** [get_printaddr]: the canonical name of the address, when there is one. *)
Definition get_printaddr (f : bytes) : option (option bytes) :=
  match scan_configfile (bs "printer") f with
  | Some p => resolve p
  | None => None
  end.

Definition init_printer : M pst unit :=
  f <- gets p_conf ;;
  match get_printaddr f with
  | None => die (DExit 1)
  | Some None => modst (set_name (bs "printer"))
  | Some (Some n) => modst (set_name n)
  end.

(** ** The answer of the printer *)

Definition pget (bp : bytes) (i : Z) : M ios byte :=
  if 0 <=? i then
    match bp !! Z.to_nat i with Some c => ret c | None => undef "read outside the heap block" end
  else undef "read outside the heap block".

Definition pset (bp : bytes) (i : Z) (c : byte) : M ios bytes :=
  if (0 <=? i) && (i <? len bp) then ret (<[Z.to_nat i := c]> bp) else undef "store outside the heap block".

(** [while (p( *cp)) cp++] *)
Fixpoint scan_while (fuel : nat) (p : byte -> bool) (bp : bytes) (i : Z) : M ios Z :=
  match fuel with
  | O => fun _ => NoFuel
  | S f => c <- pget bp i ;; if p c then scan_while f p bp (i + 1) else ret i
  end.

Definition scan (p : byte -> bool) (bp : bytes) (i : Z) : M ios Z := scan_while (S (length bp)) p bp i.

Definition heap_junk (from n : Z) : bytes := junk <$> seqZ from n.

(** The return value, and the buffer. *)
Definition readmore (bp : bytes) (off : Z) : M ios (Z * bytes) :=
  let bp := if len bp <=? off then bp ++ heap_junk (len bp) IOBUFSZ else bp in
  if len bp <? off then undef "store outside the heap block"
  else
    r <- tread (len bp - off) ;;
    match r with
    | Some (c :: d) => ret (off + len (c :: d), splice (Z.to_nat off) (c :: d) bp)
    | _ => ret (-1, bp)
    end.

(** [if ((nr = readmore(...)) < 0) goto out; else datsz += nr]: [None] is the goto. *)
Definition more (bp : bytes) (i datsz : Z) : M ios (option (bytes * Z)) :=
  nb <- readmore bp i ;;
  let '(nr, bp) := nb in
  if nr <? 0 then ret None else ret (Some (bp, datsz + nr)).

Definition more_if (b : bool) (bp : bytes) (i datsz : Z) : M ios (option (bytes * Z)) :=
  if b then more bp i datsz else ret (Some (bp, datsz)).

(** [strncasecmp(cp, pat, strlen(pat)) == 0] *)
Fixpoint match_at (bp : bytes) (i : Z) (pat : bytes) : M ios bool :=
  match pat with
  | [] => ret true
  | x :: pat' =>
    c <- pget bp i ;;
    if bool_decide (tolower c = tolower x) then match_at bp (i + 1) pat' else ret false
  end.

(** [while ( *cp != 'C' && *cp != 'c' && i < datsz)] *)
Fixpoint find_c (fuel : nat) (bp : bytes) (i datsz : Z) : M ios Z :=
  match fuel with
  | O => fun _ => NoFuel
  | S f =>
    c <- pget bp i ;;
    if bool_decide (c <> "C"%byte) && bool_decide (c <> "c"%byte) && (i <? datsz) then find_c f bp (i + 1) datsz
    else ret i
  end.

Definition CONTENT_LENGTH : bytes := bs "Content-Length:".

(** The search for the length: the buffer, [i], [datsz] and [len]. *)
Fixpoint content_length (fuel : nat) (bp : bytes) (i datsz : Z) : M ios (option (bytes * Z * Z * Z)) :=
  match fuel with
  | O => fun _ => NoFuel
  | S f =>
    i <- find_c (S (length bp)) bp i datsz ;;
    r <- more_if (datsz <=? i) bp i datsz ;;
    match r with
    | None => ret None
    | Some (bp, datsz) =>
      m <- match_at bp i CONTENT_LENGTH ;;
      if (m : bool) then
        contentlen <- scan isspace bp (i + 15) ;;
        cp <- scan isdigit bp contentlen ;;
        bp <- pset bp cp NUL ;;
        ret (Some (bp, cp + 1, datsz, atoi (drop (Z.to_nat contentlen) bp)))
      else content_length f bp (i + 1) datsz
    end
  end.

(** [while (i < datsz - 2)]: whether the end of the header was found, and [i]. *)
Fixpoint find_end (fuel : nat) (bp : bytes) (i datsz : Z) : M ios (bool * Z) :=
  if i <? datsz - 2 then
    match fuel with
    | O => fun _ => NoFuel
    | S f =>
      c0 <- pget bp i ;;
      c1 <- (if bool_decide (c0 = LF) then pget bp (i + 1) else ret NUL) ;;
      c2 <- (if bool_decide (c1 = CR) then pget bp (i + 2) else ret NUL) ;;
      if bool_decide (c2 = LF) then ret (true, i + 3) else find_end f bp (i + 1) datsz
    end
  else ret (false, i).

(** [while (!found)] *)
Fixpoint header_end (fuel : nat) (bp : bytes) (i datsz : Z) : M ios (option (bytes * Z * Z)) :=
  match fuel with
  | O => fun _ => NoFuel
  | S f =>
    fi <- find_end (Z.to_nat (datsz - i)) bp i datsz ;;
    let '(found, i) := fi in
    r <- more_if (datsz <=? i) bp i datsz ;;
    match r with
    | None => ret None
    | Some (bp, datsz) => if (found : bool) then ret (Some (bp, i, datsz)) else header_end f bp i datsz
    end
  end.

(** The rest of the answer, when the HTTP status is a success: [success]. *)
Definition ipp_status (fuel : nat) (jobid : Z) (bp : bytes) (cp datsz : Z) : M ios bool :=
  r <- content_length fuel bp cp datsz ;;
  match r with
  | None => ret false
  | Some (bp, i, datsz, ln) =>
    r <- more_if (datsz <=? i) bp i datsz ;;
    match r with
    | None => ret false
    | Some (bp, datsz) =>
      r <- header_end fuel bp i datsz ;;
      match r with
      | None => ret false
      | Some (bp, i, datsz) =>
        r <- more_if (datsz - i <? ln) bp i datsz ;;
        match r with
        | None => ret false
        | Some (bp, datsz) =>
          pget bp (i + 7) ;;;
          let st := un_le32 (rev (slice (Z.to_nat i + 2) 2 bp) ++ [NUL; NUL]) in
          let id := i32 (un_le32 (rev (slice (Z.to_nat i + 4) 4 bp))) in
          ret (bool_decide (id = jobid) && STATCLASS_OK st)
        end
      end
    end
  end.

Fixpoint status_loop (fuel : nat) (jobid : Z) (bp : bytes) : M ios bool :=
  match fuel with
  | O => fun _ => NoFuel
  | S f =>
    r <- tread (len bp) ;;
    match r with
    | None | Some [] => ret false
    | Some d =>
      let bp := splice 0 d bp in
      let datsz := len d in
      statcode <- scan isspace bp 8 ;;
      cp <- scan isdigit bp statcode ;;
      if cp =? statcode then status_loop f jobid bp
      else
        bp <- pset bp cp NUL ;;
        cp <- scan (fun c => bool_decide (c <> CR) && bool_decide (c <> LF)) bp (cp + 1) ;;
        bp <- pset bp cp NUL ;;
        let code := atoi (drop (Z.to_nat statcode) bp) in
        if HTTP_INFO code then status_loop f jobid bp
        else if negb (HTTP_SUCCESS code) then pset bp datsz NUL ;;; ret false
        else ipp_status f jobid bp cp datsz
    end
  end.

Definition printer_status (fuel : nat) (jobid : Z) : M ios bool := status_loop fuel jobid (heap_junk 0 IOBUFSZ).

(** ** Printing a job *)

Inductive pres := PIdle | PCanceled | PPrinted | PDeferred.

(** A call on the spooled file ([open], [fstat] or [read]): whether it succeeds. *)
Definition file_op : M pst bool :=
  f <- on_d next_fault ;;
  match f with
  | FFail e => on_d (modst (set_derrno e)) ;;; ret false
  | _ => ret true
  end.

(** [open] for reading: the contents of the file. *)
Definition open_read (name : bytes) : M pst (option bytes) :=
  ok <- file_op ;;
  s <- getst ;;
  ret (if (ok : bool) then d_fs (p_d s) !! name else None).

Definition connect_retry : M pst bool := fun s =>
  match p_conns s with
  | Some k :: r => Ret true (Pst (p_d s) r k (printer_name s) (reread s) (p_conf s))
  | None :: r => Ret false (Pst (p_d s) r (p_sock s) (printer_name s) (reread s) (p_conf s))
  | [] => Ret false s
  end.

(** The loop that copies the document to the printer: false is [goto defer]. *)
Fixpoint send_doc (fuel : nat) (doc : bytes) : M pst bool :=
  match fuel with
  | O => fun _ => NoFuel
  | S n =>
    ok <- file_op ;;
    if negb ok then ret false
    else if bool_decide (doc = []) then ret true
    else
      let b := take (Z.to_nat IOBUFSZ) doc in
      nw <- on_sock (writen b) ;;
      if negb (nw =? len b) then ret false else send_doc n (drop (Z.to_nat IOBUFSZ) doc)
  end.

(** From [connect_retry] to [printer_status]: true when the printer accepted the job. *)
Definition send_job (fuel : nat) (jobid : Z) (req : printreq) (doc : bytes) : M pst bool :=
  ok <- connect_retry ;;
  if negb ok then ret false
  else
    s <- getst ;;
    ibuf <- ipp_header (printer_name s) jobid req ;;
    let extra := if is_text req then 1 else 0 in
    hbuf <- http_header (printer_name s) (len doc + len ibuf + extra) ;;
    nw <- on_sock (sock_write (hbuf ++ ibuf)) ;;
    if negb (nw =? len hbuf + len ibuf) then ret false
    else
      ok <- (if is_text req then nw <- on_sock (sock_write [x08]) ;; ret (nw =? 1) else ret true) ;;
      if negb ok then ret false
      else
        ok <- send_doc (S (length doc)) doc ;;
        if negb ok then ret false else on_sock (printer_status fuel jobid).

(** One turn of the loop of [printer_thread]. *)
Definition printer_turn (fuel : nat) : M pst pres :=
  r <- on_d (on_q pick_job) ;;
  match r with
  | None => ret PIdle
  | Some jp =>
    on_d update_jobno ;;;
    rr <- gets reread ;;
    when rr (modst (set_reread false) ;;; init_printer) ;;;
    j <- on_d (on_q (deref jp)) ;;
    f <- open_read (data_name (j_id j)) ;;
    match f with
    | None => on_d (on_q (jfree jp)) ;;; ret PCanceled
    | Some doc =>
      ok <- file_op ;;
      if negb ok then on_d (on_q (jfree jp)) ;;; ret PCanceled
      else
        ok <- send_job fuel (j_id j) (j_req j) doc ;;
        if (ok : bool) then
          on_d (unlink (data_name (j_id j))) ;;; on_d (unlink (req_name (j_id j))) ;;;
          on_d (on_q (jfree jp)) ;;; ret PPrinted
        else on_d (on_q (replace_job jp)) ;;; ret PDeferred
    end
  end.
End printer.

(** ** Signals *)

Definition SIGHUP : Z := 1.
Definition SIGTERM : Z := 15.

(** One turn of [signal_thread]: the threads canceled, when the daemon exits. *)
Definition signal_turn (signo : Z) : M pst (option (list Z)) :=
  if signo =? SIGHUP then modst (set_reread true) ;;; ret None
  else l <- on_d (on_w kill_workers) ;; ret (Some l).
