(* ===== verification/SpoolPrint.v ===== *)
(** * Theorems on the printer thread

    The configuration file, the headers sent to the printer, the reading of its answer and
    the fate of a job in one turn of the thread's loop.  The operations are those of
    SpoolPrinter.v. *)

From Stdlib Require Import Strings.Byte ZArith Lia.
From S2P Require Import Prelude Libc Posix Refine SpoolQueue SpoolIo SpoolServer SpoolPrinter.
From stdpp Require Import base strings numbers gmap list.
#[local] Open Scope Z_scope.

(** Equality of concatenations. *)
Ltac app_norm := repeat progress (rewrite <- ?app_assoc; cbn [app]); reflexivity.

(** ** The configuration file *)

(** A word of the file. *)
Definition is_word (w : bytes) : Prop := Forall (fun c => isspace c = false /\ c <> NUL) w /\ w <> [].

Lemma word_app w s k :
  Forall (fun c => isspace c = false) w -> (length w <= k)%nat -> (forall c, head s = Some c -> isspace c = true) ->
  word k (w ++ s) = (w, s).
Proof.
  revert k. induction w as [|c w IH]; intros k Hw Hk Hs; simpl.
  - destruct k, s; simpl; try done. by rewrite (Hs b).
  - destruct k as [|k]; simpl in *; [lia|]. inversion Hw as [|? ? Hc Hw']; subst. rewrite Hc.
    by rewrite (IH k Hw' ltac:(lia) Hs).
Qed.

Lemma skip_space_word w s : is_word w -> skip_space (w ++ s) = w ++ s.
Proof. intros [Hw Hn]. destruct w as [|c w]; [done|]. inversion Hw as [|? ? [Hc _] _]; subst. simpl. by rewrite Hc. Qed.

Lemma fgets_line l r :
  LF ∉ l -> (length l < 511)%nat -> fgets MAXCFGLINE (l ++ LF :: r) = Some (l ++ [LF], r).
Proof.
  intros Hl Hn. assert (Hgo : forall k, (length l < k)%nat -> fgets_go k (l ++ LF :: r) = (l ++ [LF], r)).
  { clear Hn. induction l as [|c l IH]; intros k Hk; (destruct k as [|k]; [simpl in Hk; lia|]); cbn [fgets_go app].
    - by rewrite decide_True.
    - rewrite decide_False by set_solver. rewrite IH; [done|set_solver|simpl in Hk; lia]. }
  unfold fgets. rewrite Hgo by (change (Z.to_nat (MAXCFGLINE - 1)) with 511%nat; lia). by destruct l.
Qed.

(** A line that does not define the keyword. *)
Definition other_line (keyword l : bytes) : Prop :=
  (LF ∉ l) /\ (length l < 511)%nat /\ (match sscanf_line (l ++ [LF]) with Some (k, _) => k <> keyword | None => True end).

Lemma sscanf_line_words key val :
  is_word key -> is_word val -> (length key <= 15)%nat -> (length val <= 511)%nat ->
  sscanf_line ((key ++ c_space :: val) ++ [LF]) = Some (key, val).
Proof.
  intros Hk Hv Lk Lv. assert (Hc : is_cstr ((key ++ c_space :: val) ++ [LF])).
  { destruct Hk as [Hk _], Hv as [Hv _]. rewrite !is_cstr_app, is_cstr_cons. split_and!; try done.
    - eapply Forall_impl; [exact Hk|]. by intros c [_ ?].
    - eapply Forall_impl; [exact Hv|]. by intros c [_ ?].
    - by repeat constructor. }
  unfold sscanf_line, scan_word. rewrite (cstr_id _ Hc), <- app_assoc. cbn [app].
  rewrite (skip_space_word key) by done. rewrite word_app; [| |done|].
  2: { destruct Hk as [Hk _]. eapply Forall_impl; [exact Hk|]. by intros c [? _]. }
  2: { intros c E. injection E as <-. done. }
  change (skip_space (c_space :: val ++ [LF])) with (skip_space (val ++ [LF])). rewrite (skip_space_word val) by done.
  rewrite word_app; [| |done|].
  2: { destruct Hv as [Hv _]. eapply Forall_impl; [exact Hv|]. by intros c [? _]. }
  2: { intros c E. injection E as <-. done. }
  destruct Hk as [_ Hk], Hv as [_ Hv]. by destruct key, val.
Qed.

(** The configuration file: the value of a keyword is the second word of the first
    line that starts with it, whatever the lines before it and after it hold. *)
Theorem config_lookup (keyword val rest : bytes) (pre : list bytes) :
  is_word keyword -> is_word val -> (length keyword <= 15)%nat -> (length keyword + length val < 510)%nat ->
  Forall (other_line keyword) pre ->
  scan_configfile keyword (concat ((fun l => l ++ [LF]) <$> pre) ++ (keyword ++ c_space :: val) ++ LF :: rest) = Some val.
Proof.
  intros Hk Hv Lk Lv Hpre. unfold scan_configfile. set (tl := (keyword ++ _) ++ _).
  assert (Hgo : forall fuel, (length pre < fuel)%nat -> scan_lines fuel keyword (concat ((fun l => l ++ [LF]) <$> pre) ++ tl) = Some val).
  { induction Hpre as [|l pre (Hl & Ln & Hm) Hpre IH]; intros fuel Hf; (destruct fuel as [|fuel]; [simpl in Hf; lia|]); cbn [scan_lines].
    - simpl. unfold tl. rewrite fgets_line; [|..].
      + rewrite sscanf_line_words by (done || lia). by rewrite strcmp_eqb, bool_decide_true.
      + intros Hin. destruct Hk as [Hk _], Hv as [Hv _]. rewrite Forall_forall in Hk, Hv.
        apply elem_of_app in Hin as [Hin|Hin]; [by destruct (Hk _ Hin)|].
        apply elem_of_cons in Hin as [Hin|Hin]; [done|by destruct (Hv _ Hin)].
      + rewrite length_app. simpl. lia.
    - rewrite fmap_cons. cbn [concat]. rewrite <- !app_assoc. cbn [app]. rewrite fgets_line by done.
      assert (Hrec : scan_lines fuel keyword (concat ((fun l => l ++ [LF]) <$> pre) ++ tl) = Some val)
        by (apply IH; simpl in Hf; lia).
      destruct (sscanf_line (l ++ [LF])) as [[k v]|]; [|done]. by rewrite strcmp_eqb, bool_decide_false. }
  apply Hgo. rewrite length_app. assert (length pre <= length (concat ((fun l => l ++ [LF]) <$> pre)))%nat; [|lia].
  clear. induction pre as [|l pre IH]; [done|]. rewrite fmap_cons. cbn [concat length]. rewrite !length_app. simpl. lia.
Qed.

(** ** The headers *)

Definition opt_bytes (tag : Z) (name val : bytes) : bytes := bz tag :: be16 (len name) ++ name ++ be16 (len val) ++ val.

(** A computation that stores [r] or runs off the buffer. *)
Definition stores {S} (m : M S bytes) (r : bytes) (fits : Prop) : Prop :=
  (fits -> forall s, m s = Ret r s) /\ forall s, m s = Ret r s \/ exists w, m s = Undef w.

Section stores.
Context {S : Type}.
Implicit Types m : M S bytes.

Lemma stores_put sz b d : stores (S := S) (put sz b d) (b ++ d) (len b + len d <= sz).
Proof. unfold put. split; intros; destruct (Z.leb_spec (len b + len d) sz); try lia; eauto. Qed.

Lemma stores_put_str sz b d : stores (S := S) (put_str sz b d) (b ++ d) (len b + len d + 1 <= sz).
Proof. unfold put_str. split; intros; destruct (Z.leb_spec (len b + len d + 1) sz); try lia; eauto. Qed.

Lemma stores_bind m f r r' (P Q : Prop) : stores m r P -> stores (f r) r' Q -> stores (bind m f) r' (P /\ Q).
Proof.
  intros [H1 H2] [H3 H4]. split.
  - intros [HP HQ] s. unfold bind. rewrite H1 by done. by apply H3.
  - intros s. unfold bind. destruct (H2 s) as [-> |[w ->]]; eauto.
Qed.

Lemma stores_weaken m r (P Q : Prop) : stores m r P -> (Q -> P) -> stores m r Q.
Proof. intros [H1 H2] HQ. split; auto. Qed.

Lemma stores_option cp tag name val :
  stores (S := S) (add_option cp tag name val) (cp ++ opt_bytes tag name val) (len cp + len name + len val + 6 <= IBUFSZ).
Proof.
  unfold add_option, opt_bytes. eapply stores_weaken.
  - eapply stores_bind; [apply stores_put|]. eapply stores_bind; [apply stores_put|]. eapply stores_bind; [apply stores_put_str|].
    eapply stores_bind; [apply stores_put|].
    match goal with |- stores ?m ?r ?Q => assert (E : r = (((cp ++ [bz tag]) ++ be16 (len name)) ++ name) ++ be16 (len val) ++ val) end.
    { by rewrite <- !app_assoc. }
    rewrite E, app_assoc. apply stores_put_str.
  - intros H. rewrite !len_app. change (len [bz tag]) with 1. change (len (be16 (len name))) with 2.
    change (len (be16 (len val))) with 2. pose proof (len_nonneg name). pose proof (len_nonneg val). lia.
Qed.
End stores.

(** What the header holds. *)
Definition doc_format (r : printreq) : bytes := if is_text r then bs "text/plain" else bs "application/postscript".
Definition printer_uri (pname : bytes) : bytes := bs "http://" ++ pname ++ bs "/ipp".
Definition ipp_options (pname : bytes) (r : printreq) : list (Z * bytes * bytes) :=
  [(TAG_CHARSET, bs "attributes-charset", bs "utf-8");
   (TAG_NATULANG, bs "attributes-natural-language", bs "en-us");
   (TAG_URI, bs "printer-uri", printer_uri pname);
   (TAG_NAMEWOLANG, bs "requesting-user-name", cstr (rq_usernm r));
   (TAG_NAMEWOLANG, bs "job-name", cstr (rq_jobnm r));
   (TAG_MIMETYPE, bs "document-format", doc_format r)].
Definition ipp_prefix (jobid : Z) : bytes := ([bz 1; bz 1] ++ be16 OP_PRINT_JOB ++ be32 jobid) ++ [bz TAG_OPERATION_ATTR].
Definition ipp_bytes (pname : bytes) (jobid : Z) (r : printreq) : bytes :=
  ipp_prefix jobid ++ concat ((fun '(t, n, v) => opt_bytes t n v) <$> ipp_options pname r) ++ [bz TAG_END_OF_ATTR].

Definition terminated (r : printreq) : Prop := NUL ∈ rq_usernm r /\ NUL ∈ rq_jobnm r.

(** The length of the header. *)
Definition ipp_len (pname : bytes) (r : printreq) : Z :=
  160 + len pname + strlen (rq_usernm r) + strlen (rq_jobnm r) + len (doc_format r).

Lemma len_ipp_bytes pname jobid r : len (ipp_bytes pname jobid r) = ipp_len pname r.
Proof.
  unfold ipp_bytes, ipp_len, ipp_options, strlen, len. rewrite !fmap_cons, fmap_nil. cbn [concat]. unfold opt_bytes, printer_uri.
  repeat rewrite ?length_app, ?length_cons. simpl length. lia.
Qed.

Lemma c_string_run {S} b (s : S) : NUL ∈ b -> c_string b s = Ret (cstr b) s.
Proof. intros H. unfold c_string. by rewrite bool_decide_true. Qed.

Lemma stores_c_string {S} b (f : bytes -> M S bytes) r P :
  NUL ∈ b -> stores (f (cstr b)) r P -> stores (bind (c_string b) f) r P.
Proof.
  intros Hb [H1 H2]. split; intros; unfold bind; rewrite c_string_run by done; auto.
Qed.

Lemma ipp_header_stores {S} pname jobid r :
  terminated r ->
  stores (S := S) (ipp_header pname jobid r) (ipp_bytes pname jobid r) (len pname <= 52 /\ ipp_len pname r <= IBUFSZ).
Proof.
  intros [Hu Hj]. unfold ipp_header.
  assert (E : forall a b c d e f g : bytes, ipp_prefix jobid ++ concat [a; b; c; d; e; f] ++ g =
    ((((((((ipp_prefix jobid) ++ a) ++ b) ++ c) ++ d) ++ e) ++ f) ++ g)) by (intros; simpl; by rewrite app_nil_r, <- !app_assoc).
  eapply stores_weaken.
  - eapply stores_bind; [apply stores_put|]. eapply stores_bind; [apply stores_put|].
    eapply stores_bind; [apply stores_option|]. eapply stores_bind; [apply stores_option|].
    eapply stores_bind; [apply stores_put_str|]. eapply stores_bind; [apply stores_option|].
    apply stores_c_string; [done|]. eapply stores_bind; [apply stores_option|].
    apply stores_c_string; [done|]. eapply stores_bind; [apply stores_option|].
    eapply stores_bind; [apply stores_option|]. unfold ipp_bytes, ipp_options. rewrite !fmap_cons, fmap_nil, E.
    apply stores_put.
  - intros [Hp Hl]. rewrite <- (len_ipp_bytes pname jobid r) in Hl. unfold ipp_bytes, ipp_options in Hl.
    rewrite !fmap_cons, fmap_nil, E in Hl. rewrite !app_nil_l. fold (ipp_prefix jobid). change (len (@nil byte)) with 0.
    change (if is_text r then bs "text/plain" else bs "application/postscript") with (doc_format r) in *.
    assert (Ho : forall t n v, len (opt_bytes t n v) = 5 + len n + len v).
    { intros t n v. unfold opt_bytes, len. repeat rewrite ?length_cons, ?length_app. simpl length. lia. }
    rewrite !len_app, !Ho in Hl. change (len [bz TAG_END_OF_ATTR]) with 1 in *.
    pose proof (len_nonneg pname). pose proof (len_nonneg (cstr (rq_usernm r))). pose proof (len_nonneg (cstr (rq_jobnm r))).
    pose proof (len_nonneg (doc_format r)).
    assert (Hpre : len (ipp_prefix jobid) = 9) by done.
    assert (Huri : len (printer_uri pname) = 11 + len pname) by (unfold printer_uri; rewrite !len_app; change (len (bs "http://")) with 7; change (len (bs "/ipp")) with 4; lia).
    unfold IBUFSZ in *. fold (printer_uri pname). rewrite ?len_app, ?Ho, ?Hpre, ?Huri in *.
    change (len (bs "attributes-charset")) with 18 in *. change (len (bs "utf-8")) with 5 in *.
    change (len (bs "attributes-natural-language")) with 27 in *. change (len (bs "en-us")) with 5 in *.
    change (len (bs "printer-uri")) with 11 in *. change (len (bs "requesting-user-name")) with 20 in *.
    change (len (bs "job-name")) with 8 in *. change (len (bs "document-format")) with 15 in *.
    change (len [bz TAG_END_OF_ATTR]) with 1. split_and!; try lia; try (vm_compute; discriminate).
Qed.

(** A header that does not fit is a store outside the buffer. *)
Lemma ipp_header_overflow {S} pname jobid r (s : S) :
  terminated r -> IBUFSZ < ipp_len pname r -> exists w, ipp_header pname jobid r s = Undef w.
Proof.
  intros Ht Hl. destruct (ipp_header_stores (S := S) pname jobid r Ht) as [_ H]. destruct (H s) as [E|E]; [|done]. exfalso.
  unfold ipp_header in E. repeat (apply bind_inv in E as (? & ? & _ & E)). unfold put in E.
  match type of E with (if ?c then _ else _) _ = _ => destruct c eqn:Hle end; [|done].
  apply Z.leb_le in Hle. injection E as E _. apply (f_equal len) in E. rewrite len_app, len_ipp_bytes in E. lia.
Qed.

(** A function that stores into buffers returns or leaves them, and changes no state. *)
Definition bounded {S} (m : M S bytes) : Prop := forall s, (exists b, m s = Ret b s) \/ exists w, m s = Undef w.

Lemma bounded_bind {S} (m : M S bytes) f : bounded m -> (forall b, bounded (f b)) -> bounded (bind m f).
Proof. intros Hm Hf s. unfold bind. destruct (Hm s) as [[b ->]|[w ->]]; [apply Hf|eauto]. Qed.

Lemma bounded_put {S} sz b d : bounded (S := S) (put sz b d).
Proof. intros s. unfold put. destruct (_ <=? _); [left|right]; by eexists. Qed.

Lemma bounded_put_str {S} sz b d : bounded (S := S) (put_str sz b d).
Proof. intros s. unfold put_str. destruct (_ <=? _); [left|right]; by eexists. Qed.

Lemma bounded_c_string {S} b : bounded (S := S) (c_string b).
Proof. intros s. unfold c_string. destruct (bool_decide _); [left|right]; by eexists. Qed.

Lemma bounded_option {S} cp tag n v : bounded (S := S) (add_option cp tag n v).
Proof. unfold add_option. repeat (apply bounded_bind; [auto using bounded_put, bounded_put_str|intros ?]). apply bounded_put_str. Qed.

#[local] Hint Resolve bounded_put bounded_put_str bounded_c_string bounded_option : core.

Lemma ipp_header_bounded {S} pname jobid r : bounded (S := S) (ipp_header pname jobid r).
Proof. unfold ipp_header. repeat (apply bounded_bind; [auto|intros ?]). auto. Qed.

(** A header is built only from terminated fields, a name that fits the URI buffer, and
    within the IPP buffer. *)
Lemma ipp_header_fits {S} pname jobid r (s : S) b s' :
  ipp_header pname jobid r s = Ret b s' -> terminated r /\ len pname <= 52 /\ ipp_len pname r <= IBUFSZ.
Proof.
  intros E. assert (Hfit : terminated r /\ len pname <= 52).
  { unfold ipp_header in E. do 4 (apply bind_inv in E as (? & ? & _ & E)). apply bind_inv in E as (str & s1 & Hs & E).
    apply bind_inv in E as (? & ? & _ & E). apply bind_inv in E as (u & s2 & Hu & E). apply bind_inv in E as (? & ? & _ & E).
    apply bind_inv in E as (j & s3 & Hj & _). unfold c_string in Hu, Hj. unfold put_str in Hs.
    destruct (bool_decide (NUL ∈ rq_usernm r)) eqn:Eu; [|done]. destruct (bool_decide (NUL ∈ rq_jobnm r)) eqn:Ej; [|done].
    apply bool_decide_eq_true in Eu, Ej. split; [done|]. rewrite !len_app in Hs. change (len (@nil byte)) with 0 in Hs.
    change (len (bs "http://")) with 7 in Hs. change (len (bs "/ipp")) with 4 in Hs.
    destruct (Z.leb_spec (0 + (7 + (len pname + 4)) + 1) 64); [lia|done]. }
  destruct Hfit as [Ht Hp]. split_and!; try done. destruct (Z_le_gt_dec (ipp_len pname r) IBUFSZ) as [|Hl]; [done|].
  destruct (ipp_header_overflow pname jobid r s Ht ltac:(lia)) as [w Hw]. congruence.
Qed.

#[global] Instance terminated_dec r : Decision (terminated r) := ltac:(unfold terminated; apply _).

(** An IPP reader: the attributes up to the end tag, and what follows it. *)
Fixpoint ipp_attrs (fuel : nat) (b : bytes) : option (list (Z * bytes * bytes) * bytes) :=
  match fuel, b with
  | S f, t :: r =>
    if uc t =? TAG_END_OF_ATTR then Some ([], r)
    else
      match r with
      | n1 :: n0 :: r =>
        let n := Z.to_nat (uc n1 * 256 + uc n0) in
        match drop n r with
        | v1 :: v0 :: r' =>
          let v := Z.to_nat (uc v1 * 256 + uc v0) in
          match ipp_attrs f (drop v r') with
          | Some (l, rest) => Some ((uc t, take n r, take v r') :: l, rest)
          | None => None
          end
        | _ => None
        end
      | _ => None
      end
  | _, _ => None
  end.

Lemma be16_value v : 0 <= v < 65536 -> be16 v = [bz (v / 2 ^ 8); bz v] /\ uc (bz (v / 2 ^ 8)) * 256 + uc (bz v) = v.
Proof.
  intros H. split; [done|]. rewrite !uc_bz. change (2 ^ 8) with 256.
  rewrite (Z.mod_small (v / 256)) by (split; [apply Z.div_pos; lia|apply Z.div_lt_upper_bound; lia]).
  pose proof (Z.div_mod v 256). lia.
Qed.

Lemma ipp_attrs_option f t n v rest :
  0 <= t < 256 -> t <> TAG_END_OF_ATTR -> len n < 65536 -> len v < 65536 ->
  ipp_attrs (S f) (opt_bytes t n v ++ rest) =
  match ipp_attrs f rest with Some (l, r) => Some ((t, n, v) :: l, r) | None => None end.
Proof.
  intros Ht Hne Hn Hv. pose proof (len_nonneg n). pose proof (len_nonneg v). unfold opt_bytes.
  destruct (be16_value (len n)) as [-> En]; [lia|]. destruct (be16_value (len v)) as [-> Ev]; [lia|].
  cbn [app ipp_attrs]. rewrite uc_bz, Z.mod_small by lia. destruct (Z.eqb_spec t TAG_END_OF_ATTR); [done|].
  rewrite En. replace (Z.to_nat (len n)) with (length n) by (unfold len; lia). rewrite <- !app_assoc, drop_app_length, take_app_length.
  cbn [app]. rewrite Ev. replace (Z.to_nat (len v)) with (length v) by (unfold len; lia).
  by rewrite drop_app_length, take_app_length.
Qed.

Lemma ipp_attrs_options opts f rest :
  Forall (fun '(t, n, v) => 0 <= t < 256 /\ t <> TAG_END_OF_ATTR /\ len n < 65536 /\ len v < 65536) opts -> (length opts < f)%nat ->
  ipp_attrs f (concat ((fun '(t, n, v) => opt_bytes t n v) <$> opts) ++ bz TAG_END_OF_ATTR :: rest) = Some (opts, rest).
Proof.
  revert f. induction opts as [|[[t n] v] opts IH]; intros f Ho Hf; (destruct f as [|f]; [simpl in Hf; lia|]).
  - done.
  - apply Forall_cons in Ho as [(H1 & H2 & H3 & H4) Ho']. rewrite fmap_cons. cbn [concat]. rewrite <- app_assoc.
    rewrite ipp_attrs_option by done. rewrite IH; [done|done|simpl in Hf; lia].
Qed.

(** C29: The IPP header, for every printer name and request.  When the two names of the
    request are terminated, the printer's name has at most 52 bytes, so that the URI fits
    its 64-byte buffer, and the header has at most 512 bytes, it is built, and a reader of
    the format finds the operation, the job number and the six attributes with the
    printer's, the user's and the job's name in it.  In every other case the code leaves
    one of the buffers. *)
Theorem ipp_header_correct (pname : bytes) (jobid : Z) (r : printreq) (s : unit) :
  if decide (terminated r /\ len pname <= 52 /\ ipp_len pname r <= IBUFSZ) then
    exists attrs, ipp_header pname jobid r s = Ret ([bz 1; bz 1] ++ be16 OP_PRINT_JOB ++ be32 jobid ++ bz TAG_OPERATION_ATTR :: attrs) s /\
      ipp_attrs 7 attrs = Some (ipp_options pname r, [])
  else exists w, ipp_header pname jobid r s = Undef w.
Proof.
  case_decide as Hall.
  2: { destruct (ipp_header_bounded pname jobid r s) as [[b Hb]|[w Hw]]; [|eauto]. destruct Hall. by eapply ipp_header_fits. }
  destruct Hall as (Ht & Hp & Hl).
  exists (concat ((fun '(t, n, v) => opt_bytes t n v) <$> ipp_options pname r) ++ [bz TAG_END_OF_ATTR]). split.
  - by rewrite (proj1 (ipp_header_stores pname jobid r Ht) (conj Hp Hl)).
  - apply ipp_attrs_options; [|simpl; lia]. unfold ipp_len, IBUFSZ, strlen in Hl.
    pose proof (len_nonneg pname). pose proof (len_nonneg (cstr (rq_usernm r))). pose proof (len_nonneg (cstr (rq_jobnm r))).
    pose proof (len_nonneg (doc_format r)).
    assert (Huri : len (printer_uri pname) = 11 + len pname)
      by (unfold printer_uri; rewrite !len_app; change (len (bs "http://")) with 7; change (len (bs "/ipp")) with 4; lia).
    unfold ipp_options. repeat (apply Forall_cons_2); try apply Forall_nil_2; cbn [fst snd];
      (split; [done|]; split; [done|]; split; [done|]); try done; lia.
Qed.

(** A request that the print command itself can send overflows the IPP buffer: a user
    name of 63 characters, a job name of 255 and a printer name of 13 make a header of
    513 bytes for a PostScript document. *)
Theorem ipp_header_overruns (jobid : Z) (s : unit) :
  let r := Req 0 0 (replicate 63 "u"%byte ++ [NUL]) (replicate 255 "j"%byte ++ [NUL]) in
  exists w, ipp_header (replicate 13 "p"%byte) jobid r s = Undef w.
Proof.
  intros r. apply ipp_header_overflow.
  - split; cbn [rq_usernm rq_jobnm]; apply elem_of_app; right; by apply list_elem_of_here.
  - by vm_compute.
Qed.

(** *** The HTTP header *)

Definition http_bytes (pname : bytes) (clen : Z) : bytes :=
  bs "POST /ipp HTTP/1.1" ++ CRLF ++ bs "Content-Length: " ++ dec clen ++ CRLF ++
  bs "Content-Type: application/ipp" ++ CRLF ++ bs "Host: " ++ pname ++ bs ":" ++ dec IPP_PORT ++ CRLF ++ CRLF.

Lemma http_header_run {S} pname clen (s : S) :
  len pname <= 52 -> 0 <= clen < 2 ^ 63 -> http_header pname clen s = Ret (http_bytes pname clen) s.
Proof.
  intros Hp Hc.
  assert (Hd : (length (dec clen) <= 19)%nat) by (apply length_dec_le; lia).
  assert (H : stores (S := S) (http_header pname clen) (http_bytes pname clen) (len pname <= 52)); [|by apply H].
  unfold http_header. eapply stores_weaken.
  - eapply stores_bind; [apply stores_put_str|]. eapply stores_bind; [apply stores_put_str|].
    eapply stores_bind; [apply stores_put_str|]. eapply stores_bind; [apply stores_put_str|].
    match goal with |- stores ?m _ _ => match m with put ?z ?b ?d => assert (E : http_bytes pname clen = b ++ d) end end.
    { unfold http_bytes. by rewrite <- !app_assoc. }
    rewrite E. apply stores_put.
  - intros _. unfold len, HBUFSZ in *. repeat rewrite ?length_app. simpl length. lia.
Qed.

(** ** The answer of the printer *)

Section answer.
Context (junk : Z -> byte).

Lemma pget_app p c q s : pget (p ++ c :: q) (len p) s = Ret c s.
Proof.
  unfold pget. pose proof (len_nonneg p). destruct (Z.leb_spec 0 (len p)); [|lia].
  replace (Z.to_nat (len p)) with (length p) by (unfold len; lia). by rewrite list_lookup_middle.
Qed.

Lemma pset_app p c q x s : pset (p ++ c :: q) (len p) x s = Ret (p ++ x :: q) s.
Proof.
  unfold pset. pose proof (len_nonneg p). rewrite len_app, len_cons. pose proof (len_nonneg q).
  destruct (Z.leb_spec 0 (len p)); [|lia]. destruct (Z.ltb_spec (len p) (len p + (1 + len q))); [|lia]. cbn [andb].
  replace (Z.to_nat (len p)) with (length p + 0)%nat by (unfold len; lia). by rewrite insert_app_r.
Qed.

Lemma scan_while_app fuel P p w c q s :
  Forall (fun c => P c = true) w -> P c = false -> (length w < fuel)%nat ->
  scan_while fuel P (p ++ w ++ c :: q) (len p) s = Ret (len (p ++ w)) s.
Proof.
  revert fuel p. induction w as [|x w IH]; intros fuel p Hw Hc Hf; (destruct fuel as [|f]; [simpl in Hf; lia|]); cbn [scan_while].
  - cbn [app]. rewrite (bind_ret _ _ _ _ _ (pget_app p c q s)), Hc, app_nil_r. done.
  - inversion Hw; subst. cbn [app]. rewrite (bind_ret _ _ _ _ _ (pget_app p x (w ++ c :: q) s)), H1.
    replace (len p + 1) with (len (p ++ [x])) by (rewrite len_app; done).
    replace (p ++ x :: w ++ c :: q) with ((p ++ [x]) ++ w ++ c :: q) by (by rewrite <- app_assoc).
    rewrite IH; [by rewrite <- app_assoc|done|done|simpl in Hf; lia].
Qed.

Lemma scan_app P p w c q s :
  Forall (fun c => P c = true) w -> P c = false -> scan P (p ++ w ++ c :: q) (len p) s = Ret (len (p ++ w)) s.
Proof. intros. apply scan_while_app; try done. rewrite !length_app. simpl. lia. Qed.

(** [strncasecmp] of the start of a string with a pattern. *)
Fixpoint ci_prefix (pat s : bytes) : bool :=
  match pat, s with
  | [], _ => true
  | x :: pat', c :: s' => bool_decide (tolower c = tolower x) && ci_prefix pat' s'
  | _ :: _, [] => false
  end.

Lemma match_at_app pat p q s :
  (length pat <= length q)%nat -> match_at (p ++ q) (len p) pat s = Ret (ci_prefix pat q) s.
Proof.
  revert p q. induction pat as [|x pat IH]; intros p q Hl; [done|]. destruct q as [|c q]; [simpl in Hl; lia|].
  cbn [match_at ci_prefix]. rewrite (bind_ret _ _ _ _ _ (pget_app p c q s)). case_bool_decide; [|done]. cbn [andb].
  replace (len p + 1) with (len (p ++ [c])) by (rewrite len_app; done).
  replace (p ++ c :: q) with ((p ++ [c]) ++ q) by (by rewrite <- app_assoc). apply IH. simpl in Hl. lia.
Qed.

Definition is_c (c : byte) : Prop := c = "C"%byte \/ c = "c"%byte.

Lemma find_c_app fuel p w c q datsz s :
  Forall (fun x => ~ is_c x) w -> is_c c -> (length w < fuel)%nat -> len p + len w <= datsz ->
  find_c fuel (p ++ w ++ c :: q) (len p) datsz s = Ret (len (p ++ w)) s.
Proof.
  revert fuel p. induction w as [|x w IH]; intros fuel p Hw Hc Hf Hd; (destruct fuel as [|f]; [simpl in Hf; lia|]); cbn [find_c].
  - cbn [app]. rewrite (bind_ret _ _ _ _ _ (pget_app p c q s)), app_nil_r.
    destruct Hc as [-> | ->]; repeat (rewrite bool_decide_false by tauto); cbn [andb]; rewrite ?andb_false_r; done.
  - inversion Hw as [|? ? Hx Hw']; subst. cbn [app]. rewrite (bind_ret _ _ _ _ _ (pget_app p x (w ++ c :: q) s)).
    rewrite len_cons in Hd. pose proof (len_nonneg w). unfold is_c in Hx.
    rewrite !bool_decide_true by tauto. destruct (Z.ltb_spec (len p) datsz); [|lia]. cbn [andb].
    replace (len p + 1) with (len (p ++ [x])) by (rewrite len_app; done).
    replace (p ++ x :: w ++ c :: q) with ((p ++ [x]) ++ w ++ c :: q) by (by rewrite <- app_assoc).
    rewrite IH; [by rewrite <- app_assoc|done|done|simpl in Hf; lia|]. rewrite len_app. change (len [x]) with 1. lia.
Qed.

(** The first C of a text. *)
Lemma first_c (w : bytes) : Forall (fun x => ~ is_c x) w \/ exists w1 c w2, w = w1 ++ c :: w2 /\ is_c c /\ Forall (fun x => ~ is_c x) w1.
Proof.
  induction w as [|x w IH]; [by left|]. assert (Hd : is_c x \/ ~ is_c x).
  { unfold is_c. destruct (decide (x = "C"%byte)), (decide (x = "c"%byte)); tauto. }
  destruct Hd as [Hx|Hx].
  - right. exists [], x, w. split; [done|]. split; [done|constructor].
  - destruct IH as [IH|(w1 & c & w2 & -> & Hc & Hw)]; [left; by constructor|]. right. exists (x :: w1), c, w2. split; [done|].
    split; [done|]. by constructor.
Qed.

(** The keyword starts nowhere in [w]. *)
Definition no_length (w : bytes) : Prop :=
  forall k, (k < length w)%nat -> ci_prefix CONTENT_LENGTH (drop k (w ++ CONTENT_LENGTH)) = false.

Lemma ci_prefix_app pat a b : (length pat <= length a)%nat -> ci_prefix pat (a ++ b) = ci_prefix pat a.
Proof.
  revert a. induction pat as [|x pat IH]; intros a Hl; [done|]. destruct a as [|c a]; [simpl in Hl; lia|].
  simpl. by rewrite IH by (simpl in Hl; lia).
Qed.

Lemma ci_prefix_self pat q : ci_prefix pat (pat ++ q) = true.
Proof. induction pat as [|x pat IH]; [done|]. simpl. by rewrite bool_decide_true. Qed.

Lemma more_if_false bp i datsz s : more_if junk false bp i datsz s = Ret (Some (bp, datsz)) s.
Proof. done. Qed.

(** The search for the length skips a text without the keyword. *)
Lemma content_length_skip fuel p w q datsz s :
  no_length w -> len (p ++ w ++ CONTENT_LENGTH) <= datsz -> (length w < fuel)%nat ->
  content_length junk fuel (p ++ w ++ CONTENT_LENGTH ++ q) (len p) datsz s =
    (contentlen <- scan isspace (p ++ w ++ CONTENT_LENGTH ++ q) (len (p ++ w) + 15) ;;
     cp <- scan isdigit (p ++ w ++ CONTENT_LENGTH ++ q) contentlen ;;
     bp <- pset (p ++ w ++ CONTENT_LENGTH ++ q) cp NUL ;;
     ret (Some (bp, cp + 1, datsz, atoi (drop (Z.to_nat contentlen) bp)))) s.
Proof.
  remember (length w) as n eqn:En. revert fuel p w En. induction (lt_wf n) as [n _ IH]; intros fuel p w En Hno Hd Hf.
  destruct fuel as [|f]; [lia|]. rewrite !len_app in Hd. pose proof (len_nonneg w). change (len CONTENT_LENGTH) with 15 in Hd.
  cbn [content_length]. destruct (first_c w) as [Hw|(w1 & c & w2 & Ew & Hc & Hw)].
  - change CONTENT_LENGTH with ("C"%byte :: drop 1 CONTENT_LENGTH) at 1 2. cbn [app].
    erewrite bind_ret; [|apply find_c_app; [done|by left|rewrite !length_app; lia|lia]].
    destruct (Z.leb_spec datsz (len (p ++ w))) as [Hx|_]; [rewrite len_app in Hx; lia|].
    rewrite (bind_ret _ _ _ _ _ (more_if_false _ _ _ _)).
    change ("C"%byte :: drop 1 CONTENT_LENGTH ++ q) with (CONTENT_LENGTH ++ q).
    rewrite (app_assoc p w). erewrite bind_ret; [|apply match_at_app; rewrite length_app; lia]. by rewrite ci_prefix_self.
  - subst w. rewrite <- app_assoc. cbn [app].
    assert (Hl : length (w1 ++ c :: w2) = (length w1 + S (length w2))%nat) by (rewrite length_app; simpl; lia).
    assert (Hlz : len (w1 ++ c :: w2) = len w1 + (1 + len w2)) by (by rewrite len_app, len_cons).
    pose proof (len_nonneg w2).
    erewrite bind_ret; [|apply find_c_app; [done|done|rewrite !length_app; lia|lia]].
    destruct (Z.leb_spec datsz (len (p ++ w1))) as [Hx|_]; [rewrite len_app in Hx; lia|].
    rewrite (bind_ret _ _ _ _ _ (more_if_false _ _ _ _)).
    assert (Hm : ci_prefix CONTENT_LENGTH (c :: w2 ++ CONTENT_LENGTH ++ q) = false).
    { rewrite <- (Hno (length w1)) by lia. rewrite <- app_assoc, drop_app_length.
      change (c :: w2 ++ CONTENT_LENGTH ++ q) with ((c :: w2) ++ CONTENT_LENGTH ++ q).
      rewrite app_assoc. rewrite ci_prefix_app by (rewrite length_app; lia). done. }
    rewrite (app_assoc p w1). erewrite bind_ret; [|apply match_at_app; simpl; rewrite !length_app; simpl; lia]. rewrite Hm.
    replace (len (p ++ w1) + 1) with (len ((p ++ w1) ++ [c])) by (rewrite (len_app (p ++ w1)); done).
    replace ((p ++ w1) ++ c :: w2 ++ CONTENT_LENGTH ++ q) with (((p ++ w1) ++ [c]) ++ w2 ++ CONTENT_LENGTH ++ q)
      by (by rewrite <- !app_assoc).
    rewrite (IH (length w2) ltac:(lia) f ((p ++ w1) ++ [c]) w2 eq_refl).
    + by replace (((p ++ w1) ++ [c]) ++ w2) with (p ++ w1 ++ c :: w2) by (by rewrite <- !app_assoc).
    + intros k Hk. rewrite <- (Hno (length w1 + S k)%nat) by lia. rewrite <- app_assoc. cbn [app]. by rewrite drop_app_add.
    + rewrite !len_app. change (len [c]) with 1. change (len CONTENT_LENGTH) with 15. lia.
    + lia.
Qed.

(** The end of the header. *)
Definition blank_line (s : bytes) : bool :=
  match s with a :: b :: c :: _ => bool_decide (a = LF) && bool_decide (b = CR) && bool_decide (c = LF) | _ => false end.

(** No blank line starts in [w] when [z] follows. *)
Definition no_blank (w z : bytes) : Prop := forall k, (k < length w)%nat -> blank_line (drop k (w ++ z)) = false.

Lemma find_end_step fuel p a b c q datsz s :
  len p + 2 < datsz ->
  find_end (S fuel) (p ++ a :: b :: c :: q) (len p) datsz s =
  if blank_line (a :: b :: c :: q) then Ret (true, len p + 3) s
  else find_end fuel (p ++ a :: b :: c :: q) (len p + 1) datsz s.
Proof.
  intros Hd. cbn [find_end]. destruct (Z.ltb_spec (len p) (datsz - 2)); [|lia].
  rewrite (bind_ret _ _ _ _ _ (pget_app p a _ s)). unfold blank_line.
  assert (E1 : pget (p ++ a :: b :: c :: q) (len p + 1) s = Ret b s).
  { replace (len p + 1) with (len (p ++ [a])) by (rewrite len_app; done).
    replace (p ++ a :: b :: c :: q) with ((p ++ [a]) ++ b :: c :: q) by (by rewrite <- app_assoc). apply pget_app. }
  assert (E2 : pget (p ++ a :: b :: c :: q) (len p + 2) s = Ret c s).
  { replace (len p + 2) with (len (p ++ [a; b])) by (rewrite len_app; done).
    replace (p ++ a :: b :: c :: q) with ((p ++ [a; b]) ++ c :: q) by (by rewrite <- app_assoc). apply pget_app. }
  case_bool_decide as Ha; cbn [andb].
  - rewrite (bind_ret _ _ _ _ _ E1). case_bool_decide as Hb; cbn [andb].
    + rewrite (bind_ret _ _ _ _ _ E2). by case_bool_decide.
    + by erewrite bind_ret by reflexivity.
  - erewrite bind_ret by reflexivity. cbv beta. rewrite bool_decide_false by done. by erewrite bind_ret by reflexivity.
Qed.

Lemma find_end_app fuel p w q datsz s :
  no_blank w [LF; CR; LF] -> len (p ++ w ++ [LF; CR; LF]) <= datsz -> (length w < fuel)%nat ->
  find_end fuel (p ++ w ++ [LF; CR; LF] ++ q) (len p) datsz s = Ret (true, len (p ++ w) + 3) s.
Proof.
  revert fuel p. induction w as [|a w IH]; intros fuel p Hno Hd Hf; (destruct fuel as [|f]; [simpl in Hf; lia|]).
  - rewrite app_nil_r. cbn [app]. rewrite len_app in Hd. change (len ([] ++ [LF; CR; LF])) with 3 in Hd.
    rewrite find_end_step by lia. done.
  - assert (Hb : exists b c q', w ++ [LF; CR; LF] ++ q = b :: c :: q' /\ blank_line (a :: b :: c :: q') = false).
    { pose proof (Hno 0%nat ltac:(simpl; lia)) as H0. rewrite drop_0 in H0. destruct w as [|b [|c w]]; eexists _, _, _; (split; [reflexivity|]).
      - exact H0. - exact H0. - exact H0. }
    destruct Hb as (b & c & q' & Eq & Hb). rewrite !len_app, len_cons in Hd. change (len [LF; CR; LF]) with 3 in Hd.
    pose proof (len_nonneg w). cbn [app] in Eq |- *. rewrite Eq, find_end_step by lia. rewrite Hb, <- Eq.
    replace (len p + 1) with (len (p ++ [a])) by (rewrite len_app; done).
    replace (p ++ a :: w ++ [LF; CR; LF] ++ q) with ((p ++ [a]) ++ w ++ [LF; CR; LF] ++ q) by (by rewrite <- app_assoc).
    change (LF :: CR :: LF :: q) with ([LF; CR; LF] ++ q).
    replace (p ++ a :: w ++ [LF; CR; LF] ++ q) with ((p ++ [a]) ++ w ++ [LF; CR; LF] ++ q) by (by rewrite <- app_assoc).
    rewrite IH; [by rewrite <- !app_assoc| | |simpl in Hf; lia].
    + intros k Hk. apply (Hno (S k)). simpl. lia.
    + rewrite !len_app. change (len [a]) with 1. change (len [LF; CR; LF]) with 3. lia.
Qed.

(** An answer of the printer: the status line, header lines, the length of the body,
    [ha_more] between the length and the end of the header (empty, or a line feed and
    further lines), and an IPP response. *)
Record http_answer := HttpAnswer {
  ha_version : bytes; ha_code : Z; ha_reason : bytes; ha_lines : bytes; ha_more : bytes;
  ha_ippver : byte * byte; ha_status : Z; ha_id : Z; ha_attrs : bytes
}.

Definition answer_body (a : http_answer) : bytes :=
  [(ha_ippver a).1; (ha_ippver a).2] ++ be16 (ha_status a) ++ be32 (ha_id a) ++ ha_attrs a.

(** The header after the carriage return of the status line, up to the length and whole. *)
Definition head_length (lines : bytes) (n : Z) : bytes := LF :: lines ++ CONTENT_LENGTH ++ c_space :: dec n.
Definition head_rest (lines : bytes) (n : Z) (more : bytes) : bytes := head_length lines n ++ CR :: more ++ [LF; CR; LF].

Definition status_line (version : bytes) (code : Z) (reason : bytes) : bytes :=
  version ++ c_space :: dec code ++ c_space :: reason.

Definition answer_head (a : http_answer) : bytes :=
  status_line (ha_version a) (ha_code a) (ha_reason a) ++
  CR :: head_rest (ha_lines a) (len (answer_body a)) (ha_more a).
Definition answer_bytes (a : http_answer) : bytes := answer_head a ++ answer_body a.

Record answer_ok (a : http_answer) : Prop := AnswerOk {
  ao_version : length (ha_version a) = 8%nat;
  ao_code : 200 <= ha_code a <= 299;
  ao_reason : Forall (fun c => c <> CR /\ c <> LF) (ha_reason a);
  ao_lines : no_length (ha_lines a);
  ao_more : no_blank (ha_more a) [LF; CR; LF];
  ao_status : 0 <= ha_status a < 65536;
  ao_id : 0 <= ha_id a < 2 ^ 31;
  ao_len : len (answer_bytes a) <= IOBUFSZ
}.

Lemma scan_status_line version code reason x rest s :
  length version = 8%nat -> 0 <= code < 1000 -> Forall (fun c => c <> CR /\ c <> LF) reason -> x = CR \/ x = LF ->
  let bp := status_line version code reason ++ x :: rest in
  let bp' := (version ++ c_space :: dec code ++ NUL :: reason) ++ NUL :: rest in
  scan isspace bp 8 s = Ret 9 s /\
  scan isdigit bp 9 s = Ret (9 + len (dec code)) s /\
  pset bp (9 + len (dec code)) NUL s = Ret ((version ++ c_space :: dec code ++ NUL :: reason) ++ x :: rest) s /\
  scan (fun c => bool_decide (c <> CR) && bool_decide (c <> LF)) ((version ++ c_space :: dec code ++ NUL :: reason) ++ x :: rest)
    (9 + len (dec code) + 1) s = Ret (len (status_line version code reason)) s /\
  pset ((version ++ c_space :: dec code ++ NUL :: reason) ++ x :: rest) (len (status_line version code reason)) NUL s = Ret bp' s /\
  atoi (drop 9 bp') = code.
Proof.
  intros Hv Hc Hr Hx. cbv zeta. unfold status_line.
  assert (H8 : len version = 8) by (unfold len; lia). assert (H9 : len (version ++ [c_space]) = 9) by (rewrite len_app, H8; done).
  pose proof (dec_digits code ltac:(lia)) as Hdig. pose proof (dec_nonnil code ltac:(lia)) as Hnn.
  assert (Hlast : len (version ++ c_space :: dec code ++ c_space :: reason) = len (version ++ c_space :: dec code ++ NUL :: reason))
    by (rewrite !len_app, !len_cons, !len_app, !len_cons; lia).
  assert (Hp2 : len ((version ++ [c_space]) ++ dec code) = 9 + len (dec code)) by (by rewrite len_app, H9).
  split_and!.
  - destruct (dec code) as [|c0 ds] eqn:Ed; [done|].
    replace ((version ++ c_space :: (c0 :: ds) ++ c_space :: reason) ++ x :: rest)
      with (version ++ [c_space] ++ c0 :: (ds ++ c_space :: reason ++ x :: rest)) by app_norm.
    rewrite <- H8 at 1. rewrite scan_app; [by rewrite H9|by repeat constructor|].
    inversion Hdig as [|? ? Hd0]; subst. exact (proj1 (isdigit_not_special _ Hd0)).
  - replace ((version ++ c_space :: dec code ++ c_space :: reason) ++ x :: rest)
      with ((version ++ [c_space]) ++ dec code ++ c_space :: (reason ++ x :: rest)) by app_norm.
    rewrite <- H9 at 1. rewrite scan_app; [by rewrite Hp2|done|done].
  - replace ((version ++ c_space :: dec code ++ c_space :: reason) ++ x :: rest)
      with (((version ++ [c_space]) ++ dec code) ++ c_space :: (reason ++ x :: rest)) by app_norm.
    rewrite <- Hp2, pset_app. f_equal. app_norm.
  - rewrite Hlast.
    replace ((version ++ c_space :: dec code ++ NUL :: reason) ++ x :: rest)
      with ((((version ++ [c_space]) ++ dec code) ++ [NUL]) ++ reason ++ x :: rest) by app_norm.
    replace (9 + len (dec code) + 1) with (len (((version ++ [c_space]) ++ dec code) ++ [NUL])) by (rewrite len_app, Hp2; done).
    rewrite scan_app.
    + do 2 f_equal. app_norm.
    + eapply Forall_impl; [exact Hr|]. intros c [H1 H2]. by rewrite !bool_decide_true.
    + destruct Hx as [-> | ->]; [done|]. by rewrite (bool_decide_false (LF <> LF)), andb_false_r by tauto.
  - rewrite Hlast. apply pset_app.
  - rewrite <- app_assoc. change (version ++ (c_space :: dec code ++ NUL :: reason) ++ NUL :: rest)
      with (version ++ [c_space] ++ (dec code ++ NUL :: reason) ++ NUL :: rest). rewrite app_assoc.
    replace 9%nat with (length (version ++ [c_space])) by (rewrite length_app; simpl; lia).
    rewrite drop_app_length, <- app_assoc. cbn [app]. apply (atoi_pad 0); [lia|]. intros c E. injection E as <-. done.
Qed.

(** What the answer says of the job. *)
Definition verdict (a : http_answer) (jobid : Z) : bool := bool_decide (ha_id a = jobid) && (ha_status a <=? 255).

Lemma no_length_cons c w : tolower c <> tolower "C"%byte -> no_length w -> no_length (c :: w).
Proof.
  intros Hc Hw [|k] Hk.
  - rewrite drop_0. change CONTENT_LENGTH with ("C"%byte :: drop 1 CONTENT_LENGTH) at 1. cbn [app ci_prefix].
    by rewrite bool_decide_false.
  - apply (Hw k). simpl in Hk. lia.
Qed.

(** The IPP part of the answer at the position [len p] of the buffer. *)
Lemma ipp_verdict a p q jobid s :
  0 <= ha_status a < 65536 -> 0 <= ha_id a < 2 ^ 31 ->
  (pget (p ++ answer_body a ++ q) (len p + 7) ;;;
   ret (bool_decide (i32 (un_le32 (rev (slice (Z.to_nat (len p) + 4) 4 (p ++ answer_body a ++ q)))) = jobid) &&
        STATCLASS_OK (un_le32 (rev (slice (Z.to_nat (len p) + 2) 2 (p ++ answer_body a ++ q)) ++ [NUL; NUL])))) s =
  Ret (verdict a jobid) s.
Proof.
  intros Hst Hid. unfold answer_body. destruct (ha_ippver a) as [v1 v2]. cbn [fst snd].
  set (b := [v1; v2] ++ be16 (ha_status a)). assert (Hb4 : length b = 4%nat) by done.
  assert (Hp : Z.to_nat (len p) = length p) by (unfold len; lia). rewrite Hp.
  assert (E7 : pget (p ++ ([v1; v2] ++ be16 (ha_status a) ++ be32 (ha_id a) ++ ha_attrs a) ++ q) (len p + 7) s =
    Ret (bz (ha_id a)) s).
  { replace (p ++ ([v1; v2] ++ be16 (ha_status a) ++ be32 (ha_id a) ++ ha_attrs a) ++ q)
      with ((p ++ b ++ take 3 (be32 (ha_id a))) ++ bz (ha_id a) :: (ha_attrs a ++ q)) by (unfold b; app_norm).
    replace (len p + 7) with (len (p ++ b ++ take 3 (be32 (ha_id a)))) by (rewrite len_app; done). apply pget_app. }
  rewrite (bind_ret _ _ _ _ _ E7). clear E7. set (bp := p ++ _ ++ q).
  assert (E4 : slice (length p + 4) 4 bp = be32 (ha_id a)).
  { unfold bp. replace (p ++ ([v1; v2] ++ be16 (ha_status a) ++ be32 (ha_id a) ++ ha_attrs a) ++ q)
      with ((p ++ b) ++ be32 (ha_id a) ++ (ha_attrs a ++ q)) by (unfold b; app_norm).
    apply (slice_app (p ++ b)); [|done]. rewrite length_app, Hb4. done. }
  assert (E2 : slice (length p + 2) 2 bp = be16 (ha_status a)).
  { unfold bp. replace (p ++ ([v1; v2] ++ be16 (ha_status a) ++ be32 (ha_id a) ++ ha_attrs a) ++ q)
      with ((p ++ [v1; v2]) ++ be16 (ha_status a) ++ (be32 (ha_id a) ++ ha_attrs a ++ q)) by app_norm.
    apply (slice_app (p ++ [v1; v2])); [|done]. by rewrite length_app. }
  rewrite E4, E2.
  unfold be32. rewrite rev_involutive, un_le32_le32 by (unfold u32_ok; lia). rewrite swrap_small by lia.
  destruct (be16_value (ha_status a) Hst) as [-> Ev]. cbn [rev app]. unfold un_le32.
  change (uc NUL) with 0. change (2 ^ 8) with 256 in *. rewrite !Z.mul_0_l, !Z.add_0_r, Z.add_comm, Ev. unfold verdict, STATCLASS_OK, ret.
  by destruct (Z.leb_spec 0 (ha_status a)); [|lia].
Qed.

(** What [printer_status] does once the header has been read. *)
Definition after_head (jobid : Z) (r : option (bytes * Z * Z)) (ln : Z) : M ios bool :=
  match r with
  | None => ret false
  | Some (bp, i, datsz) =>
    r <- more_if junk (datsz - i <? ln) bp i datsz ;;
    match r with
    | None => ret false
    | Some (bp, datsz) =>
      pget bp (i + 7) ;;;
      ret (bool_decide (i32 (un_le32 (rev (slice (Z.to_nat i + 4) 4 bp))) = jobid) &&
           STATCLASS_OK (un_le32 (rev (slice (Z.to_nat i + 2) 2 bp) ++ [NUL; NUL])))
    end
  end.

(** The header up to the length: [p] is the status line, [q] what the buffer holds then. *)
Lemma ipp_status_length lines n p x q jobid fuel datsz s :
  no_length lines -> 0 <= n < 2 ^ 31 -> (length lines + 2 < fuel)%nat ->
  len (p ++ NUL :: head_length lines n) + 1 < datsz -> isdigit x = false ->
  let p1 := p ++ NUL :: head_length lines n ++ [NUL] in
  ipp_status junk fuel jobid (p ++ NUL :: head_length lines n ++ x :: q) (len p) datsz s =
  (r <- header_end junk fuel (p1 ++ q) (len p1) datsz ;; after_head jobid r n) s.
Proof.
  intros Hno Hn Hf Hd Hx p1. unfold ipp_status.
  set (w := NUL :: LF :: lines). set (p0 := (p ++ w ++ CONTENT_LENGTH) ++ [c_space]).
  assert (Hw : no_length w) by (by apply no_length_cons; [|apply no_length_cons]).
  assert (Ehd : p ++ NUL :: head_length lines n = p0 ++ dec n) by (unfold head_length, p0, w; app_norm).
  assert (Ebp : p ++ NUL :: head_length lines n ++ x :: q = p ++ w ++ CONTENT_LENGTH ++ c_space :: dec n ++ x :: q)
    by (unfold head_length, w; app_norm).
  assert (Ebp1 : p ++ NUL :: head_length lines n ++ x :: q = p0 ++ dec n ++ x :: q) by (rewrite Ebp; unfold p0; app_norm).
  assert (Ep1 : p1 = (p0 ++ dec n) ++ [NUL]) by (rewrite <- Ehd; unfold p1; app_norm). rewrite Ehd in Hd.
  assert (Hlp1 : len p1 = len (p0 ++ dec n) + 1) by (rewrite Ep1, (len_app (p0 ++ dec n)); done).
  assert (Hcl : content_length junk fuel (p ++ NUL :: head_length lines n ++ x :: q) (len p) datsz s =
    Ret (Some (p1 ++ q, len p1, datsz, n)) s).
  { rewrite Ebp. rewrite (content_length_skip fuel p w); [|done| |].
    2: { rewrite len_app in Hd. unfold p0 in Hd. rewrite (len_app _ [c_space]) in Hd. change (len [c_space]) with 1 in Hd.
         pose proof (len_nonneg (dec n)). lia. }
    2: { unfold w. simpl. lia. }
    rewrite <- Ebp. replace (len (p ++ w) + 15) with (len (p ++ w ++ CONTENT_LENGTH)) by (rewrite !len_app; change (len CONTENT_LENGTH) with 15; lia).
    assert (Hdec : exists c ds, dec n = c :: ds /\ isspace c = false).
    { pose proof (dec_digits n ltac:(lia)) as Hdd. pose proof (dec_nonnil n ltac:(lia)). destruct (dec n) as [|c ds]; [done|].
      exists c, ds. split; [done|]. inversion Hdd as [|? ? Hc]; subst. exact (proj1 (isdigit_not_special _ Hc)). }
    destruct Hdec as (c & ds & Ed & Hc).
    assert (E1 : scan isspace (p ++ NUL :: head_length lines n ++ x :: q) (len (p ++ w ++ CONTENT_LENGTH)) s = Ret (len p0) s).
    { rewrite Ebp. replace (p ++ w ++ CONTENT_LENGTH ++ c_space :: dec n ++ x :: q)
        with ((p ++ w ++ CONTENT_LENGTH) ++ [c_space] ++ c :: (ds ++ x :: q)) by (rewrite Ed; app_norm).
      apply scan_app; [by repeat constructor|done]. }
    rewrite (bind_ret _ _ _ _ _ E1), Ebp1.
    erewrite bind_ret; [|apply scan_app; [apply dec_digits; lia|done]]. rewrite app_assoc.
    erewrite bind_ret; [|apply pset_app]. unfold ret. rewrite Hlp1.
    replace ((p0 ++ dec n) ++ NUL :: q) with (p1 ++ q) by (rewrite Ep1; app_norm). do 3 f_equal.
    rewrite Ep1. replace (Z.to_nat (len p0)) with (length p0) by (unfold len; lia). rewrite <- !app_assoc, drop_app_length. cbn [app].
    apply (atoi_pad 0); [lia|]. intros y E. by injection E as <-. }
  rewrite (bind_ret _ _ _ _ _ Hcl). cbv beta iota.
  destruct (Z.leb_spec datsz (len p1)); [lia|]. by rewrite (bind_ret _ _ _ _ _ (more_if_false _ _ _ _)).
Qed.

(** The end of a header that is in the buffer. *)
Lemma header_end_found fuel p more q datsz s :
  no_blank more [LF; CR; LF] -> len (p ++ more ++ [LF; CR; LF]) < datsz ->
  header_end junk (S fuel) (p ++ more ++ [LF; CR; LF] ++ q) (len p) datsz s =
  Ret (Some (p ++ more ++ [LF; CR; LF] ++ q, len (p ++ more ++ [LF; CR; LF]), datsz)) s.
Proof.
  intros Hbl Hd. assert (Hl : len (p ++ more ++ [LF; CR; LF]) = len (p ++ more) + 3)
    by (rewrite !len_app; change (len [LF; CR; LF]) with 3; lia).
  assert (Hfu : (length more < Z.to_nat (datsz - len p))%nat).
  { assert (Hz : Z.of_nat (length more) = len more) by done. rewrite Hl, len_app in Hd. lia. }
  cbn [header_end]. rewrite (bind_ret _ _ _ _ _ (find_end_app _ _ _ _ _ _ Hbl (Z.lt_le_incl _ _ Hd) Hfu)). cbv beta iota.
  rewrite <- Hl. destruct (Z.leb_spec datsz (len (p ++ more ++ [LF; CR; LF]))); [lia|].
  by rewrite (bind_ret _ _ _ _ _ (more_if_false _ _ _ _)).
Qed.

(** The answer up to its body, when the header and part of the body have arrived. *)
Lemma ipp_status_head a p q jobid fuel datsz s :
  answer_ok a -> len p = len (status_line (ha_version a) (ha_code a) (ha_reason a)) ->
  (length (ha_lines a) + 2 < fuel)%nat -> len (answer_head a) < datsz ->
  exists p3, len p3 = len (answer_head a) /\
  ipp_status junk fuel jobid (p ++ NUL :: head_rest (ha_lines a) (len (answer_body a)) (ha_more a) ++ q) (len p) datsz s =
  after_head jobid (Some (p3 ++ q, len p3, datsz)) (len (answer_body a)) s.
Proof.
  intros Ha Hp Hf Hd. destruct Ha as [_ _ _ Hno Hbl _ _ Hlen]. set (n := len (answer_body a)) in *.
  assert (Hn : 0 <= n < 2 ^ 31).
  { unfold answer_bytes in Hlen. rewrite len_app in Hlen. fold n in Hlen. pose proof (len_nonneg (answer_body a)).
    pose proof (len_nonneg (answer_head a)). unfold IOBUFSZ in Hlen. fold n in H. lia. }
  set (p1 := p ++ NUL :: head_length (ha_lines a) n ++ [NUL]). set (p3 := p1 ++ ha_more a ++ [LF; CR; LF]).
  assert (Hl1 : len p1 = len (p ++ NUL :: head_length (ha_lines a) n) + 1).
  { unfold p1. replace (p ++ NUL :: head_length (ha_lines a) n ++ [NUL]) with ((p ++ NUL :: head_length (ha_lines a) n) ++ [NUL]) by app_norm.
    by rewrite len_app. }
  assert (Hl3 : len p3 = len (answer_head a)).
  { unfold p3, answer_head, head_rest. fold n. rewrite len_app, Hl1. repeat rewrite ?len_app, ?len_cons. rewrite Hp. lia. }
  exists p3. split; [done|].
  replace (p ++ NUL :: head_rest (ha_lines a) n (ha_more a) ++ q)
    with (p ++ NUL :: head_length (ha_lines a) n ++ CR :: (ha_more a ++ [LF; CR; LF] ++ q)) by (unfold head_rest; app_norm).
  rewrite ipp_status_length; [|done|done|done| |done].
  2: { rewrite <- Hl1. rewrite <- Hl3 in Hd. unfold p3 in Hd. rewrite !len_app in Hd. pose proof (len_nonneg (ha_more a)).
       change (len [LF; CR; LF]) with 3 in Hd. lia. }
  fold p1. destruct fuel as [|f]; [lia|]. rewrite (bind_ret _ _ _ _ _ (header_end_found f p1 (ha_more a) q datsz s Hbl ltac:(fold p3; lia))).
  by replace (p1 ++ ha_more a ++ [LF; CR; LF] ++ q) with (p3 ++ q) by (unfold p3; app_norm).
Qed.

(** The whole answer in the buffer. *)
Lemma ipp_status_ok a jobid p q fuel s :
  answer_ok a -> len p = len (status_line (ha_version a) (ha_code a) (ha_reason a)) -> (length (ha_lines a) + 2 < fuel)%nat ->
  ipp_status junk fuel jobid (p ++ NUL :: head_rest (ha_lines a) (len (answer_body a)) (ha_more a) ++ answer_body a ++ q)
    (len p) (len (answer_bytes a)) s = Ret (verdict a jobid) s.
Proof.
  intros Ha Hp Hf. assert (Hb : 8 <= len (answer_body a)).
  { unfold answer_body. rewrite !len_app. pose proof (len_nonneg (ha_attrs a)). change (len (be16 (ha_status a))) with 2.
    change (len (be32 (ha_id a))) with 4. change (len [_; _]) with 2. lia. }
  assert (Hl : len (answer_bytes a) = len (answer_head a) + len (answer_body a)) by (unfold answer_bytes; apply len_app).
  destruct (ipp_status_head a p (answer_body a ++ q) jobid fuel (len (answer_bytes a)) s Ha Hp Hf ltac:(lia)) as (p3 & Hp3 & ->).
  unfold after_head. destruct (Z.ltb_spec (len (answer_bytes a) - len p3) (len (answer_body a))); [lia|].
  rewrite (bind_ret _ _ _ _ _ (more_if_false _ _ _ _)). destruct Ha. by apply ipp_verdict.
Qed.

(** The first segment of an answer. *)
Lemma length_heap_junk from n : 0 <= n -> len (heap_junk junk from n) = n.
Proof. intros Hn. unfold heap_junk, len. rewrite length_fmap, length_seqZ. lia. Qed.

Lemma status_first version code reason x rest l f jobid s :
  length version = 8%nat -> 0 <= code < 1000 -> Forall (fun c => c <> CR /\ c <> LF) reason -> x = CR \/ x = LF ->
  let d := status_line version code reason ++ x :: rest in
  let p := version ++ c_space :: dec code ++ NUL :: reason in
  len d <= IOBUFSZ -> s_in s = EvData d :: l ->
  exists tail, len d + len tail = IOBUFSZ /\ len p = len (status_line version code reason) /\
  printer_status junk (S f) jobid s =
  (if HTTP_INFO code then status_loop junk f jobid (p ++ NUL :: rest ++ tail)
   else if negb (HTTP_SUCCESS code) then pset (p ++ NUL :: rest ++ tail) (len d) NUL ;;; ret false
   else ipp_status junk f jobid (p ++ NUL :: rest ++ tail) (len p) (len d)) (set_in l s).
Proof.
  intros Hv Hc Hr Hx d p Hd Hin. pose proof (length_heap_junk 0 IOBUFSZ ltac:(done)) as Hfr. unfold printer_status. cbn [status_loop].
  exists (drop (length d) (heap_junk junk 0 IOBUFSZ)).
  assert (Hp : len p = len (status_line version code reason)).
  { unfold p, status_line. rewrite !len_app, !len_cons, !len_app, !len_cons. lia. }
  split; [unfold len in *; rewrite length_drop; lia|]. split; [done|].
  rewrite Hfr, (bind_ret _ _ _ _ _ (tread_data IOBUFSZ d l s Hin)).
  assert (Htk : take (Z.to_nat IOBUFSZ) d = d) by (apply take_ge; unfold len in Hd; lia). rewrite Htk.
  assert (Hro : rest_of IOBUFSZ d l = l).
  { unfold rest_of. rewrite drop_ge by (unfold len in Hd; lia). by rewrite bool_decide_true. }
  rewrite Hro. set (s1 := set_in l s). assert (Dd : d = status_line version code reason ++ x :: rest) by done.
  clearbody d. destruct d as [|c0 d0]; [unfold status_line in Dd; by destruct version|]. set (d := c0 :: d0) in *.
  rewrite splice_0. cbv zeta.
  set (tl := drop (length d) (heap_junk junk 0 IOBUFSZ)).
  replace (d ++ tl) with (status_line version code reason ++ x :: (rest ++ tl)) by (rewrite Dd; app_norm).
  destruct (scan_status_line version code reason x (rest ++ tl) s1 Hv Hc Hr Hx) as (E1 & E2 & E3 & E4 & E5 & E6).
  rewrite (bind_ret _ _ _ _ _ E1), (bind_ret _ _ _ _ _ E2).
  pose proof (length_dec_pos code ltac:(lia)). destruct (Z.eqb_spec (9 + len (dec code)) 9) as [Hz|_]; [unfold len in Hz; lia|].
  rewrite (bind_ret _ _ _ _ _ E3), (bind_ret _ _ _ _ _ E4), (bind_ret _ _ _ _ _ E5). fold p. fold p in E6.
  change (Z.to_nat 9) with 9%nat. rewrite E6, Hp. done.
Qed.

(** What a printer may reply: nothing, an answer in one segment, or an HTTP error. *)
Inductive reply (jobid : Z) : list ev -> bool -> Prop :=
| reply_silent l : avail l = [] -> Forall nonempty_ev l -> reply jobid l false
| reply_answer a l : answer_ok a -> reply jobid (EvData (answer_bytes a) :: l) (verdict a jobid)
| reply_error version code reason x rest l :
    length version = 8%nat -> 300 <= code < 1000 -> Forall (fun c => c <> CR /\ c <> LF) reason -> x = CR \/ x = LF ->
    len (status_line version code reason ++ x :: rest) < IOBUFSZ ->
    reply jobid (EvData (status_line version code reason ++ x :: rest) :: l) false.

Lemma printer_status_reply f jobid s b :
  IOBUFSZ <= Z.of_nat f -> reply jobid (s_in s) b ->
  exists s', printer_status junk (S f) jobid s = Ret b s' /\ s_out s' = s_out s.
Proof.
  intros Hf H. inversion H as [l Ha Hne El Eb|a l Ha El Eb|version code reason x rest l Hv Hc Hr Hx Hl El Eb].
  - destruct (tread_nodata IOBUFSZ s Ha Hne) as (r & s' & Ht & Hr & Ho & _). exists s'. split; [|done].
    unfold printer_status. cbn [status_loop]. rewrite (length_heap_junk 0 IOBUFSZ) by done. rewrite (bind_ret _ _ _ _ _ Ht).
    by destruct Hr as [-> | ->].
  - pose proof Ha as [Hv Hc Hr _ _ _ _ Hlen]. symmetry in El. assert (Hc' : 0 <= ha_code a < 1000) by lia.
    assert (Ed : answer_bytes a = status_line (ha_version a) (ha_code a) (ha_reason a) ++
      CR :: (head_rest (ha_lines a) (len (answer_body a)) (ha_more a) ++ answer_body a)) by (unfold answer_bytes, answer_head; app_norm).
    rewrite Ed in El, Hlen.
    destruct (status_first _ _ _ _ _ l f jobid s Hv Hc' Hr (or_introl eq_refl) Hlen El) as (tail & Htl & Hp & ->).
    exists (set_in l s). split; [|done]. unfold HTTP_INFO, HTTP_SUCCESS.
    destruct (Z.leb_spec (ha_code a) 199); [lia|]. rewrite andb_false_r.
    destruct (Z.leb_spec 200 (ha_code a)); [|lia]. destruct (Z.leb_spec (ha_code a) 299); [|lia]. cbn [andb negb].
    rewrite <- Ed, <- (app_assoc (head_rest _ _ _)). apply ipp_status_ok; [done|done|].
    rewrite <- Ed in Hlen. unfold answer_bytes, answer_head, head_rest, head_length in Hlen. unfold len in Hlen.
    repeat rewrite ?length_app, ?length_cons in Hlen. lia.
  - symmetry in El. assert (Hc' : 0 <= code < 1000) by lia.
    destruct (status_first _ _ _ _ _ l f jobid s Hv Hc' Hr Hx (Z.lt_le_incl _ _ Hl) El) as (tail & Htl & Hp & ->).
    exists (set_in l s). split; [|done]. unfold HTTP_INFO, HTTP_SUCCESS.
    destruct (Z.leb_spec code 199); [lia|]. rewrite andb_false_r. destruct (Z.leb_spec code 299); [lia|]. rewrite andb_false_r. cbn [negb].
    unfold pset, bind. set (bp := _ ++ NUL :: rest ++ tail).
    assert (Hbp : len bp = IOBUFSZ).
    { rewrite <- Htl. unfold bp. rewrite len_app, Hp, len_cons, !len_app, len_cons. lia. }
    rewrite Hbp. pose proof (len_nonneg (status_line version code reason ++ x :: rest)).
    destruct (Z.leb_spec 0 (len (status_line version code reason ++ x :: rest))); [|lia].
    destruct (Z.ltb_spec (len (status_line version code reason ++ x :: rest)) IOBUFSZ); [|lia]. done.
Qed.

(** C28: The printer's answer.  A job counts as printed exactly when the answer is an HTTP
    success that carries the number of the job and an IPP status of the success class;
    silence, a lost connection and HTTP errors count as failure.  [printer_status] returns
    in each case, for answers that arrive in one segment. *)
Theorem printer_status_correct (f : nat) (jobid : Z) (s : ios) (b : bool) :
  IOBUFSZ <= Z.of_nat f -> reply jobid (s_in s) b ->
  exists s', printer_status junk (S f) jobid s = Ret b s' /\ s_out s' = s_out s.
Proof. apply printer_status_reply. Qed.

(** *** Answers in several segments *)

Lemma find_end_none fuel p w q datsz s :
  (2 <= length w)%nat -> (forall k, (k + 2 < length w)%nat -> blank_line (drop k (w ++ q)) = false) ->
  datsz = len p + len w -> (length w <= fuel)%nat ->
  find_end fuel (p ++ w ++ q) (len p) datsz s = Ret (false, datsz - 2) s.
Proof.
  revert fuel p. induction w as [|a w IH]; intros fuel p Hl Hno Hd Hf; [simpl in Hl; lia|].
  destruct fuel as [|f]; [simpl in Hf; lia|]. rewrite len_cons in Hd.
  destruct w as [|b [|c w]]; [simpl in Hl; lia| |].
  - cbn [find_end]. change (len [b]) with 1 in Hd. destruct (Z.ltb_spec (len p) (datsz - 2)); [lia|].
    replace (datsz - 2) with (len p) by lia. done.
  - cbn [app]. pose proof (len_nonneg w). rewrite !len_cons in Hd. rewrite find_end_step by lia.
    pose proof (Hno 0%nat ltac:(simpl; lia)) as H0. rewrite drop_0 in H0. cbn [app] in H0. rewrite H0.
    replace (len p + 1) with (len (p ++ [a])) by (rewrite len_app; done).
    replace (p ++ a :: b :: c :: w ++ q) with ((p ++ [a]) ++ (b :: c :: w) ++ q) by app_norm.
    apply IH; [simpl; lia| | |simpl in Hf |- *; lia].
    + intros k Hk. apply (Hno (S k)). simpl in Hk |- *. lia.
    + rewrite len_app. change (len [a]) with 1. rewrite !len_cons. lia.
Qed.

Lemma header_end_spins fuel bp datsz s : header_end junk fuel bp (datsz - 2) datsz s = NoFuel.
Proof.
  induction fuel as [|f IH]; [done|]. cbn [header_end].
  assert (E : forall k, find_end k bp (datsz - 2) datsz s = Ret (false, datsz - 2) s).
  { intros k. destruct k; cbn [find_end]; by rewrite Z.ltb_irrefl. }
  rewrite (bind_ret _ _ _ _ _ (E _)). cbv beta iota. destruct (Z.leb_spec datsz (datsz - 2)); [lia|].
  rewrite (bind_ret _ _ _ _ _ (more_if_false _ _ _ _)). exact IH.
Qed.

(** A header that arrives in two segments hangs the printer thread: when the first
    segment ends after the line with the length but before the blank line, the search for
    the end of the header runs for ever without reading again. *)
Theorem split_header_hangs (f : nat) (jobid : Z) (s : ios) (version reason lines w : bytes) (code n : Z) (l : list ev) :
  length version = 8%nat -> 200 <= code <= 299 -> Forall (fun c => c <> CR /\ c <> LF) reason ->
  no_length lines -> 0 <= n < 2 ^ 31 -> (2 <= length w)%nat ->
  (forall k q, (k + 2 < length w)%nat -> blank_line (drop k (w ++ q)) = false) ->
  let d := status_line version code reason ++ CR :: head_length lines n ++ CR :: w in
  len d <= IOBUFSZ -> IOBUFSZ <= Z.of_nat f -> s_in s = EvData d :: l ->
  printer_status junk (S f) jobid s = NoFuel.
Proof.
  intros Hv Hc Hr Hno Hn Hw Hbl d Hd Hf Hin. assert (Hc' : 0 <= code < 1000) by lia.
  destruct (status_first version code reason CR (head_length lines n ++ CR :: w) l f jobid s Hv Hc' Hr (or_introl eq_refl) Hd Hin)
    as (tail & Htl & Hp & ->). set (p := version ++ c_space :: dec code ++ NUL :: reason) in *. fold d.
  unfold HTTP_INFO, HTTP_SUCCESS. destruct (Z.leb_spec code 199); [lia|]. rewrite andb_false_r.
  destruct (Z.leb_spec 200 code); [|lia]. destruct (Z.leb_spec code 299); [|lia]. cbn [andb negb].
  replace (p ++ NUL :: (head_length lines n ++ CR :: w) ++ tail) with (p ++ NUL :: head_length lines n ++ CR :: (w ++ tail)) by app_norm.
  set (p1 := p ++ NUL :: head_length lines n ++ [NUL]).
  assert (Hdat : len d = len p1 + len w).
  { unfold d, p1. rewrite !len_app, Hp, !len_cons, !len_app, !len_cons. change (len (@nil byte)) with 0. lia. }
  assert (Hl1 : len p1 = len (p ++ NUL :: head_length lines n) + 1).
  { unfold p1. rewrite !len_app, !len_cons, !len_app. change (len [NUL]) with 1. lia. }
  assert (Hlw : 2 <= len w) by (unfold len; lia).
  rewrite ipp_status_length; [|done|done| |lia|done].
  2: { unfold d, head_length in Hd. unfold len in Hd. repeat rewrite ?length_app, ?length_cons in Hd. lia. }
  fold p1. destruct f as [|f]; [unfold IOBUFSZ in Hf; lia|].
  unfold bind at 1. replace (header_end junk (S f) (p1 ++ w ++ tail) (len p1) (len d) (set_in l s)) with (@NoFuel ios (option (bytes * Z * Z))); [done|].
  symmetry. cbn [header_end]. assert (Hfw : (length w <= Z.to_nat (len d - len p1))%nat) by (rewrite Hdat; unfold len; lia).
  erewrite bind_ret; [|apply find_end_none; [done|intros k Hk; by apply Hbl|done|exact Hfw]].
  cbv beta iota. destruct (Z.leb_spec (len d) (len d - 2)); [lia|].
  rewrite (bind_ret _ _ _ _ _ (more_if_false _ _ _ _)). apply header_end_spins.
Qed.

(** The body in two segments: the second one is stored over the first four bytes. *)
Lemma after_head_split jobid k s h p3 hid bd attrs tail l :
  len p3 = h -> len bd = 4 + len (drop 4 bd) -> 8 <= len (drop 4 bd) -> drop 4 bd = be32 hid ++ be32 k ++ attrs ->
  len (p3 ++ take 4 bd ++ tail) = IOBUFSZ -> h + len bd <= IOBUFSZ -> 0 <= k < 2 ^ 31 -> k <> jobid ->
  s_in s = EvData (drop 4 bd) :: l ->
  exists s', after_head jobid (Some (p3 ++ take 4 bd ++ tail, h, h + 4)) (len bd) s = Ret false s'.
Proof.
  intros Hp3 Hb Hb8 Hd4 Hbp Hfit Hk Hkj Hin1. pose proof (len_nonneg p3). set (bp := p3 ++ take 4 bd ++ tail) in *.
  unfold after_head. replace (h + 4 - h) with 4 by lia.
  destruct (Z.ltb_spec 4 (len bd)); [|lia]. unfold more_if, more, readmore. cbv zeta. rewrite Hbp.
  destruct (Z.leb_spec IOBUFSZ h); [lia|]. rewrite Hbp. destruct (Z.ltb_spec IOBUFSZ h); [lia|].
  assert (Htk : take (Z.to_nat (IOBUFSZ - h)) (drop 4 bd) = drop 4 bd) by (apply take_ge; unfold len in *; lia).
  pose proof (tread_data (IOBUFSZ - h) (drop 4 bd) l s Hin1) as Htr. rewrite Htk in Htr.
  unfold bind at 1 2 3. rewrite Htr. destruct (drop 4 bd) as [|c0 d0] eqn:Ed4; [change (len (@nil byte)) with 0 in Hb8; lia|]. rewrite <- Ed4 in *.
  unfold ret. destruct (Z.ltb_spec (h + len (drop 4 bd)) 0); [lia|].
  assert (Esp : exists z, splice (Z.to_nat h) (drop 4 bd) bp = (p3 ++ be32 hid) ++ be32 k ++ attrs ++ z).
  { replace (Z.to_nat h) with (length p3) by (unfold len in *; lia). unfold splice, bp.
    rewrite take_app_length, Hd4. eexists. app_norm. }
  destruct Esp as [z Esp]. rewrite Esp.
  assert (E7 : forall s', pget ((p3 ++ be32 hid) ++ be32 k ++ attrs ++ z) (h + 7) s' = Ret (bz k) s').
  { intros s'. replace ((p3 ++ be32 hid) ++ be32 k ++ attrs ++ z) with ((p3 ++ be32 hid ++ take 3 (be32 k)) ++ bz k :: (attrs ++ z)) by app_norm.
    replace (h + 7) with (len (p3 ++ be32 hid ++ take 3 (be32 k))) by (rewrite len_app, Hp3; done). apply pget_app. }
  unfold bind. rewrite E7. eexists. f_equal. replace (Z.to_nat h) with (length p3) by (unfold len in *; lia).
  rewrite (slice_app (p3 ++ be32 hid) (be32 k) (attrs ++ z)) by (rewrite ?length_app; done).
  assert (Ek : i32 (un_le32 (rev (be32 k))) = k)
    by (unfold be32; rewrite rev_involutive, un_le32_le32 by (unfold u32_ok; lia); apply swrap_small; lia).
  by rewrite Ek, bool_decide_false.
Qed.

(** An answer whose body arrives in two segments is misread: the second segment is
    stored over the first part of the body, so the daemon takes later bytes for the status
    and the job number; a printed job then counts as failed and is printed again. *)
Theorem split_body_misread (f : nat) (jobid k : Z) (s : ios) (a : http_answer) (attrs : bytes) (l : list ev) :
  answer_ok a -> ha_attrs a = be32 k ++ attrs -> 0 <= k < 2 ^ 31 -> k <> jobid -> IOBUFSZ <= Z.of_nat f ->
  s_in s = EvData (answer_head a ++ take 4 (answer_body a)) :: EvData (drop 4 (answer_body a)) :: l ->
  exists s', printer_status junk (S f) jobid s = Ret false s'.
Proof.
  intros Ha Hat Hk Hkj Hf Hin. pose proof Ha as [Hv Hc Hr _ _ _ _ Hlen].
  assert (Hc' : 0 <= ha_code a < 1000) by lia. set (bd := answer_body a) in *.
  assert (Hd4 : drop 4 bd = be32 (ha_id a) ++ be32 k ++ attrs) by (unfold bd, answer_body; by rewrite Hat).
  assert (Ht4 : len (take 4 bd) = 4) by done.
  assert (Hb : len bd = 4 + len (drop 4 bd) /\ 8 <= len (drop 4 bd)).
  { split; [rewrite <- (take_drop 4 bd) at 1; by rewrite len_app, Ht4|]. rewrite Hd4, !len_app. pose proof (len_nonneg attrs).
    change (len (be32 (ha_id a))) with 4. change (len (be32 k)) with 4. lia. }
  assert (Hbytes : len (answer_bytes a) = len (answer_head a) + len bd) by (unfold answer_bytes; apply len_app).
  set (rest := head_rest (ha_lines a) (len bd) (ha_more a) ++ take 4 bd).
  assert (Ed : answer_head a ++ take 4 bd = status_line (ha_version a) (ha_code a) (ha_reason a) ++ CR :: rest)
    by (unfold answer_head, rest; fold bd; app_norm).
  rewrite Ed in Hin.
  assert (Hld : len (status_line (ha_version a) (ha_code a) (ha_reason a) ++ CR :: rest) = len (answer_head a) + 4)
    by (rewrite <- Ed, len_app, Ht4; done).
  destruct (status_first _ _ _ _ rest _ f jobid s Hv Hc' Hr (or_introl eq_refl) ltac:(rewrite Hld; lia) Hin) as (tail & Htl & Hp & ->).
  set (p := ha_version a ++ _) in *. set (s1 := set_in _ s).
  unfold HTTP_INFO, HTTP_SUCCESS. destruct (Z.leb_spec (ha_code a) 199); [lia|]. rewrite andb_false_r.
  destruct (Z.leb_spec 200 (ha_code a)); [|lia]. destruct (Z.leb_spec (ha_code a) 299); [|lia]. cbn [andb negb].
  replace (p ++ NUL :: rest ++ tail) with (p ++ NUL :: head_rest (ha_lines a) (len bd) (ha_more a) ++ (take 4 bd ++ tail)) by (unfold rest; app_norm).
  rewrite Hld.
  destruct (ipp_status_head a p (take 4 bd ++ tail) jobid f (len (answer_head a) + 4) s1 Ha Hp) as (p3 & Hp3 & Heq); [|lia|].
  { rewrite Hbytes in Hlen. unfold answer_head, head_rest, head_length in Hlen. unfold len in Hlen.
    repeat rewrite ?length_app, ?length_cons in Hlen. lia. }
  fold bd in Heq. rewrite Heq. clear Heq.
  rewrite Hp3. apply (after_head_split jobid k s1 _ p3 (ha_id a) bd attrs tail l); try done; try lia.
  rewrite !len_app, Hp3, Ht4. lia.
Qed.
End answer.

(** ** Witnesses *)

Ltac words := split; [repeat (apply Forall_cons_2; [split; [reflexivity|discriminate]|]); apply Forall_nil_2|discriminate].

Lemma config_lookup_witness :
  scan_configfile (bs "printer")
    (concat ((fun l => l ++ [LF]) <$> [bs "# printers of the lab"; bs "printserver blade"]) ++
     (bs "printer" ++ c_space :: bs "lp1.example.com") ++ LF :: bs "printer other") = Some (bs "lp1.example.com").
Proof.
  apply (config_lookup (bs "printer") (bs "lp1.example.com") (bs "printer other")).
  - words.
  - words.
  - vm_compute. lia.
  - vm_compute. lia.
  - repeat apply Forall_cons_2; [..|apply Forall_nil_2].
    + split; [vm_compute; set_solver|]. split; [vm_compute; lia|]. vm_compute. discriminate.
    + split; [vm_compute; set_solver|]. split; [vm_compute; lia|]. vm_compute. discriminate.
Defined.

Definition req_print_ex : printreq := Req 12 0 (bs "paul" ++ replicate 60 NUL) (bs "report.ps" ++ replicate 247 NUL).

Lemma terminated_ex : terminated req_print_ex.
Proof. split; cbn [rq_usernm rq_jobnm req_print_ex]; apply elem_of_app; right; by apply elem_of_replicate. Qed.

Lemma ipp_header_correct_witness :
  (exists attrs, ipp_header (bs "lp1") 7 req_print_ex tt =
     Ret ([bz 1; bz 1] ++ be16 OP_PRINT_JOB ++ be32 7 ++ bz TAG_OPERATION_ATTR :: attrs) tt /\
     ipp_attrs 7 attrs = Some (ipp_options (bs "lp1") req_print_ex, [])).
Proof.
  pose proof (ipp_header_correct (bs "lp1") 7 req_print_ex tt) as H.
  rewrite decide_True in H by (split; [exact terminated_ex|split; vm_compute; discriminate]). exact H.
Defined.

Definition answer_ex : http_answer :=
  HttpAnswer (bs "HTTP/1.1") 200 (bs "OK") (bs "Server: x" ++ CRLF) [] (x01, x01) 1 7 (be32 9 ++ bs "attributes").

Lemma answer_ex_ok : answer_ok answer_ex.
Proof.
  split; cbn [ha_version ha_code ha_reason ha_lines ha_more ha_status ha_id answer_ex]; try done.
  - repeat (apply Forall_cons_2; [split; discriminate|]). apply Forall_nil_2.
  - intros k Hk. do 11 (destruct k as [|k]; [vm_compute; reflexivity|]). simpl in Hk. lia.
  - intros k Hk. simpl in Hk. lia.
Qed.

Definition junk_ex (i : Z) : byte := NUL.

Lemma printer_status_correct_witness :
  exists s', printer_status junk_ex (S (Z.to_nat 8192)) 7 (Ios [EvData (answer_bytes answer_ex)] [] [] 0) = Ret true s' /\ s_out s' = [].
Proof.
  apply (printer_status_correct junk_ex (Z.to_nat 8192) 7 (Ios [EvData (answer_bytes answer_ex)] [] [] 0) true).
  - rewrite Z2Nat.id by lia. unfold IOBUFSZ. lia.
  - exact (reply_answer 7 answer_ex [] answer_ex_ok).
Defined.

Lemma split_header_hangs_witness :
  printer_status junk_ex (S (Z.to_nat 8192)) 7
    (Ios [EvData (status_line (bs "HTTP/1.1") 200 (bs "OK") ++ CR :: head_length [] 30 ++ CR :: [LF; CR])] [] [] 0) = NoFuel.
Proof.
  apply (split_header_hangs junk_ex (Z.to_nat 8192) 7 _ (bs "HTTP/1.1") (bs "OK") [] [LF; CR] 200 30 []).
  - reflexivity.
  - lia.
  - repeat (apply Forall_cons_2; [split; discriminate|]). apply Forall_nil_2.
  - intros k Hk. simpl in Hk. lia.
  - lia.
  - simpl. lia.
  - intros k q Hk. simpl in Hk. lia.
  - by vm_compute.
  - rewrite Z2Nat.id by lia. unfold IOBUFSZ. lia.
  - reflexivity.
Defined.

Lemma split_body_misread_witness :
  verdict answer_ex 7 = true /\
  exists s', printer_status junk_ex (S (Z.to_nat 8192)) 7
    (Ios [EvData (answer_head answer_ex ++ take 4 (answer_body answer_ex)); EvData (drop 4 (answer_body answer_ex))] [] [] 0) = Ret false s'.
Proof.
  split; [reflexivity|].
  apply (split_body_misread junk_ex (Z.to_nat 8192) 7 9 _ answer_ex (bs "attributes") []).
  - exact answer_ex_ok.
  - reflexivity.
  - lia.
  - lia.
  - rewrite Z2Nat.id by lia. unfold IOBUFSZ. lia.
  - reflexivity.
Defined.
