(* ===== verification/SpoolTurn.v ===== *)
(** * One turn of the printer thread

    What becomes of the job that the printer thread takes from the queue, for every
    pattern of disk errors, refused connections and broken sockets. *)

From Stdlib Require Import Strings.Byte ZArith Lia.
From S2P Require Import Prelude Libc Posix Refine SpoolQueue SpoolIo SpoolServer SpoolPrinter SpoolPrint.
From stdpp Require Import base strings numbers gmap list.
#[local] Open Scope Z_scope.

(** ** Frames *)

(** [s'] has the queue, the workers, the files and the configuration of [s]. *)
Record kept (s s' : pst) : Prop := Kept {
  kp_q : d_q (p_d s') = d_q (p_d s); kp_w : d_w (p_d s') = d_w (p_d s); kp_fs : d_fs (p_d s') = d_fs (p_d s);
  kp_name : printer_name s' = printer_name s; kp_rr : reread s' = reread s; kp_conf : p_conf s' = p_conf s;
  kp_faults : d_faults (p_d s) = [] -> d_faults (p_d s') = []
}.

Lemma kept_refl s : kept s s.
Proof. by split. Qed.

Lemma kept_trans s1 s2 s3 : kept s1 s2 -> kept s2 s3 -> kept s1 s3.
Proof. intros [] []. split; try congruence. auto. Qed.

#[local] Hint Resolve kept_refl kept_trans : core.

Lemma on_sock_run {A B} (m : M ios A) (f : A -> M pst B) s a k :
  m (p_sock s) = Ret a k ->
  bind (on_sock m) f s = f a (Pst (p_d s) (p_conns s) k (printer_name s) (reread s) (p_conf s)).
Proof. intros H. unfold bind, on_sock. by rewrite H. Qed.

Lemma on_d_run {A B} (m : M dstate A) (f : A -> M pst B) s a d :
  m (p_d s) = Ret a d ->
  bind (on_d m) f s = f a (Pst d (p_conns s) (p_sock s) (printer_name s) (reread s) (p_conf s)).
Proof. intros H. unfold bind, on_d. by rewrite H. Qed.

(** The outcome of the [i]-th call on the disk. *)
Definition outcome (l : list fault) (i : nat) : fault := default FOk (l !! i).
Definition failing (f : fault) : bool := match f with FFail _ => true | _ => false end.

Lemma outcome_drop l n i : outcome (drop n l) i = outcome l (n + i).
Proof. unfold outcome. by rewrite lookup_drop. Qed.

Lemma file_op_cases s :
  exists s', file_op s = Ret (negb (failing (outcome (d_faults (p_d s)) 0))) s' /\ kept s s' /\ p_sock s' = p_sock s /\
    p_conns s' = p_conns s /\ d_faults (p_d s') = drop 1 (d_faults (p_d s)).
Proof.
  destruct s as [[q w fs fl io] cs k pn rr cf]. unfold file_op, bind, on_d, next_fault, modst. simpl.
  destruct fl as [|[|e|n] fl]; (eexists; split; [reflexivity|]); split_and!; done.
Qed.

Lemma unlink_outcome name d :
  exists d', unlink name d = Ret tt d' /\ d_q d' = d_q d /\ d_faults d' = drop 1 (d_faults d) /\
    d_fs d' = if failing (outcome (d_faults d) 0) then d_fs d else delete name (d_fs d).
Proof.
  destruct d as [q w fs fl io]. unfold unlink, next_fault, bind, modst.
  destruct fl as [|[|e|n] fl]; (eexists; split; [reflexivity|]); done.
Qed.

(** A write that takes everything. *)
Definition full (w : wev) : Prop := w = WAll.

Lemma full_progress l : Forall full l -> Forall progress l.
Proof. intros H. eapply Forall_impl; [exact H|]. by intros w ->. Qed.

Lemma sock_write_full d s :
  Forall full (s_wr s) -> exists wr, sock_write d s = Ret (len d) (Ios (s_in s) (s_out s ++ d) wr (s_errno s)) /\ Forall full wr.
Proof.
  intros H. unfold sock_write. destruct H as [|w l -> Hl]; [by exists []|by exists l].
Qed.

(** Any write: what it returns tells what went out. *)
Lemma sock_write_any d s :
  exists k s', sock_write d s = Ret k s' /\ s_in s' = s_in s /\ (k = len d -> s_out s' = s_out s ++ d).
Proof.
  destruct (sock_write_cases d s) as [(e & Hw & _)|(k & Hw & Hk & _)]; rewrite Hw; eexists _, _; (split; [done|]); (split; [done|]); simpl.
  - intros E. pose proof (len_nonneg d). lia.
  - intros ->. by rewrite take_ge by (unfold len; lia).
Qed.

(** ** The document *)

(** The calls of [read] that copy the document, the one that returns 0 included. *)
Definition reads (doc : bytes) : nat := Z.to_nat ((len doc + IOBUFSZ - 1) / IOBUFSZ + 1).

Lemma reads_step doc : doc <> [] -> reads doc = S (reads (drop (Z.to_nat IOBUFSZ) doc)).
Proof.
  intros Hd. assert (0 < len doc) by (destruct doc; [done|unfold len; simpl; lia]). unfold reads, IOBUFSZ.
  assert (El : len (drop (Z.to_nat 8192) doc) = Z.max 0 (len doc - 8192)) by (unfold len; rewrite length_drop; lia).
  rewrite El. Z.div_mod_to_equations. lia.
Qed.

Lemma send_doc_cases fuel doc s :
  (length doc < fuel)%nat ->
  exists ok s', send_doc fuel doc s = Ret ok s' /\ kept s s' /\ s_in (p_sock s') = s_in (p_sock s) /\
    (ok = true -> s_out (p_sock s') = s_out (p_sock s) ++ doc /\ d_faults (p_d s') = drop (reads doc) (d_faults (p_d s))) /\
    (d_faults (p_d s) = [] -> Forall progress (s_wr (p_sock s)) -> ok = true).
Proof.
  revert doc s. induction fuel as [|n IH]; intros doc s Hl; [lia|]. cbn [send_doc].
  destruct (file_op_cases s) as (s1 & Hf & Hk & Hs & _ & Hx). rewrite (bind_ret _ _ _ _ _ Hf).
  destruct (failing _) eqn:Efl; cbn [negb].
  { exists false, s1. split; [done|]. split_and!; try done; [by rewrite Hs|]. intros H0. by rewrite H0 in Efl. }
  case_bool_decide as Hd.
  { subst doc. exists true, s1. split; [done|]. rewrite Hs, app_nil_r. split_and!; done. }
  cbv zeta. destruct (writen_run (take (Z.to_nat IOBUFSZ) doc) (p_sock s1)) as (r & k & Hw & Hi & Ho & Hr & Hp).
  rewrite (on_sock_run _ _ _ _ _ Hw). set (s2 := Pst _ _ _ _ _ _).
  assert (Hk2 : kept s s2) by (eapply kept_trans; [exact Hk|by split]).
  destruct (Z.eqb_spec r (len (take (Z.to_nat IOBUFSZ) doc))) as [Er|Er]; cbn [negb].
  - destruct (IH (drop (Z.to_nat IOBUFSZ) doc) s2) as (ok & s3 & Hrec & Hk3 & Hi3 & Ho3 & Hok3).
    { rewrite length_drop. destruct doc; [done|]. change (Z.to_nat IOBUFSZ) with (Z.to_nat 8192). simpl length in *. lia. }
    exists ok, s3. split; [exact Hrec|]. split_and!.
    + by eapply kept_trans.
    + rewrite Hi3. simpl. by rewrite Hi, Hs.
    + intros Hok. destruct (Ho3 Hok) as [-> ->]. simpl. rewrite Hx, drop_drop, (reads_step doc) by done. split; [|done].
      rewrite Ho, Er, Hs, <- app_assoc. f_equal. rewrite (take_ge (take _ doc)) by (unfold len; lia). apply take_drop.
    + intros Hfl Hpr. apply Hok3; [by apply (kp_faults _ _ Hk2)|]. simpl. apply Hp. by rewrite Hs.
  - exists false, s2. split; [done|]. split_and!; try done.
    + simpl. by rewrite Hi, Hs.
    + intros Hfl Hpr. exfalso. apply Er, Hp. by rewrite Hs.
Qed.

(** ** Sending a job *)

Section turn.
Context (resolve : bytes -> option (option bytes)) (junk : Z -> byte) (f : nat) (Hfuel : IOBUFSZ <= Z.of_nat f).

(** All that the printer gets. *)
Definition job_bytes (pn : bytes) (j : Z) (r : printreq) (doc : bytes) : bytes :=
  let extra := if is_text r then [x08] else [] in
  http_bytes pn (ipp_len pn r + len extra + len doc) ++ ipp_bytes pn j r ++ extra ++ doc.

Record printable (pn : bytes) (r : printreq) (doc : bytes) : Prop := Printable {
  pr_name : len pn <= 52; pr_len : ipp_len pn r <= IBUFSZ; pr_term : terminated r; pr_doc : len doc < 2 ^ 62
}.

(** The next connection: refused, or one whose printer replies as [reply] says. *)
Definition conn_ok (j : Z) (cs : list (option ios)) (b : bool) : Prop :=
  match cs with Some k :: _ => reply j (s_in k) b | _ => b = false end.

Lemma ipp_len_nonneg pn r : 0 <= ipp_len pn r.
Proof. unfold ipp_len, strlen. pose proof (len_nonneg pn). unfold len in *. lia. Qed.

Lemma backspace_cases (t : bool) s :
  exists ok s', (if t then nw <- on_sock (sock_write [x08]) ;; ret (nw =? 1) else ret true) s = Ret ok s' /\ kept s s' /\
    s_in (p_sock s') = s_in (p_sock s) /\ (ok = true -> s_out (p_sock s') = s_out (p_sock s) ++ (if t then [x08] else [])) /\
    (Forall full (s_wr (p_sock s)) -> ok = true /\ Forall full (s_wr (p_sock s'))) /\ p_d s' = p_d s.
Proof.
  destruct t; [|exists true, s; rewrite app_nil_r; split_and!; eauto].
  destruct (sock_write_any [x08] (p_sock s)) as (k & k' & Hw & Hi & Ho). rewrite (on_sock_run _ _ _ _ _ Hw).
  eexists _, _. split; [reflexivity|]. split; [by split|]. split; [done|]. split; [|split; [|done]].
  - intros E. apply Z.eqb_eq in E. by apply Ho.
  - intros Hf. destruct (sock_write_full [x08] (p_sock s) Hf) as (wr & Hw' & Hwr). rewrite Hw in Hw'. by injection Hw' as -> ->.
Qed.

Lemma send_job_cases j r doc s b :
  printable (printer_name s) r doc -> conn_ok j (p_conns s) b ->
  exists ok s', send_job junk (S f) j r doc s = Ret ok s' /\ kept s s' /\
    (ok = true -> exists k l, p_conns s = Some k :: l /\ b = true /\ s_out (p_sock s') = s_out k ++ job_bytes (printer_name s) j r doc /\
       d_faults (p_d s') = drop (reads doc) (d_faults (p_d s))) /\
    (forall k l, p_conns s = Some k :: l -> d_faults (p_d s) = [] -> Forall full (s_wr k) -> ok = b).
Proof.
  intros [Hn Hl Ht Hd] Hc. unfold send_job.
  destruct (p_conns s) as [|[k|] l] eqn:Ec.
  1: { exists false, s. unfold connect_retry, bind at 1. rewrite Ec. split_and!; eauto; try done. }
  2: { unfold connect_retry, bind at 1. rewrite Ec. eexists false, _. split; [reflexivity|]. split; [by split|]. by split. }
  simpl in Hc. unfold connect_retry, bind at 1. rewrite Ec. cbn [negb]. set (s1 := Pst (p_d s) l k _ _ _).
  assert (Hk1 : kept s s1) by by split. rewrite (bind_ret _ _ _ _ _ (eq_refl : getst s1 = Ret s1 s1)).
  change (printer_name s1) with (printer_name s). set (pn := printer_name s) in *.
  rewrite (bind_ret _ _ _ _ _ (proj1 (ipp_header_stores pn j r Ht) (conj Hn Hl) s1)), len_ipp_bytes. cbv zeta.
  set (ex := if is_text r then [x08] else []). assert (Hex : len ex = if is_text r then 1 else 0) by (unfold ex; by destruct (is_text r)).
  pose proof (ipp_len_nonneg pn r). pose proof (len_nonneg doc). pose proof (len_nonneg ex).
  assert (Hex1 : len ex <= 1) by (rewrite Hex; destruct (is_text r); lia).
  rewrite <- Hex. replace (len doc + ipp_len pn r + len ex) with (ipp_len pn r + len ex + len doc) by lia.
  assert (Hcl : 0 <= ipp_len pn r + len ex + len doc < 2 ^ 63) by (unfold IBUFSZ in Hl; lia).
  rewrite (bind_ret _ _ _ _ _ (http_header_run pn _ s1 Hn Hcl)). set (h := http_bytes pn _).
  destruct (sock_write_any (h ++ ipp_bytes pn j r) k) as (n & k2 & Hw & Hi2 & Ho2).
  rewrite (on_sock_run _ _ s1 _ _ Hw). set (s2 := Pst _ _ _ _ _ _).
  assert (Hk2 : kept s s2) by (eapply kept_trans; [exact Hk1|by split]).
  assert (Hfull2 : Forall full (s_wr k) -> n = len (h ++ ipp_bytes pn j r) /\ Forall full (s_wr k2)).
  { intros Hf. destruct (sock_write_full (h ++ ipp_bytes pn j r) k Hf) as (wr & Hw' & Hwr). rewrite Hw in Hw'. by injection Hw' as -> ->. }
  assert (Hlen : len h + ipp_len pn r = len (h ++ ipp_bytes pn j r)) by (by rewrite len_app, len_ipp_bytes). rewrite Hlen.
  destruct (Z.eqb_spec n (len (h ++ ipp_bytes pn j r))) as [En|En]; cbn [negb].
  2: { exists false, s2. split; [done|]. split; [done|]. split; [done|]. intros k' l' E _ Hf. injection E as <- <-. by destruct En; apply Hfull2. }
  destruct (backspace_cases (is_text r) s2) as (ok3 & s3 & Hrun3 & Hk3 & Hi3 & Ho3 & Hf3 & Hd3). rewrite (bind_ret _ _ _ _ _ Hrun3). fold ex in Ho3.
  destruct ok3; cbn [negb].
  2: { exists false, s3. split; [done|]. split; [by eapply kept_trans|]. split; [done|]. intros k' l' E _ Hf. injection E as <- <-.
       apply Hfull2 in Hf as [_ Hf]. by destruct (Hf3 Hf). }
  destruct (send_doc_cases (S (length doc)) doc s3 ltac:(lia)) as (ok4 & s4 & Hrun4 & Hk4 & Hi4 & Ho4 & Hf4). rewrite (bind_ret _ _ _ _ _ Hrun4).
  assert (Hk24 : kept s s4) by (eapply kept_trans; [exact Hk2|by eapply kept_trans]).
  assert (Hok4 : d_faults (p_d s) = [] -> Forall full (s_wr k) -> ok4 = true).
  { intros Hfl Hf. apply Hfull2 in Hf as [_ Hf]. destruct (Hf3 Hf) as [_ Hf']. apply Hf4; [|by apply full_progress].
    by apply (kp_faults _ _ (kept_trans _ _ _ Hk2 Hk3)). }
  destruct ok4; cbn [negb].
  2: { exists false, s4. split; [done|]. split; [done|]. split; [done|]. intros k' l' E Hfl Hf. injection E as <- <-. by apply Hok4 in Hf. }
  assert (Hin : s_in (p_sock s4) = s_in k) by (rewrite Hi4, Hi3; exact Hi2). rewrite <- Hin in Hc.
  destruct (printer_status_reply junk f j (p_sock s4) b Hfuel Hc) as (k5 & Hst & Ho5).
  exists b, (Pst (p_d s4) (p_conns s4) k5 (printer_name s4) (reread s4) (p_conf s4)).
  split; [unfold on_sock; by rewrite Hst|]. split; [eapply kept_trans; [exact Hk24|by split]|]. split; [|done].
  intros ->. exists k, l. split; [done|]. split; [done|]. simpl. destruct (Ho4 eq_refl) as [Ho4' ->].
  rewrite Ho5, Ho4', (Ho3 eq_refl), Hd3. simpl. by rewrite (Ho2 En), <- !app_assoc.
Qed.

(** ** The turn *)

Definition name_after (s : pst) : option bytes :=
  if reread s then
    match get_printaddr resolve (p_conf s) with
    | Some (Some n) => Some n
    | Some None => Some (bs "printer")
    | None => None
    end
  else Some (printer_name s).

(** The files after [update_jobno], which may write only a part of the number. *)
Definition counted (s : pst) : gmap bytes bytes :=
  let d := p_d s in
  let t := dec (nextjob (d_q d)) in
  let t' := match d_faults d with FShort k :: _ => take (Z.to_nat k) t | _ => t end in
  <[job_file := file_write (default [] (d_fs d !! job_file)) 0 t']> (d_fs d).

(** The counter cannot be saved. *)
Definition no_counter (s : pst) : Prop := exists e l, d_faults (p_d s) = FFail e :: l.

Lemma jfree_ok q xs x j :
  qrep q xs -> (x ∉ xs.*1) -> q_heap q !! x = Some j -> exists q', jfree x q = Ret tt q' /\ qrep q' xs.
Proof.
  intros [Hs Hnd [Hb Hlt]] Hx Hj. unfold jfree. rewrite (deref_run _ _ _ _ Hj). eexists. split; [reflexivity|].
  split; simpl; [by apply dseg_delete|done|]. split; [done|]. intros y Hy. apply Hlt. destruct (decide (x = y)) as [->|Hxy].
  - rewrite lookup_delete_eq in Hy. by destruct Hy.
  - by rewrite lookup_delete_ne in Hy.
Qed.

Lemma pick_first q x i r xs :
  qrep q ((x, (i, r)) :: xs) ->
  exists q' j, pick_job q = Ret (Some x) q' /\ qrep q' xs /\ nextjob q' = nextjob q /\ q_heap q' !! x = Some j /\
    j_id j = i /\ j_req j = r /\ (x ∉ xs.*1) /\ x <> 0.
Proof.
  intros Hq. destruct (remove_job_ok q [] x i r xs Hq) as (q' & j & Hrm & Hq' & Hn & _ & Hj & Hi & Hr & _).
  destruct Hq as [(Hh & Hx & _) Hnd _]. simpl in Hh. exists q', j. unfold pick_job, gets, bind at 1.
  rewrite Hh. destruct (Z.eqb_spec x 0); [done|]. rewrite (bind_ret _ _ _ _ _ Hrm). apply NoDup_cons in Hnd as [Hnd _].
  split_and!; done.
Qed.

Lemma update_jobno_cases s q1 :
  nextjob q1 = nextjob (d_q (p_d s)) ->
  let d1 := Dst q1 (d_w (p_d s)) (d_fs (p_d s)) (d_faults (p_d s)) (d_io (p_d s)) in
  (no_counter s /\ exists d2, update_jobno d1 = Die (DSys "can't update job file") d2 /\ d_fs d2 = d_fs (p_d s)) \/
  (exists d2, update_jobno d1 = Ret tt d2 /\ d_q d2 = q1 /\ d_fs d2 = counted s /\ d_faults d2 = drop 1 (d_faults (p_d s))).
Proof.
  intros Hn. unfold no_counter, counted. destruct s as [[q w fs fl io] cs k pn rr cf]. cbn [p_d d_q d_w d_fs d_faults d_io] in *.
  unfold update_jobno, next_fault, on_q, gets, modst, bind. cbn [d_q d_faults d_fs]. rewrite Hn.
  destruct fl as [|[|e|n] fl]; [right|right|left|right].
  3: { split; [by exists e, fl|]. by eexists. }
  all: eexists; (split; [reflexivity|]); done.
Qed.

(** The document cannot be opened: it is missing, or the second call on the disk ([open]),
    or the third one ([fstat]), fails; the first one saves the job counter. *)
Definition unreadable (s : pst) (j : Z) : Prop :=
  d_fs (p_d s) !! data_name j = None \/ failing (outcome (d_faults (p_d s)) 1) = true \/ failing (outcome (d_faults (p_d s)) 2) = true.

(** The file that the [i]-th call on the disk, an [unlink], removes. *)
Definition unlinked (s : pst) (i : nat) (name : bytes) (fs : gmap bytes bytes) : gmap bytes bytes :=
  if failing (outcome (d_faults (p_d s)) i) then fs else delete name fs.

(** The outcome of the turn for the job [j] with the request [r]. *)
Definition turn_result (s s' : pst) (x j : Z) (r : printreq) (xs : list (Z * entry)) (pn : bytes) (b : bool) (res : pres) : Prop :=
  (res = PCanceled <-> unreadable s j) /\
  match res with
  | PIdle => False
  | PCanceled => qrep (d_q (p_d s')) xs /\ d_fs (p_d s') = counted s
  | PDeferred => qrep (d_q (p_d s')) ((x, (j, r)) :: xs) /\ d_fs (p_d s') = counted s
  | PPrinted => qrep (d_q (p_d s')) xs /\ b = true /\
      exists k l doc, p_conns s = Some k :: l /\ d_fs (p_d s) !! data_name j = Some doc /\
        s_out (p_sock s') = s_out k ++ job_bytes pn j r doc /\
        d_fs (p_d s') = unlinked s (4 + reads doc) (req_name j) (unlinked s (3 + reads doc) (data_name j) (counted s))
  end.

(** Nothing stands in the way of the job. *)
Definition favourable (s : pst) (j : Z) : Prop :=
  d_faults (p_d s) = [] /\ is_Some (d_fs (p_d s) !! data_name j) /\ exists k l, p_conns s = Some k :: l /\ Forall full (s_wr k).

Lemma favourable_readable s j : favourable s j -> ~ unreadable s j.
Proof. intros (H0 & [y Hy] & _). unfold unreadable. rewrite H0, Hy. intros [?|[?|?]]; done. Qed.

(** From the open of the document on. *)
Lemma print_job_ok s s1 x j r xs jb pn b :
  d_fs (p_d s1) = counted s -> qrep (d_q (p_d s1)) xs -> q_heap (d_q (p_d s1)) !! x = Some jb -> j_id jb = j -> j_req jb = r ->
  (x ∉ xs.*1) -> x <> 0 -> printer_name s1 = pn -> p_conns s1 = p_conns s ->
  d_faults (p_d s1) = drop 1 (d_faults (p_d s)) ->
  (forall doc, d_fs (p_d s) !! data_name j = Some doc -> printable pn r doc) -> conn_ok j (p_conns s) b ->
  exists res s',
    (f0 <- open_read (data_name j) ;;
     match f0 with
     | None => on_d (on_q (jfree x)) ;;; ret PCanceled
     | Some doc =>
       ok <- file_op ;;
       if negb ok then on_d (on_q (jfree x)) ;;; ret PCanceled
       else
         ok <- send_job junk (S f) j r doc ;;
         if (ok : bool) then
           on_d (unlink (data_name j)) ;;; on_d (unlink (req_name j)) ;;; on_d (on_q (jfree x)) ;;; ret PPrinted
         else on_d (on_q (replace_job x)) ;;; ret PDeferred
     end) s1 = Ret res s' /\ turn_result s s' x j r xs pn b res /\ (favourable s j -> b = true -> res = PPrinted).
Proof.
  intros Hfs Hq Hx Hi Hr Hnx Hx0 Hpn Hcs Hfl Hpr Hcn.
  assert (Hdn : d_fs (p_d s1) !! data_name j = d_fs (p_d s) !! data_name j).
  { rewrite Hfs. unfold counted. apply lookup_insert_ne. unfold data_name, spool_name, job_file. intros E. by apply app_inv_head in E. }
  assert (Hfree : forall s2 (k : M pst pres), d_q (p_d s2) = d_q (p_d s1) -> exists s3, (on_d (on_q (jfree x)) ;;; k) s2 = k s3 /\
    qrep (d_q (p_d s3)) xs /\ d_fs (p_d s3) = d_fs (p_d s2) /\ p_sock s3 = p_sock s2).
  { intros s2 k E. destruct (jfree_ok _ _ _ _ Hq Hnx Hx) as (q' & Hjf & Hq'). rewrite <- E in Hjf.
    erewrite on_d_run; [|unfold on_q; rewrite Hjf; reflexivity]. eexists. split; [reflexivity|]. done. }
  unfold open_read. destruct (file_op_cases s1) as (s2 & H1 & K1 & _ & C1 & F1).
  rewrite Hfl, outcome_drop in H1. rewrite Hfl, drop_drop in F1. change (1 + 0)%nat with 1%nat in H1. change (1 + 1)%nat with 2%nat in F1.
  unfold bind at 1 2. rewrite H1. unfold bind at 1, getst, ret at 1. rewrite (kp_fs _ _ K1), Hdn.
  destruct (if negb _ then d_fs (p_d s) !! data_name j else None) as [doc|] eqn:Edoc.
  2: { destruct (Hfree s2 (ret PCanceled) (kp_q _ _ K1)) as (s3 & -> & Q3 & E3 & _). eexists PCanceled, s3. split; [reflexivity|].
       assert (Hun : unreadable s j) by (unfold unreadable; destruct (failing _); [right; by left|by left]).
       split; [|intros Hfav; by destruct (favourable_readable _ _ Hfav)].
       split; [done|]. split; [done|]. by rewrite E3, (kp_fs _ _ K1). }
  destruct (failing (outcome (d_faults (p_d s)) 1)) eqn:E1; [done|]. cbn [negb] in Edoc.
  destruct (file_op_cases s2) as (s3 & H3 & K3 & _ & C3 & F3).
  rewrite F1, outcome_drop in H3. rewrite F1, drop_drop in F3. change (2 + 0)%nat with 2%nat in H3. change (2 + 1)%nat with 3%nat in F3.
  rewrite (bind_ret _ _ _ _ _ H3). pose proof (kept_trans _ _ _ K1 K3) as K13.
  destruct (failing (outcome (d_faults (p_d s)) 2)) eqn:E2; cbn [negb].
  { destruct (Hfree s3 (ret PCanceled) (kp_q _ _ K13)) as (s4 & -> & Q4 & E4 & _). eexists PCanceled, s4. split; [reflexivity|].
    assert (Hun : unreadable s j) by (right; by right). split; [|intros Hfav; by destruct (favourable_readable _ _ Hfav)].
    split; [done|]. split; [done|]. by rewrite E4, (kp_fs _ _ K13). }
  assert (Hun : ~ unreadable s j) by (unfold unreadable; rewrite Edoc, E1, E2; naive_solver).
  assert (Hcs3 : p_conns s3 = p_conns s) by congruence. rewrite <- Hcs3 in Hcn.
  assert (Hpn3 : printer_name s3 = pn) by (by rewrite (kp_name _ _ K13)).
  pose proof (Hpr _ Edoc) as Hpr'. rewrite <- Hpn3 in Hpr'.
  destruct (send_job_cases j r doc s3 b Hpr' Hcn) as (ok & s4 & H4 & K4 & T4 & L4). rewrite (bind_ret _ _ _ _ _ H4).
  pose proof (kept_trans _ _ _ K13 K4) as K14. destruct ok.
  - destruct (T4 eq_refl) as (k & l & Ec & -> & Eo & F4). rewrite F3, drop_drop in F4.
    destruct (unlink_outcome (data_name j) (p_d s4)) as (d5 & U5 & Q5 & F5 & E5). rewrite (on_d_run _ _ _ _ _ U5).
    destruct (unlink_outcome (req_name j) d5) as (d6 & U6 & Q6 & F6 & E6). erewrite on_d_run; [|exact U6].
    match goal with |- context [ (on_d (on_q (jfree x)) ;;; ?k) ?st ] => destruct (Hfree st k) as (s7 & -> & Q7 & E7 & S7) end.
    { simpl. by rewrite Q6, Q5, (kp_q _ _ K14). }
    eexists PPrinted, s7. split; [reflexivity|]. split; [|done]. split; [done|]. split; [done|]. split; [done|].
    exists k, l, doc. rewrite <- Hcs3, S7, E7. simpl. rewrite Eo, Hpn3. split_and!; try done.
    rewrite E6, E5, F5, F4, (kp_fs _ _ K14), Hfs, !outcome_drop. unfold unlinked.
    by replace (3 + reads doc + 0)%nat with (3 + reads doc)%nat by lia; replace (3 + reads doc + (1 + 0))%nat with (4 + reads doc)%nat by lia.
  - assert (Hq4 : qrep (d_q (p_d s4)) xs) by (by rewrite (kp_q _ _ K14)).
    assert (Hx4 : q_heap (d_q (p_d s4)) !! x = Some jb) by (by rewrite (kp_q _ _ K14)).
    destruct (replace_job_ok _ _ _ _ Hq4 Hx4 Hnx Hx0) as (q' & Hrj & Hq' & _).
    erewrite on_d_run; [|unfold on_q; rewrite Hrj; reflexivity]. eexists PDeferred, _. split; [reflexivity|].
    rewrite Hi, Hr in Hq'. split; [split; [done|]; split; [done|]; simpl; by rewrite (kp_fs _ _ K14), Hfs|].
    intros (H0 & _ & k & l & Ec & Hf) ->. rewrite <- Hcs3 in Ec. rewrite H0 in F3.
    by specialize (L4 k l Ec F3 Hf).
Qed.

(** C12: No job is lost. In one turn of its loop the printer thread takes the first job of
    the queue. It is assumed that the printer's address is known (a reread of the
    configuration finds one), that the headers fit their buffers (a printer name of at
    most 52 bytes, an IPP header of at most 512 bytes, a request whose fields are
    terminated, a document of fewer than 2^62 bytes), and that the connection, if there is
    one, gives no answer, a timeout, an error or one whole answer in one segment. If the
    job counter cannot be saved, the daemon exits and all files are untouched. Otherwise
    the turn ends, for every pattern of disk errors, refused connections and failing
    writes, in one of three ways: the printer got the headers and the whole document and
    accepted the job, and the job is gone, as are its two files, except one whose [unlink]
    failed; or the job is back at the front of the queue and its files are untouched; or
    the job is dropped from the queue, exactly when its document is missing or its [open]
    or [fstat] fails, and its files are untouched. When the disk and the connection work
    and the printer accepts the job, it is printed. *)
Theorem printer_turn_safe (s : pst) (x j : Z) (r : printreq) (xs : list (Z * entry)) (pn : bytes) (b : bool) :
  qrep (d_q (p_d s)) ((x, (j, r)) :: xs) -> name_after s = Some pn ->
  (forall doc, d_fs (p_d s) !! data_name j = Some doc -> printable pn r doc) -> conn_ok j (p_conns s) b ->
  (no_counter s /\ exists s', printer_turn resolve junk (S f) s = Die (DSys "can't update job file") s' /\ d_fs (p_d s') = d_fs (p_d s)) \/
  (exists res s', printer_turn resolve junk (S f) s = Ret res s' /\ turn_result s s' x j r xs pn b res /\
    (favourable s j -> b = true -> res = PPrinted)).
Proof.
  intros Hq Hna Hpr Hc. unfold printer_turn.
  destruct (pick_first _ _ _ _ _ Hq) as (q1 & jb & Hpk & Hq1 & Hnj & Hjb & Hi & Hr & Hnx & Hx0).
  erewrite on_d_run; [|unfold on_q; rewrite Hpk; reflexivity]. cbv iota.
  destruct (update_jobno_cases s q1 Hnj) as [(Hno & d2 & Hup & Hfs)|(d2 & Hup & Hq2 & Hfs2 & Hfl2)].
  { left. split; [done|]. unfold bind at 1, on_d. cbn [p_d]. rewrite Hup. by eexists. }
  right.
  erewrite on_d_run; [|exact Hup]. set (s2 := Pst _ _ _ _ _ _).
  rewrite (bind_ret _ _ _ _ _ (eq_refl : gets reread s2 = Ret (reread s) s2)).
  assert (Hrr : exists s3, when (reread s) (modst (set_reread false) ;;; init_printer resolve) s2 = Ret tt s3 /\
    p_d s3 = d2 /\ printer_name s3 = pn /\ p_conns s3 = p_conns s).
  { unfold name_after in Hna. destruct (reread s); [|exists s2; by injection Hna as <-].
    unfold when, init_printer, modst, gets, bind. cbn [p_conf set_reread s2].
    destruct (get_printaddr resolve (p_conf s)) as [[n|]|]; [| |done]; injection Hna as <-; eexists; split; done. }
  destruct Hrr as (s3 & Hw & Hd3 & Hn3 & Hc3). rewrite (bind_ret _ _ _ _ _ Hw).
  erewrite on_d_run; [|unfold on_q, deref; rewrite Hd3, Hq2, Hjb; reflexivity]. rewrite Hi, Hr.
  apply (print_job_ok s _ x j r xs jb pn b); try done; cbn [p_d d_q]; by rewrite ?Hq2.
Qed.
End turn.

(** ** Witness *)

Lemma qrep_one n j r : qrep (Queue {[1 := Job 0 0 j r]} 2 1 1 n) [(1, (j, r))].
Proof.
  split; simpl.
  - split; [done|]. split; [done|]. exists 0. by rewrite lookup_singleton_eq.
  - apply NoDup_singleton.
  - split; [done|]. intros x [y Hy]. apply lookup_singleton_Some in Hy as [<- _]. lia.
Qed.

Definition pst_ex : pst :=
  Pst (Dst (Queue {[1 := Job 0 0 7 req_print_ex]} 2 1 1 8) w_empty {[ data_name 7 := bs "%!PS-Adobe-3" ]} [] (Ios [] [] [] 0))
    [Some (Ios [EvData (answer_bytes answer_ex)] [] [] 0)] (Ios [] [] [] 0) (bs "lp1") false [].

Lemma printer_turn_safe_witness :
  exists res s', printer_turn (fun _ => None) junk_ex (S (Z.to_nat 8192)) pst_ex = Ret res s' /\
    turn_result pst_ex s' 1 7 req_print_ex [] (bs "lp1") true res /\ res = PPrinted.
Proof.
  destruct (printer_turn_safe (fun _ => None) junk_ex (Z.to_nat 8192) ltac:(rewrite Z2Nat.id by lia; unfold IOBUFSZ; lia)
    pst_ex 1 7 req_print_ex [] (bs "lp1") true) as [((e & l & H0) & _)|(res & s' & H1 & H2 & H3)].
  - exact (qrep_one 8 7 req_print_ex).
  - reflexivity.
  - intros doc E. assert (Ed : doc = bs "%!PS-Adobe-3").
    { cbn [pst_ex p_d d_fs] in E. rewrite lookup_singleton_eq in E. by injection E as <-. }
    subst doc. split; [by vm_compute|by vm_compute|exact terminated_ex|by vm_compute].
  - exact (reply_answer 7 answer_ex [] answer_ex_ok).
  - discriminate.
  - exists res, s'. split; [exact H1|]. split; [exact H2|]. apply H3; [|reflexivity]. split; [reflexivity|]. split.
    + exists (bs "%!PS-Adobe-3"). cbn [pst_ex p_d d_fs]. apply lookup_singleton_eq.
    + eexists _, _. split; [reflexivity|]. apply Forall_nil_2.
Defined.
