(* ===== verification/Iotool.v ===== *)
(** * iotool: a tool that reads and writes devices (iotool_cpp/iotool.c and iotool.h)

    [main], [do_open], the number parsers, the write engines, the read engines with the
    dump of a sector, and the engines [W] and [R].  The kernel is the one of Posix.v; every
    [pwrite] consumes one outcome (everything, a part, an error).  [i_out] is the data that
    the read engines print; headings of dumps are kept, progress messages are not.  The
    contents of fresh heap memory and the success of [aligned_alloc] are parameters.
    The asynchronous engine takes libaio as parameters: the result of [io_setup], the result
    and the effect of [io_submit], and the results of the successive [io_getevents].
    [size_t] arithmetic wraps at 64 bits; signed overflow, a store or a read outside an
    allocated buffer, a division by zero and a [printf] with too few arguments are undefined
    behaviour.  A function that ends
    without a [return] yields [None]. *)

From Stdlib Require Import Strings.Byte ZArith Lia.
From S2P Require Import Prelude Libc Posix SpoolIo.
From stdpp Require Import base strings numbers gmap list.
#[local] Open Scope Z_scope.

Definition SECTOR_SIZE : Z := 512.
Definition PAGE_SIZE : Z := 4096.
Definition MAX_BUF_LEN : Z := 1024 * 1024 * 4.
Definition BLOCK_SIZE_MAX : Z := 64 * 1024 * 1024.
Definition MAX_STR_IN_SIZE : Z := 64.
Definition INT_MAX : Z := 2 ^ 31 - 1.

(** ** State *)

Record iot := Iot { i_k : kernel; i_wr : list wev; i_out : bytes }.

Definition on_k {A} (f : kernel -> A * kernel) : M iot A := fun s =>
  let '(a, k) := f (i_k s) in Ret a (Iot k (i_wr s) (i_out s)).

Definition print (b : bytes) : M iot unit := modst (fun s => Iot (i_k s) (i_wr s) (i_out s ++ b)).

(** [pwrite] may write only a part of its buffer. *)
Definition pwrite (fd : Z) (d : bytes) (off : Z) : M iot Z := fun s =>
  match i_wr s with
  | [] | WAll :: _ =>
    let '(n, k) := sys_pwrite fd d off (i_k s) in Ret n (Iot k (tail (i_wr s)) (i_out s))
  | WSome m :: r =>
    let '(n, k) := sys_pwrite fd (take (Z.to_nat (Z.max 0 (Z.min m (len d)))) d) off (i_k s) in Ret n (Iot k r (i_out s))
  | WErr e :: r => Ret (-1) (Iot (set_errno e (i_k s)) r (i_out s))
  end.

Definition pread (fd n off : Z) : M iot (option bytes) := on_k (sys_pread fd n off).

(** ** Arguments *)

Definition ULLONG_MAX : Z := 2 ^ 64 - 1.
Definition ERANGE : Z := 34.

(** The sign and the digits that [strtoll] and [strtoull] convert. *)
Definition number (s : bytes) : bool * bytes :=
  match skip_space s with
  | c :: r => if decide (c = c_minus) then (true, r) else if decide (c = c_plus) then (false, r) else (false, c :: r)
  | [] => (false, [])
  end.

Definition has_digits (s : bytes) : bool := match (number s).2 with c :: _ => isdigit c | [] => false end.

(** The value and the error number after the call; [endptr == value] is [has_digits = false]. *)
Definition strtoull (s : bytes) : Z * bool :=
  let '(neg, r) := number s in
  let v := scan_digits 0 r in
  if ULLONG_MAX <? v then (ULLONG_MAX, true) else ((if neg then u64 (- v) else v), false).

Definition strtoll (s : bytes) : Z * bool :=
  let '(neg, r) := number s in
  let v := if neg then - scan_digits 0 r else scan_digits 0 r in
  if LONG_MAX <? v then (LONG_MAX, true) else if v <? LONG_MIN then (LONG_MIN, true) else (v, false).

Definition iot_errno : M iot Z := gets (fun s => k_errno (i_k s)).

Definition mystrtoull (value : bytes) : M iot Z :=
  let '(ret_value, range) := strtoull value in
  when range (on_k (fun k => (tt, set_errno ERANGE k))) ;;;
  errno <- iot_errno ;;
  if ((errno =? ERANGE) && ((ret_value =? ULLONG_MAX) || (ret_value =? u64 LONG_MIN))) ||
     (negb (errno =? 0) && (ret_value =? 0)) || negb (has_digits value)
  then die DAbort else ret ret_value.

Definition mystrtoll (value : bytes) : M iot Z :=
  let '(ret_value, range) := strtoll value in
  when range (on_k (fun k => (tt, set_errno ERANGE k))) ;;;
  errno <- iot_errno ;;
  if ((errno =? ERANGE) && ((ret_value =? LONG_MAX) || (ret_value =? LONG_MIN))) ||
     (negb (errno =? 0) && (ret_value =? 0)) || negb (has_digits value)
  then die DAbort else ret ret_value.

(** ** Opening *)

Definition open_flag_array : list (bytes * bytes * Z) :=
  [(bs "direct", bs "d", Z.lor O_RDWR (Z.lor O_DIRECT O_CREAT));
   (bs "sync", bs "s", Z.lor O_RDWR (Z.lor O_SYNC (Z.lor O_CREAT O_DSYNC)));
   (bs "buffer", bs "b", Z.lor O_RDWR O_CREAT)].

Fixpoint find_flags (l : list (bytes * bytes * Z)) (cmd_opt : bytes) : Z :=
  match l with
  | [] => 0
  | (opt, short, flags) :: l' =>
    if (strncasecmp cmd_opt opt (length opt) =? 0) || (strncasecmp cmd_opt short (length short) =? 0) then flags
    else find_flags l' cmd_opt
  end.

Definition do_open (cmd_opt file_name : bytes) : M iot Z :=
  let flags := find_flags open_flag_array cmd_opt in
  if flags =? 0 then ret (-1) else on_k (sys_open file_name flags).

Definition sys_close_ (fd : Z) : M iot unit := on_k (sys_close fd) ;;; ret tt.

(** An argument that the caller has checked for. *)
Definition arg (argv : list bytes) (i : nat) : M iot bytes :=
  match argv !! i with Some a => ret a | None => undef "argv" end.

Section iotool.
Context (heap : Z -> byte) (alloc : Z -> bool).

(** [aligned_alloc(512, n)]: a block with whatever the heap held. *)
Definition new_buf (n : Z) : bytes := heap <$> seqZ 0 n.

(** [memset(buf, c, n)] *)
Definition memset (c : byte) (n : Z) : bytes := replicate (Z.to_nat n) c.

(** ** The write engines *)

(** [while (off + str_len <= buf_len) { strcpy(buf + off, str); off += str_len; }] *)
Fixpoint fill_loop (fuel : nat) (str buf : bytes) (off : Z) : M iot bytes :=
  if off + len str <=? len buf then
    match fuel with
    | O => fun _ => NoFuel
    | S f =>
      if len buf <? off + len str + 1 then undef "store outside the heap block"
      else fill_loop f str (splice (Z.to_nat off) (str ++ [NUL]) buf) (off + len str)
    end
  else ret buf.

(** Every turn stores at least one byte, unless the string is empty. *)
Definition fill_str (str buf : bytes) : M iot bytes := fill_loop (length buf) str buf 0.

(** [pwrite(fd, buf, n, off)] of the first [n] bytes of a block. *)
Definition pwrite_buf (fd : Z) (buf : bytes) (n off : Z) : M iot Z :=
  if (n <? 0) || (len buf <? n) then undef "read outside the heap block"
  else pwrite fd (take (Z.to_nat n) buf) off.

(** The loop of the byte engines: 0 or -1. *)
Fixpoint wr_bytes_loop (fuel : nat) (fd : Z) (buf : bytes) (data_len byte_off wr_offset : Z) : M iot Z :=
  if u64 wr_offset <? u64 (data_len + byte_off) then
    match fuel with
    | O => fun _ => NoFuel
    | S f =>
      let left := u64 (data_len + byte_off - wr_offset) in
      let one_wr_len := if len buf <? left then len buf else left in
      wr_bytes <- pwrite_buf fd buf one_wr_len wr_offset ;;
      if wr_bytes <? 0 then ret (-1)
      else wr_bytes_loop f fd buf data_len byte_off (i64 (wr_offset + wr_bytes))
    end
  else ret 0.

(** The loop of the sector engines; [base] is [sect_off * SECTOR_SIZE]. *)
Fixpoint wr_sects_loop (fuel : nat) (fd : Z) (buf : bytes) (data_len base wr_offset : Z) : M iot Z :=
  if u64 wr_offset <? u64 (data_len + base) then
    match fuel with
    | O => fun _ => NoFuel
    | S f =>
      let one_wr_len :=
        if len buf <? u64 (data_len - wr_offset) then len buf else u64 (data_len + base - wr_offset) in
      wr_bytes <- pwrite_buf fd buf one_wr_len wr_offset ;;
      if wr_bytes <? 0 then ret (-1)
      else wr_sects_loop f fd buf data_len base (i64 (wr_offset + wr_bytes))
    end
  else ret 0.

(** A turn writes a byte or consumes an outcome. *)
Definition wr_fuel (data_len : Z) (s : iot) : nat := S (Z.to_nat data_len + length (i_wr s)).

Definition buf_len_of (data_len : Z) : Z := if MAX_BUF_LEN <? data_len then MAX_BUF_LEN else data_len.

Definition _do_wr_bytes_str (fd byte_off byte_cnt : Z) (str : bytes) : M iot Z :=
  let buf_len := buf_len_of byte_cnt in
  if negb (alloc buf_len) then ret (-1)
  else
    buf <- fill_str str (new_buf buf_len) ;;
    s <- getst ;;
    wr_bytes_loop (wr_fuel byte_cnt s) fd buf byte_cnt byte_off byte_off.

Definition _do_wr_bytes_char (fd byte_off byte_cnt : Z) (c : byte) : M iot Z :=
  let buf_len := buf_len_of byte_cnt in
  if negb (alloc buf_len) then ret (-1)
  else
    s <- getst ;;
    wr_bytes_loop (wr_fuel byte_cnt s) fd (memset c buf_len) byte_cnt byte_off byte_off.

(** [sect_off * SECTOR_SIZE] in an [off_t]. *)
Definition sect_base (sect_off unit_size : Z) : M iot Z :=
  let b := sect_off * unit_size in
  if (LONG_MIN <=? b) && (b <=? LONG_MAX) then ret b else undef "signed overflow".

Definition _do_wr_sects_char (fd sect_off sect_cnt : Z) (c : byte) : M iot Z :=
  let data_len := u64 (SECTOR_SIZE * sect_cnt) in
  let buf_len := buf_len_of data_len in
  if negb (alloc buf_len) then ret (-1)
  else
    base <- sect_base sect_off SECTOR_SIZE ;;
    s <- getst ;;
    wr_sects_loop (wr_fuel data_len s) fd (memset c buf_len) data_len base base.

Definition _do_wr_sects_str (fd sect_off sect_cnt : Z) (str : bytes) : M iot Z :=
  let data_len := u64 (SECTOR_SIZE * sect_cnt) in
  let buf_len := buf_len_of data_len in
  if negb (alloc buf_len) then ret (-1)
  else
    buf <- fill_str str (new_buf buf_len) ;;
    base <- sect_base sect_off SECTOR_SIZE ;;
    s <- getst ;;
    wr_sects_loop (wr_fuel data_len s) fd buf data_len base base.

(** The command of a write engine: [argv] is flag, engine, file, offset, count, data. *)
Definition wr_engine (go : Z -> Z -> Z -> bytes -> M iot Z) (argv : list bytes) : M iot (option Z) :=
  if len argv <? 7 then ret (Some (-1))
  else
    a5 <- arg argv 5 ;; cnt <- mystrtoull a5 ;;
    a4 <- arg argv 4 ;; off <- mystrtoll a4 ;;
    a1 <- arg argv 1 ;; a3 <- arg argv 3 ;; fd <- do_open a1 a3 ;;
    if fd <? 0 then ret (Some (-1))
    else
      a6 <- arg argv 6 ;;
      go fd off cnt a6 ;;;
      sys_close_ fd ;;;
      ret None.

(** [argv[6][0]] *)
Definition first_char (s : bytes) : byte := default NUL (head s).

Definition do_wr_bytes_str : list bytes -> M iot (option Z) := wr_engine _do_wr_bytes_str.
Definition do_wr_bytes_char : list bytes -> M iot (option Z) :=
  wr_engine (fun fd off cnt s => _do_wr_bytes_char fd off cnt (first_char s)).
Definition do_wr_sects_char : list bytes -> M iot (option Z) :=
  wr_engine (fun fd off cnt s => _do_wr_sects_char fd off cnt (first_char s)).
Definition do_wr_sects_str : list bytes -> M iot (option Z) := wr_engine _do_wr_sects_str.

(** ** The dump of sectors *)

Definition hexdigit (d : Z) : byte := if d <? 10 then bz (48 + d) else bz (55 + d).
Definition hex2 (v : Z) : bytes := [hexdigit (v / 16); hexdigit (v mod 16)].

(** [%04X] *)
Fixpoint hex_go (fuel : nat) (n : Z) (acc : bytes) : bytes :=
  match fuel with
  | O => acc
  | S f => if n =? 0 then acc else hex_go f (n / 16) (hexdigit (n mod 16) :: acc)
  end.
Definition hex4 (n : Z) : bytes :=
  let h := hex_go 16 n [] in replicate (4 - length h) "0"%byte ++ h.

Definition dump_head : bytes :=
  bs "---------------------------------------------------------------------" ++ bs "----------------------    " ++
  bs "---------------- ----------------" ++ [x0a] ++
  bs "Address  0 1  2 3  4 5  6 7   8 9  A B  C D  E F   0 1  2 3  4 5  6 " ++ bs "7   8 9  A B  C D  E F     " ++
  bs "0123456789ABCDEF 0123456789ABCDEF" ++ [x0a].

Definition dump_char (c : byte) : byte :=
  if isprint c && bool_decide (c <> x0d) && bool_decide (c <> x0a) then c
  else if uc c =? 0 then "."%byte else "*"%byte.

(** The characters of a line: [k] is the position of the first of them. *)
Fixpoint dump_chars (l : bytes) (k : Z) : bytes :=
  match l with
  | [] => []
  | c :: l' =>
    dump_char c :: (if (k + 1) mod 16 =? 0 then bs " " else []) ++ (if (k + 1) mod 32 =? 0 then [x0a] else []) ++
    dump_chars l' (k + 1)
  end.

(** What is printed for the byte [c] at position [i]. *)
Definition dump_byte (data : bytes) (offset i : Z) (c : byte) : bytes :=
  (if i mod 512 =? 0 then bs "sector:" ++ dec (i32 (offset / 512 + i / 512)) ++ [x0a] else []) ++
  (if i mod 32 =? 0 then bs "0x" ++ hex4 i ++ (if i mod 64 =? 0 then bs "   " else bs "*  ") else []) ++
  hex2 (uc c) ++
  (if (i + 1) mod 2 =? 0 then
     if (i + 1) mod 8 =? 0 then bs "  " else if (i + 1) mod 4 =? 0 then bs " " else bs "-"
   else []) ++
  (if (i + 1) mod 32 =? 0 then bs "  " else []) ++
  (if ((i + 1) mod 32 =? 0) && (0 <? i)
   then dump_chars (slice (Z.to_nat (i + 1 - 32)) 32 data) (i + 1 - 32) else []).

Fixpoint dump_loop (data : bytes) (offset i : Z) (l : bytes) : bytes :=
  match l with
  | [] => []
  | c :: l' => dump_byte data offset i c ++ dump_loop data offset (i + 1) l'
  end.

(** [prt_sect_data(data, data_len, offset)] *)
Definition prt_sect_data (data : bytes) (data_len offset : Z) : M iot unit :=
  if len data <? data_len then undef "read outside the heap block"
  else
    let d := take (Z.to_nat data_len) data in
    print (dump_head ++ dump_loop d (u32 offset) 0 d ++ [x0a]).

(** ** The read engines *)

Definition rd_base (sect_off i : Z) : Z := i64 (u64 ((sect_off + i) * SECTOR_SIZE)).

Fixpoint read_sects_loop (n : nat) (fd sect_off i : Z) (buf : bytes) : M iot Z :=
  match n with
  | O => ret 0
  | S n' =>
    r <- pread fd SECTOR_SIZE (rd_base sect_off i) ;;
    match r with
    | None => ret (-1)
    | Some d =>
      let buf := splice 0 d buf in
      let buf := if len d <? SECTOR_SIZE then splice (length d) [NUL] buf else splice 80 [NUL] buf in
      print (bs "sect" ++ dec (i64 (sect_off + i)) ++ bs ":[" ++ cstr buf ++ bs "]" ++ [x0a]) ;;;
      read_sects_loop n' fd sect_off (i + 1) buf
    end
  end.

Definition _do_read_sects (fd sect_off sect_cnt : Z) : M iot Z :=
  if negb (alloc SECTOR_SIZE) then ret (-1)
  else read_sects_loop (Z.to_nat sect_cnt) fd sect_off 0 (new_buf SECTOR_SIZE).

Definition _do_read_one_sect (fd sect_off : Z) : M iot Z :=
  if negb (alloc SECTOR_SIZE) then ret (-1)
  else
    base <- sect_base sect_off SECTOR_SIZE ;;
    r <- pread fd SECTOR_SIZE base ;;
    match r with
    | None => ret (-1)
    | Some d => prt_sect_data (splice 0 d (new_buf SECTOR_SIZE)) SECTOR_SIZE base ;;; ret 0
    end.

Fixpoint print_sectors (n : nat) (i : Z) (buf : bytes) (base : Z) : M iot unit :=
  match n with
  | O => ret tt
  | S n' =>
    print (bs "Printing Sector:" ++ dec i ++ [x0a]) ;;;
    prt_sect_data (drop (Z.to_nat (i * SECTOR_SIZE)) buf) SECTOR_SIZE base ;;;
    print_sectors n' (i + 1) buf base
  end.

Definition _do_read_one_page (fd page_off : Z) : M iot Z :=
  if negb (alloc PAGE_SIZE) then ret (-1)
  else
    base <- sect_base page_off PAGE_SIZE ;;
    pos <- on_k (sys_lseek fd base SEEK_SET) ;;
    if pos <? 0 then undef "printf argument"
    else
      r <- on_k (sys_read fd PAGE_SIZE) ;;
      match r with
      | None => ret (-1)
      | Some d => print_sectors (Z.to_nat (PAGE_SIZE / SECTOR_SIZE)) 0 (splice 0 d (new_buf PAGE_SIZE)) base ;;; ret 0
      end.

Fixpoint read_pages_loop (n : nat) (fd page_off i : Z) : M iot unit :=
  match n with
  | O => ret tt
  | S n' =>
    if INT_MAX <? i then undef "signed overflow"
    else
      print (bs "Printing page:" ++ dec i ++ [x0a]) ;;;
      _do_read_one_page fd (page_off + i) ;;;
      print [x0a; x0a] ;;;
      read_pages_loop n' fd page_off (i + 1)
  end.

Definition _do_read_bytes (fd byte_off byte_cnt : Z) : M iot Z :=
  if negb (alloc byte_cnt) then ret (-1)
  else
    r <- pread fd byte_cnt byte_off ;;
    match r with
    | None => ret (-1)
    | Some d =>
      if len d =? 0 then undef "store outside the heap block"
      else
        let buf := splice (length d - 1) [NUL] (splice 0 d (new_buf byte_cnt)) in
        print (bs "data off:" ++ dec byte_off ++ bs ", len:" ++ dec byte_cnt ++ bs ":[" ++ cstr buf ++ bs "]" ++ [x0a]) ;;;
        ret 0
    end.

(** The command of a read engine with an offset and a count. *)
Definition rd_engine (conv : bytes -> M iot Z) (go : Z -> Z -> Z -> M iot unit) (argv : list bytes) : M iot (option Z) :=
  if len argv <? 6 then ret (Some (-1))
  else
    a4 <- arg argv 4 ;; off <- mystrtoll a4 ;;
    a5 <- arg argv 5 ;; cnt <- conv a5 ;;
    a1 <- arg argv 1 ;; a3 <- arg argv 3 ;; fd <- do_open a1 a3 ;;
    if fd <? 0 then ret (Some (-1))
    else go fd off cnt ;;; sys_close_ fd ;;; ret None.

Definition rd_one_engine (go : Z -> Z -> M iot Z) (argv : list bytes) : M iot (option Z) :=
  if len argv <? 5 then ret (Some (-1))
  else
    a4 <- arg argv 4 ;; off <- mystrtoll a4 ;;
    a1 <- arg argv 1 ;; a3 <- arg argv 3 ;; fd <- do_open a1 a3 ;;
    if fd <? 0 then ret (Some (-1))
    else go fd off ;;; sys_close_ fd ;;; ret None.

Definition do_read_sects : list bytes -> M iot (option Z) :=
  rd_engine mystrtoull (fun fd off cnt => _do_read_sects fd off cnt ;;; ret tt).
Definition do_read_bytes : list bytes -> M iot (option Z) :=
  rd_engine mystrtoull (fun fd off cnt => _do_read_bytes fd off cnt ;;; ret tt).
Definition do_read_pages : list bytes -> M iot (option Z) :=
  rd_engine mystrtoll (fun fd off cnt => read_pages_loop (Z.to_nat cnt) fd off 0).
Definition do_read_one_sect : list bytes -> M iot (option Z) := rd_one_engine _do_read_one_sect.
Definition do_read_one_page : list bytes -> M iot (option Z) := rd_one_engine _do_read_one_page.

(** ** The engines W and R *)

Record Args := MkArgs { a_bs : Z; a_offset : Z; a_counts : Z; a_dev_path : bytes; a_in : bytes }.

(** [getopt_long_only] from argument 4 on: the options it returns, with their arguments,
    the permuted [argv] and the final [optind]. *)
Context (getopt_long_only : list bytes -> list (byte * option bytes) * list bytes * nat).

Definition is_direct (a1 : bytes) : bool :=
  bool_decide (tolower <$> a1 = bs "d") || bool_decide (tolower <$> a1 = bs "direct").

(** The options: the block size, or [None] for [return 1]. *)
Fixpoint check_opts (opts : list (byte * option bytes)) (direct : bool) (bs0 : Z) : M iot (option Z) :=
  match opts with
  | [] => ret (Some bs0)
  | (c, optarg) :: r =>
    match optarg with
    | Some a =>
      if bool_decide (c = "b"%byte) then
        v <- mystrtoull a ;;
        if BLOCK_SIZE_MAX <? v then ret None
        else if negb (v mod 512 =? 0) && direct then ret None
        else check_opts r direct v
      else check_opts r direct bs0
    | None => check_opts r direct bs0
    end
  end.

(** The arguments and the permuted [argv], or [None] for [return 1]. *)
Definition CheckArgs (argv : list bytes) (required_arg_num : Z) : M iot (option (Args * list bytes)) :=
  a1 <- arg argv 1 ;;
  if len argv <? 5 then ret None
  else
    let '(opts, argv, optind) := getopt_long_only argv in
    r <- check_opts opts (is_direct a1) SECTOR_SIZE ;;
    match r with
    | None => ret None
    | Some b =>
      if len argv - Z.of_nat optind <? required_arg_num then ret None
      else
        a3 <- arg argv 3 ;;
        ao <- arg argv optind ;; off <- mystrtoll ao ;;
        ac <- arg argv (optind + 1) ;; cnt <- mystrtoull ac ;;
        if MAX_STR_IN_SIZE <? strlen (replicate 64 NUL) then ret None
        else
          ai <- arg argv (optind + 2) ;;
          ret (Some (MkArgs b off cnt (strncpy a3 64) (strncpy ai 64), argv))
    end.

(** An array that is printed or measured as a string. *)
Definition array_str (a : bytes) : M iot bytes :=
  if bool_decide (NUL ∈ a) then ret (cstr a) else undef "string without a terminator".

(** The loop of [WriteIO]: the last offset, or [None] for [return 1]. *)
Fixpoint write_blocks (n : nat) (fd : Z) (data : bytes) (offset i : Z) : M iot (option Z) :=
  match n with
  | O => ret (Some offset)
  | S n' =>
    if INT_MAX <? i then undef "signed overflow"
    else
      let offset := u64 (offset + len data * i) in
      w <- pwrite fd data (i64 offset) ;;
      if w <? 0 then sys_close_ fd ;;; ret None
      else write_blocks n' fd data offset (i + 1)
  end.

Definition WriteIO (argv : list bytes) : M iot (option Z) :=
  r <- CheckArgs argv 3 ;;
  match r with
  | None => ret (Some 1)
  | Some (a, argv) =>
    array_str (a_dev_path a) ;;; input <- array_str (a_in a) ;;
    offset <- sect_base (a_offset a) 512 ;;
    let data_len := u64 (a_bs a * a_counts a) in
    a1 <- arg argv 1 ;; a3 <- arg argv 3 ;; fd <- do_open a1 a3 ;;
    if fd <? 0 then ret (Some 1)
    else if negb (alloc (a_bs a)) then ret (Some 1)
    else
      data <- fill_str input (new_buf (a_bs a)) ;;
      if a_bs a =? 0 then undef "division by zero"
      else
        r <- write_blocks (Z.to_nat (data_len / a_bs a)) fd data (u64 offset) 0 ;;
        match r with
        | None => ret (Some 1)
        | Some offset =>
          let write_end := data_len mod a_bs a in
          w <- (if write_end =? 0 then ret 0 else pwrite fd (take (Z.to_nat write_end) data) (i64 offset)) ;;
          sys_close_ fd ;;;
          ret (Some (if w <? 0 then 1 else 0))
        end
  end.

Definition wants_print (input : bytes) : bool := strncasecmp input (bs "print") 5 =? 0.

(** The loop of [ReadIO]: the buffer, or [None] for [return 1]. *)
Fixpoint read_blocks (n : nat) (fd bsz offset i : Z) (pr : bool) (data : bytes) : M iot (option bytes) :=
  match n with
  | O => ret (Some data)
  | S n' =>
    if INT_MAX <? i then undef "signed overflow"
    else
      let off := u64 (bsz * i + offset) in
      r <- pread fd bsz (i64 off) ;;
      match r with
      | None => sys_close_ fd ;;; ret None
      | Some d =>
        let data := splice 0 d (memset NUL bsz) in
        when pr (prt_sect_data data bsz off) ;;;
        read_blocks n' fd bsz offset (i + 1) pr data
      end
  end.

Definition ReadIO (argv : list bytes) : M iot (option Z) :=
  r <- CheckArgs argv 3 ;;
  match r with
  | None => ret (Some 1)
  | Some (a, argv) =>
    array_str (a_dev_path a) ;;; input <- array_str (a_in a) ;;
    offset <- sect_base (a_offset a) 512 ;;
    let data_len := u64 (a_bs a * a_counts a) in
    a1 <- arg argv 1 ;; a3 <- arg argv 3 ;; fd <- do_open a1 a3 ;;
    if fd <? 0 then ret (Some 1)
    else if negb (alloc (a_bs a)) then ret (Some 1)
    else if a_bs a =? 0 then undef "division by zero"
    else
      let read_cnt := data_len / a_bs a in
      r <- read_blocks (Z.to_nat read_cnt) fd (a_bs a) (u64 offset) 0 (wants_print input) (new_buf (a_bs a)) ;;
      match r with
      | None => ret (Some 1)
      | Some data =>
        let read_end := data_len mod a_bs a in
        r <- (if read_end =? 0 then ret (Some 0)
              else
                d <- pread fd read_end (i64 (u64 (read_cnt * a_bs a))) ;;
                match d with
                | None => ret (Some 1)
                | Some d =>
                  when (wants_print input)
                    (prt_sect_data (splice 0 d (splice 0 (memset NUL read_end) data)) (a_bs a)
                       (u64 (a_bs a * read_cnt + offset))) ;;;
                  ret (Some 0)
                end) ;;
        sys_close_ fd ;;;
        ret r
      end
  end.

(** ** The asynchronous engine *)

(** A control block as [io_prep_pwrite] leaves it. *)
Record iocb := Iocb { cb_fd : Z; cb_buf : bytes; cb_offset : Z }.

Definition sizeof_iocb : Z := 64.
Definition sizeof_io_event : Z := 32.
Definition sizeof_ptr : Z := 8.

Context (io_setup : Z -> Z) (io_submit : list iocb -> kernel -> Z * kernel) (io_getevents : list Z).

(** The control blocks for the pairs of arguments from number [i] on; [None] is [goto err_out]. *)
Fixpoint prep_iocbs (n : nat) (argv : list bytes) (str : bytes) (fd : Z) (i : nat) : M iot (option (list iocb)) :=
  match n with
  | O => ret (Some [])
  | S n' =>
    ao <- arg argv (4 + i * 2) ;; byte_off <- mystrtoll ao ;;
    ac <- arg argv (4 + i * 2 + 1) ;; byte_cnt <- mystrtoull ac ;;
    if negb (alloc sizeof_iocb) then ret None
    else if negb (alloc byte_cnt) then ret None
    else
      buf <- fill_str str (new_buf byte_cnt) ;;
      r <- prep_iocbs n' argv str fd (i + 1) ;;
      ret (cons (Iocb fd buf byte_off) <$> r)
  end.

(** The loop that collects the events: one result of [io_getevents] a turn. *)
Fixpoint aio_wait (evs : list Z) (iocb_cnt total_io_done : Z) : M iot unit :=
  match evs with
  | [] => fun _ => NoFuel
  | ret_evnt :: evs' =>
    if ret_evnt <? 0 then ret tt
    else
      let total_io_done := total_io_done + ret_evnt in
      if iocb_cnt <=? total_io_done then ret tt else aio_wait evs' iocb_cnt total_io_done
  end.

Definition do_aio_wrv_bytes_str (argv : list bytes) : M iot (option Z) :=
  let argc := len argv in
  if argc <? 7 then ret (Some (-1))
  else if negb ((argc - 5) mod 2 =? 0) then ret (Some (-1))
  else
    a1 <- arg argv 1 ;; a3 <- arg argv 3 ;; fd <- do_open a1 a3 ;;
    if fd <? 0 then ret (Some (-1))
    else
      let iocb_cnt := (argc - 5) / 2 in
      if negb (io_setup iocb_cnt =? 0) then ret (Some 0)
      else if negb (alloc (sizeof_ptr * iocb_cnt)) then ret (Some 0)
      else if negb (alloc (sizeof_io_event * iocb_cnt)) then ret (Some 0)
      else
        str <- arg argv (length argv - 1) ;;
        cbs <- prep_iocbs (Z.to_nat iocb_cnt) argv str fd 0 ;;
        match cbs with
        | None => ret (Some 0)
        | Some cbs =>
          r <- on_k (io_submit cbs) ;;
          if r <? 0 then ret (Some 0)
          else aio_wait io_getevents iocb_cnt 0 ;;; ret (Some 0)
        end.

(** ** The command *)

Definition ioengine_array : list (bytes * (list bytes -> M iot (option Z))) :=
  [(bs "wrbytesstr", do_wr_bytes_str); (bs "wrbyteschar", do_wr_bytes_char); (bs "wrsectschar", do_wr_sects_char);
   (bs "wrsectsstr", do_wr_sects_str); (bs "rdonesect", do_read_one_sect); (bs "rdbytes", do_read_bytes);
   (bs "rdonepage", do_read_one_page); (bs "rdpages", do_read_pages); (bs "rdsects", do_read_sects);
   (bs "aiowrbytesstr", do_aio_wrv_bytes_str); (bs "W", WriteIO); (bs "R", ReadIO)].

Fixpoint find_engine {A} (l : list (bytes * A)) (a2 : bytes) : option A :=
  match l with
  | [] => None
  | (cmd_opt, f) :: l' =>
    if (strncasecmp a2 cmd_opt (length cmd_opt) =? 0) && (len a2 =? len cmd_opt) then Some f else find_engine l' a2
  end.

Definition main (argv : list bytes) : M iot (option Z) :=
  if len argv <? 3 then ret (Some (-1))
  else
    a2 <- arg argv 2 ;;
    match find_engine ioengine_array a2 with
    | None => ret (Some (-1))
    | Some f => f argv
    end.
End iotool.
