(* ===== verification/IotoolProofs.v ===== *)
(** * Theorems on iotool

    Dispatch and open flags, the filling of buffers, what the byte and the sector engines
    write for every pattern of short and failing writes, where the engine [W] puts its
    blocks, and the descriptor that the asynchronous engine keeps.  The operations are those of Iotool.v. *)

From Stdlib Require Import Strings.Byte ZArith Lia.
From S2P Require Import Prelude Libc Posix SpoolIo Iotool.
From stdpp Require Import base strings numbers gmap list.
#[local] Open Scope Z_scope.

(** ** Choosing an engine and flags *)

Lemma strncasecmp_0 a b :
  length a = length b -> (strncasecmp a b (length b) =? 0) = bool_decide (tolower <$> a = tolower <$> b).
Proof.
  revert b. induction a as [|x a IH]; intros [|y b] Hl; try done. cbn [length strncasecmp]. rewrite !fmap_cons.
  destruct (Z.eqb_spec (uc (tolower x)) (uc (tolower y))) as [E|E].
  - apply uc_inj in E. rewrite IH by (simpl in Hl; lia). case_bool_decide as Hb.
    + rewrite bool_decide_true; [done|]. by rewrite E, Hb.
    + rewrite bool_decide_false; [done|]. intros Hc. by injection Hc.
  - rewrite bool_decide_false by congruence. by destruct (_ <? _).
Qed.

(** The engine that [main] runs is the first one whose name is the second argument
    up to the case of its letters. *)
Theorem find_engine_spec {A} (l : list (bytes * A)) (a2 : bytes) :
  find_engine l a2 = snd <$> List.find (fun e => bool_decide (tolower <$> a2 = tolower <$> e.1)) l.
Proof.
  induction l as [|[n f] l IH]; [done|]. cbn [find_engine List.find fst].
  destruct (Z.eqb_spec (len a2) (len n)) as [Hl|Hl].
  - rewrite strncasecmp_0 by (unfold len in Hl; lia). rewrite andb_true_r. by case_bool_decide.
  - rewrite andb_false_r. rewrite bool_decide_false; [done|]. intros E. apply Hl. apply (f_equal length) in E.
    rewrite !length_fmap in E. unfold len. lia.
Qed.

(** The flags that [do_open] uses depend on the first letter alone. *)
Definition flags_of_letter (c : byte) : Z :=
  if bool_decide (tolower c = "d"%byte) then Z.lor O_RDWR (Z.lor O_DIRECT O_CREAT)
  else if bool_decide (tolower c = "s"%byte) then Z.lor O_RDWR (Z.lor O_SYNC (Z.lor O_CREAT O_DSYNC))
  else if bool_decide (tolower c = "b"%byte) then Z.lor O_RDWR O_CREAT
  else 0.

Lemma strncasecmp_first c r x w n :
  (n <> 0)%nat -> strncasecmp (c :: r) (x :: w) n = 0 -> tolower c = tolower x.
Proof.
  intros Hn. destruct n; [done|]. cbn [strncasecmp]. destruct (Z.eqb_spec (uc (tolower c)) (uc (tolower x))) as [E|E].
  - intros _. by apply uc_inj.
  - by destruct (_ <? _).
Qed.

Lemma flag_match c r x w :
  tolower x = x ->
  ((strncasecmp (c :: r) (x :: w) (length (x :: w)) =? 0) || (strncasecmp (c :: r) [x] 1 =? 0)) = bool_decide (tolower c = x).
Proof.
  intros Hx. assert (Hs : (strncasecmp (c :: r) [x] 1 =? 0) = bool_decide (tolower c = x)).
  { cbn [strncasecmp]. rewrite Hx. destruct (Z.eqb_spec (uc (tolower c)) (uc x)) as [E|E].
    - apply uc_inj in E. rewrite bool_decide_true by done. by destruct r.
    - rewrite bool_decide_false by congruence. by destruct (_ <? _). }
  rewrite Hs. destruct (Z.eqb_spec (strncasecmp (c :: r) (x :: w) (length (x :: w))) 0) as [E|E]; [|done].
  apply strncasecmp_first in E; [|done]. rewrite Hx in E. by rewrite bool_decide_true.
Qed.

(** The flags of the open. *)
Theorem do_open_flags (c : byte) (r file : bytes) (s : iot) :
  do_open (c :: r) file s =
  if flags_of_letter c =? 0 then Ret (-1) s else on_k (sys_open file (flags_of_letter c)) s.
Proof.
  unfold do_open. assert (E : find_flags open_flag_array (c :: r) = flags_of_letter c).
  { unfold flags_of_letter, open_flag_array. cbn [find_flags].
    change (bs "direct") with ("d"%byte :: bs "irect"). change (bs "sync") with ("s"%byte :: bs "ync").
    change (bs "buffer") with ("b"%byte :: bs "uffer"). change (bs "d") with ["d"%byte]. change (bs "s") with ["s"%byte].
    change (bs "b") with ["b"%byte]. rewrite !(flag_match c r) by done. done. }
  rewrite E. by destruct (_ =? 0).
Qed.

(** ** Filling a buffer *)

(** [q] copies of the string, the terminator of the last one, and the rest of the block. *)
Definition filled (str buf : bytes) (q : nat) : bytes :=
  let a := mjoin (replicate q str) in
  match q with O => buf | _ => a ++ NUL :: drop (length a + 1) buf end.

Lemma length_join_replicate {A} (l : list A) q : length (mjoin (replicate q l)) = (q * length l)%nat.
Proof. induction q as [|q IH]; [done|]. change (mjoin (replicate (S q) l)) with (l ++ mjoin (replicate q l)). by rewrite length_app, IH. Qed.

Lemma join_replicate_S {A} (l : list A) q : mjoin (replicate (S q) l) = mjoin (replicate q l) ++ l.
Proof. rewrite replicate_S_end, join_app. simpl. by rewrite app_nil_r. Qed.

Lemma length_filled str buf q : (q * length str < length buf)%nat -> length (filled str buf q) = length buf.
Proof.
  intros H. unfold filled. pose proof (length_join_replicate str q) as Ha. cbv zeta. set (a := mjoin (replicate q str)) in *.
  destruct q as [|q]; [done|]. rewrite length_app. cbn [length]. rewrite length_drop. lia.
Qed.

(** One more copy. *)
Lemma filled_step str buf q :
  (S q * length str < length buf)%nat -> splice (q * length str) (str ++ [NUL]) (filled str buf q) = filled str buf (S q).
Proof.
  intros H. unfold filled at 2. cbv zeta. rewrite join_replicate_S. set (a := mjoin (replicate q str)).
  assert (Ha : length a = (q * length str)%nat) by apply length_join_replicate.
  destruct q as [|q].
  - cbn [filled]. simpl (0 * _)%nat. rewrite splice_0, <- !app_assoc. unfold a. simpl. rewrite length_app. done.
  - unfold filled. fold a. cbv zeta. rewrite <- Ha. unfold splice. rewrite take_app_length, <- !app_assoc. cbn [app]. do 3 f_equal.
    rewrite drop_app_add, length_app. cbn [length]. rewrite Nat.add_1_r. cbn [drop]. rewrite drop_drop, length_app. f_equal. lia.
Qed.

Lemma fill_loop_steps str buf f q s :
  (q * length str < length buf)%nat -> str <> [] -> (length buf - q * length str <= f)%nat ->
  (Z.of_nat (length buf) mod len str = 0 -> exists w, fill_loop f str (filled str buf q) (Z.of_nat (q * length str)) s = Undef w) /\
  (Z.of_nat (length buf) mod len str <> 0 ->
   fill_loop f str (filled str buf q) (Z.of_nat (q * length str)) s = Ret (filled str buf (length buf / length str)) s).
Proof.
  intros Hq Hs. revert q Hq. induction f as [|f IH]; intros q Hq Hf; [lia|]. assert (Hl : (length str <> 0)%nat) by (by destruct str).
  cbn [fill_loop]. unfold len. rewrite length_filled by done.
  destruct (Z.leb_spec (Z.of_nat (q * length str) + Z.of_nat (length str)) (Z.of_nat (length buf))) as [Hle|Hgt].
  - destruct (Z.ltb_spec (Z.of_nat (length buf)) (Z.of_nat (q * length str) + Z.of_nat (length str) + 1)) as [Hov|Hok].
    + split; [by eexists|]. intros Hm. exfalso. apply Hm.
      replace (Z.of_nat (length buf)) with (Z.of_nat (S q) * Z.of_nat (length str)) by lia. apply Z.mod_mul. lia.
    + assert (Hq' : (S q * length str < length buf)%nat) by lia.
      rewrite Nat2Z.id, filled_step by done.
      replace (Z.of_nat (q * length str) + Z.of_nat (length str)) with (Z.of_nat (S q * length str)) by lia.
      apply IH; [done|]. simpl. lia.
  - assert (Hdiv : (length buf / length str)%nat = q).
    { symmetry. apply (Nat.div_unique _ _ _ (length buf - length str * q)); lia. }
    split; [|by rewrite Hdiv]. intros Hm. exfalso. apply Z.mod_divide in Hm as [m Hm]; [|lia]. unfold len in *.
    assert (Z.of_nat q < m) by nia. assert (m < Z.of_nat q + 1) by nia. lia.
Qed.

Lemma fill_str_cases (str buf : bytes) (s : iot) :
  buf <> [] ->
  match decide (str = []), decide (len buf mod len str = 0) with
  | left _, _ => forall fuel, fill_loop fuel str buf 0 s = NoFuel
  | right _, left _ => exists w, fill_str str buf s = Undef w
  | right _, right _ => fill_str str buf s = Ret (filled str buf (length buf / length str)) s
  end.
Proof.
  intros Hb. destruct (decide (str = [])) as [->|Hs].
  - intros fuel. revert buf Hb. induction fuel as [|f IH]; intros buf Hb; cbn [fill_loop].
    all: destruct (Z.leb_spec (0 + len (@nil byte)) (len buf)) as [_|Hc]; [|change (len (@nil byte)) with 0 in Hc; pose proof (len_nonneg buf); lia].
    + done.
    + destruct (Z.ltb_spec (len buf) (0 + len (@nil byte) + 1)) as [Hc|_].
      { change (len (@nil byte)) with 0 in Hc. destruct buf; [done|]. rewrite len_cons in Hc. pose proof (len_nonneg buf). lia. }
      apply IH. destruct buf; done.
  - assert (Hlb : (0 < length buf)%nat) by (destruct buf; [done|simpl; lia]).
    destruct (fill_loop_steps str buf (length buf) 0 s ltac:(lia) Hs ltac:(lia)) as [H1 H2].
    destruct (decide (len buf mod len str = 0)) as [Hm|Hm]; [exact (H1 Hm)|exact (H2 Hm)].
Qed.

(** Filling a buffer with a string.  A string whose length does not divide the size
    of the buffer fills it with whole copies, a NUL and whatever the heap held; a string
    whose length divides the size is stored one byte past the end of the buffer; the
    empty string loops for ever. *)
Theorem fill_str_outcome (str buf : bytes) (s : iot) :
  buf <> [] ->
  match decide (str = []), decide (len buf mod len str = 0) with
  | left _, _ => forall fuel, fill_loop fuel str buf 0 s = NoFuel
  | right _, left _ => exists w, fill_str str buf s = Undef w
  | right _, right _ => fill_str str buf s = Ret (filled str buf (length buf / length str)) s
  end.
Proof. apply fill_str_cases. Qed.

(** ** Writing *)

(** [s'] is [s] with the contents [F] in the file of the descriptor [o]. *)
Record wrote_file (o : ofd) (s s' : iot) (F : bytes) : Prop := WroteFile {
  wf_fds : k_fds (i_k s') = k_fds (i_k s); wf_dir : k_dir (i_k s') = k_dir (i_k s);
  wf_out : i_out s' = i_out s; wf_file : contents (i_k s') (o_ino o) = F;
  wf_others : forall i, i <> o_ino o -> contents (i_k s') i = contents (i_k s) i
}.

Lemma wrote_file_trans o s1 s2 s3 F G : wrote_file o s1 s2 F -> wrote_file o s2 s3 G -> wrote_file o s1 s3 G.
Proof. intros [] []. split; try congruence. intros i Hi. rewrite wf_others1, wf_others0; done. Qed.

Definition whole (w : wev) : Prop := w = WAll.

Section writing.
Context (fd : Z) (o : ofd) (Hwr : o_wr o = true).

Lemma sys_pwrite_run d off s wr :
  k_fds (i_k s) !! fd = Some o -> 0 <= off ->
  exists k, sys_pwrite fd d off (i_k s) = (len d, k) /\
    wrote_file o s (Iot k wr (i_out s)) (file_write (contents (i_k s) (o_ino o)) off d).
Proof.
  intros Hfd Hoff. unfold sys_pwrite. rewrite Hfd, Hwr. destruct (Z.ltb_spec off 0); [lia|]. eexists. split; [done|].
  split; try done; unfold contents; simpl; [by rewrite lookup_insert_eq|]. intros i Hi. by rewrite lookup_insert_ne.
Qed.

(** What one [pwrite] does. *)
Lemma pwrite_cases d off s :
  k_fds (i_k s) !! fd = Some o -> 0 <= off ->
  let f := contents (i_k s) (o_ino o) in
  (exists s', pwrite fd d off s = Ret (-1) s' /\ wrote_file o s s' f /\ i_wr s' = tail (i_wr s) /\ ~ Forall progress (i_wr s)) \/
  (exists n s', pwrite fd d off s = Ret n s' /\ 0 <= n <= len d /\ wrote_file o s s' (file_write f off (take (Z.to_nat n) d)) /\
     i_wr s' = tail (i_wr s) /\ (0 < len d -> 0 < n \/ i_wr s <> []) /\ (Forall progress (i_wr s) -> 0 < len d -> 0 < n) /\
     (Forall whole (i_wr s) -> n = len d)).
Proof.
  intros Hfd Hoff f. pose proof (len_nonneg d). unfold pwrite. destruct (i_wr s) as [|[|m|e] r] eqn:Ew.
  - right. destruct (sys_pwrite_run d off s [] Hfd Hoff) as (k & -> & Hk). eexists _, _. split; [done|].
    rewrite take_ge by (unfold len; lia). split_and!; try done; lia.
  - right. destruct (sys_pwrite_run d off s r Hfd Hoff) as (k & -> & Hk). eexists _, _. split; [done|].
    rewrite take_ge by (unfold len; lia). split_and!; try done; lia.
  - right. set (x := take _ d). destruct (sys_pwrite_run x off s r Hfd Hoff) as (k & -> & Hk). eexists _, _. split; [done|].
    assert (Hx : len x = Z.max 0 (Z.min m (len d))) by (unfold x, len in *; rewrite length_take; lia).
    assert (Ex : take (Z.to_nat (len x)) d = x) by (rewrite Hx; done). rewrite Ex. split_and!; try done; try lia.
    + by right.
    + intros Hp. inversion Hp. simpl in *. lia.
    + intros Hp. by inversion Hp.
  - left. eexists. split; [done|]. split; [by split|]. split; [done|]. intros Hp. by inversion Hp.
Qed.

(** The block holds [m] copies of [c], so a write of any length at any place continues. *)
Lemma take_take_replicate (n k m : nat) (c : byte) :
  (n <= k)%nat -> (k <= m)%nat -> take n (take k (replicate m c)) = replicate n c.
Proof. intros. rewrite !take_replicate. f_equal. lia. Qed.

Lemma write_more F off (a n : Z) (c : byte) :
  0 <= off -> 0 <= a -> 0 <= n ->
  file_write (file_write F off (replicate (Z.to_nat a) c)) (off + a) (replicate (Z.to_nat n) c) =
  file_write F off (replicate (Z.to_nat (a + n)) c).
Proof.
  intros Ho Ha Hn. replace (off + a) with (off + len (replicate (Z.to_nat a) c)) by (unfold len; rewrite length_replicate; lia).
  rewrite file_write_app by done. f_equal. rewrite <- replicate_add. f_equal. lia.
Qed.

(** The outcome of a loop that writes [data] bytes [c] at [off]: [k] of them arrive. *)
Definition char_outcome (c : byte) (F : bytes) (off data : Z) (s : iot) (res : result iot Z) : Prop :=
  exists r k s', res = Ret r s' /\ wrote_file o s s' (file_write F off (replicate (Z.to_nat k) c)) /\ 0 <= k <= data /\
    (r = 0 /\ k = data \/ r = -1 /\ k < data) /\ (Forall progress (i_wr s) -> r = 0).

Lemma wr_bytes_loop_char c m F off data fuel k s :
  0 < m -> 0 <= off -> 0 <= k <= data -> off + data <= LONG_MAX ->
  k_fds (i_k s) !! fd = Some o -> contents (i_k s) (o_ino o) = file_write F off (replicate (Z.to_nat k) c) ->
  (Z.to_nat (data - k) + length (i_wr s) < fuel)%nat ->
  char_outcome c F off data s (wr_bytes_loop fuel fd (memset c m) data off (off + k) s).
Proof.
  intros Hm Hoff. revert k s. induction fuel as [|f IH]; intros k s Hk Hmax Hfd Hc Hf; [lia|]. unfold LONG_MAX in Hmax.
  cbn [wr_bytes_loop]. rewrite !(wrap_small 64) by lia.
  destruct (Z.ltb_spec (off + k) (data + off)) as [Hlt|Hge].
  2: { exists 0, k, s. split; [done|]. assert (k = data) by lia. split; [by split|]. split; [lia|]. split; [by left|done]. }
  assert (Hlen : len (memset c m) = m) by (unfold memset, len; rewrite length_replicate; lia).
  rewrite !Hlen. replace (data + off - (off + k)) with (data - k) by lia. set (one := if m <? data - k then m else data - k).
  assert (Hone : 0 < one <= m /\ one <= data - k) by (unfold one; destruct (Z.ltb_spec m (data - k)); lia).
  unfold pwrite_buf. rewrite Hlen. destruct (Z.ltb_spec one 0); [lia|]. destruct (Z.ltb_spec m one); [lia|]. cbn [orb].
  assert (Hld : len (take (Z.to_nat one) (memset c m)) = one) by (unfold memset, len; rewrite length_take, length_replicate; lia).
  destruct (pwrite_cases (take (Z.to_nat one) (memset c m)) (off + k) s Hfd ltac:(lia))
    as [(s1 & Hp & Hw & _ & Hno)|(n & s1 & Hp & Hn & Hw & Et & Hz & Hpr & _)]; rewrite (bind_ret _ _ _ _ _ Hp).
  - exists (-1), k, s1. split; [done|]. rewrite Hc in Hw. split; [done|]. split; [lia|]. split; [right; lia|done].
  - destruct (Z.ltb_spec n 0); [lia|]. rewrite Hld in *. rewrite Hc in Hw. unfold memset in Hw.
    rewrite take_take_replicate, write_more in Hw by lia.
    rewrite swrap_small by lia. rewrite <- Z.add_assoc.
    assert (Hfuel : (Z.to_nat (data - (k + n)) + length (i_wr s1) < f)%nat).
    { rewrite Et. destruct (Hz ltac:(lia)) as [Hz'|Hz']; [|destruct (i_wr s); [done|simpl in *; lia]].
      assert (length (tail (i_wr s)) <= length (i_wr s))%nat by (destruct (i_wr s); simpl; lia). lia. }
    destruct (IH (k + n) s1) as (r & k' & s' & Hrun & Hw' & Hk' & Hr & Hall); [lia|unfold LONG_MAX; lia|by rewrite (wf_fds _ _ _ _ Hw)|exact (wf_file _ _ _ _ Hw)|done|].
    exists r, k', s'. split; [exact Hrun|]. split; [by eapply wrote_file_trans|]. split; [lia|]. split; [done|].
    intros Hf'. apply Hall. rewrite Et. by apply Forall_tail.
Qed.

(** *** The sector loop *)

(** From the start of the device the sector loop is the byte loop. *)
Lemma wr_sects_loop_start fuel buf data wr s :
  wr_sects_loop fuel fd buf data 0 wr s = wr_bytes_loop fuel fd buf data 0 wr s.
Proof.
  revert wr s. induction fuel as [|f IH]; intros wr s; [done|]. cbn [wr_sects_loop wr_bytes_loop]. rewrite Z.add_0_r.
  destruct (_ <? _); [|done]. cbv zeta. unfold bind. destruct (pwrite_buf _ _ _ _ s); try done. by destruct (a <? 0).
Qed.

Lemma len_memset c m : 0 <= m -> len (memset c m) = m.
Proof. intros. unfold memset, len. rewrite length_replicate. lia. Qed.

(** A write of the whole block. *)
Lemma pwrite_block c m off s :
  0 <= m -> 0 <= off -> k_fds (i_k s) !! fd = Some o -> Forall whole (i_wr s) ->
  exists s', pwrite_buf fd (memset c m) m off s = Ret m s' /\
    wrote_file o s s' (file_write (contents (i_k s) (o_ino o)) off (memset c m)) /\ Forall whole (i_wr s').
Proof.
  intros Hm Hoff Hfd Hw. unfold pwrite_buf. rewrite len_memset by done. destruct (Z.ltb_spec m 0); [lia|].
  rewrite Z.ltb_irrefl. cbn [orb]. rewrite take_ge by (unfold memset; rewrite length_replicate; lia).
  destruct (pwrite_cases (memset c m) off s Hfd Hoff) as [(s1 & _ & _ & _ & Hno)|(n & s1 & Hp & Hn & Hf & Et & _ & _ & Hall)].
  - exfalso. apply Hno. eapply Forall_impl; [exact Hw|]. by intros w ->.
  - rewrite (Hall Hw), len_memset in * by done. exists s1. rewrite take_ge in Hf by (unfold memset; rewrite length_replicate; lia).
    split; [done|]. split; [done|]. rewrite Et. by apply Forall_tail.
Qed.

(** One turn is enough when the data fits the block. *)
Lemma wr_sects_loop_one c data base fuel s :
  0 < data -> 0 <= base -> base + data <= LONG_MAX -> k_fds (i_k s) !! fd = Some o -> Forall whole (i_wr s) -> (1 < fuel)%nat ->
  exists s', wr_sects_loop fuel fd (memset c data) data base base s = Ret 0 s' /\
    wrote_file o s s' (file_write (contents (i_k s) (o_ino o)) base (memset c data)).
Proof.
  intros Hd Hb Hmax Hfd Hw Hf. unfold LONG_MAX in Hmax. destruct fuel as [|[|f]]; [lia|lia|]. cbn [wr_sects_loop].
  rewrite (wrap_small 64 base), (wrap_small 64 (data + base)), len_memset by lia. destruct (Z.ltb_spec base (data + base)); [|lia].
  assert (E : (if data <? u64 (data - base) then data else u64 (data + base - base)) = data).
  { destruct (_ <? _); [done|]. replace (data + base - base) with data by lia. apply wrap_small. lia. }
  rewrite E. destruct (pwrite_block c data base s ltac:(lia) Hb Hfd Hw) as (s1 & Hp & Hf1 & _). rewrite (bind_ret _ _ _ _ _ Hp).
  destruct (Z.ltb_spec data 0); [lia|]. rewrite swrap_small, (wrap_small 64 (base + data)) by lia.
  destruct (Z.ltb_spec (base + data) (data + base)); [lia|]. by exists s1.
Qed.

(** Behind the middle every turn writes a whole block. *)
Lemma wr_sects_loop_far c m data base fuel (j : Z) F s :
  0 < m -> m < data -> data < base -> base + data + m <= LONG_MAX -> 0 <= j -> m * (j - 1) < data ->
  k_fds (i_k s) !! fd = Some o -> contents (i_k s) (o_ino o) = file_write F base (memset c (m * j)) ->
  Forall whole (i_wr s) -> data - m * j < Z.of_nat fuel ->
  exists s', wr_sects_loop fuel fd (memset c m) data base (base + m * j) s = Ret 0 s' /\
    wrote_file o s s' (file_write F base (memset c (m * ((data + m - 1) / m)))).
Proof.
  intros HM Hd Hb Hmax. unfold LONG_MAX in Hmax.
  revert j s. induction fuel as [|f IH]; intros j s Hj Hjd Hfd Hc Hw Hf.
  all: cbn [wr_sects_loop]; rewrite (wrap_small 64 (base + m * j)), (wrap_small 64 (data + base)) by lia.
  all: destruct (Z.ltb_spec (base + m * j) (data + base)) as [Hlt|Hge].
  1: lia.
  1,3: exists s; split; [done|]; assert (Ej : (data + m - 1) / m = j) by
    (symmetry; apply (Z.div_unique _ _ _ (data + m - 1 - m * j)); lia); rewrite Ej; by split.
  rewrite len_memset by lia.
  assert (Eu : u64 (data - (base + m * j)) = data - (base + m * j) + 2 ^ 64).
  { unfold wrap. symmetry. apply (Z.mod_unique _ _ (-1)); lia. }
  rewrite Eu. destruct (Z.ltb_spec m (data - (base + m * j) + 2 ^ 64)); [|lia].
  destruct (pwrite_block c m (base + m * j) s ltac:(lia) ltac:(lia) Hfd Hw) as (s1 & Hp & Hf1 & Hw1).
  rewrite (bind_ret _ _ _ _ _ Hp). destruct (Z.ltb_spec m 0); [lia|]. rewrite swrap_small by lia.
  replace (base + m * j + m) with (base + m * (j + 1)) by lia.
  rewrite Hc in Hf1. unfold memset in Hf1 at 1 2. rewrite write_more in Hf1 by lia. replace (m * j + m) with (m * (j + 1)) in Hf1 by lia.
  destruct (IH (j + 1) s1) as (s' & Hrun & Hfin); [lia|lia|by rewrite (wf_fds _ _ _ _ Hf1)|exact (wf_file _ _ _ _ Hf1)|done|lia|].
  exists s'. split; [exact Hrun|]. by eapply wrote_file_trans.
Qed.

(** Around the middle the first write reads past the end of the block. *)
Lemma wr_sects_loop_middle c m data base fuel s :
  0 < m -> m < data -> 0 < base -> base <= data <= base + m -> base + data <= LONG_MAX -> (0 < fuel)%nat ->
  exists w, wr_sects_loop fuel fd (memset c m) data base base s = Undef w.
Proof.
  intros HM Hd Hb Hr Hmax Hf. unfold LONG_MAX in Hmax.
  destruct fuel as [|f]; [lia|]. cbn [wr_sects_loop]. rewrite !(wrap_small 64), len_memset by lia.
  destruct (Z.ltb_spec base (data + base)); [|lia]. destruct (Z.ltb_spec m (data - base)); [lia|].
  replace (data + base - base) with data by lia. unfold pwrite_buf, bind. rewrite len_memset by lia.
  destruct (Z.ltb_spec data 0); [lia|]. destruct (Z.ltb_spec m data); [|lia]. by eexists.
Qed.
End writing.

(** ** The write engines *)

Section engines.
Context (heap : Z -> byte) (alloc : Z -> bool).
Context (Halloc : forall n, alloc n = true).
Context (fd : Z) (o : ofd) (Hwr : o_wr o = true).

(** C30: [wrbyteschar].  For every pattern of short writes and errors the engine ends: it
    returns 0 and the requested range of the file holds the character, or it returns -1
    after an error and a proper prefix of the range holds it; nothing outside the range
    changes.  It returns 0 when every write makes progress. *)
Theorem wr_bytes_char_correct (byte_off byte_cnt : Z) (c : byte) (s : iot) :
  k_fds (i_k s) !! fd = Some o -> 0 <= byte_off -> 0 < byte_cnt -> byte_off + byte_cnt <= LONG_MAX ->
  char_outcome o c (contents (i_k s) (o_ino o)) byte_off byte_cnt s (_do_wr_bytes_char alloc fd byte_off byte_cnt c s).
Proof.
  intros Hfd Ho Hc Hmax. unfold _do_wr_bytes_char. rewrite Halloc. cbn [negb].
  rewrite (bind_ret _ _ _ _ _ (eq_refl : getst s = Ret s s)).
  replace byte_off with (byte_off + 0) at 3 by lia.
  apply wr_bytes_loop_char; try done; [|lia|].
  - unfold buf_len_of, MAX_BUF_LEN. destruct (_ <? _); lia.
  - unfold wr_fuel. lia.
Qed.

(** The arguments of a sector engine that do not overflow. *)
Record sects_ok (sect_off sect_cnt : Z) : Prop := SectsOk {
  sk_off : 0 <= sect_off; sk_cnt : 0 < sect_cnt;
  sk_max : SECTOR_SIZE * sect_off + SECTOR_SIZE * sect_cnt + MAX_BUF_LEN <= LONG_MAX
}.

Lemma wr_sects_char_run sect_off sect_cnt c s :
  sects_ok sect_off sect_cnt ->
  let data := SECTOR_SIZE * sect_cnt in let base := SECTOR_SIZE * sect_off in
  _do_wr_sects_char alloc fd sect_off sect_cnt c s =
  wr_sects_loop (wr_fuel data s) fd (memset c (buf_len_of data)) data base base s.
Proof.
  intros [H1 H2 H3]. cbv zeta. unfold _do_wr_sects_char. rewrite Halloc. cbn [negb]. unfold LONG_MAX, MAX_BUF_LEN, SECTOR_SIZE in *.
  rewrite wrap_small by lia. unfold sect_base. rewrite (Z.mul_comm sect_off 512).
  destruct (Z.leb_spec LONG_MIN (512 * sect_off)) as [_|Hx]; [|unfold LONG_MIN in Hx; lia].
  destruct (Z.leb_spec (512 * sect_off) LONG_MAX) as [_|Hx]; [|unfold LONG_MAX in Hx; lia]. done.
Qed.

(** C31: [wrsectschar] writes the requested sectors, and only those, when it starts at
    sector 0, for every pattern of short writes and errors, or when the data fits the
    4 MB block and the writes are complete. *)
Theorem wr_sects_char_correct (sect_off sect_cnt : Z) (c : byte) (s : iot) :
  k_fds (i_k s) !! fd = Some o -> sects_ok sect_off sect_cnt ->
  let data := SECTOR_SIZE * sect_cnt in let base := SECTOR_SIZE * sect_off in
  (sect_off = 0 -> char_outcome o c (contents (i_k s) (o_ino o)) 0 data s (_do_wr_sects_char alloc fd sect_off sect_cnt c s)) /\
  (data <= MAX_BUF_LEN -> Forall whole (i_wr s) -> exists s', _do_wr_sects_char alloc fd sect_off sect_cnt c s = Ret 0 s' /\
     wrote_file o s s' (file_write (contents (i_k s) (o_ino o)) base (memset c data))).
Proof.
  intros Hfd Hok data base. rewrite wr_sects_char_run by done. fold data base. destruct Hok as [H1 H2 H3]. fold data base in H3.
  assert (Hdata : 0 < data) by (unfold data, SECTOR_SIZE; lia). assert (Hbase : 0 <= base) by (unfold base, SECTOR_SIZE; lia).
  assert (HM : 0 < MAX_BUF_LEN) by done. split.
  - intros ->. unfold base. rewrite Z.mul_0_r in *. rewrite wr_sects_loop_start. apply (wr_bytes_loop_char fd o Hwr c _ _ 0 data _ 0); try done; try lia.
    + unfold buf_len_of. destruct (_ <? _); lia.
    + unfold wr_fuel. lia.
  - intros Hle Hw. unfold buf_len_of. destruct (Z.ltb_spec MAX_BUF_LEN data); [lia|].
    apply (wr_sects_loop_one fd o Hwr); try done; [lia|]. unfold wr_fuel. lia.
Qed.

(** [wrsectschar] with more than 4 MB away from sector 0.  The length of a write is
    computed from the size of the data and not from its end: when the first sector lies
    behind as many bytes as are written, the engine overwrites the device up to the next
    multiple of 4 MB after the end of the range; when it lies up to 4 MB before, the first
    write reads past the end of the buffer. *)
Theorem wr_sects_char_overrun (sect_off sect_cnt : Z) (c : byte) (s : iot) :
  k_fds (i_k s) !! fd = Some o -> sects_ok sect_off sect_cnt -> Forall whole (i_wr s) ->
  let data := SECTOR_SIZE * sect_cnt in let base := SECTOR_SIZE * sect_off in
  MAX_BUF_LEN < data -> 0 < base ->
  (data < base -> exists s', _do_wr_sects_char alloc fd sect_off sect_cnt c s = Ret 0 s' /\
     wrote_file o s s' (file_write (contents (i_k s) (o_ino o)) base
       (memset c (MAX_BUF_LEN * ((data + MAX_BUF_LEN - 1) / MAX_BUF_LEN))))) /\
  (base <= data <= base + MAX_BUF_LEN -> exists w, _do_wr_sects_char alloc fd sect_off sect_cnt c s = Undef w).
Proof.
  intros Hfd Hok Hw data base Hd Hb. rewrite wr_sects_char_run by done. fold data base.
  destruct Hok as [H1 H2 H3]. fold data base in H3. assert (HM : 0 < MAX_BUF_LEN) by done.
  assert (Hbuf : buf_len_of data = MAX_BUF_LEN) by (unfold buf_len_of; destruct (Z.ltb_spec MAX_BUF_LEN data); [done|lia]). rewrite Hbuf.
  split.
  - intros Hdb.
    pose proof (wr_sects_loop_far fd o Hwr c MAX_BUF_LEN data base (wr_fuel data s) 0 (contents (i_k s) (o_ino o)) s) as H.
    rewrite Z.mul_0_r, Z.add_0_r in H. apply H; try done; try lia. unfold wr_fuel. lia.
  - intros Hr. apply wr_sects_loop_middle; try done; [lia|]. unfold wr_fuel. lia.
Qed.
End engines.

(** ** The engine W *)

(** Triangular numbers. *)
Definition tri (i : Z) : Z := i * (i + 1) / 2.

Lemma tri_step i : tri i = tri (i - 1) + i.
Proof.
  unfold tri. replace (i * (i + 1)) with ((i - 1) * (i - 1 + 1) + i * 2) by lia. rewrite Z.div_add by lia. done.
Qed.

Lemma tri_mono i j : 0 <= i -> i <= j -> tri i <= tri j.
Proof. intros Hi Hij. unfold tri. apply Z.div_le_mono; [lia|]. nia. Qed.

Lemma tri_nonneg i : 0 <= i -> 0 <= tri i.
Proof. intros. unfold tri. apply Z.div_pos; nia. Qed.

Lemma tri_lt i j : 0 <= i -> i < j -> tri i < tri j.
Proof. intros Hi Hij. pose proof (tri_mono i (j - 1) Hi ltac:(lia)). rewrite (tri_step j). lia. Qed.

(** Blocks [i] to [i + n - 1] written at their triangular places. *)
Fixpoint block_writes (F : bytes) (off : Z) (data : bytes) (n : nat) (i : Z) : bytes :=
  match n with
  | O => F
  | S n' => block_writes (file_write F (off + len data * tri i) data) off data n' (i + 1)
  end.

Section w_engine.
Context (fd : Z) (o : ofd) (Hwr : o_wr o = true) (off : Z) (data : bytes).
Context (Hoff : 0 <= off) (Hdata : data <> []).

Lemma write_blocks_run n i s :
  0 <= i -> i + Z.of_nat n <= INT_MAX + 1 -> off + len data * tri (i + Z.of_nat n) <= LONG_MAX ->
  k_fds (i_k s) !! fd = Some o -> Forall whole (i_wr s) ->
  exists s', write_blocks n fd data (off + len data * tri (i - 1)) i s = Ret (Some (off + len data * tri (i + Z.of_nat n - 1))) s' /\
    wrote_file o s s' (block_writes (contents (i_k s) (o_ino o)) off data n i) /\ Forall whole (i_wr s').
Proof.
  revert i s. induction n as [|n IH]; intros i s Hi Hn Hmax Hfd Hw; cbn [write_blocks block_writes].
  { exists s. rewrite Z.add_0_r. split; [done|]. by split. }
  destruct (Z.ltb_spec INT_MAX i); [lia|]. cbv zeta.
  assert (Hld : 0 < len data) by (destruct data; [done|]; rewrite len_cons; pose proof (len_nonneg l); lia).
  assert (Ht : 0 <= tri i) by (by apply tri_nonneg). pose proof (tri_mono i (i + Z.of_nat (S n)) Hi ltac:(lia)) as Hm.
  assert (Hti : off + len data * tri (i - 1) + len data * i = off + len data * tri i) by (rewrite (tri_step i); lia). rewrite Hti.
  assert (Hb : 0 <= off + len data * tri i <= LONG_MAX) by nia. unfold LONG_MAX in Hb.
  rewrite wrap_small, swrap_small by lia.
  destruct (pwrite_cases fd o Hwr data (off + len data * tri i) s Hfd ltac:(lia)) as [(s1 & _ & _ & _ & Hno)|(w & s1 & Hp & _ & Hf & Et & _ & _ & Hall)].
  { exfalso. apply Hno. eapply Forall_impl; [exact Hw|]. by intros x ->. }
  rewrite (Hall Hw) in *. rewrite (bind_ret _ _ _ _ _ Hp). destruct (Z.ltb_spec (len data) 0); [lia|].
  rewrite take_ge in Hf by (unfold len; lia).
  destruct (IH (i + 1) s1) as (s2 & Hrun & Hf2 & Hw2).
  - lia.
  - lia.
  - by replace (i + 1 + Z.of_nat n) with (i + Z.of_nat (S n)) by lia.
  - by rewrite (wf_fds _ _ _ _ Hf).
  - rewrite Et. by apply Forall_tail.
  - exists s2. replace (i + 1 - 1) with i in Hrun by lia. replace (i + 1 + Z.of_nat n - 1) with (i + Z.of_nat (S n) - 1) in Hrun by lia.
    split; [exact Hrun|]. split; [|done]. rewrite (wf_file _ _ _ _ Hf) in Hf2. by eapply wrote_file_trans.
Qed.

Lemma len_block_writes F n i :
  0 <= i -> off + len data * (tri (i + Z.of_nat n - 1) + 1) <= len F -> len (block_writes F off data n i) = len F.
Proof.
  revert F i. induction n as [|n IH]; intros F i Hi Hl; [done|]. cbn [block_writes].
  pose proof (tri_mono i (i + Z.of_nat (S n) - 1) Hi ltac:(lia)) as Hm. pose proof (tri_nonneg i Hi). pose proof (len_nonneg data).
  assert (Hin : off + len data * tri i + len data <= len F) by nia.
  rewrite IH; [|lia|].
  - apply len_file_write; nia.
  - rewrite len_file_write by nia. by replace (i + 1 + Z.of_nat n - 1) with (i + Z.of_nat (S n) - 1) by lia.
Qed.

(** The places of the blocks [i] to [i + n - 1]. *)
Definition places (i : Z) (n : nat) : list Z := tri <$> seqZ i (Z.of_nat n).

Lemma elem_of_places j i n : j ∈ places i n <-> exists x, i <= x < i + Z.of_nat n /\ j = tri x.
Proof.
  unfold places. rewrite list_elem_of_fmap. split.
  - intros (x & -> & Hx). apply elem_of_seqZ in Hx. by exists x.
  - intros (x & Hx & ->). exists x. split; [done|]. by apply elem_of_seqZ.
Qed.

(** A block of the device after the writes. *)
Lemma read_block_writes F n i j :
  0 <= i -> 0 <= j -> off + len data * (tri (i + Z.of_nat n - 1) + 1) <= len F ->
  file_read (block_writes F off data n i) (off + len data * j) (len data) =
  if decide (j ∈ places i n) then data else file_read F (off + len data * j) (len data).
Proof.
  revert F i. induction n as [|n IH]; intros F i Hi Hj Hl; cbn [block_writes].
  { rewrite decide_False; [done|]. rewrite elem_of_places. intros (x & ? & _). lia. }
  pose proof (tri_mono i (i + Z.of_nat (S n) - 1) Hi ltac:(lia)) as Hm. pose proof (tri_nonneg i Hi). pose proof (len_nonneg data).
  assert (Hin : off + len data * tri i + len data <= len F) by nia.
  assert (Hl' : off + len data * (tri (i + 1 + Z.of_nat n - 1) + 1) <= len (file_write F (off + len data * tri i) data)).
  { rewrite len_file_write by nia. by replace (i + 1 + Z.of_nat n - 1) with (i + Z.of_nat (S n) - 1) by lia. }
  rewrite IH by (done || lia). destruct (decide (j ∈ places (i + 1) n)) as [Hin1|Hno].
  { rewrite decide_True; [done|]. apply elem_of_places in Hin1 as (x & Hx & ->). apply elem_of_places. exists x. split; [lia|done]. }
  destruct (decide (j = tri i)) as [->|Hji].
  - rewrite decide_True by (apply elem_of_places; exists i; split; [lia|done]). apply file_read_write; nia.
  - rewrite decide_False.
    + assert (Hne : off + len data * j + len data <= off + len data * tri i \/ off + len data * tri i + len data <= off + len data * j)
        by (assert (j < tri i \/ tri i < j) as [?|?] by lia; [left|right]; nia).
      apply file_read_write_ne; try done; nia.
    + intros (x & Hx & ->)%elem_of_places. destruct (decide (x = i)) as [->|]; [done|]. apply Hno, elem_of_places. exists x. split; [lia|done].
Qed.
End w_engine.

(** A run of [W] that gets to its writes. *)
Record w_args (alloc : Z -> bool) (a : Args) (argv : list bytes) (path : bytes) (ino : Z) (s : iot) : Prop := WArgs {
  wa_path : argv !! 3%nat = Some path;
  wa_flag : exists c r, argv !! 1%nat = Some (c :: r) /\ flags_of_letter c <> 0;
  wa_dir : k_dir (i_k s) !! path = Some ino;
  wa_bs : 0 < a_bs a; wa_alloc : alloc (a_bs a) = true;
  wa_term : NUL ∈ a_dev_path a /\ NUL ∈ a_in a;
  wa_str : cstr (a_in a) <> [] /\ a_bs a mod len (cstr (a_in a)) <> 0;
  wa_off : 0 <= a_offset a; wa_cnt : 0 < a_counts a <= INT_MAX;
  wa_max : 512 * a_offset a + a_bs a * tri (a_counts a) <= LONG_MAX;
  wa_whole : Forall whole (i_wr s)
}.

Lemma flags_of_letter_cases c :
  flags_of_letter c <> 0 -> flags_of_letter c ∈ [16450; 1052738; 66].
Proof.
  unfold flags_of_letter. repeat case_bool_decide; intros Hnz; try done; vm_compute; set_solver.
Qed.

Lemma do_open_existing c r path ino s :
  flags_of_letter c <> 0 -> k_dir (i_k s) !! path = Some ino ->
  exists o s', do_open (c :: r) path s = Ret (new_fd (k_fds (i_k s))) s' /\ k_fds (i_k s') !! new_fd (k_fds (i_k s)) = Some o /\
    o_wr o = true /\ o_ino o = ino /\ i_wr s' = i_wr s /\ i_out s' = i_out s /\ k_dir (i_k s') = k_dir (i_k s) /\
    forall x, contents (i_k s') x = contents (i_k s) x.
Proof.
  intros Hc Hd. rewrite do_open_flags. destruct (Z.eqb_spec (flags_of_letter c) 0); [done|].
  apply flags_of_letter_cases in Hc. set (f := flags_of_letter c) in *. clearbody f. unfold on_k, sys_open. rewrite Hd.
  assert (Hf : has_flag f (Z.lor O_CREAT O_EXCL) = false /\ has_flag f O_TRUNC = false /\ o_wr (ofd_of_flags ino f) = true).
  { repeat (apply elem_of_cons in Hc as [-> | Hc]; [done|]). by apply elem_of_nil in Hc. }
  destruct Hf as (-> & -> & Hw). eexists _, _. split; [reflexivity|]. simpl. rewrite lookup_insert_eq. split_and!; done.
Qed.

Section w_command.
Context (heap : Z -> byte) (alloc : Z -> bool) (getopt : list bytes -> list (byte * option bytes) * list bytes * nat).

(** The block that is written. *)
Definition w_data (a : Args) : bytes :=
  filled (cstr (a_in a)) (new_buf heap (a_bs a)) (Z.to_nat (a_bs a) / length (cstr (a_in a))).

Lemma w_data_ok a s :
  0 < a_bs a -> cstr (a_in a) <> [] -> a_bs a mod len (cstr (a_in a)) <> 0 ->
  fill_str (cstr (a_in a)) (new_buf heap (a_bs a)) s = Ret (w_data a) s /\ len (w_data a) = a_bs a.
Proof.
  intros Hbs Hs1 Hs2. set (str := cstr (a_in a)) in *.
  assert (Hlb : length (new_buf heap (a_bs a)) = Z.to_nat (a_bs a)) by (unfold new_buf; rewrite length_fmap, length_seqZ; done).
  unfold w_data. fold str. split.
  - pose proof (fill_str_cases str (new_buf heap (a_bs a)) s) as Hf. rewrite decide_False in Hf by done.
    rewrite decide_False in Hf by (unfold len at 1; rewrite Hlb, Z2Nat.id by lia; done).
    rewrite Hlb in Hf. apply Hf. intros E. apply (f_equal length) in E. rewrite Hlb in E. simpl in E. lia.
  - unfold len. rewrite <- Hlb, length_filled; [rewrite Hlb; lia|]. rewrite Hlb.
    assert (Hls : (length str <> 0)%nat) by (by destruct str).
    pose proof (Nat.div_mod (Z.to_nat (a_bs a)) (length str) Hls) as Hdm.
    assert (Z.to_nat (a_bs a) mod length str <> 0)%nat; [|lia]. intros E. apply Hs2. unfold len.
    rewrite <- (Z2Nat.id (a_bs a)), <- Nat2Z.inj_mod, E by lia. done.
Qed.

(** [W] up to its first write. *)
Lemma write_io_start argv a path ino s :
  CheckArgs getopt argv 3 s = Ret (Some (a, argv)) s -> w_args alloc a argv path ino s ->
  exists fd o s1, k_fds (i_k s1) !! fd = Some o /\ o_wr o = true /\ o_ino o = ino /\ i_wr s1 = i_wr s /\
    (forall x, contents (i_k s1) x = contents (i_k s) x) /\
    WriteIO heap alloc getopt argv s =
    (r <- write_blocks (Z.to_nat (a_counts a)) fd (w_data a) (512 * a_offset a) 0 ;;
     match r with
     | None => ret (Some 1)
     | Some _ => sys_close_ fd ;;; ret (Some 0)
     end) s1.
Proof.
  intros Hca [Hpath (c & r & Ha1 & Hfl) Hdir Hbs Hal [Ht1 Ht2] [Hs1 Hs2] Hoff Hcnt Hmax Hw]. set (off := 512 * a_offset a) in *.
  destruct (do_open_existing c r path ino s Hfl Hdir) as (o & s1 & Hop & Hfd & Hwr & Hino & Hwr1 & _ & _ & Hcont).
  set (fd := new_fd (k_fds (i_k s))) in *. exists fd, o, s1. split_and!; try done.
  unfold WriteIO. rewrite (bind_ret _ _ _ _ _ Hca). cbv iota.
  assert (Hstr : forall x, NUL ∈ x -> array_str x s = Ret (cstr x) s) by (intros x Hx; unfold array_str; by rewrite bool_decide_true).
  rewrite (bind_ret _ _ _ _ _ (Hstr _ Ht1)), (bind_ret _ _ _ _ _ (Hstr _ Ht2)).
  pose proof (tri_nonneg (a_counts a - 1) ltac:(lia)). rewrite (tri_step (a_counts a)) in Hmax. unfold LONG_MAX in Hmax.
  assert (Hb : sect_base (a_offset a) 512 s = Ret off s).
  { unfold sect_base. rewrite Z.mul_comm. fold off. destruct (Z.leb_spec LONG_MIN off) as [_|Hx]; [|unfold LONG_MIN in Hx; lia].
    destruct (Z.leb_spec off LONG_MAX) as [_|Hx]; [done|]. unfold LONG_MAX in Hx. nia. }
  rewrite (bind_ret _ _ _ _ _ Hb). cbv zeta.
  assert (Hg : forall i x, argv !! i = Some x -> arg argv i s = Ret x s) by (intros i x Hx; unfold arg; by rewrite Hx).
  rewrite (bind_ret _ _ _ _ _ (Hg _ _ Ha1)), (bind_ret _ _ _ _ _ (Hg _ _ Hpath)), (bind_ret _ _ _ _ _ Hop).
  pose proof (new_fd_nonneg (k_fds (i_k s))) as Hfd0. fold fd in Hfd0. destruct (Z.ltb_spec fd 0); [lia|]. rewrite Hal. cbn [negb].
  rewrite (bind_ret _ _ _ _ _ (proj1 (w_data_ok a s1 Hbs Hs1 Hs2))). destruct (Z.eqb_spec (a_bs a) 0); [lia|].
  assert (Hlen : u64 (a_bs a * a_counts a) = a_bs a * a_counts a) by (apply wrap_small; nia). rewrite Hlen.
  replace (a_bs a * a_counts a / a_bs a) with (a_counts a) by (symmetry; rewrite Z.mul_comm; apply Z.div_mul; lia).
  assert (Hmod : (a_bs a * a_counts a) mod a_bs a = 0) by (rewrite Z.mul_comm; apply Z.mod_mul; lia). rewrite Hmod.
  rewrite (wrap_small 64 off) by (unfold off in *; nia). done.
Qed.

(** Where [W] writes.  Block [i] of the [counts] blocks goes to the place [i (i + 1) / 2]
    after the offset, because the offset is advanced by [bs * i] in each turn: after a
    successful run the blocks at these places hold the data, and every other block of the
    device is unchanged; from the third block on the places are not consecutive. *)
Theorem write_io_blocks (argv : list bytes) (a : Args) (path : bytes) (ino : Z) (s : iot) :
  CheckArgs getopt argv 3 s = Ret (Some (a, argv)) s -> w_args alloc a argv path ino s ->
  let off := 512 * a_offset a in
  off + a_bs a * (tri (a_counts a - 1) + 1) <= len (contents (i_k s) ino) ->
  exists s', WriteIO heap alloc getopt argv s = Ret (Some 0) s' /\
    forall j, 0 <= j ->
      file_read (contents (i_k s') ino) (off + a_bs a * j) (a_bs a) =
      if decide (j ∈ places 0 (Z.to_nat (a_counts a))) then w_data a
      else file_read (contents (i_k s) ino) (off + a_bs a * j) (a_bs a).
Proof.
  intros Hca Hwa off Hdev.
  destruct (write_io_start argv a path ino s Hca Hwa) as (fd & o & s1 & Hfd & Hwr & Hino & Hwr1 & Hcont & ->). fold off.
  destruct Hwa as [_ _ _ Hbs _ _ [Hs1 Hs2] Hoff Hcnt Hmax Hw]. destruct (w_data_ok a s1 Hbs Hs1 Hs2) as [_ Hld].
  set (data := w_data a) in *. set (n := Z.to_nat (a_counts a)).
  assert (Hdn : data <> []) by (intros E; rewrite E in Hld; change (len (@nil byte)) with 0 in Hld; lia).
  assert (Hoff0 : 0 <= off) by (unfold off; lia). assert (En : 0 + Z.of_nat n = a_counts a) by (unfold n; lia).
  destruct (write_blocks_run fd o Hwr off data Hoff0 Hdn n 0 s1) as (s2 & Hrun & Hf2 & _); try done.
  { rewrite En. lia. } { by rewrite En, Hld. } { by rewrite Hwr1. }
  change (tri (0 - 1)) with 0 in Hrun. rewrite Z.mul_0_r, Z.add_0_r in Hrun. rewrite (bind_ret _ _ _ _ _ Hrun). cbv iota.
  assert (Hcl : exists s3, sys_close_ fd s2 = Ret tt s3 /\ forall x, contents (i_k s3) x = contents (i_k s2) x).
  { unfold sys_close_, on_k, sys_close, bind, ret. rewrite (wf_fds _ _ _ _ Hf2), Hfd. by eexists. }
  destruct Hcl as (s3 & Hcl & Hc3). rewrite (bind_ret _ _ _ _ _ Hcl). exists s3. split; [done|]. intros j Hj.
  pose proof (wf_file _ _ _ _ Hf2) as Hfile. rewrite Hino, Hcont in Hfile. rewrite Hc3, Hfile, <- Hld.
  apply (read_block_writes off data Hoff0); [lia|done|]. rewrite En, Hld. exact Hdev.
Qed.
End w_command.

(** ** The asynchronous engine *)

(** A computation that neither opens nor closes a descriptor. *)
Definition keeps_fds {A} (m : M iot A) : Prop :=
  forall s a s', m s = Ret a s' -> k_fds (i_k s') = k_fds (i_k s).

Lemma keeps_ret {A} (a : A) : keeps_fds (ret a).
Proof. intros s b s' [= <- <-]. done. Qed.

Lemma keeps_bind {A B} (m : M iot A) (f : A -> M iot B) : keeps_fds m -> (forall a, keeps_fds (f a)) -> keeps_fds (bind m f).
Proof. intros Hm Hf s b s2 H. apply bind_inv in H as (a & s1 & H1 & H2). rewrite (Hf _ _ _ _ H2). by apply Hm in H1. Qed.

Lemma keeps_on_k {A} (f : kernel -> A * kernel) : (forall k, k_fds (f k).2 = k_fds k) -> keeps_fds (on_k f).
Proof. intros Hf s a s'. unfold on_k. specialize (Hf (i_k s)). destruct (f (i_k s)) as [b k]. intros [= <- <-]. done. Qed.

Lemma keeps_when (b : bool) (m : M iot unit) : keeps_fds m -> keeps_fds (when b m).
Proof. destruct b; [done|]. intros _. apply keeps_ret. Qed.

Lemma keeps_arg argv i : keeps_fds (arg argv i).
Proof. unfold arg. destruct (argv !! i); [apply keeps_ret|]. intros s a s'. discriminate. Qed.

Lemma keeps_die {A} d : keeps_fds (die d : M iot A).
Proof. intros s a s'. discriminate. Qed.

Lemma keeps_errno : keeps_fds iot_errno.
Proof. intros s a s' [= <- <-]. done. Qed.

Create HintDb fds discriminated.
#[local] Hint Resolve keeps_ret keeps_bind keeps_arg keeps_when keeps_die keeps_errno : fds.

(** What both number parsers do after the conversion. *)
Lemma keeps_parse (range : bool) (bad : Z -> bool) (v : Z) :
  keeps_fds (when range (on_k (fun k => (tt, set_errno ERANGE k))) ;;; errno <- iot_errno ;; if bad errno then die DAbort else ret v).
Proof.
  apply keeps_bind; [apply keeps_when; by apply keeps_on_k|]. intros _. apply keeps_bind; [apply keeps_errno|].
  intros e. destruct (bad e); auto with fds.
Qed.

Lemma keeps_mystrtoull v : keeps_fds (mystrtoull v).
Proof. unfold mystrtoull. destruct (strtoull v). apply keeps_parse. Qed.

Lemma keeps_mystrtoll v : keeps_fds (mystrtoll v).
Proof. unfold mystrtoll. destruct (strtoll v). apply keeps_parse. Qed.

Lemma keeps_fill_loop fuel str buf off : keeps_fds (fill_loop fuel str buf off).
Proof.
  revert buf off. induction fuel as [|f IH]; intros buf off; cbn [fill_loop].
  - destruct (_ <=? _); [|auto with fds]. intros s a s'. discriminate.
  - destruct (_ <=? _); [|auto with fds]. destruct (_ <? _); [intros s a s'; discriminate|]. apply IH.
Qed.

#[local] Hint Resolve keeps_mystrtoull keeps_mystrtoll keeps_fill_loop : fds.

Lemma keeps_prep heap alloc n argv str fd i : keeps_fds (prep_iocbs heap alloc n argv str fd i).
Proof.
  revert i. induction n as [|n IH]; intros i; cbn [prep_iocbs]; [auto with fds|].
  do 4 (apply keeps_bind; [auto with fds|intros ?]). destruct (negb _); [auto with fds|]. destruct (negb _); [auto with fds|].
  unfold fill_str. auto with fds.
Qed.

Lemma keeps_aio_wait evs cnt total : keeps_fds (aio_wait evs cnt total).
Proof.
  revert total. induction evs as [|e evs IH]; intros total; cbn [aio_wait]; [intros s a s'; discriminate|].
  destruct (_ <? _); [auto with fds|]. destruct (_ <=? _); [auto with fds|]. apply IH.
Qed.

Lemma do_open_new a1 path s fd s' :
  do_open a1 path s = Ret fd s' ->
  fd < 0 \/ (k_fds (i_k s) !! fd = None /\ exists o, k_fds (i_k s') = <[fd := o]> (k_fds (i_k s))).
Proof.
  unfold do_open. destruct (_ =? 0); [intros [= <- <-]; left; lia|]. unfold on_k, sys_open.
  destruct (k_dir (i_k s) !! path).
  - destruct (has_flag _ _); intros [= <- <-]; [left; lia|right]. split; [apply new_fd_None|]. by eexists.
  - destruct (has_flag _ _); intros [= <- <-]; [right|left; lia]. split; [apply new_fd_None|]. by eexists.
Qed.

(** The asynchronous engine never closes the descriptor that it opens, whatever libaio
    answers: when it returns 0, one more descriptor is open. *)
Theorem aio_leaks_descriptor heap alloc io_setup io_submit io_getevents (argv : list bytes) (s s' : iot) :
  (forall cbs k, k_fds (io_submit cbs k).2 = k_fds k) ->
  do_aio_wrv_bytes_str heap alloc io_setup io_submit io_getevents argv s = Ret (Some 0) s' ->
  exists fd o, k_fds (i_k s) !! fd = None /\ k_fds (i_k s') = <[fd := o]> (k_fds (i_k s)).
Proof.
  intros Hsub H. unfold do_aio_wrv_bytes_str in H. destruct (_ <? 7); [discriminate|]. destruct (negb _) in H; [discriminate|].
  apply bind_inv in H as (a1 & s1 & H1 & H). pose proof (keeps_arg _ _ _ _ _ H1) as E1.
  apply bind_inv in H as (a3 & s2 & H2 & H). pose proof (keeps_arg _ _ _ _ _ H2) as E2.
  apply bind_inv in H as (fd & s3 & Hop & H). destruct (Z.ltb_spec fd 0); [discriminate|].
  apply do_open_new in Hop as [?|[Hn (o & Ho)]]; [lia|]. rewrite E2, E1 in *. exists fd, o. split; [done|]. rewrite <- Ho.
  match type of H with ?m s3 = _ => assert (Hk : keeps_fds m); [|exact (Hk _ _ _ H)] end.
  destruct (negb _); [auto with fds|]. destruct (negb _); [auto with fds|]. destruct (negb _); [auto with fds|].
  apply keeps_bind; [auto with fds|intros str]. apply keeps_bind; [apply keeps_prep|intros [cbs|]]; [|auto with fds].
  apply keeps_bind; [by apply keeps_on_k|intros r]. destruct (_ <? 0); [auto with fds|].
  apply keeps_bind; [apply keeps_aio_wait|auto with fds].
Qed.

(** ** Witnesses *)

Definition heap_ex (i : Z) : byte := "h"%byte.
Definition alloc_ex (n : Z) : bool := true.
Definition o_ex : ofd := Ofd 5 0 true true false.
Definition dev_ex (n : nat) : iot :=
  Iot (Kernel {[ bs "disk" := 5 ]} {[ 5 := replicate n "."%byte ]} 6 {[ 3 := o_ex ]} [] [] 0) [] [].

Lemma fill_str_outcome_witness :
  fill_str (bs "abc") (new_buf heap_ex 8) (dev_ex 0) = Ret (bs "abcabc" ++ [NUL; "h"%byte]) (dev_ex 0).
Proof.
  pose proof (fill_str_outcome (bs "abc") (new_buf heap_ex 8) (dev_ex 0) ltac:(discriminate)) as H.
  rewrite decide_False in H by discriminate. rewrite decide_False in H by (vm_compute; discriminate). exact H.
Defined.

Lemma wr_bytes_char_correct_witness :
  char_outcome o_ex "R"%byte (replicate 20 "."%byte) 3 5
    (Iot (i_k (dev_ex 20)) [WSome 2; WSome 0; WErr 5] [])
    (_do_wr_bytes_char alloc_ex 3 3 5 "R"%byte (Iot (i_k (dev_ex 20)) [WSome 2; WSome 0; WErr 5] [])).
Proof.
  apply (wr_bytes_char_correct alloc_ex (fun _ => eq_refl) 3 o_ex eq_refl 3 5 "R"%byte).
  - reflexivity.
  - lia.
  - lia.
  - unfold LONG_MAX. lia.
Defined.

Lemma sects_ok_ex : sects_ok 100000 8193 /\ sects_ok 2 3.
Proof. split; split; unfold SECTOR_SIZE, MAX_BUF_LEN, LONG_MAX; lia. Qed.

Lemma wr_sects_char_correct_witness :
  exists s', _do_wr_sects_char alloc_ex 3 2 3 "R"%byte (dev_ex 0) = Ret 0 s' /\
    wrote_file o_ex (dev_ex 0) s' (file_write [] 1024 (memset "R"%byte 1536)).
Proof.
  apply (wr_sects_char_correct alloc_ex (fun _ => eq_refl) 3 o_ex eq_refl 2 3 "R"%byte (dev_ex 0)).
  - reflexivity.
  - exact (proj2 sects_ok_ex).
  - vm_compute. discriminate.
  - apply Forall_nil_2.
Defined.

Lemma wr_sects_char_overrun_witness :
  exists s', _do_wr_sects_char alloc_ex 3 100000 8193 "R"%byte (dev_ex 0) = Ret 0 s' /\
    wrote_file o_ex (dev_ex 0) s' (file_write [] (SECTOR_SIZE * 100000)
      (memset "R"%byte (MAX_BUF_LEN * ((SECTOR_SIZE * 8193 + MAX_BUF_LEN - 1) / MAX_BUF_LEN)))).
Proof.
  apply (wr_sects_char_overrun alloc_ex (fun _ => eq_refl) 3 o_ex eq_refl 100000 8193 "R"%byte (dev_ex 0)).
  - reflexivity.
  - exact (proj1 sects_ok_ex).
  - apply Forall_nil_2.
  - vm_compute. reflexivity.
  - vm_compute. reflexivity.
  - vm_compute. reflexivity.
Defined.

Definition argv_ex : list bytes := bs <$> ["iotool"; "buffer"; "W"; "disk"; "0"; "3"; "abc"]%string.
Definition args_ex : Args := MkArgs 512 0 3 (strncpy (bs "disk") 64) (strncpy (bs "abc") 64).
Definition getopt_ex (argv : list bytes) : list (byte * option bytes) * list bytes * nat := ([], argv, 4%nat).

Lemma w_args_ex : w_args alloc_ex args_ex argv_ex (bs "disk") 5 (dev_ex 3000).
Proof.
  split; try done.
  - by exists "b"%byte, (bs "uffer").
  - split; vm_compute; set_solver.
Qed.

Lemma write_io_blocks_witness :
  exists s', WriteIO heap_ex alloc_ex getopt_ex argv_ex (dev_ex 3000) = Ret (Some 0) s' /\
    file_read (contents (i_k s') 5) (0 + 512 * 3) 512 = w_data heap_ex args_ex /\
    file_read (contents (i_k s') 5) (0 + 512 * 2) 512 = file_read (contents (i_k (dev_ex 3000)) 5) (0 + 512 * 2) 512.
Proof.
  destruct (write_io_blocks heap_ex alloc_ex getopt_ex argv_ex args_ex (bs "disk") 5 (dev_ex 3000)) as (s' & H1 & H2).
  - reflexivity.
  - exact w_args_ex.
  - vm_compute. discriminate.
  - exists s'. split; [exact H1|]. split.
    + exact (H2 3 ltac:(lia)).
    + exact (H2 2 ltac:(lia)).
Defined.
