(* ===== verification/UnixSock.v ===== *)
(** * UNIX domain connections (apue.3e/lib: servlisten.c, cliconn.c, servaccept.c)

    The server listens on a well-known name; a client binds a name of its own, makes it
    accessible to its owner only and connects; the server finds the client's user by the
    owner of that name.  [u_names] is the part of the file system that holds the names of
    sockets, [u_socks] the open sockets of a process.  Calls that only succeed or fail
    take their result from the list [u_sys].  The number of usable bytes of a malloc'ed
    block is a parameter, at least the number requested. *)

From Stdlib Require Import Strings.Byte ZArith Lia.
From S2P Require Import Prelude Wp Libc Posix.
From stdpp Require Import base strings numbers gmap list.
#[local] Open Scope Z_scope.

Definition SUN_PATH : Z := 108.
Definition ENAMETOOLONG : Z := 36.
Definition STALE : Z := 30.
Definition CLI_PATH : bytes := bs "/var/tmp/".

Definition S_IRWXU : Z := 448.
Definition S_IRWXG : Z := 56.
Definition S_IRWXO : Z := 7.
Definition CLI_PERM : Z := S_IRWXU.

(** What [stat] tells about a name. *)
Record stat := Stat {
  st_sock : bool; st_mode : Z; st_atime : Z; st_ctime : Z; st_mtime : Z; st_uid : Z
}.

Record unx := Unx {
  u_k : kernel; u_sys : list Z; u_socks : gset Z; u_names : gmap bytes stat; u_now : Z
}.

Definition set_uk k u := Unx k (u_sys u) (u_socks u) (u_names u) (u_now u).
Definition set_socks x u := Unx (u_k u) (u_sys u) x (u_names u) (u_now u).
Definition set_names x u := Unx (u_k u) (u_sys u) (u_socks u) x (u_now u).
Definition set_uerrno e u := set_uk (set_errno e (u_k u)) u.

(** The next call: its result, when it is not negative, or an error number. *)
Definition sysc : M unx Z := fun u =>
  let u' := Unx (u_k u) (tail (u_sys u)) (u_socks u) (u_names u) (u_now u) in
  match u_sys u with
  | [] => Ret 0 u
  | r :: _ => if r <? 0 then Ret (-1) (set_uerrno (- r) u') else Ret r u'
  end.

Definition sys_socket : M unx Z :=
  fd <- sysc ;;
  when (0 <=? fd) (modst (fun u => set_socks ({[fd]} ∪ u_socks u) u)) ;;;
  ret fd.

Definition close_sock (fd : Z) : M unx unit := modst (fun u => set_socks (u_socks u ∖ {[fd]}) u).
Definition unlink_name (name : bytes) : M unx unit := modst (fun u => set_names (delete name (u_names u)) u).

(** [bind] makes the name, with the mode that the umask leaves. *)
Definition sys_bind (name : bytes) (uid mode : Z) : M unx Z :=
  r <- sysc ;;
  if r <? 0 then ret (-1)
  else
    u <- getst ;;
    modst (set_names (<[name := Stat true mode (u_now u) (u_now u) (u_now u) uid]> (u_names u))) ;;;
    ret 0.

Definition chmod_stat (mode now : Z) (s : stat) : stat :=
  Stat (st_sock s) mode (st_atime s) now (st_mtime s) (st_uid s).

Definition sys_chmod (name : bytes) (mode : Z) : M unx Z :=
  r <- sysc ;;
  if r <? 0 then ret (-1)
  else modst (fun u => set_names (alter (chmod_stat mode (u_now u)) name (u_names u)) u) ;;; ret 0.

(** [err = errno; close(fd); errno = err; return(rval)] *)
Definition errout (fd rval : Z) : M unx Z := close_sock fd ;;; ret rval.

Section names.
Context (uid umode pid : Z).

Definition serv_listen (name : bytes) : M unx Z :=
  if SUN_PATH <=? len name then modst (set_uerrno ENAMETOOLONG) ;;; ret (-1)
  else
    fd <- sys_socket ;;
    if fd <? 0 then ret (-2)
    else
      unlink_name name ;;;
      b <- sys_bind name uid umode ;;
      if b <? 0 then errout fd (-3)
      else
        l <- sysc ;;
        if l <? 0 then errout fd (-4) else ret fd.

(** ["%s%05ld"] *)
Definition cli_name : bytes := CLI_PATH ++ replicate (5 - length (dec pid)) "0"%byte ++ dec pid.

Definition cli_conn (name : bytes) : M unx Z :=
  if SUN_PATH <=? len name then modst (set_uerrno ENAMETOOLONG) ;;; ret (-1)
  else
    fd <- sys_socket ;;
    if fd <? 0 then ret (-1)
    else
      unlink_name cli_name ;;;
      b <- sys_bind cli_name uid umode ;;
      if b <? 0 then errout fd (-2)
      else
        c <- sys_chmod cli_name CLI_PERM ;;
        if c <? 0 then r <- errout fd (-3) ;; unlink_name cli_name ;;; ret r
        else
          k <- sysc ;;
          if k <? 0 then r <- errout fd (-4) ;; unlink_name cli_name ;;; ret r
          else ret fd.
End names.

(** [malloc(sizeof(un.sun_path + 1))] asks for the size of a pointer. *)
Definition NAME_SZ : Z := 8.

(** The connection that [accept] takes: its descriptor and the name of the peer, or an
    error number.  Returns the descriptor or an error, and the user. *)
Definition serv_accept (usable : Z -> Z) (conn : Z * bytes + Z) : M unx (Z * Z) :=
  match conn with
  | inr e => modst (set_uerrno e) ;;; ret (-2, 0)
  | inl (clifd, path) =>
    modst (fun u => set_socks ({[clifd]} ∪ u_socks u) u) ;;;
    if usable NAME_SZ <? len path + 1 then undef "store outside the heap block"
    else
      let name := cstr path in
      u <- getst ;;
      match u_names u !! name with
      | None => modst (set_uerrno ENOENT) ;;; r <- errout clifd (-3) ;; ret (r, 0)
      | Some s =>
        if negb (st_sock s) then r <- errout clifd (-4) ;; ret (r, 0)
        else if negb (Z.land (st_mode s) (Z.lor S_IRWXG S_IRWXO) =? 0) || negb (Z.land (st_mode s) S_IRWXU =? S_IRWXU)
        then r <- errout clifd (-5) ;; ret (r, 0)
        else
          let staletime := u_now u - STALE in
          if (st_atime s <? staletime) || (st_ctime s <? staletime) || (st_mtime s <? staletime)
          then r <- errout clifd (-6) ;; ret (r, 0)
          else unlink_name name ;;; ret (clifd, st_uid s)
      end
  end.

(** ** Theorems *)

(** A call leaves sockets, names and the time alone. *)
Lemma sysc_ok u :
  wp sysc (fun r u' => -1 <= r /\ u_socks u' = u_socks u /\ u_names u' = u_names u /\ u_now u' = u_now u) no_exit u.
Proof. unfold wp, sysc. destruct (u_sys u) as [|r l]; [by split_and!|]. destruct (Z.ltb_spec r 0); split_and!; (done || lia). Qed.

Lemma sys_socket_ok u :
  wp sys_socket (fun r u' => -1 <= r /\ u_socks u' = (if r <? 0 then u_socks u else {[r]} ∪ u_socks u) /\ u_names u' = u_names u /\ u_now u' = u_now u) no_exit u.
Proof.
  unfold sys_socket. wp_step. eapply wp_conseq; [apply sysc_ok|]. intros r u1 (H1 & H2 & H3 & H4). wp_step.
  apply wp_when; intros Hr; wp_steps; destruct (Z.ltb_spec r 0); try lia; cbn; rewrite ?H2, ?H3, ?H4; done.
Qed.

Lemma sys_bind_ok name uid mode u :
  wp (sys_bind name uid mode) (fun r u' => u_socks u' = u_socks u /\ u_now u' = u_now u /\
    u_names u' = if r <? 0 then u_names u else <[name := Stat true mode (u_now u) (u_now u) (u_now u) uid]> (u_names u)) no_exit u.
Proof.
  unfold sys_bind. wp_step. eapply wp_conseq; [apply sysc_ok|]. intros r u1 (H1 & H2 & H3 & H4).
  destruct (Z.ltb_spec r 0); wp_steps; cbn; rewrite ?H2, ?H3, ?H4; done.
Qed.

Lemma sys_chmod_ok name mode u :
  wp (sys_chmod name mode) (fun r u' => u_socks u' = u_socks u /\ u_now u' = u_now u /\
    u_names u' = if r <? 0 then u_names u else alter (chmod_stat mode (u_now u)) name (u_names u)) no_exit u.
Proof.
  unfold sys_chmod. wp_step. eapply wp_conseq; [apply sysc_ok|]. intros r u1 (H1 & H2 & H3 & H4).
  destruct (Z.ltb_spec r 0); wp_steps; cbn; rewrite ?H2, ?H3, ?H4; done.
Qed.

Lemma errout_ok fd r u :
  wp (errout fd r) (fun r' u' => r' = r /\ u_socks u' = u_socks u ∖ {[fd]} /\ u_names u' = u_names u /\ u_now u' = u_now u) no_exit u.
Proof. by split_and!. Qed.

(** [serv_listen] leaves a socket open exactly when it returns one, and then the
    name exists. *)
Theorem serv_listen_clean (uid umode : Z) (name : bytes) (u : unx) :
  wp (serv_listen uid umode name) (fun fd u' => u_now u' = u_now u /\
    if fd <? 0 then u_socks u' ⊆ u_socks u
    else u_socks u' = {[fd]} ∪ u_socks u /\ is_Some (u_names u' !! name)) no_exit u.
Proof.
  unfold serv_listen, unlink_name. destruct (SUN_PATH <=? len name); [wp_steps; split; [done|]; cbn; set_solver|]. wp_step. eapply wp_conseq; [apply sys_socket_ok|].
  intros fd u1 (Hfd & S1 & N1 & T1). destruct (Z.ltb_spec fd 0); [wp_steps; split; [done|]; cbn; rewrite S1; set_solver|]. do 3 wp_step.
  eapply wp_conseq; [apply sys_bind_ok|]. intros b u2 (S2 & T2 & N2). cbn [u_socks u_names u_now set_names] in S2, T2, N2.
  destruct (Z.ltb_spec b 0).
  { eapply wp_conseq; [apply errout_ok|]. intros r u3 (-> & S3 & _ & T3). split; [congruence|]. cbn. rewrite S3, S2, S1. set_solver. }
  wp_step. eapply wp_conseq; [apply sysc_ok|]. intros k u3 (_ & S3 & N3 & T3). destruct (Z.ltb_spec k 0).
  { eapply wp_conseq; [apply errout_ok|]. intros r u4 (-> & S4 & _ & T4). split; [congruence|]. cbn. rewrite S4, S3, S2, S1. set_solver. }
  wp_step. split; [congruence|]. destruct (Z.ltb_spec fd 0); [lia|]. split; [congruence|]. rewrite N3, N2, lookup_insert_eq. eauto.
Qed.

(** [cli_conn] leaves a socket open exactly when it returns one; then the name of
    the client is a socket of the user that only its owner may use.  When it fails after
    the socket was made, the name is gone. *)
Theorem cli_conn_clean (uid umode pid : Z) (name : bytes) (u : unx) :
  wp (cli_conn uid umode pid name) (fun fd u' => u_now u' = u_now u /\
    if fd <? 0 then u_socks u' ⊆ u_socks u /\ (fd = -1 \/ u_names u' !! cli_name pid = None)
    else u_socks u' = {[fd]} ∪ u_socks u /\
         u_names u' = <[cli_name pid := Stat true CLI_PERM (u_now u) (u_now u) (u_now u) uid]> (u_names u)) no_exit u.
Proof.
  unfold cli_conn, unlink_name. destruct (SUN_PATH <=? len name); [wp_steps; split; [done|]; cbn; auto|]. wp_step. eapply wp_conseq; [apply sys_socket_ok|].
  intros fd u1 (Hfd & S1 & N1 & T1). destruct (Z.ltb_spec fd 0); [wp_steps; split; [done|]; cbn; rewrite S1; auto|]. do 3 wp_step.
  eapply wp_conseq; [apply sys_bind_ok|]. intros b u2 (S2 & T2 & N2). cbn [u_socks u_names u_now set_names] in S2, T2, N2.
  destruct (Z.ltb_spec b 0).
  { eapply wp_conseq; [apply errout_ok|]. intros r u3 (-> & S3 & N3 & T3). split; [congruence|]. cbn. rewrite S3, S2, S1, N3, N2, lookup_delete_eq.
    split; [set_solver|auto]. }
  wp_step. eapply wp_conseq; [apply sys_chmod_ok|]. intros c u3 (S3 & T3 & N3). destruct (Z.ltb_spec c 0).
  { wp_step. eapply wp_conseq; [apply errout_ok|]. intros r u4 (-> & S4 & N4 & T4). wp_steps. split; [cbn; congruence|]. cbn.
    rewrite S4, S3, S2, S1, lookup_delete_eq. split; [set_solver|auto]. }
  wp_step. eapply wp_conseq; [apply sysc_ok|]. intros k u4 (_ & S4 & N4 & T4). destruct (Z.ltb_spec k 0).
  { wp_step. eapply wp_conseq; [apply errout_ok|]. intros r u5 (-> & S5 & N5 & T5). wp_steps. split; [cbn; congruence|]. cbn.
    rewrite S5, S4, S3, S2, S1, lookup_delete_eq. split; [set_solver|auto]. }
  wp_step. split; [congruence|]. destruct (Z.ltb_spec fd 0); [lia|]. split; [congruence|].
  rewrite N4, N3, N2, N1, alter_insert, decide_True, insert_delete_eq, T2, T1 by done. done.
Qed.

(** The name of a client is one that its owner made a short time ago. *)
Definition authentic (now : Z) (s : stat) : bool :=
  st_sock s && (Z.land (st_mode s) (Z.lor S_IRWXG S_IRWXO) =? 0) && (Z.land (st_mode s) S_IRWXU =? S_IRWXU) &&
  negb ((st_atime s <? now - STALE) || (st_ctime s <? now - STALE) || (st_mtime s <? now - STALE)).

Section accept.
Context (usable : Z -> Z).

Lemma accept_spec now conn u :
  u_now u = now -> (forall fd path, conn = inl (fd, path) -> 0 <= fd /\ len path + 1 <= usable NAME_SZ) ->
  wp (serv_accept usable conn) (fun p u' => p.1 < 0 \/
    exists fd path s, conn = inl (fd, path) /\ u_names u !! cstr path = Some s /\ authentic now s = true /\ p = (fd, st_uid s) /\
      u' = set_names (delete (cstr path) (u_names u)) (set_socks ({[fd]} ∪ u_socks u) u)) no_exit u.
Proof.
  intros Hnow Hc. destruct conn as [[fd path]|e]; [|by left]. destruct (Hc fd path eq_refl) as [Hfd Hlen].
  unfold serv_accept, unlink_name. wp_steps. set (u1 := set_socks _ u). destruct (Z.ltb_spec (usable NAME_SZ) (len path + 1)); [lia|]. wp_steps.
  change (u_names u1) with (u_names u). destruct (u_names u !! cstr path) as [s|] eqn:Es; [|by left].
  destruct (st_sock s) eqn:E1; cbn [negb]; [|by left].
  destruct (Z.land (st_mode s) (Z.lor S_IRWXG S_IRWXO) =? 0) eqn:E2; cbn [negb orb]; [|by left].
  destruct (Z.land (st_mode s) S_IRWXU =? S_IRWXU) eqn:E3; cbn [negb orb]; [|by left].
  change (u_now u1) with (u_now u). rewrite Hnow.
  destruct ((st_atime s <? now - STALE) || (st_ctime s <? now - STALE) || (st_mtime s <? now - STALE)) eqn:E4; [by left|].
  right. exists fd, path, s. split_and!; try done. unfold authentic. by rewrite E1, E2, E3, E4.
Qed.
End accept.

Lemma cli_name_cstr pid : 0 <= pid -> is_cstr (cli_name pid).
Proof.
  intros H. unfold cli_name. apply is_cstr_app. split; [by repeat constructor|]. apply is_cstr_app. split; [by apply Forall_replicate|].
  by apply is_cstr_dec_pos.
Qed.

(** C33: A client that connects with [cli_conn] is accepted within half a minute under
    its own user, and the name that it used is removed; the block that [serv_accept]
    keeps the name in has to be large enough, though it asks for 8 bytes only. *)
Theorem conn_authenticated (usable : Z -> Z) (uid umode pid clifd : Z) (name : bytes) (u u' s : unx) (fd : Z) :
  0 <= pid -> cli_conn uid umode pid name u = Ret fd u' -> 0 <= fd -> 0 <= clifd ->
  u_names s = u_names u' -> u_now u <= u_now s <= u_now u + STALE -> len (cli_name pid) + 1 <= usable NAME_SZ ->
  serv_accept usable (inl (clifd, cli_name pid)) s =
  Ret (clifd, uid) (set_names (delete (cli_name pid) (u_names s)) (set_socks ({[clifd]} ∪ u_socks s) s)).
Proof.
  intros Hpid Hc Hfd Hcl Hn Ht Hu. pose proof (cli_conn_clean uid umode pid name u) as H. unfold wp in H. rewrite Hc in H.
  destruct H as [_ H]. destruct (Z.ltb_spec fd 0); [lia|]. destruct H as [_ H].
  unfold serv_accept. unfold bind at 1, modst. set (s1 := set_socks _ s). destruct (Z.ltb_spec (usable NAME_SZ) (len (cli_name pid) + 1)); [lia|].
  rewrite cstr_id by (by apply cli_name_cstr). rewrite (bind_ret _ _ _ _ _ (eq_refl : getst s1 = Ret s1 s1)).
  change (u_names s1) with (u_names s). rewrite Hn, H, lookup_insert_eq. cbn [st_sock st_mode st_atime st_ctime st_mtime st_uid negb].
  change (negb (Z.land CLI_PERM (Z.lor S_IRWXG S_IRWXO) =? 0) || negb (Z.land CLI_PERM S_IRWXU =? S_IRWXU)) with false. cbv iota.
  destruct (Z.ltb_spec (u_now u) (u_now s1 - STALE)) as [Hl|Hl]; [cbn in Hl; lia|]. by rewrite <- H, <- Hn.
Qed.

(** With no more than the 8 bytes that it asks for, [serv_accept] writes outside its
    block for every client. *)
Theorem accept_overflow (usable : Z -> Z) (clifd pid : Z) (s : unx) :
  usable NAME_SZ = NAME_SZ ->
  serv_accept usable (inl (clifd, cli_name pid)) s = Undef "store outside the heap block".
Proof.
  intros Hu. unfold serv_accept. unfold bind at 1, modst. assert (9 <= len (cli_name pid)).
  { unfold cli_name. rewrite len_app. change (len CLI_PATH) with 9. pose proof (len_nonneg (replicate (5 - length (dec pid)) "0"%byte ++ dec pid)). lia. }
  rewrite Hu. unfold NAME_SZ. destruct (Z.ltb_spec 8 (len (cli_name pid) + 1)); [done|lia].
Qed.
