(* ===== verification/OpenModel.v ===== *)
(** * The open server (apue.3e/ipc2/opend and ipc2/open)

    A server that opens files for its clients and passes the descriptors: the client table
    of client.c, [buf_args] of lib/bufargs.c with [cli_args], [send_fd], [send_err] and
    [recv_fd] of lib, [handle_request], the loops of loop.select.c and loop.poll.c, and
    the client's [csopen].  A message on a socket is its bytes and, perhaps, an open file;
    what the server sent to each client is the map [v_out], what a client receives is a
    list of results of [recvmsg].  Log messages are not kept, but a message that is itself
    the format string must not contain conversions.  [v_req] records the requests in the
    order in which they are handled. *)

From Stdlib Require Import Strings.Byte ZArith Lia.
From S2P Require Import Prelude Wp Libc Posix SpoolIo UnixSock.
From stdpp Require Import base strings numbers gmap list.
#[local] Open Scope Z_scope.

Definition MAXLINE : Z := 4096.
Definition NALLOC : Z := 10.
Definition MAXARGC : Z := 50.
Definition CS_OPEN : bytes := bs "/tmp/opend.socket".
Definition CL_OPEN : bytes := bs "open".

(** ** State of the server *)

Record Client := MkClient { c_fd : Z; c_uid : Z }.

(** Bytes on a stream socket, with the open file that travels with them; [m_whole] marks
    the bytes of one [sendmsg]. *)
Record msg := Msg { m_data : bytes; m_file : option ofd; m_whole : bool }.

Record request := Request { rq_fd : Z; rq_uid : Z; rq_buf : bytes }.

Record srv := Srv {
  v_u : unx; client : option (list Client); errmsg : bytes; pathname : bytes; oflag : Z;
  v_wr : list wev; v_out : gmap Z (list msg); v_req : list request
}.

Definition set_client c v := Srv (v_u v) c (errmsg v) (pathname v) (oflag v) (v_wr v) (v_out v) (v_req v).
Definition set_errmsg e v := Srv (v_u v) (client v) e (pathname v) (oflag v) (v_wr v) (v_out v) (v_req v).
Definition set_args p o v := Srv (v_u v) (client v) (errmsg v) p o (v_wr v) (v_out v) (v_req v).
Definition set_u u v := Srv u (client v) (errmsg v) (pathname v) (oflag v) (v_wr v) (v_out v) (v_req v).
Definition set_sent w o v := Srv (v_u v) (client v) (errmsg v) (pathname v) (oflag v) w o (v_req v).
Definition add_req r v := Srv (v_u v) (client v) (errmsg v) (pathname v) (oflag v) (v_wr v) (v_out v) (v_req v ++ [r]).

Definition on_u {A} (m : M unx A) : M srv A := fun v =>
  match m (v_u v) with
  | Ret a u => Ret a (set_u u v)
  | Die d u => Die d (set_u u v)
  | Undef w => Undef w
  | NoFuel => NoFuel
  end.

Definition on_vk {A} (f : kernel -> A * kernel) : M srv A :=
  on_u (fun u => let '(a, k) := f (u_k u) in Ret a (set_uk k u)).

(** ** The client table *)

Section server.
Context (strerror : Z -> bytes) (junk_uid : Z) (usable : Z -> Z).

Definition new_entries : list Client := replicate (Z.to_nat NALLOC) (MkClient (-1) junk_uid).

Definition client_alloc : M srv unit :=
  c <- gets client ;;
  modst (set_client (Some (default [] c ++ new_entries))).

(** The first entry with a given descriptor. *)
Fixpoint find_fd (fd : Z) (l : list Client) : option nat :=
  match l with
  | [] => None
  | c :: l' => if c_fd c =? fd then Some 0%nat else S <$> find_fd fd l'
  end.

(** The search, from the label [again]. *)
Fixpoint add_again (fuel : nat) (fd uid : Z) : M srv Z :=
  match fuel with
  | O => fun _ => NoFuel
  | S f =>
    c <- gets client ;;
    let l := default [] c in
    match find_fd (-1) l with
    | Some i => modst (set_client (Some (<[i := MkClient fd uid]> l))) ;;; ret (Z.of_nat i)
    | None => client_alloc ;;; add_again f fd uid
    end
  end.

Definition client_add (fd uid : Z) : M srv Z :=
  c <- gets client ;;
  when (bool_decide (c = None)) client_alloc ;;;
  add_again 2 fd uid.

Definition client_del (fd : Z) : M srv unit :=
  c <- gets client ;;
  let l := default [] c in
  match find_fd fd l, l !! default 0%nat (find_fd fd l) with
  | Some i, Some e => modst (set_client (Some (<[i := MkClient (-1) (c_uid e)]> l)))
  | _, _ => die (DQuit "can't find client entry for fd")
  end.

(** ** Arguments *)

Definition WHITE : bytes := [c_space; x09; x0a].
Definition is_white (c : byte) : bool := bool_decide (c ∈ WHITE).

Fixpoint skip_white (s : bytes) : bytes :=
  match s with
  | c :: s' => if is_white c then skip_white s' else s
  | [] => []
  end.

(** A token, and what [strtok] continues with: the delimiter after the token is overwritten. *)
Fixpoint token (s : bytes) : bytes * bytes :=
  match s with
  | [] => ([], [])
  | c :: s' => if is_white c then ([], s') else let '(t, r) := token s' in (c :: t, r)
  end.

Definition strtok (s : bytes) : option (bytes * bytes) :=
  match skip_white s with
  | [] => None
  | s' => Some (token s')
  end.

(** [argc] counts the arguments before the one that is looked for. *)
Fixpoint args_loop (fuel : nat) (rest : bytes) (argc : Z) (argv : list bytes) : option (list bytes) :=
  match fuel with
  | O => None
  | S f =>
    match strtok rest with
    | None => Some argv
    | Some (ptr, rest') =>
      if MAXARGC - 1 <=? argc + 1 then None else args_loop f rest' (argc + 1) (argv ++ [ptr])
    end
  end.

(** The array [argv], or [None] for [return(-1)].  [argv[0]] is the buffer itself: the
    string up to the end of the first token. *)
Definition buf_argv (buf : bytes) : option (list bytes) :=
  match strtok buf with
  | None => None
  | Some (t, rest) =>
    let white := take (length buf - length (skip_white buf)) buf in
    args_loop (S (length rest)) rest 0 [white ++ t]
  end.

Definition buf_args {S} (buf : bytes) (optfunc : list bytes -> M S Z) : M S Z :=
  match buf_argv buf with
  | None => ret (-1)
  | Some argv => optfunc argv
  end.

Definition cli_args (argv : list bytes) : M srv Z :=
  match argv with
  | [a0; a1; a2] =>
    if negb (strcmp a0 CL_OPEN =? 0) then modst (set_errmsg (bs "usage: <pathname> <oflag>" ++ [x0a])) ;;; ret (-1)
    else modst (set_args a1 (atoi a2)) ;;; ret 0
  | _ => modst (set_errmsg (bs "usage: <pathname> <oflag>" ++ [x0a])) ;;; ret (-1)
  end.

(** ** Passing descriptors *)

(** [writen] on the socket of a client. *)
Definition sock_writen (fd : Z) (d : bytes) : M srv Z := fun v =>
  match writen d (Ios [] [] (v_wr v) 0) with
  | Ret n s =>
    let q := default [] (v_out v !! fd) in
    Ret n (set_sent (s_wr s) (<[fd := if bool_decide (s_out s = []) then q else q ++ [Msg (s_out s) None false]]> (v_out v)) v)
  | Die d _ => Die d v
  | Undef w => Undef w
  | NoFuel => NoFuel
  end.

(** [sendmsg] of bytes with an open file. *)
Definition sendmsg (fd : Z) (d : bytes) (f : option ofd) : M srv Z := fun v =>
  match sock_write d (Ios [] [] (v_wr v) 0) with
  | Ret n s =>
    let q := default [] (v_out v !! fd) in
    Ret n (set_sent (s_wr s) (<[fd := if bool_decide (s_out s = []) then q else q ++ [Msg (s_out s) f true]]> (v_out v)) v)
  | Die d _ => Die d v
  | Undef w => Undef w
  | NoFuel => NoFuel
  end.

Definition status_byte (fd_to_send : Z) : byte :=
  let b := bz (- fd_to_send) in if uc b =? 0 then bz 1 else b.

Definition send_fd (fd fd_to_send : Z) : M srv Z :=
  if fd_to_send <? 0 then
    n <- sendmsg fd [NUL; status_byte fd_to_send] None ;;
    ret (if n =? 2 then 0 else -1)
  else
    v <- getst ;;
    match k_fds (u_k (v_u v)) !! fd_to_send with
    | None => ret (-1)
    | Some o =>
      n <- sendmsg fd [NUL; NUL] (Some o) ;;
      ret (if n =? 2 then 0 else -1)
    end.

Definition send_err (fd errcode : Z) (text : bytes) : M srv Z :=
  let n := len text in
  r <- (if 0 <? n then sock_writen fd text else ret n) ;;
  if negb (r =? n) then ret (-1)
  else
    s <- send_fd fd (if 0 <=? errcode then -1 else errcode) ;;
    ret (if s <? 0 then -1 else 0).

(** ** Requests *)

(** A string that is used as a format without arguments. *)
Fixpoint bad_format (s : bytes) : bool :=
  match s with
  | [] => false
  | c :: s' =>
    if decide (c = "%"%byte) then
      match s' with
      | c' :: s'' => if decide (c' = "%"%byte) then bad_format s'' else true
      | [] => true
      end
    else bad_format s'
  end.

Definition log_msg_fmt : M srv unit :=
  e <- gets errmsg ;;
  if bad_format e then undef "conversion without an argument" else ret tt.

(** [snprintf(errmsg, MAXLINE-1, ...)] *)
Definition snprintf_errmsg (text : bytes) : M srv unit :=
  modst (set_errmsg (take (Z.to_nat (MAXLINE - 2)) text)).

Definition reply_err (clifd : Z) : M srv unit :=
  e <- gets errmsg ;; send_err clifd (-1) e ;;; ret tt.

Definition handle_request (buf : bytes) (clifd uid : Z) : M srv unit :=
  modst (add_req (Request clifd uid buf)) ;;;
  if negb (bool_decide (last buf = Some NUL)) then
    snprintf_errmsg (bs "request from uid " ++ dec (i32 uid) ++ bs " not null terminated: " ++
      pad (length buf) (cstr buf) ++ [x0a]) ;;;
    reply_err clifd
  else
    r <- buf_args (cstr buf) cli_args ;;
    if r <? 0 then reply_err clifd ;;; log_msg_fmt
    else
      v <- getst ;;
      newfd <- on_vk (sys_open (pathname v) (oflag v)) ;;
      if newfd <? 0 then
        v <- getst ;;
        snprintf_errmsg (bs "can't open " ++ pathname v ++ bs ": " ++ strerror (k_errno (u_k (v_u v))) ++ [x0a]) ;;;
        reply_err clifd ;;; log_msg_fmt
      else
        s <- send_fd clifd newfd ;;
        if s <? 0 then die (DSys "send_fd error")
        else on_vk (sys_close newfd) ;;; ret tt.

(** ** The loop with select *)

(** What the kernel reports: a connection to accept, and the descriptors that are ready
    with what [read] returns on each ([None] is an error, the empty list the end). *)
Record ready := Ready { r_conn : option (Z * bytes + Z); r_data : gmap Z (option bytes) }.

Record sel := Sel { allset : gset Z; maxfd : Z; maxi : Z; listenfd : Z }.

(** [select] reports only what it was asked about. *)
Definition fd_isset (l : sel) (fd : Z) : bool := bool_decide (fd ∈ allset l) && (fd <=? maxfd l).

Definition readable (l : sel) (r : ready) (fd : Z) : option (option bytes) :=
  if fd_isset l fd then r_data r !! fd else None.

Definition close_client (fd : Z) : M srv unit := on_u (close_sock fd).

(** One client of the array: the new [allset]. *)
Definition select_one (l0 l : sel) (r : ready) (i : nat) : M srv sel :=
  c <- gets client ;;
  match default [] c !! i with
  | None => undef "read outside the heap block"
  | Some e =>
    let clifd := c_fd e in
    if clifd <? 0 then ret l
    else
      match readable l0 r clifd with
      | None => ret l
      | Some None => die (DSys "read error")
      | Some (Some []) =>
        client_del clifd ;;; close_client clifd ;;;
        ret (Sel (allset l ∖ {[clifd]}) (maxfd l) (maxi l) (listenfd l))
      | Some (Some buf) => handle_request (take (Z.to_nat MAXLINE) buf) clifd (c_uid e) ;;; ret l
      end
  end.

Fixpoint select_scan (n i : nat) (l0 l : sel) (r : ready) : M srv sel :=
  match n with
  | O => ret l
  | S n' => l' <- select_one l0 l r i ;; select_scan n' (S i) l0 l' r
  end.

Definition select_turn (l : sel) (r : ready) : M srv sel :=
  match r_conn r with
  | Some conn =>
    cu <- on_u (serv_accept usable conn) ;;
    let '(clifd, uid) := cu in
    if clifd <? 0 then die (DSys "serv_accept error")
    else
      i <- client_add clifd uid ;;
      ret (Sel ({[clifd]} ∪ allset l) (Z.max clifd (maxfd l)) (Z.max i (maxi l)) (listenfd l))
  | None => select_scan (Z.to_nat (maxi l + 1)) 0 l l r
  end.

Definition select_init (uid umode : Z) : M srv sel :=
  fd <- on_u (serv_listen uid umode CS_OPEN) ;;
  if fd <? 0 then die (DSys "serv_listen error")
  else ret (Sel {[fd]} fd (-1) fd).

Fixpoint select_loop (l : sel) (rs : list ready) : M srv sel :=
  match rs with
  | [] => ret l
  | r :: rs' => l' <- select_turn l r ;; select_loop l' rs'
  end.

(** ** The loop with poll *)

(** What [poll] reports for a descriptor: hung up, or data as for [read]. *)
Inductive pev := PNone | PHup | PIn (d : option bytes).

Record pollfd := Pollfd { pf_fd : Z; pf_rev : pev }.

(** The entries in use, and [maxfd], the size of the array. *)
Record pol := Pol { p_fds : list pollfd; p_max : Z }.

(** [poll(pollfd, numfd, -1)] *)
Definition sys_poll (r : gmap Z pev) (l : list pollfd) : list pollfd :=
  (fun p => Pollfd (pf_fd p) (default PNone (r !! pf_fd p))) <$> l.

(** [pollfd[i] = pollfd[numfd-1]; i--; numfd--], or [numfd--] at the last entry. *)
Definition pack (l : list pollfd) (i : nat) : list pollfd :=
  match last l with
  | Some e => if decide (i < length l - 1)%nat then <[i := e]> (removelast l) else removelast l
  | None => l
  end.

Definition poll_uid (i : nat) : M srv Z :=
  c <- gets client ;;
  match default [] c !! i with
  | None => undef "read outside the heap block"
  | Some e => ret (c_uid e)
  end.

(** The loop over the clients from index [i]; each turn handles an entry or drops one. *)
Fixpoint poll_scan (fuel i : nat) (l : list pollfd) : M srv (list pollfd) :=
  match l !! i with
  | None => ret l
  | Some e =>
    match fuel with
    | O => fun _ => NoFuel
    | S f =>
      match pf_rev e with
      | PNone => poll_scan f (S i) l
      | PIn None => die (DSys "read error")
      | PHup | PIn (Some []) =>
        poll_uid i ;;; client_del (pf_fd e) ;;; close_client (pf_fd e) ;;;
        poll_scan f i (pack l i)
      | PIn (Some buf) =>
        uid <- poll_uid i ;;
        handle_request (take (Z.to_nat MAXLINE) buf) (pf_fd e) uid ;;;
        poll_scan f (S i) l
      end
    end
  end.

(** The connection, if the listening descriptor is ready. *)
Definition poll_conn (l : list pollfd) (maxfd : Z) (conn : option (Z * bytes + Z)) : M srv (list pollfd * Z) :=
  match conn with
  | None => ret (l, maxfd)
  | Some c =>
    cu <- on_u (serv_accept usable c) ;;
    let '(clifd, uid) := cu in
    if clifd <? 0 then die (DSys "serv_accept error")
    else
      client_add clifd uid ;;;
      let maxfd := if len l =? maxfd then maxfd + NALLOC else maxfd in
      if maxfd <=? len l then undef "store outside the heap block"
      else ret (l ++ [Pollfd clifd PNone], maxfd)
  end.

(** One turn. *)
Definition poll_turn (p : pol) (conn : option (Z * bytes + Z)) (r : gmap Z pev) : M srv pol :=
  lm <- poll_conn (sys_poll r (p_fds p)) (p_max p) conn ;;
  let '(l, maxfd) := lm in
  l' <- poll_scan (length l) 1 l ;;
  ret (Pol l' maxfd).

Definition poll_init (uid umode : Z) : M srv pol :=
  fd <- on_u (serv_listen uid umode CS_OPEN) ;;
  if fd <? 0 then die (DSys "serv_listen error")
  else client_add fd 0 ;;; ret (Pol [Pollfd fd PNone] NALLOC).

Fixpoint poll_loop (p : pol) (rs : list (option (Z * bytes + Z) * gmap Z pev)) : M srv pol :=
  match rs with
  | [] => ret p
  | (conn, r) :: rs' => p' <- poll_turn p conn r ;; poll_loop p' rs'
  end.
End server.

(** ** The client *)

(** The result of one [recvmsg]. *)
Inductive rcv := RMsg (m : msg) | REof | RErr.

Record cst := Cst {
  cl_u : unx; csfd : Z; cl_in : list rcv; cl_out : bytes; cl_wr : list wev; cl_stderr : bytes; cl_ewr : list wev
}.

Definition set_clu u c := Cst u (csfd c) (cl_in c) (cl_out c) (cl_wr c) (cl_stderr c) (cl_ewr c).
Definition set_csfd f c := Cst (cl_u c) f (cl_in c) (cl_out c) (cl_wr c) (cl_stderr c) (cl_ewr c).

(** [recvmsg]: an open file that comes with the data gets the lowest free descriptor. *)
Definition recvmsg : M cst (option (bytes * option Z)) := fun c =>
  match cl_in c with
  | [] => NoFuel
  | REof :: r => Ret (Some ([], None)) (Cst (cl_u c) (csfd c) (cl_in c) (cl_out c) (cl_wr c) (cl_stderr c) (cl_ewr c))
  | RErr :: r => Ret None (Cst (cl_u c) (csfd c) r (cl_out c) (cl_wr c) (cl_stderr c) (cl_ewr c))
  | RMsg m :: r =>
    match m_file m with
    | None => Ret (Some (m_data m, None)) (Cst (cl_u c) (csfd c) r (cl_out c) (cl_wr c) (cl_stderr c) (cl_ewr c))
    | Some o =>
      let k := u_k (cl_u c) in
      let fd := new_fd (k_fds k) in
      Ret (Some (m_data m, Some fd))
        (Cst (set_uk (set_fds (<[fd := o]> (k_fds k)) k) (cl_u c)) (csfd c) r (cl_out c) (cl_wr c) (cl_stderr c) (cl_ewr c))
    end
  end.

(** [write(STDERR_FILENO, buf, n)] *)
Definition write_stderr (d : bytes) : M cst Z := fun c =>
  match sock_write d (Ios [] [] (cl_ewr c) 0) with
  | Ret n s => Ret n (Cst (cl_u c) (csfd c) (cl_in c) (cl_out c) (cl_wr c) (cl_stderr c ++ s_out s) (s_wr s))
  | Die d _ => Die d c
  | Undef w => Undef w
  | NoFuel => NoFuel
  end.

(** The scan of the received bytes for the final NUL: the status, if it is there. *)
Fixpoint recv_scan (buf : bytes) : M cst (option byte) :=
  match buf with
  | [] => ret None
  | c :: r =>
    if decide (c = NUL) then
      match r with
      | [st] => ret (Some st)
      | _ => die (DDump "message format error")
      end
    else recv_scan r
  end.

(** [for ( ; ; )]: the new descriptor, a negative status, or -1. *)
Fixpoint recv_loop (fuel : nat) : M cst Z :=
  match fuel with
  | O => fun _ => NoFuel
  | S f =>
    r <- recvmsg ;;
    match r with
    | None | Some ([], _) => ret (-1)
    | Some (buf, rights) =>
      st <- recv_scan buf ;;
      newfd <- match st, rights with
               | Some s, None => if uc s =? 0 then die (DDump "status = 0 but no fd") else ret (- uc s)
               | Some s, Some fd => ret (if uc s =? 0 then fd else - uc s)
               | None, _ => ret 0
               end ;;
      let d := match st with Some _ => take (length buf - 2) buf | None => buf end in
      w <- (if 0 <? len d then write_stderr d else ret (len d)) ;;
      if negb (w =? len d) then ret (-1)
      else match st with Some _ => ret newfd | None => recv_loop f end
    end
  end.

Definition recv_fd : M cst Z := c <- getst ;; recv_loop (S (length (cl_in c))).

Definition on_cu {A} (m : M unx A) : M cst A := fun c =>
  match m (cl_u c) with
  | Ret a u => Ret a (set_clu u c)
  | Die d u => Die d (set_clu u c)
  | Undef w => Undef w
  | NoFuel => NoFuel
  end.

(** [writev(csfd, iov, 3)] *)
Definition cl_writev (d : bytes) : M cst Z := fun c =>
  match sock_write d (Ios [] [] (cl_wr c) 0) with
  | Ret n s => Ret n (Cst (cl_u c) (csfd c) (cl_in c) (cl_out c ++ s_out s) (s_wr s) (cl_stderr c) (cl_ewr c))
  | Die d _ => Die d c
  | Undef w => Undef w
  | NoFuel => NoFuel
  end.

Definition request_bytes (name : bytes) (flag : Z) : bytes := CL_OPEN ++ c_space :: name ++ c_space :: dec flag ++ [NUL].

Definition csopen (uid umode pid : Z) (name : bytes) (flag : Z) : M cst Z :=
  fd <- gets csfd ;;
  fd <- (if fd <? 0 then fd <- on_cu (cli_conn uid umode pid CS_OPEN) ;; modst (set_csfd fd) ;;; ret fd else ret fd) ;;
  if fd <? 0 then ret (-1)
  else if 12 <? len (c_space :: dec flag) + 1 then undef "store outside buf"
  else
    let req := request_bytes name flag in
    n <- cl_writev req ;;
    if negb (n =? len req) then ret (-1) else recv_fd.
