(* ===== verification/OpenProofs.v ===== *)
(** * Theorems on requests and descriptor passing

    What [buf_args] makes of a buffer, what a request does to the server, and a request
    from [csopen] to the descriptor that the client gets. *)

From Stdlib Require Import Strings.Byte ZArith Lia.
From S2P Require Import Prelude Wp Libc Posix SpoolIo UnixSock OpenModel.
From stdpp Require Import base strings numbers gmap list.
#[local] Open Scope Z_scope.

(** ** Words *)

Definition white_free (w : bytes) : Prop := Forall (fun c => is_white c = false) w.

Lemma skip_white_word w s : white_free w -> w <> [] -> skip_white (w ++ s) = w ++ s.
Proof. intros H Hn. destruct H as [|c w Hc Hw]; [done|]. cbn [app skip_white]. by rewrite Hc. Qed.

Lemma skip_white_all p s : Forall (fun c => is_white c = true) p -> skip_white (p ++ s) = skip_white s.
Proof. induction 1 as [|c p Hc Hp IH]; [done|]. cbn [app skip_white]. by rewrite Hc. Qed.

Lemma token_word w s :
  white_free w -> token (w ++ s) = match s with [] => (w, []) | c :: r => if is_white c then (w, r) else ((w ++ (token s).1), (token s).2) end.
Proof.
  induction 1 as [|c w Hc Hw IH]; cbn [app token].
  - destruct s as [|c r]; [done|]. cbn [token]. destruct (is_white c); [done|]. by destruct (token r).
  - rewrite Hc, IH. destruct s as [|x r]; [done|]. by destruct (is_white x).
Qed.

Lemma strtok_word w c r : white_free w -> w <> [] -> is_white c = true -> strtok (w ++ c :: r) = Some (w, r).
Proof.
  intros Hw Hn Hc. unfold strtok. rewrite skip_white_word by done. destruct (w ++ c :: r) eqn:E; [by destruct w|].
  rewrite <- E, token_word by done. by rewrite Hc.
Qed.

Lemma strtok_last w : white_free w -> w <> [] -> strtok w = Some (w, []).
Proof.
  intros Hw Hn. unfold strtok. rewrite <- (app_nil_r w), skip_white_word by done.
  destruct (w ++ []) eqn:E; [by destruct w|]. rewrite <- E, token_word by done. by rewrite app_nil_r.
Qed.

(** A reference: the white-free words of a string, in order. *)
Fixpoint words_go (s cur : bytes) : list bytes :=
  match s with
  | [] => match cur with [] => [] | _ => [cur] end
  | c :: s' => if is_white c then match cur with [] => words_go s' [] | _ => cur :: words_go s' [] end else words_go s' (cur ++ [c])
  end.
Definition words (s : bytes) : list bytes := words_go s [].

Lemma words_go_token s cur :
  cur <> [] -> words_go s cur = (cur ++ (token s).1) :: words (token s).2.
Proof.
  revert cur. induction s as [|c s IH]; intros cur Hc; cbn [words_go token].
  - destruct cur; [done|]. by rewrite app_nil_r.
  - destruct (is_white c).
    + destruct cur; [done|]. by rewrite app_nil_r.
    + destruct (token s) as [t r] eqn:E. rewrite IH by (by destruct cur). cbn [fst snd] in *. by rewrite <- app_assoc.
Qed.

Lemma words_skip s : words s = words (skip_white s).
Proof.
  induction s as [|c s IH]; [done|]. unfold words in *. cbn [words_go skip_white]. destruct (is_white c) eqn:E; [done|].
  cbn [words_go]. by rewrite E.
Qed.

Lemma skip_white_head s c r : skip_white s = c :: r -> is_white c = false.
Proof. induction s as [|x s IH]; [done|]. cbn [skip_white]. destruct (is_white x) eqn:E; [done|]. by intros [= <- <-]. Qed.

Lemma words_strtok s :
  words s = match strtok s with None => [] | Some (t, r) => t :: words r end.
Proof.
  rewrite words_skip. unfold strtok. destruct (skip_white s) as [|c r] eqn:E; [done|].
  apply skip_white_head in E. unfold words at 1. cbn [words_go token]. rewrite E.
  rewrite words_go_token by done. by destruct (token r).
Qed.

Lemma token_length s : (length (token s).2 <= length s)%nat.
Proof. induction s as [|c s IH]; [done|]. cbn [token]. destruct (is_white c); [simpl; lia|]. destruct (token s). simpl in *. lia. Qed.

Lemma skip_white_length s : (length (skip_white s) <= length s)%nat.
Proof. induction s as [|c s IH]; [done|]. cbn [skip_white]. destruct (is_white c); simpl; lia. Qed.

Lemma strtok_length s t r : strtok s = Some (t, r) -> (length r < length s)%nat.
Proof.
  unfold strtok. pose proof (skip_white_length s). destruct (skip_white s) as [|c q] eqn:E; [done|]. intros [= Et].
  apply skip_white_head in E. cbn [token] in Et. rewrite E in Et. pose proof (token_length q). destruct (token q). injection Et as <- <-.
  simpl in *. lia.
Qed.

Lemma args_loop_words fuel rest argc argv :
  (length rest < fuel)%nat -> argc <= 48 ->
  args_loop fuel rest argc argv =
  if argc + len (words rest) <=? 48 then Some (argv ++ words rest) else None.
Proof.
  revert rest argc argv. induction fuel as [|f IH]; intros rest argc argv Hf Ha; [lia|]. cbn [args_loop]. rewrite words_strtok.
  destruct (strtok rest) as [[t r]|] eqn:E.
  - apply strtok_length in E. rewrite len_cons. pose proof (len_nonneg (words r)). unfold MAXARGC.
    destruct (Z.leb_spec (50 - 1) (argc + 1)) as [H1|H1].
    + destruct (Z.leb_spec (argc + (1 + len (words r))) 48); [lia|done].
    + rewrite IH by lia. rewrite <- app_assoc. cbn [app].
      replace (argc + 1 + len (words r)) with (argc + (1 + len (words r))) by lia. done.
  - change (len (@nil bytes)) with 0. rewrite app_nil_r. destruct (Z.leb_spec (argc + 0) 48); [done|lia].
Qed.

(** The buffer becomes its words, except that the first one keeps the white
    space before it; no words, or more than 49, are an error. *)
Theorem buf_argv_words (buf : bytes) :
  buf_argv buf =
  match words buf with
  | [] => None
  | w :: ws => if len ws <=? 48 then Some ((take (length buf - length (skip_white buf)) buf ++ w) :: ws) else None
  end.
Proof.
  unfold buf_argv. rewrite (words_strtok buf). destruct (strtok buf) as [[t r]|] eqn:E; [|done].
  rewrite args_loop_words by lia. by rewrite Z.add_0_l.
Qed.

(** ** Replies *)

Definition plain (s : bytes) : Prop := "%"%byte ∉ s.

Lemma plain_app a b : plain (a ++ b) <-> plain a /\ plain b.
Proof. unfold plain. set_solver. Qed.

Lemma plain_take n s : plain s -> plain (take n s).
Proof. unfold plain. intros H Hc. apply H. by apply elem_of_take in Hc as (i & Hi & _); apply list_elem_of_lookup_2 in Hi. Qed.

Lemma bad_format_plain s : plain s -> bad_format s = false.
Proof.
  unfold plain. induction s as [|c s IH]; intros H; [done|]. cbn [bad_format]. rewrite decide_False by set_solver.
  apply IH. set_solver.
Qed.

(** Every write takes all it is given. *)
Definition all_written (l : list wev) : Prop := Forall (fun w => w = WAll) l.

Lemma all_written_progress l : all_written l -> Forall progress l.
Proof. intros H. eapply Forall_impl; [exact H|]. by intros w ->. Qed.

Definition queue_of (fd : Z) (v : srv) : list msg := default [] (v_out v !! fd).

Lemma writen_all_written d wr :
  all_written wr -> exists wr', writen d (Ios [] [] wr 0) = Ret (len d) (Ios [] d wr' 0) /\ all_written wr'.
Proof.
  intros H. unfold writen. destruct d as [|c d]; [by exists wr|]. cbn [length writen_loop].
  assert (Hx : 0 < len (c :: d)) by (rewrite len_cons; pose proof (len_nonneg d); lia).
  destruct (Z.leb_spec (len (c :: d)) 0); [lia|].
  assert (Hw : exists wr', sock_write (c :: d) (Ios [] [] wr 0) = Ret (len (c :: d)) (Ios [] (c :: d) wr' 0) /\ all_written wr').
  { unfold sock_write. destruct H as [|w l -> Hl]; cbn [s_wr s_in s_out s_errno app]; [exists []|exists l]; split; (done || constructor). }
  destruct Hw as (wr' & Hw & Hwr). exists wr'. split; [|done].
  rewrite (bind_ret _ _ _ _ _ Hw). destruct (Z.ltb_spec (len (c :: d)) 0); [lia|]. destruct (Z.eqb_spec (len (c :: d)) 0); [lia|].
  rewrite drop_ge by (unfold len; lia). destruct (length d); cbn [writen_loop]; change (len (@nil byte) <=? 0) with true;
    cbv iota; unfold ret; by rewrite Z.sub_0_r.
Qed.

Lemma sock_writen_cases fd d v :
  exists n wr out, sock_writen fd d v = Ret n (set_sent wr out v) /\
    (all_written (v_wr v) -> n = len d /\ all_written wr /\
       (d <> [] -> out = <[fd := queue_of fd v ++ [Msg d None false]]> (v_out v))).
Proof.
  unfold sock_writen. destruct (writen_run d (Ios [] [] (v_wr v) 0)) as (n & s & Hw & _). rewrite Hw.
  eexists _, _, _. split; [reflexivity|]. intros Ha. destruct (writen_all_written d _ Ha) as (wr' & Hw' & Ha').
  rewrite Hw in Hw'. injection Hw' as -> ->. split; [done|]. split; [done|]. intros Hd. cbn [s_out]. by rewrite bool_decide_false.
Qed.

Lemma sendmsg_cases fd d f v :
  exists n wr out, sendmsg fd d f v = Ret n (set_sent wr out v) /\
    (all_written (v_wr v) -> n = len d /\ all_written wr /\ (d <> [] -> out = <[fd := queue_of fd v ++ [Msg d f true]]> (v_out v))).
Proof.
  unfold sendmsg, sock_write. cbn [s_wr s_in s_out s_errno]. destruct (v_wr v) as [|[|m|e] l] eqn:E; (eexists _, _, _; split; [reflexivity|]); intros Ha.
  - split; [done|]. split; [done|]. intros Hd. cbn [s_out]. by rewrite bool_decide_false.
  - inversion Ha; subst. split; [done|]. split; [done|]. intros Hd. cbn [s_out]. by rewrite bool_decide_false.
  - by inversion Ha.
  - by inversion Ha.
Qed.

Lemma send_fd_err_cases fd code v :
  code < 0 ->
  exists r wr out, send_fd fd code v = Ret r (set_sent wr out v) /\
    (all_written (v_wr v) -> r = 0 /\ all_written wr /\
       out = <[fd := queue_of fd v ++ [Msg [NUL; status_byte code] None true]]> (v_out v)).
Proof.
  intros Hc. unfold send_fd. destruct (Z.ltb_spec code 0); [|lia].
  destruct (sendmsg_cases fd [NUL; status_byte code] None v) as (n & wr & out & Hs & Ha). rewrite (bind_ret _ _ _ _ _ Hs).
  eexists _, wr, out. split; [reflexivity|]. intros Hw. destruct (Ha Hw) as (-> & ? & Ho). split; [done|]. split; [done|]. by apply Ho.
Qed.

(** The messages of an error reply. *)
Definition err_msgs (text : bytes) : list msg :=
  (if bool_decide (text = []) then [] else [Msg text None false]) ++ [Msg [NUL; bz 1] None true].

Lemma reply_err_cases fd v :
  exists wr out, reply_err fd v = Ret tt (set_sent wr out v) /\
    (all_written (v_wr v) -> all_written wr /\ out = <[fd := queue_of fd v ++ err_msgs (errmsg v)]> (v_out v)).
Proof.
  unfold reply_err, send_err, err_msgs. set (t := errmsg v).
  rewrite (bind_ret _ _ _ _ _ (eq_refl : gets errmsg v = Ret t v)). change (0 <=? -1) with false. cbv iota zeta.
  assert (H1 : exists n wr out, (if 0 <? len t then sock_writen fd t else ret (len t)) v = Ret n (set_sent wr out v) /\
    (all_written (v_wr v) -> n = len t /\ all_written wr /\
       out = if bool_decide (t = []) then v_out v else <[fd := queue_of fd v ++ [Msg t None false]]> (v_out v))).
  { destruct t as [|c t'] eqn:Et.
    - change (0 <? len (@nil byte)) with false. exists 0, (v_wr v), (v_out v). split; [by destruct v|]. done.
    - rewrite <- Et. destruct (Z.ltb_spec 0 (len t)) as [_|Hn]; [|rewrite Et, len_cons in Hn; pose proof (len_nonneg t'); lia].
      destruct (sock_writen_cases fd t v) as (n & wr & out & Hs & Ha). exists n, wr, out. split; [done|]. intros Hw.
      destruct (Ha Hw) as (-> & ? & Ho). split; [done|]. split; [done|]. rewrite bool_decide_false by (by rewrite Et). apply Ho. by rewrite Et. }
  destruct H1 as (n & wr & out & Hrun & Ha). unfold bind at 1 2. rewrite Hrun.
  destruct (Z.eqb_spec n (len t)) as [En|En]; cbn [negb].
  2: { exists wr, out. split; [done|]. intros Hw. by destruct (Ha Hw). }
  set (v1 := set_sent wr out v). destruct (send_fd_err_cases fd (-1) v1 ltac:(lia)) as (r & wr2 & out2 & Hs & Ha2).
  unfold bind at 1. rewrite Hs. exists wr2, out2. split; [done|]. intros Hw. destruct (Ha Hw) as (_ & Hw1 & Ho1).
  destruct (Ha2 Hw1) as (_ & Hw2 & Ho2). split; [done|]. rewrite Ho2. unfold v1, queue_of. cbn [v_out set_sent]. rewrite Ho1.
  change (status_byte (-1)) with (bz 1). case_bool_decide; [done|]. rewrite lookup_insert_eq. cbn [default].
  rewrite insert_insert_eq. unfold queue_of. f_equal. apply (eq_sym (app_assoc _ _ _)).
Qed.

(** ** One request *)

Definition name_ok (name : bytes) : Prop := is_cstr name /\ white_free name /\ name <> [].

Lemma dec_white_free n : 0 <= n -> white_free (dec n).
Proof.
  intros Hn. eapply Forall_impl; [apply (dec_digits n Hn)|]. intros c Hc. unfold is_white. apply bool_decide_false.
  unfold WHITE. rewrite !elem_of_cons, elem_of_nil. intros [->|[->|[->|[]]]]; by vm_compute in Hc.
Qed.

Lemma request_cstr name flag :
  is_cstr name -> 0 <= flag ->
  cstr (request_bytes name flag) = CL_OPEN ++ c_space :: name ++ c_space :: dec flag /\ last (request_bytes name flag) = Some NUL.
Proof.
  intros Hn Hf. unfold request_bytes. split.
  - replace (CL_OPEN ++ c_space :: name ++ c_space :: dec flag ++ [NUL]) with ((CL_OPEN ++ c_space :: name ++ c_space :: dec flag) ++ [NUL])
      by (by rewrite <- !app_assoc; cbn [app]; rewrite <- !app_assoc).
    apply cstr_app_nul. apply is_cstr_app. split; [by repeat constructor|]. apply is_cstr_cons. split; [done|].
    apply is_cstr_app. split; [done|]. apply is_cstr_cons. split; [done|]. by apply is_cstr_dec_pos.
  - replace (CL_OPEN ++ c_space :: name ++ c_space :: dec flag ++ [NUL]) with ((CL_OPEN ++ c_space :: name ++ c_space :: dec flag) ++ [NUL])
      by (by rewrite <- !app_assoc; cbn [app]; rewrite <- !app_assoc). apply last_snoc.
Qed.

Lemma request_argv name flag :
  name_ok name -> 0 <= flag -> buf_argv (CL_OPEN ++ c_space :: name ++ c_space :: dec flag) = Some [CL_OPEN; name; dec flag].
Proof.
  intros (Hc & Hw & Hn) Hf. rewrite buf_argv_words, words_strtok.
  assert (Ho : white_free CL_OPEN) by (repeat constructor).
  rewrite strtok_word by done. rewrite skip_white_word by done. rewrite Nat.sub_diag. cbn [take app].
  rewrite words_strtok, strtok_word by done. rewrite words_strtok, strtok_last by (by apply dec_white_free || by apply dec_nonnil). done.
Qed.

Lemma atoi_dec n : 0 <= n < 2 ^ 31 -> atoi (dec n) = n.
Proof.
  intros Hn. unfold atoi. rewrite <- (app_nil_r (dec n)), atol_dec; [apply swrap_small; lia|unfold LONG_MAX; lia|done].
Qed.

Section request.
Context (strerror : Z -> bytes) (Hstr : forall e, is_cstr (strerror e) /\ plain (strerror e)).

Definition open_text (name : bytes) (e : Z) : bytes :=
  take (Z.to_nat (MAXLINE - 2)) (bs "can't open " ++ name ++ bs ": " ++ strerror e ++ [x0a]).

(** What a client is sent for a request, and the kernel afterwards. *)
Definition open_reply (k : kernel) (name : bytes) (flag : Z) : list msg * kernel :=
  let '(n, k1) := sys_open name flag k in
  if n <? 0 then (err_msgs (open_text name (k_errno k1)), k1)
  else ([Msg [NUL; NUL] (k_fds k1 !! n) true], (sys_close n k1).2).

Lemma sys_open_new name flag k n k1 :
  sys_open name flag k = (n, k1) -> 0 <= n -> exists o, k_fds k1 !! n = Some o /\ k_fds k !! n = None /\ k_fds k1 = <[n := o]> (k_fds k).
Proof.
  unfold sys_open. intros H Hn.
  destruct (k_dir k !! name) as [ino|]; destruct (has_flag _ _); injection H as <- <-; try lia;
    (eexists; cbn [k_fds set_fds]; rewrite lookup_insert_eq; split_and!; [done|apply new_fd_None|done]).
Qed.

Lemma on_vk_run {A B} (f : kernel -> A * kernel) (g : A -> M srv B) v :
  bind (on_vk f) g v = g (f (u_k (v_u v))).1 (set_u (set_uk (f (u_k (v_u v))).2 (v_u v)) v).
Proof. unfold bind, on_vk, on_u. by destruct (f (u_k (v_u v))). Qed.

(** The state after a reply. *)
Definition replied (v v' : srv) (fd uid : Z) (buf : bytes) (ms : list msg) (k : kernel) : Prop :=
  v_out v' = <[fd := queue_of fd v ++ ms]> (v_out v) /\ u_k (v_u v') = k /\ u_socks (v_u v') = u_socks (v_u v) /\
  u_names (v_u v') = u_names (v_u v) /\ client v' = client v /\ v_req v' = v_req v ++ [Request fd uid buf] /\ all_written (v_wr v').

Lemma handle_open name flag fd uid v :
  name_ok name -> plain name -> 0 <= flag < 2 ^ 31 -> all_written (v_wr v) ->
  exists v', handle_request strerror (request_bytes name flag) fd uid v = Ret tt v' /\
    replied v v' fd uid (request_bytes name flag) (open_reply (u_k (v_u v)) name flag).1 (open_reply (u_k (v_u v)) name flag).2.
Proof.
  intros Hn Hp Hf Ha. destruct (request_cstr name flag (proj1 Hn) ltac:(lia)) as [Hc Hl].
  unfold handle_request. rewrite Hl, bool_decide_true by done. cbn [negb].
  set (r := Request fd uid (request_bytes name flag)). unfold bind at 1, modst. unfold buf_args. rewrite Hc, request_argv by (done || lia).
  cbn [cli_args]. rewrite (proj2 (strcmp_0 CL_OPEN CL_OPEN) eq_refl). change (0 =? 0) with true. cbn [negb]. rewrite atoi_dec by done.
  unfold bind at 1. unfold bind at 1, modst, ret. change (0 <? 0) with false. cbv iota.
  set (v1 := set_args name flag (add_req r v)). rewrite (bind_ret _ _ _ _ _ (eq_refl : getst v1 = Ret v1 v1)).
  rewrite on_vk_run. change (u_k (v_u v1)) with (u_k (v_u v)). unfold open_reply. change (pathname v1) with name. change (oflag v1) with flag.
  destruct (sys_open name flag (u_k (v_u v))) as [n k1] eqn:Eo. cbn [fst snd]. set (v2 := set_u _ v1).
  destruct (Z.ltb_spec n 0) as [Hneg|Hpos]; cbn [fst snd].
  - rewrite (bind_ret _ _ _ _ _ (eq_refl : getst v2 = Ret v2 v2)). unfold snprintf_errmsg. unfold bind at 1, modst.
    change (pathname v2) with name. change (k_errno (u_k (v_u v2))) with (k_errno k1). fold (open_text name (k_errno k1)).
    set (v3 := set_errmsg _ v2). destruct (reply_err_cases fd v3) as (wr & out & Hr & Hd). rewrite (bind_ret _ _ _ _ _ Hr).
    destruct (Hd Ha) as [Hw ->]. eexists. split.
    { unfold log_msg_fmt, bind, gets. cbn [errmsg set_sent v3 set_errmsg]. rewrite bad_format_plain; [reflexivity|].
      apply plain_take. rewrite !plain_app. destruct (Hstr (k_errno k1)). split_and!; try done; unfold plain; vm_compute; set_solver. }
    split_and!; done.
  - destruct (sys_open_new _ _ _ _ _ Eo Hpos) as (o & Ho & _ & _). unfold send_fd at 1. destruct (Z.ltb_spec n 0); [lia|].
    unfold bind at 1. rewrite (bind_ret _ _ _ _ _ (eq_refl : getst v2 = Ret v2 v2)). change (k_fds (u_k (v_u v2))) with (k_fds k1). rewrite Ho.
    destruct (sendmsg_cases fd [NUL; NUL] (Some o) v2) as (m & wr & out & Hs & Hd). rewrite (bind_ret _ _ _ _ _ Hs).
    destruct (Hd Ha) as (-> & Hw & Hout). change (len [NUL; NUL] =? 2) with true. unfold ret at 1. change (0 <? 0) with false. cbv iota.
    rewrite on_vk_run. eexists. split; [reflexivity|]. rewrite Hout by done. split_and!; done.
Qed.
End request.

(** ** The stream between the processes *)

(** What the results of [recvmsg] can be: written bytes may be cut anywhere and may be
    joined with what follows them, up to the size of the receiver's buffer; the bytes of
    one [sendmsg] stay together. *)
Inductive delivered : list msg -> list msg -> Prop :=
| dl_nil : delivered [] []
| dl_one m sent got : delivered sent got -> delivered (m :: sent) (m :: got)
| dl_cut d1 d2 sent got :
    d1 <> [] -> d2 <> [] -> delivered (Msg d2 None false :: sent) got ->
    delivered (Msg (d1 ++ d2) None false :: sent) (Msg d1 None false :: got)
| dl_glue d m sent got :
    len d + len (m_data m) <= MAXLINE -> delivered (Msg (d ++ m_data m) (m_file m) (m_whole m) :: sent) got ->
    delivered (Msg d None false :: m :: sent) got.

Lemma delivered_last d f got : delivered [Msg d f true] got -> got = [Msg d f true].
Proof. intros H. inversion H as [|m sent g Hg| |]; subst. by inversion Hg. Qed.

Lemma recv_scan_text text c : is_cstr text -> recv_scan text c = Ret None c.
Proof. induction 1 as [|x t Hx Ht IH]; [done|]. cbn [recv_scan]. by rewrite decide_False. Qed.

Lemma recv_scan_end text st c : is_cstr text -> recv_scan (text ++ [NUL; st]) c = Ret (Some st) c.
Proof. induction 1 as [|x t Hx Ht IH]; cbn [app recv_scan]; [by rewrite decide_True|]. by rewrite decide_False. Qed.

Definition client_after (c : cst) (inp : list rcv) (err : bytes) (ewr : list wev) : cst :=
  Cst (cl_u c) (csfd c) inp (cl_out c) (cl_wr c) (cl_stderr c ++ err) ewr.

Lemma write_stderr_all d c :
  all_written (cl_ewr c) -> exists ewr, write_stderr d c = Ret (len d) (client_after c (cl_in c) d ewr) /\ all_written ewr.
Proof.
  intros H. unfold write_stderr, sock_write. cbn [s_wr s_in s_out s_errno].
  destruct H as [|w l -> Hl]; eexists; (split; [reflexivity|]); [constructor|done].
Qed.

Lemma stderr_if d c :
  all_written (cl_ewr c) ->
  exists ewr, (if 0 <? len d then write_stderr d else ret (len d)) c = Ret (len d) (client_after c (cl_in c) d ewr) /\ all_written ewr.
Proof.
  intros H. destruct d as [|x d].
  - exists (cl_ewr c). split; [|done]. unfold client_after. rewrite app_nil_r. by destruct c.
  - destruct (Z.ltb_spec 0 (len (x :: d))) as [_|Hn]; [by apply write_stderr_all|]. rewrite len_cons in Hn. pose proof (len_nonneg d). lia.
Qed.

(** Receiving the last bytes. *)
Lemma recv_end f text st c rest :
  is_cstr text -> 0 < uc st -> all_written (cl_ewr c) -> cl_in c = RMsg (Msg (text ++ [NUL; st]) None true) :: rest ->
  exists ewr, recv_loop (S f) c = Ret (- uc st) (client_after c rest text ewr) /\ all_written ewr.
Proof.
  intros Ht Hst He Hin. cbn [recv_loop]. unfold recvmsg, bind at 1. rewrite Hin. cbn [m_file m_data].
  set (c1 := Cst _ _ rest _ _ _ _). destruct (text ++ [NUL; st]) as [|x l] eqn:E; [by destruct text|]. rewrite <- E.
  rewrite (bind_ret _ _ _ _ _ (recv_scan_end text st c1 Ht)). destruct (Z.eqb_spec (uc st) 0); [lia|].
  unfold bind at 1, ret at 1. replace (take (length (text ++ [NUL; st]) - 2) (text ++ [NUL; st])) with text
    by (rewrite length_app; simpl; replace (length text + 2 - 2)%nat with (length text) by lia; by rewrite take_app_length).
  destruct (stderr_if text c1 He) as (ewr & Hw & Hwr). rewrite (bind_ret _ _ _ _ _ Hw), Z.eqb_refl. cbn [negb].
  exists ewr. by split.
Qed.

(** An error reply, however it arrives. *)
Lemma recv_error text st got c f rest :
  delivered [Msg text None false; Msg [NUL; st] None true] got -> text <> [] -> is_cstr text -> 0 < uc st -> all_written (cl_ewr c) ->
  (length got <= f)%nat -> cl_in c = (RMsg <$> got) ++ rest ->
  exists ewr, recv_loop f c = Ret (- uc st) (client_after c rest text ewr) /\ all_written ewr.
Proof.
  intros Hd. remember [Msg text None false; Msg [NUL; st] None true] as sent eqn:Es.
  revert text Es c f. induction Hd as [|m s g Hd _|d1 d2 s g H1 H2 _ IH|d m s g Hl Hd _]; intros text Es c f Hn Ht Hst He Hf Hin; [done| | |].
  - injection Es as -> ->. apply delivered_last in Hd as ->. destruct f as [|[|f]]; [simpl in Hf; lia|simpl in Hf; lia|].
    cbn [recv_loop]. unfold recvmsg, bind at 1. rewrite Hin. cbn [fmap list_fmap app m_file m_data]. set (c1 := Cst _ _ _ _ _ _ _).
    destruct text as [|x l] eqn:E; [done|]. rewrite <- E in *. rewrite (bind_ret _ _ _ _ _ (recv_scan_text text c1 Ht)).
    unfold bind at 1, ret at 1. destruct (stderr_if text c1 He) as (ewr & Hw & Hwr). rewrite (bind_ret _ _ _ _ _ Hw), Z.eqb_refl. cbn [negb].
    destruct (recv_end f [] st (client_after c1 (cl_in c1) text ewr) rest) as (ewr2 & Hr & Hwr2); try done; [constructor|].
    exists ewr2. split; [|done]. etransitivity; [exact Hr|]. unfold client_after. cbn. by rewrite app_nil_r.
  - injection Es as <- ->. apply is_cstr_app in Ht as [Ht1 Ht2]. destruct f as [|f]; [simpl in Hf; lia|].
    cbn [recv_loop]. unfold recvmsg, bind at 1. rewrite Hin. cbn [fmap list_fmap app m_file m_data]. set (c1 := Cst _ _ _ _ _ _ _).
    destruct d1 as [|x l] eqn:E; [done|]. rewrite <- E in *. rewrite (bind_ret _ _ _ _ _ (recv_scan_text d1 c1 Ht1)).
    unfold bind at 1, ret at 1. destruct (stderr_if d1 c1 He) as (ewr & Hw & Hwr). rewrite (bind_ret _ _ _ _ _ Hw), Z.eqb_refl. cbn [negb].
    destruct (IH d2 eq_refl (client_after c1 (cl_in c1) d1 ewr) f) as (ewr2 & Hr & Hwr2); try done; [simpl in Hf; lia|].
    exists ewr2. split; [|done]. rewrite Hr. unfold client_after. cbn. by rewrite app_assoc.
  - injection Es as -> -> ->. cbn [m_data m_file m_whole] in Hd. apply delivered_last in Hd as ->. destruct f as [|f]; [simpl in Hf; lia|].
    by apply recv_end.
Qed.

Lemma recv_file o got c f rest :
  delivered [Msg [NUL; NUL] (Some o) true] got -> (length got <= f)%nat -> cl_in c = (RMsg <$> got) ++ rest ->
  let k := u_k (cl_u c) in let n := new_fd (k_fds k) in
  recv_loop f c = Ret n (Cst (set_uk (set_fds (<[n := o]> (k_fds k)) k) (cl_u c)) (csfd c) rest (cl_out c) (cl_wr c) (cl_stderr c) (cl_ewr c)).
Proof.
  intros Hd Hf Hin k n. apply delivered_last in Hd as ->. destruct f as [|f]; [simpl in Hf; lia|].
  cbn [recv_loop]. unfold recvmsg, bind at 1. rewrite Hin. cbn [fmap list_fmap app m_file m_data]. reflexivity.
Qed.

(** ** From [csopen] to the descriptor *)

Section end_to_end.
Context (strerror : Z -> bytes) (Hstr : forall e, is_cstr (strerror e) /\ plain (strerror e)).

(** The client's result and state for what the server's [open] did. *)
Definition client_gets (k : kernel) (name : bytes) (flag : Z) (c c' : cst) (r : Z) : Prop :=
  let '(n, k1) := sys_open name flag k in
  cl_out c' = cl_out c ++ request_bytes name flag /\
  if n <? 0 then r = -1 /\ cl_stderr c' = cl_stderr c ++ open_text strerror name (k_errno k1) /\ cl_u c' = cl_u c
  else exists o, k_fds k1 !! n = Some o /\ r = new_fd (k_fds (u_k (cl_u c))) /\
       k_fds (u_k (cl_u c')) = <[r := o]> (k_fds (u_k (cl_u c))) /\ cl_stderr c' = cl_stderr c.

Lemma open_text_ok name e : is_cstr name -> is_cstr (open_text strerror name e) /\ open_text strerror name e <> [].
Proof.
  intros Hn. unfold open_text. split; [|by vm_compute].
  apply Forall_take. apply is_cstr_app. split; [by repeat constructor|]. apply is_cstr_app. split; [done|].
  apply is_cstr_app. split; [by repeat constructor|]. apply is_cstr_app. split; [apply Hstr|by repeat constructor].
Qed.

(** C18: A request from the client to its answer, for a name without blanks and '%', a
    flag that is not negative, a request of at most MAXLINE bytes and writes that are
    complete: the server handles it and sends its messages, leaving its descriptors as
    they were; however the stream cuts them, [csopen] returns a new descriptor of the file
    that the server opened, or -1 with the message of the server on standard error. *)
Theorem open_end_to_end (uid umode pid fd : Z) (name : bytes) (flag : Z) (v : srv) (c : cst) :
  name_ok name -> plain name -> 0 <= flag < 2 ^ 31 -> len (request_bytes name flag) <= MAXLINE ->
  all_written (v_wr v) -> all_written (cl_wr c) -> all_written (cl_ewr c) -> 0 <= csfd c ->
  exists v' ms, handle_request strerror (take (Z.to_nat MAXLINE) (request_bytes name flag)) fd uid v = Ret tt v' /\
    queue_of fd v' = queue_of fd v ++ ms /\ k_fds (u_k (v_u v')) = k_fds (u_k (v_u v)) /\ client v' = client v /\
    forall got, delivered ms got -> cl_in c = RMsg <$> got ->
    exists r c', csopen uid umode pid name flag c = Ret r c' /\ client_gets (u_k (v_u v)) name flag c c' r.
Proof.
  intros Hn Hp Hf Hlen Hv Hcw Hce Hcs. rewrite take_ge by (unfold len, MAXLINE in *; lia).
  destruct (handle_open strerror Hstr name flag fd uid v Hn Hp Hf Hv) as (v' & Hrun & Ho & Hk & _ & _ & Hcl & _ & _).
  exists v', (open_reply strerror (u_k (v_u v)) name flag).1. split; [done|]. split; [unfold queue_of at 1; by rewrite Ho, lookup_insert_eq|].
  unfold open_reply, client_gets in *. destruct (sys_open name flag (u_k (v_u v))) as [n k1] eqn:Eo. split; [|split; [done|]].
  { rewrite Hk. destruct (Z.ltb_spec n 0) as [Hneg|Hpos]; cbn [snd].
    - unfold sys_open in Eo. destruct (k_dir _ !! name); destruct (has_flag _ _); injection Eo as <- <-; try done;
        (pose proof (new_fd_nonneg (k_fds (u_k (v_u v)))); lia).
    - destruct (sys_open_new _ _ _ _ _ Eo Hpos) as (o & Ho' & Hnone & Hfds). unfold sys_close. rewrite Ho'. cbn. rewrite Hfds.
      by rewrite delete_insert_id. }
  intros got Hd Hin. unfold csopen. rewrite (bind_ret _ _ _ _ _ (eq_refl : gets csfd c = Ret (csfd c) c)).
  destruct (Z.ltb_spec (csfd c) 0); [lia|]. unfold bind at 1, ret at 1. destruct (Z.ltb_spec (csfd c) 0); [lia|].
  assert (Hfl : len (c_space :: dec flag) + 1 <= 12).
  { rewrite len_cons. pose proof (length_dec_le flag 10 ltac:(lia) ltac:(lia)). unfold len. lia. }
  destruct (Z.ltb_spec 12 (len (c_space :: dec flag) + 1)); [lia|].
  set (req := request_bytes name flag). assert (Hw : exists wr, cl_writev req c =
    Ret (len req) (Cst (cl_u c) (csfd c) (cl_in c) (cl_out c ++ req) wr (cl_stderr c) (cl_ewr c)) /\ all_written wr).
  { unfold cl_writev, sock_write. cbn [s_wr s_in s_out s_errno]. destruct Hcw as [|w l -> Hl]; eexists; (split; [reflexivity|]); [constructor|done]. }
  destruct Hw as (wr & Hw & Hwr). rewrite (bind_ret _ _ _ _ _ Hw), Z.eqb_refl. cbn [negb]. set (c1 := Cst _ _ _ _ _ _ _).
  unfold recv_fd. rewrite (bind_ret _ _ _ _ _ (eq_refl : getst c1 = Ret c1 c1)).
  assert (Hin1 : cl_in c1 = (RMsg <$> got) ++ []) by (rewrite app_nil_r; exact Hin).
  assert (Hfu : (length got <= S (length (cl_in c1)))%nat) by (rewrite Hin1, app_nil_r, length_fmap; lia).
  destruct (Z.ltb_spec n 0) as [Hneg|Hpos]; cbn [fst] in Hd.
  - destruct (open_text_ok name (k_errno k1) (proj1 Hn)) as [Ht1 Ht2]. unfold err_msgs in Hd. rewrite bool_decide_false in Hd by done. cbn [app] in Hd.
    destruct (recv_error _ (bz 1) got c1 _ [] Hd Ht2 Ht1 ltac:(done) Hce Hfu Hin1) as (ewr & Hr & _).
    eexists _, _. split; [exact Hr|]. by split_and!.
  - destruct (sys_open_new _ _ _ _ _ Eo Hpos) as (o & Ho' & _ & _). rewrite Ho' in Hd.
    eexists _, _. split; [exact (recv_file o got c1 _ [] Hd Hfu Hin1)|]. split; [done|]. exists o. by split_and!.
Qed.
End end_to_end.
