(* ===== verification/OpenTable.v ===== *)
(** * The client table of the open server

    The array [client] with its holes represents a finite map from descriptors to users:
    [client_add] is insertion, [client_del] deletion, and the array grows when it is
    full.  [handle_request] leaves the table alone. *)

From Stdlib Require Import Strings.Byte ZArith Lia.
From S2P Require Import Prelude Wp Libc Posix SpoolIo UnixSock OpenModel OpenProofs.
From stdpp Require Import base strings numbers gmap list.
#[local] Open Scope Z_scope.

(** ** The array and the map *)

Definition entry_of (e : Client) : option (Z * Z) := if 0 <=? c_fd e then Some (c_fd e, c_uid e) else None.
Definition active (l : list Client) : list (Z * Z) := omap entry_of l.

Record tbl (l : list Client) (t : gmap Z Z) : Prop := Tbl {
  tb_perm : active l ≡ₚ map_to_list t;
  tb_free : Forall (fun e => c_fd e = -1 \/ 0 <= c_fd e) l
}.

Lemma active_app l1 l2 : active (l1 ++ l2) = active l1 ++ active l2.
Proof. apply omap_app. Qed.

Lemma active_free e l : c_fd e = -1 -> active (e :: l) = active l.
Proof. intros H. unfold active, entry_of. cbn. by rewrite H. Qed.

Lemma active_used e l : 0 <= c_fd e -> active (e :: l) = (c_fd e, c_uid e) :: active l.
Proof. intros H. unfold active, entry_of. cbn. destruct (Z.leb_spec 0 (c_fd e)); [done|lia]. Qed.

Lemma tbl_nil : tbl [] ∅.
Proof. split; [|constructor]. by rewrite map_to_list_empty. Qed.

Lemma tbl_lookup l t fd uid : tbl l t -> t !! fd = Some uid <-> (fd, uid) ∈ active l.
Proof. intros [H _]. rewrite H. symmetry. apply elem_of_map_to_list. Qed.

Lemma tbl_entry l t i e : tbl l t -> l !! i = Some e -> 0 <= c_fd e -> t !! c_fd e = Some (c_uid e).
Proof.
  intros Ht Hi He. apply (tbl_lookup l t); [done|]. unfold active. apply list_elem_of_omap. exists e.
  split; [by eapply list_elem_of_lookup_2|]. unfold entry_of. destruct (Z.leb_spec 0 (c_fd e)); [done|lia].
Qed.

Lemma tbl_grow l t junk n : tbl l t -> tbl (l ++ replicate n (MkClient (-1) junk)) t.
Proof.
  intros [H1 H2]. assert (E : active (replicate n (MkClient (-1) junk)) = []) by (by induction n).
  split; [by rewrite active_app, E, app_nil_r|]. apply Forall_app. split; [done|]. apply Forall_replicate. by left.
Qed.

Lemma tbl_insert l t i e fd uid :
  tbl l t -> l !! i = Some e -> c_fd e = -1 -> 0 <= fd -> t !! fd = None -> tbl (<[i := MkClient fd uid]> l) (<[fd := uid]> t).
Proof.
  intros [H1 H2] Hi He Hfd Hn. split; [|apply Forall_insert; [done|by right]].
  rewrite map_to_list_insert, <- H1 by done. rewrite insert_take_drop by (by eapply lookup_lt_Some).
  rewrite <- (take_drop_middle l i e Hi) at 3. rewrite !active_app, active_used, active_free by done. cbn [c_fd c_uid].
  by rewrite Permutation_middle.
Qed.

Lemma tbl_delete l t i e uid' :
  tbl l t -> l !! i = Some e -> 0 <= c_fd e -> tbl (<[i := MkClient (-1) uid']> l) (delete (c_fd e) t).
Proof.
  intros Ht Hi He. pose proof (tbl_entry _ _ _ _ Ht Hi He) as Hl. destruct Ht as [H1 H2].
  split; [|apply Forall_insert; [done|by left]]. apply (Permutation_cons_inv (a := (c_fd e, c_uid e))).
  rewrite map_to_list_delete, <- H1 by done. rewrite insert_take_drop by (by eapply lookup_lt_Some).
  rewrite <- (take_drop_middle l i e Hi) at 3. rewrite !active_app, active_free, active_used by done.
  by rewrite Permutation_middle.
Qed.

(** A descriptor is in one place. *)
Lemma tbl_unique l t i j e e' :
  tbl l t -> l !! i = Some e -> l !! j = Some e' -> c_fd e = c_fd e' -> 0 <= c_fd e -> i = j.
Proof.
  intros Ht. assert (Hno : forall i j e e', (i < j)%nat -> l !! i = Some e -> l !! j = Some e' -> c_fd e = c_fd e' -> 0 <= c_fd e -> False).
  { clear i j e e'. intros i j e e' Hij Hi Hj E He. pose proof (NoDup_fst_map_to_list t) as Hnd.
    rewrite <- (tb_perm _ _ Ht), <- (take_drop_middle l i e Hi), active_app, active_used, fmap_app in Hnd by done.
    apply NoDup_app in Hnd as (_ & _ & Hnd). apply NoDup_cons in Hnd as [Hnd _]. apply Hnd. cbn [fst]. rewrite E.
    apply list_elem_of_fmap. exists (c_fd e', c_uid e'). split; [done|]. apply list_elem_of_omap. exists e'. split.
    - apply (list_elem_of_lookup_2 _ (j - S i)). rewrite lookup_drop. by replace (S i + (j - S i))%nat with j by lia.
    - unfold entry_of. destruct (Z.leb_spec 0 (c_fd e')); [done|lia]. }
  intros Hi Hj E He. destruct (Nat.lt_trichotomy i j) as [H|[H|H]]; [exfalso; by eapply (Hno i j)|done|].
  exfalso. apply (Hno j i e' e); congruence || lia.
Qed.

Lemma find_fd_Some fd l i : find_fd fd l = Some i -> exists e, l !! i = Some e /\ c_fd e = fd.
Proof.
  revert i. induction l as [|e l IH]; intros i; [done|]. cbn [find_fd]. destruct (Z.eqb_spec (c_fd e) fd) as [E|E].
  - intros [= <-]. by exists e.
  - destruct (find_fd fd l) as [j|]; [|done]. intros [= <-]. by apply IH.
Qed.

Lemma find_fd_None fd l : find_fd fd l = None -> Forall (fun e => c_fd e <> fd) l.
Proof.
  induction l as [|e l IH]; [constructor|]. cbn [find_fd]. destruct (Z.eqb_spec (c_fd e) fd); [done|].
  destruct (find_fd fd l); [done|]. intros _. constructor; [done|by apply IH].
Qed.

Definition clients (v : srv) : list Client := default [] (client v).

Section table.
Context (junk_uid : Z).

(** Entries other than the one at [i] stay, and [i] holds [e]. *)
Definition changed (l l' : list Client) (i : nat) (e : Client) : Prop :=
  l' !! i = Some e /\ (length l <= length l')%nat /\ forall j, j <> i ->
  l' !! j = l !! j \/ (l !! j = None /\ l' !! j = Some (MkClient (-1) junk_uid)).

Lemma add_again_ok f v t fd uid :
  tbl (clients v) t -> 0 <= fd -> t !! fd = None -> is_Some (client v) ->
  (is_Some (find_fd (-1) (clients v)) \/ (1 <= f)%nat) ->
  exists i l', add_again junk_uid (S f) fd uid v = Ret (Z.of_nat i) (set_client (Some l') v) /\
    tbl l' (<[fd := uid]> t) /\ changed (clients v) l' i (MkClient fd uid).
Proof.
  revert v. induction f as [|f IH]; intros v Ht Hfd Hn Hc Hor; cbn [add_again]; rewrite (bind_ret _ _ _ _ _ (eq_refl : gets client v = Ret _ v));
    fold (clients v); destruct (find_fd (-1) (clients v)) as [i|] eqn:Ef.
  1, 3: destruct (find_fd_Some _ _ _ Ef) as (e & Hi & He); exists i, (<[i := MkClient fd uid]> (clients v)); split; [done|]; split; [by eapply tbl_insert|];
    split; [by rewrite list_lookup_insert_eq by (by eapply lookup_lt_Some)|]; split; [by rewrite length_insert|]; intros j Hj; left; by rewrite list_lookup_insert_ne.
  - destruct Hor as [[? ?]|?]; [done|lia].
  - unfold bind at 1, client_alloc. unfold bind at 1, gets, modst. fold (clients v). set (l1 := clients v ++ new_entries junk_uid).
    destruct (IH (set_client (Some l1) v)) as (i & l' & Hr & Ht' & Hl & Hlen & Hch); try done; [by apply tbl_grow| |].
    { left. change (clients (set_client (Some l1) v)) with l1. destruct (find_fd (-1) l1) eqn:E; [eauto|]. apply find_fd_None in E.
      unfold l1 in E. apply Forall_app in E as [_ E]. inversion E; subst; done. }
    exists i, l'. split; [exact Hr|]. split; [done|]. change (clients (set_client (Some l1) v)) with l1 in *. split; [done|].
    split; [unfold l1 in Hlen; rewrite length_app in Hlen; lia|]. intros j Hj. destruct (Hch j Hj) as [E|[E1 E2]].
    + destruct (decide (j < length (clients v))%nat) as [Hlt|Hge]; [left; by rewrite E; unfold l1; rewrite lookup_app_l|].
      rewrite E. unfold l1. rewrite lookup_app_r by lia. destruct (new_entries junk_uid !! (j - length (clients v))%nat) as [x|] eqn:Ex.
      * right. split; [apply lookup_ge_None; lia|]. unfold new_entries in Ex. apply lookup_replicate in Ex as [-> _]. done.
      * left. symmetry. apply lookup_ge_None. lia.
    + right. split; [|done]. unfold l1 in E1. apply lookup_ge_None. apply lookup_ge_None in E1. rewrite length_app in E1. lia.
Qed.

(** [client_add] is insertion. *)
Lemma client_add_ok v t fd uid :
  tbl (clients v) t -> 0 <= fd -> t !! fd = None ->
  exists i l', client_add junk_uid fd uid v = Ret (Z.of_nat i) (set_client (Some l') v) /\
    tbl l' (<[fd := uid]> t) /\ changed (clients v) l' i (MkClient fd uid).
Proof.
  intros Ht Hfd Hn. unfold client_add. rewrite (bind_ret _ _ _ _ _ (eq_refl : gets client v = Ret _ v)).
  destruct (client v) as [l|] eqn:Ec.
  - rewrite bool_decide_false by done. cbn [when]. unfold bind, ret at 1. apply add_again_ok; first [done | by rewrite Ec; eauto | right; lia].
  - rewrite bool_decide_true by done. cbn [when]. unfold bind at 1, client_alloc. unfold bind at 1, gets, modst. rewrite Ec. cbn [default app].
    set (v1 := set_client (Some (new_entries junk_uid)) v). assert (Hcl : clients v = []) by (unfold clients; by rewrite Ec). rewrite Hcl in *.
    destruct (add_again_ok 1 v1 t fd uid) as (i & l' & Hr & Ht' & Hl & Hlen & Hch); [by apply (tbl_grow [] t)|done|done|done|right; lia|].
    exists i, l'. split; [exact Hr|]. split; [done|]. split; [done|]. split; [simpl; lia|]. intros j Hj. destruct (Hch j Hj) as [E|[E1 E2]]; [|by right].
    rewrite E. change (clients v1) with (new_entries junk_uid). destruct (new_entries junk_uid !! j) as [x|] eqn:Ex; [|by left].
    right. split; [done|]. unfold new_entries in Ex. by apply lookup_replicate in Ex as [-> _].
Qed.
End table.

(** [client_del] is deletion. *)
Lemma client_del_ok v t i e :
  tbl (clients v) t -> clients v !! i = Some e -> 0 <= c_fd e ->
  client_del (c_fd e) v = Ret tt (set_client (Some (<[i := MkClient (-1) (c_uid e)]> (clients v))) v) /\
  tbl (<[i := MkClient (-1) (c_uid e)]> (clients v)) (delete (c_fd e) t).
Proof.
  intros Ht Hi He. split; [|by eapply tbl_delete]. unfold client_del. rewrite (bind_ret _ _ _ _ _ (eq_refl : gets client v = Ret _ v)).
  cbv zeta. fold (clients v). destruct (find_fd (c_fd e) (clients v)) as [j|] eqn:Ef.
  - destruct (find_fd_Some _ _ _ Ef) as (e' & Hj & E). assert (j = i) as ->.
    { symmetry. eapply tbl_unique; [done|exact Hi|exact Hj|done|done]. }
    change (default 0%nat (Some i)) with i. by rewrite Hi.
  - apply find_fd_None in Ef. rewrite Forall_forall in Ef. exfalso. apply (Ef e); [by eapply list_elem_of_lookup_2|done].
Qed.

(** A descriptor that is not in the table ends the server. *)
Lemma client_del_missing v t fd : tbl (clients v) t -> 0 <= fd -> t !! fd = None -> client_del fd v = Die (DQuit "can't find client entry for fd") v.
Proof.
  intros Ht Hfd Hn. unfold client_del. rewrite (bind_ret _ _ _ _ _ (eq_refl : gets client v = Ret _ v)). fold (clients v).
  destruct (find_fd fd (clients v)) as [j|] eqn:Ef; [|done]. destruct (find_fd_Some _ _ _ Ef) as (e & Hj & <-).
  by rewrite (tbl_entry _ _ _ _ Ht Hj Hfd) in Hn.
Qed.
