(* ===== verification/OpenLoop.v ===== *)
(** * The event loops of the open server

    The loop with select refines an abstract server whose state is a map from connected
    descriptors to users: in every turn each ready client is served once, with its own
    user, and a client that closed is forgotten.  The loop with poll serves the same
    clients, but attributes requests to the wrong user once a client has left. *)

From Stdlib Require Import Strings.Byte ZArith Lia.
From S2P Require Import Prelude Wp Libc Posix SpoolIo UnixSock OpenModel OpenProofs OpenTable.
From stdpp Require Import base strings numbers gmap list.
#[local] Open Scope Z_scope.

(** The server may end with a logged system error. *)
Definition exits : death -> srv -> Prop := fun d _ => exists m, d = DSys m.

(** ** Requests leave the rest of the server alone *)

Record kept (v v' : srv) (reqs : list request) : Prop := Kept {
  kp_client : client v' = client v; kp_socks : u_socks (v_u v') = u_socks (v_u v); kp_names : u_names (v_u v') = u_names (v_u v);
  kp_now : u_now (v_u v') = u_now (v_u v); kp_req : v_req v' = v_req v ++ reqs; kp_plain : plain (errmsg v) -> plain (errmsg v')
}.

Lemma req_kept_refl v : kept v v [].
Proof. split; try done. by rewrite app_nil_r. Qed.

Lemma req_kept_trans v1 v2 v3 r1 r2 : kept v1 v2 r1 -> kept v2 v3 r2 -> kept v1 v3 (r1 ++ r2).
Proof. intros [] []. split; try congruence; [|auto]. by rewrite app_assoc; congruence. Qed.

Lemma req_kept_app v1 v2 v3 r : kept v1 v2 r -> kept v2 v3 [] -> kept v1 v3 r.
Proof. intros H1 H2. rewrite <- (app_nil_r r). by eapply req_kept_trans. Qed.

(** A literal without a percent sign. *)
Ltac plain_lit :=
  lazymatch goal with
  | |- plain (bs _) => unfold plain; vm_compute; set_solver
  | |- plain [_] => unfold plain; vm_compute; set_solver
  end.

Lemma words_go_sub s cur w c : w ∈ words_go s cur -> c ∈ w -> c ∈ s \/ c ∈ cur.
Proof.
  revert cur. induction s as [|x s IH]; intros cur; cbn [words_go].
  - destruct cur as [|y cur]; intros Hw Hc; [by apply elem_of_nil in Hw|]. apply list_elem_of_singleton in Hw as ->. by right.
  - destruct (is_white x); [destruct cur as [|y cur]|].
    + intros Hw Hc. destruct (IH _ Hw Hc); set_solver.
    + intros Hw Hc. apply elem_of_cons in Hw as [->|Hw]; [by right|]. destruct (IH _ Hw Hc); set_solver.
    + intros Hw Hc. destruct (IH _ Hw Hc) as [?|Hx]; [left; set_solver|]. apply elem_of_app in Hx as [?|Hx]; [by right|]. left. set_solver.
Qed.

Lemma plain_cstr s : plain s -> plain (cstr s).
Proof.
  unfold plain. intros H. induction s as [|c s IH]; [done|]. cbn [cstr]. destruct (decide (c = NUL)); [set_solver|]. set_solver.
Qed.

Lemma cli_args_kept argv v :
  Forall plain (tail argv) ->
  exists r v', cli_args argv v = Ret r v' /\ kept v v' [] /\ v_wr v' = v_wr v /\ (0 <= r -> plain (pathname v')).
Proof.
  intros Hp. assert (Hu : plain (bs "usage: <pathname> <oflag>" ++ [x0a])) by (unfold plain; vm_compute; set_solver).
  assert (Herr : exists r v', (modst (set_errmsg (bs "usage: <pathname> <oflag>" ++ [x0a])) ;;; ret (-1)) v = Ret r v' /\ kept v v' [] /\
    v_wr v' = v_wr v /\ (0 <= r -> plain (pathname v'))).
  { eexists _, _. split; [reflexivity|]. split; [|split; [done|lia]]. split; try done. by rewrite app_nil_r. }
  unfold cli_args. destruct argv as [|a0 [|a1 [|a2 [|]]]]; try exact Herr. destruct (strcmp a0 CL_OPEN =? 0); cbn [negb]; [|exact Herr].
  eexists _, _. split; [reflexivity|]. split; [|split; [done|]]; [split; try done; by rewrite app_nil_r|].
  intros _. by inversion Hp.
Qed.

Lemma reply_err_kept fd v : exists v', reply_err fd v = Ret tt v' /\ kept v v' [] /\ errmsg v' = errmsg v.
Proof. destruct (reply_err_cases fd v) as (wr & out & H & _). eexists. split; [exact H|]. split; [|done]. split; try done. by rewrite app_nil_r. Qed.

Section loops.
Context (strerror : Z -> bytes) (Hstr : forall e, plain (strerror e)).

Lemma log_kept v : plain (errmsg v) -> log_msg_fmt v = Ret tt v.
Proof. intros H. unfold log_msg_fmt, bind, gets. by rewrite bad_format_plain. Qed.

(** An error reply with the message [text], or with the one that is there. *)
Lemma error_reply_kept fd text v :
  plain text ->
  exists v', (snprintf_errmsg text ;;; reply_err fd) v = Ret tt v' /\ kept v v' [] /\ plain (errmsg v').
Proof.
  intros Hp. unfold snprintf_errmsg, bind at 1, modst. set (v1 := set_errmsg _ v).
  destruct (reply_err_kept fd v1) as (v2 & H & Hk & He). exists v2. split; [done|].
  assert (Hp2 : plain (errmsg v2)) by (rewrite He; by apply plain_take). split; [|done].
  destruct Hk. split; try done.
Qed.

Lemma send_fd_kept fd n v : exists r v', send_fd fd n v = Ret r v' /\ kept v v' [].
Proof.
  assert (Hset : forall wr out, kept v (set_sent wr out v) []) by (intros; split; try done; by rewrite app_nil_r).
  unfold send_fd. destruct (n <? 0).
  - destruct (sendmsg_cases fd [NUL; status_byte n] None v) as (m & wr & out & H & _). rewrite (bind_ret _ _ _ _ _ H). by eexists _, _.
  - rewrite (bind_ret _ _ _ _ _ (eq_refl : getst v = Ret v v)). destruct (k_fds (u_k (v_u v)) !! n) as [o|].
    + destruct (sendmsg_cases fd [NUL; NUL] (Some o) v) as (m & wr & out & H & _). rewrite (bind_ret _ _ _ _ _ H). by eexists _, _.
    + eexists _, v. split; [done|]. apply req_kept_refl.
Qed.

Lemma plain_dec n : plain (dec n).
Proof.
  unfold plain, dec. assert (H : forall m, 0 <= m -> "%"%byte ∉ dec_nonneg m).
  { intros m Hm Hc. destruct (dec_nonneg_spec m Hm) as [Hd _]. unfold all_digits in Hd. rewrite Forall_forall in Hd. by apply Hd in Hc. }
  destruct (Z.ltb_spec n 0); [|apply H; lia]. intros Hc. apply elem_of_cons in Hc as [Hc|Hc]; [done|]. apply (H (- n)); [lia|done].
Qed.

Lemma argv_plain buf argv : plain buf -> buf_argv buf = Some argv -> Forall plain (tail argv).
Proof.
  intros Hp. rewrite buf_argv_words. destruct (words buf) as [|w ws] eqn:E; [done|]. destruct (_ <=? _); [|done]. intros [= <-].
  cbn [tail]. apply Forall_forall. intros x Hx Hc. unfold plain in Hp. apply Hp.
  destruct (words_go_sub buf [] x "%"%byte) as [?|Hn]; [|done|done|by apply elem_of_nil in Hn]. fold (words buf). rewrite E. set_solver.
Qed.

Lemma handle_request_kept buf fd uid v :
  plain buf -> plain (errmsg v) ->
  wp (handle_request strerror buf fd uid) (fun _ v' => kept v v' [Request fd uid buf]) exits v.
Proof.
  intros Hb He. unfold handle_request. wp_step. wp_step. set (v1 := add_req _ v).
  assert (K1 : kept v v1 [Request fd uid buf]) by (by split).
  case_bool_decide as Hl; cbn [negb].
  2: { assert (Hp : plain (bs "request from uid " ++ dec (i32 uid) ++ bs " not null terminated: " ++ pad (length buf) (cstr buf) ++ [x0a])).
    { rewrite !plain_app. split_and!; try plain_lit; [apply plain_dec|]. unfold pad. apply plain_app. split; [|by apply plain_cstr].
      unfold plain. intros Hc. by apply elem_of_replicate in Hc as [Hc _]. }
    destruct (error_reply_kept fd _ v1 Hp) as (v2 & H & K2 & _). eapply wp_eq; [exact H|]. by eapply req_kept_app. }
  assert (Ha : exists r v2, buf_args (cstr buf) cli_args v1 = Ret r v2 /\ kept v1 v2 [] /\ (0 <= r -> plain (pathname v2))).
  { unfold buf_args. destruct (buf_argv (cstr buf)) as [argv|] eqn:Ea.
    - destruct (cli_args_kept argv v1) as (r & v2 & H & K & _ & Hn); [eapply argv_plain; [|exact Ea]; by apply plain_cstr|]. by exists r, v2.
    - exists (-1), v1. split; [done|]. split; [apply req_kept_refl|lia]. }
  destruct Ha as (r & v2 & H2 & K2 & Hn). wp_step. eapply wp_eq; [exact H2|]. pose proof (req_kept_app _ _ _ _ K1 K2) as K12.
  destruct (Z.ltb_spec r 0).
  { destruct (reply_err_kept fd v2) as (v3 & H3 & K3 & E3). wp_step. eapply wp_eq; [exact H3|].
    eapply wp_eq; [apply log_kept; rewrite E3; by apply (kp_plain _ _ _ K12)|]. by eapply req_kept_app. }
  do 2 wp_step. unfold wp. rewrite on_vk_run. destruct (sys_open (pathname v2) (oflag v2) (u_k (v_u v2))) as [n k1]. cbn [fst snd].
  set (v3 := set_u _ v2). assert (K3 : kept v2 v3 []) by (split; try done; by rewrite app_nil_r). pose proof (req_kept_app _ _ _ _ K12 K3) as K13.
  destruct (Z.ltb_spec n 0).
  - rewrite (bind_ret _ _ _ _ _ (eq_refl : getst v3 = Ret v3 v3)). set (text := bs "can't open " ++ _).
    assert (Hp : plain text).
    { unfold text. rewrite !plain_app. split_and!; try plain_lit; [by apply Hn|apply Hstr]. }
    destruct (error_reply_kept fd text v3 Hp) as (v4 & H4 & K4 & P4).
    unfold bind in H4 |- *. destruct (snprintf_errmsg text v3) as [[] v3a| | |]; try done. rewrite H4. rewrite log_kept by done. by eapply req_kept_app.
  - destruct (send_fd_kept fd n v3) as (r4 & v4 & H4 & K4). rewrite (bind_ret _ _ _ _ _ H4). destruct (Z.ltb_spec r4 0); [by eexists|].
    rewrite on_vk_run. cbn [ret]. eapply req_kept_app; [|eapply req_kept_app; [exact K4|]]; [exact K13|]. split; try done. by rewrite app_nil_r.
Qed.

(** ** The abstract server *)

Context (junk_uid : Z) (usable : Z -> Z).

Record abs := Abs { a_users : gmap Z Z; a_names : gmap bytes stat }.

Definition closed (r : ready) (fd : Z) : Prop := r_data r !! fd = Some (Some []).
#[local] Instance closed_dec r fd : Decision (closed r fd) := ltac:(unfold closed; apply _).

(** The request of a client that sent data. *)
Definition request_of (r : ready) (e : Z * Z) : option request :=
  match r_data r !! e.1 with
  | Some (Some (x :: d)) => Some (Request e.1 e.2 (take (Z.to_nat MAXLINE) (x :: d)))
  | _ => None
  end.

(** One turn: a client is admitted under the owner of its name, or every client that is
    ready is served under its own user and those that closed are forgotten.  [None] is the
    end of the server. *)
Definition spec_turn (now : Z) (r : ready) (a : abs) : option (abs * list request) :=
  match r_conn r with
  | Some (inl (fd, path)) =>
    s ← a_names a !! cstr path;
    if authentic now s then Some (Abs (<[fd := st_uid s]> (a_users a)) (delete (cstr path) (a_names a)), []) else None
  | Some (inr _) => None
  | None => Some (Abs (filter (fun e => ~ closed r e.1) (a_users a)) (a_names a), omap (request_of r) (map_to_list (a_users a)))
  end.

Fixpoint spec_loop (now : Z) (rs : list ready) (a : abs) : option (abs * list (list request)) :=
  match rs with
  | [] => Some (a, [])
  | r :: rs' => '(a1, q) ← spec_turn now r a; '(a2, qs) ← spec_loop now rs' a1; Some (a2, q :: qs)
  end.

(** What the kernel may report: a new descriptor is not in use, names fit the block that
    [serv_accept] stores them in, and requests have no percent sign. *)
Definition ready_ok (lfd : Z) (r : ready) (a : abs) : Prop :=
  (forall fd path, r_conn r = Some (inl (fd, path)) -> 0 <= fd /\ fd <> lfd /\ a_users a !! fd = None /\ len path + 1 <= usable NAME_SZ) /\
  (forall fd d, r_data r !! fd = Some (Some d) -> plain d).

Fixpoint run_ok (now lfd : Z) (rs : list ready) (a : abs) : Prop :=
  match rs with
  | [] => True
  | r :: rs' => ready_ok lfd r a /\ forall a' q, spec_turn now r a = Some (a', q) -> run_ok now lfd rs' a'
  end.

(** ** The loop with select refines it *)

Record sel_inv (l : sel) (v : srv) (a : abs) : Prop := SelInv {
  si_tbl : tbl (clients v) (a_users a);
  si_names : u_names (v_u v) = a_names a;
  si_set : allset l = {[listenfd l]} ∪ dom (a_users a);
  si_socks : u_socks (v_u v) = allset l;
  si_lfd : a_users a !! listenfd l = None;
  si_maxfd : forall fd, fd ∈ allset l -> fd <= maxfd l;
  si_maxi : forall i e, clients v !! i = Some e -> 0 <= c_fd e -> Z.of_nat i <= maxi l;
  si_size : -1 <= maxi l < len (clients v);
  si_plain : plain (errmsg v)
}.

Lemma sel_inv_kept l v v' a reqs : sel_inv l v a -> kept v v' reqs -> sel_inv l v' a.
Proof.
  intros [] [Hc Hs Hn _ _ Hp]. assert (E : clients v' = clients v) by (unfold clients; by rewrite Hc).
  split; rewrite ?E, ?Hs, ?Hn; auto.
Qed.

(** Admitting a client. *)
Lemma sel_inv_add l v a fd uid nm i l' u' :
  sel_inv l v a -> 0 <= fd -> fd <> listenfd l -> a_users a !! fd = None ->
  u_names u' = nm -> u_socks u' = {[fd]} ∪ u_socks (v_u v) ->
  tbl l' (<[fd := uid]> (a_users a)) -> changed junk_uid (clients v) l' i (MkClient fd uid) ->
  sel_inv (Sel ({[fd]} ∪ allset l) (Z.max fd (maxfd l)) (Z.max (Z.of_nat i) (maxi l)) (listenfd l))
    (set_client (Some l') (set_u u' v)) (Abs (<[fd := uid]> (a_users a)) nm).
Proof.
  intros [] Hfd Hne Hnew Hn Hs Ht (Hi & Hlen & Hch). split; cbn [allset maxfd maxi listenfd a_users a_names]; try done.
  - rewrite si_set0, dom_insert_L. set_solver.
  - cbn. rewrite Hs. set_solver.
  - by rewrite lookup_insert_ne.
  - intros x Hx. apply elem_of_union in Hx as [Hx|Hx]; [|specialize (si_maxfd0 x Hx); lia]. apply elem_of_singleton in Hx. lia.
  - intros j e Hj He. change (l' !! j = Some e) in Hj. destruct (decide (j = i)) as [->|Hji]; [lia|]. destruct (Hch j Hji) as [E|[E1 E2]].
    + rewrite E in Hj. specialize (si_maxi0 j e Hj He). lia.
    + rewrite E2 in Hj. injection Hj as <-. done.
  - change (-1 <= Z.max (Z.of_nat i) (maxi l) < len l'). apply lookup_lt_Some in Hi. unfold len in *. lia.
Qed.
(** Forgetting a client. *)
Lemma sel_inv_del l v a i e :
  sel_inv l v a -> clients v !! i = Some e -> 0 <= c_fd e ->
  sel_inv (Sel (allset l ∖ {[c_fd e]}) (maxfd l) (maxi l) (listenfd l))
    (set_u (set_socks (u_socks (v_u v) ∖ {[c_fd e]}) (v_u v)) (set_client (Some (<[i := MkClient (-1) (c_uid e)]> (clients v))) v))
    (Abs (delete (c_fd e) (a_users a)) (a_names a)).
Proof.
  intros [] Hi He. pose proof (tbl_entry _ _ _ _ si_tbl0 Hi He) as Hu. assert (c_fd e <> listenfd l) by congruence.
  split; cbn [allset maxfd maxi listenfd a_users a_names]; try done.
  - by eapply tbl_delete.
  - rewrite si_set0, dom_delete_L. set_solver.
  - cbn. by rewrite si_socks0.
  - by rewrite lookup_delete_ne.
  - intros x Hx. apply si_maxfd0. set_solver.
  - intros j x Hj Hx. change (<[i := MkClient (-1) (c_uid e)]> (clients v) !! j = Some x) in Hj.
    apply list_lookup_insert_Some in Hj as [(-> & <- & _)|[Hne Hj]]; [done|by eapply si_maxi0].
  - change (-1 <= maxi l < len (<[i := MkClient (-1) (c_uid e)]> (clients v))). unfold len in *. by rewrite length_insert.
Qed.

(** What a scan does to the table: the clients that closed, among those it went through, are gone. *)
Definition scanned (r : ready) (es : list (Z * Z)) (t t' : gmap Z Z) : Prop :=
  forall fd, t' !! fd = if decide (fd ∈ es.*1 /\ closed r fd) then None else t !! fd.

Lemma scanned_nil r t : scanned r [] t t.
Proof. intros fd. by rewrite decide_False by (intros [H _]; by apply elem_of_nil in H). Qed.

Lemma scanned_stay r e es t t' : ~ closed r e.1 -> scanned r es t t' -> scanned r (e :: es) t t'.
Proof.
  intros Hc H fd. rewrite H. apply decide_ext. rewrite fmap_cons, elem_of_cons. split; [naive_solver|].
  intros [[->|?] ?]; [done|auto].
Qed.

Lemma scanned_drop r e es t t' : closed r e.1 -> scanned r es (delete e.1 t) t' -> scanned r (e :: es) t t'.
Proof.
  intros Hc H fd. rewrite H, fmap_cons. destruct (decide (fd ∈ es.*1 /\ closed r fd)) as [[? ?]|Hn].
  - rewrite decide_True; [done|]. split; [by constructor|done].
  - destruct (decide (fd = e.1)) as [->|Hne].
    + rewrite decide_True by (split; [constructor|done]). apply lookup_delete_eq.
    + rewrite lookup_delete_ne by done. rewrite decide_False; [done|]. rewrite elem_of_cons. naive_solver.
Qed.

(** A scan over all the clients. *)
Lemma scanned_all r es t t' : es ≡ₚ map_to_list t -> scanned r es t t' -> t' = filter (fun e => ~ closed r e.1) t.
Proof.
  intros He H. apply map_eq. intros fd. rewrite H, map_lookup_filter. cbn [fst]. destruct (t !! fd) as [u|] eqn:E; cbn.
  - destruct (decide (closed r fd)) as [Hc|Hc].
    + rewrite decide_True; [by rewrite option_guard_False by tauto|]. split; [|done]. rewrite He. apply list_elem_of_fmap. exists (fd, u). split; [done|].
      by apply elem_of_map_to_list.
    + rewrite decide_False by tauto. by rewrite option_guard_True.
  - by destruct (decide _).
Qed.

Lemma scan_entry v i e n :
  clients v !! i = Some e -> take (S n) (drop i (clients v)) = e :: take n (drop (S i) (clients v)).
Proof. intros H. by rewrite (drop_S _ _ _ H). Qed.

(** The scan from index [i] of [n] entries. *)
Lemma select_scan_ok (l0 : sel) (r : ready) n i l v a :
  (forall fd d, r_data r !! fd = Some (Some d) -> plain d) ->
  (forall fd, fd ∈ dom (a_users a) -> fd_isset l0 fd = true) -> sel_inv l v a -> Z.of_nat (n + i) <= maxi l + 1 ->
  wp (select_scan strerror n i l0 l r) (fun l' v' =>
    exists t', sel_inv l' v' (Abs t' (a_names a)) /\ listenfd l' = listenfd l /\ u_now (v_u v') = u_now (v_u v) /\
      scanned r (active (take n (drop i (clients v)))) (a_users a) t' /\
      v_req v' = v_req v ++ omap (request_of r) (active (take n (drop i (clients v))))) exits v.
Proof.
  intros Hpl. revert i l v a. induction n as [|n IH]; intros i l v a Hset Hinv Hb.
  { apply wp_ret. exists (a_users a). rewrite take_0, app_nil_r. split_and!; try done; first [by destruct a|apply scanned_nil]. }
  cbn [select_scan]. wp_step. unfold select_one. do 2 wp_step. fold (clients v).
  destruct (clients v !! i) as [e|] eqn:Ei.
  2: { apply lookup_ge_None in Ei. destruct (si_size _ _ _ Hinv). unfold len in *. lia. }
  rewrite (scan_entry v i e n Ei). pose proof (si_tbl _ _ _ Hinv) as Ht. destruct (Z.ltb_spec (c_fd e) 0) as [Hneg|Hpos].
  { wp_step. rewrite active_free; [by apply IH; [..|lia]|]. destruct Ht as [_ Hf]. rewrite Forall_forall in Hf.
    destruct (Hf e (list_elem_of_lookup_2 _ _ _ Ei)); [done|lia]. }
  pose proof (tbl_entry _ _ _ _ Ht Ei Hpos) as Hu. unfold readable. rewrite Hset by (by apply elem_of_dom_2 in Hu).
  rewrite active_used by done. set (q := active (take n _)).
  destruct (r_data r !! c_fd e) as [[[|x d]|]|] eqn:Er.
  - wp_step. destruct (client_del_ok v _ i e Ht Ei Hpos) as [Hdel _]. eapply wp_eq; [exact Hdel|]. wp_step. set (v1 := set_client _ v).
    eapply wp_eq; [reflexivity|]. wp_step. pose proof (sel_inv_del _ _ _ _ _ Hinv Ei Hpos) as Hi2. fold v1 in Hi2.
    eapply wp_conseq; [eapply IH; [|exact Hi2|cbn [maxi]; lia]; intros fd Hfd; apply Hset; cbn [a_users] in Hfd; set_solver|]. cbn [a_users a_names].
    intros l' v' (t' & H1 & H2 & H3 & H4 & H5). exists t'. assert (Eq : take n (drop (S i) (<[i := MkClient (-1) (c_uid e)]> (clients v))) = take n (drop (S i) (clients v)))
      by (by rewrite drop_insert_lt by lia).
    change (clients _) with (<[i := MkClient (-1) (c_uid e)]> (clients v)) in H4, H5. rewrite Eq in H4, H5. split_and!; try done.
    + by apply scanned_drop.
    + rewrite H5. unfold request_of at 2. cbn. by rewrite Er.
  - wp_step. eapply wp_conseq; [apply handle_request_kept; [apply plain_take; by eapply Hpl|apply Hinv]|]. intros [] v1 Hk. wp_step.
    pose proof (sel_inv_kept _ _ _ _ _ Hinv Hk) as Hi2. eapply wp_conseq; [eapply IH; [exact Hset|exact Hi2|lia]|].
    intros l' v' (t' & H1 & H2 & H3 & H4 & H5). exists t'. destruct Hk as [Kc _ _ Kn Kr _].
    assert (Ec : clients v1 = clients v) by (unfold clients; by rewrite Kc). rewrite Ec in *. split_and!; try done; [congruence| |].
    + apply scanned_stay; [|done]. unfold closed. cbn [fst]. by rewrite Er.
    + rewrite H5, Kr, <- app_assoc. unfold request_of at 2. cbn. by rewrite Er.
  - by eexists.
  - wp_step. eapply wp_conseq; [eapply IH; [exact Hset|exact Hinv|lia]|]. intros l' v' (t' & H1 & H2 & H3 & H4 & H5). exists t'. split_and!; try done.
    + apply scanned_stay; [|done]. unfold closed. cbn [fst]. by rewrite Er.
    + rewrite H5. unfold request_of at 2. cbn. by rewrite Er.
Qed.

(** The entries that a scan goes through are all that are in use. *)
Lemma scan_whole l v a : sel_inv l v a -> active (take (Z.to_nat (maxi l + 1)) (drop 0 (clients v))) = active (clients v).
Proof.
  intros Hinv. rewrite drop_0. rewrite <- (take_drop (Z.to_nat (maxi l + 1)) (clients v)) at 2. rewrite active_app.
  assert (E : active (drop (Z.to_nat (maxi l + 1)) (clients v)) = []); [|by rewrite E, app_nil_r].
  destruct (active _) as [|x q] eqn:E; [done|]. exfalso.
  assert (Hx : x ∈ active (drop (Z.to_nat (maxi l + 1)) (clients v))) by (rewrite E; constructor).
  apply list_elem_of_omap in Hx as (e & He & Hxe). unfold entry_of in Hxe. destruct (Z.leb_spec 0 (c_fd e)); [|done].
  apply list_elem_of_lookup_1 in He as [j Hj]. rewrite lookup_drop in Hj. pose proof (si_maxi _ _ _ Hinv _ _ Hj ltac:(lia)).
  pose proof (si_size _ _ _ Hinv). lia.
Qed.

(** A connection, in the server. *)
Lemma accept_srv conn v :
  (forall fd path, conn = inl (fd, path) -> 0 <= fd /\ len path + 1 <= usable NAME_SZ) ->
  wp (on_u (serv_accept usable conn)) (fun p v' => p.1 < 0 \/
    exists fd path s, conn = inl (fd, path) /\ u_names (v_u v) !! cstr path = Some s /\ authentic (u_now (v_u v)) s = true /\ p = (fd, st_uid s) /\
      v' = set_u (set_names (delete (cstr path) (u_names (v_u v))) (set_socks ({[fd]} ∪ u_socks (v_u v)) (v_u v))) v) exits v.
Proof.
  intros Hc. pose proof (accept_spec usable _ conn (v_u v) eq_refl Hc) as H. unfold wp, on_u in *.
  destruct (serv_accept usable conn (v_u v)) as [p u'|d u'|w|]; try done.
  destruct H as [H|(fd & path & s & -> & H1 & H2 & -> & ->)]; [by left|]. right. by exists fd, path, s.
Qed.

Lemma select_turn_ok now l v a r :
  sel_inv l v a -> ready_ok (listenfd l) r a -> u_now (v_u v) = now ->
  wp (select_turn strerror junk_uid usable l r) (fun l' v' =>
    exists a' q q', spec_turn now r a = Some (a', q) /\ sel_inv l' v' a' /\ listenfd l' = listenfd l /\ u_now (v_u v') = now /\
      v_req v' = v_req v ++ q' /\ q' ≡ₚ q) exits v.
Proof.
  intros Hinv [Hc Hd] Hnow. unfold select_turn, spec_turn. destruct (r_conn r) as [conn|].
  - wp_step.
    eapply wp_conseq; [apply accept_srv; intros fd path ->; by destruct (Hc fd path eq_refl) as (? & _ & _ & ?)|].
    intros [clifd uid] v1 [Hneg|(fd & path & s & -> & Hs & Ha & [= -> ->] & ->)].
    { cbn [fst] in Hneg. destruct (Z.ltb_spec clifd 0); [by eexists|lia]. }
    destruct (Hc fd path eq_refl) as (Hfd & Hne & Hnew & _). destruct (Z.ltb_spec fd 0); [lia|]. wp_step. set (u1 := set_names _ _).
    destruct (client_add_ok junk_uid (set_u u1 v) (a_users a) fd (st_uid s)) as (i & l' & Hadd & Ht & Hch); [apply Hinv|done|done|].
    eapply wp_eq; [exact Hadd|]. wp_step. rewrite (si_names _ _ _ Hinv) in Hs. rewrite Hs. cbn. rewrite <- Hnow, Ha. eexists _, [], []. split; [reflexivity|]. split_and!; try done; [|by rewrite app_nil_r].
    eapply sel_inv_add; try done. cbn. by rewrite (si_names _ _ _ Hinv).
  - eapply wp_conseq; [apply (select_scan_ok l r _ 0 l v a Hd)|].
    + intros fd Hfd. unfold fd_isset. assert (Hin : fd ∈ allset l) by (rewrite (si_set _ _ _ Hinv); set_solver).
      rewrite bool_decide_true by done. cbn [andb]. apply Z.leb_le. by apply (si_maxfd _ _ _ Hinv).
    + done.
    + pose proof (si_size _ _ _ Hinv). lia.
    + intros l' v'. rewrite (scan_whole l v a Hinv). intros (t' & H1 & H2 & H3 & H4 & H5).
      pose proof (tb_perm _ _ (si_tbl _ _ _ Hinv)) as Hp. rewrite (scanned_all _ _ _ _ Hp H4) in H1. eexists _, _, _. split; [reflexivity|].
      split; [exact H1|]. split; [done|]. split; [congruence|]. split; [exact H5|]. by rewrite Hp.
Qed.

(** C5: Assume that no request contains a '%' (it is used as a format, which is undefined
    otherwise), that the name of a connecting client and its terminator fit the heap block
    that serv_accept gets, and that the clock does not advance during the run (the age of
    a client's name is compared with it).  Then, whatever the order of connections,
    requests and closed connections, the loop with select behaves as the abstract server:
    in every turn it handles the requests that are there, each once and under the user of
    the client that sent it, its table is the abstract one, and the sockets that are open
    are the listening one and those of the clients; it ends only with a system error. *)
Theorem select_loop_refines (now : Z) (rs : list ready) (l : sel) (v : srv) (a : abs) :
  sel_inv l v a -> run_ok now (listenfd l) rs a -> u_now (v_u v) = now ->
  wp (select_loop strerror junk_uid usable l rs) (fun l' v' =>
    exists a' qs qs', spec_loop now rs a = Some (a', qs) /\ sel_inv l' v' a' /\
      v_req v' = v_req v ++ concat qs' /\ Forall2 Permutation qs' qs) exits v.
Proof.
  revert l v a. induction rs as [|r rs IH]; intros l v a Hinv Hok Hnow; cbn [select_loop spec_loop].
  { wp_step. exists a, [], []. rewrite app_nil_r. by split_and!. }
  destruct Hok as [Hr Hok]. wp_step. eapply wp_conseq; [by apply select_turn_ok|]. intros l1 v1 (a1 & q & q' & Hs & Hi1 & Hl1 & Hn1 & Hv1 & Hq).
  eapply wp_conseq; [apply (IH l1 v1 a1 Hi1); [rewrite Hl1; by eapply Hok|done]|]. intros l2 v2 (a2 & qs & qs' & Hs2 & Hi2 & Hv2 & Hqs).
  exists a2, (q :: qs), (q' :: qs'). rewrite Hs. cbn. rewrite Hs2. cbn. split_and!; try done; [|by constructor].
  by rewrite Hv2, Hv1, <- app_assoc.
Qed.

(** The loop starts with no clients. *)
Lemma select_init_inv uid umode v :
  u_socks (v_u v) = ∅ -> client v = Some [] \/ client v = None -> plain (errmsg v) ->
  wp (select_init uid umode) (fun l v' => sel_inv l v' (Abs ∅ (u_names (v_u v'))) /\ v_req v' = v_req v) exits v.
Proof.
  intros Hs Hc Hp. assert (Hcl : clients v = []) by (unfold clients; by destruct Hc as [-> | ->]). unfold select_init. wp_step.
  pose proof (serv_listen_clean uid umode CS_OPEN (v_u v)) as H. unfold wp, on_u in *. destruct (serv_listen uid umode CS_OPEN (v_u v)) as [fd u'| | |]; try done.
  destruct H as [_ H]. destruct (Z.ltb_spec fd 0); [by eexists|]. destruct H as [H _]. split; [|done]. change (clients _) with (clients v).
  split; cbn [allset maxfd maxi listenfd a_users a_names]; try done.
  - change (clients _) with (clients v). rewrite Hcl. apply tbl_nil.
  - set_solver.
  - cbn. rewrite H, Hs. set_solver.
  - set_solver.
  - change (clients _) with (clients v). by rewrite Hcl.
  - change (clients _) with (clients v). by rewrite Hcl.
Qed.
End loops.
