(* ===== verification/OpenPoll.v ===== *)
(** * The loop of the open server that uses poll

    The loop keeps its own array of descriptors beside the client table.  It serves every
    client that is ready once and forgets those that closed, and it stays within its
    arrays; but it looks up the user of a request at the index of the descriptor in its
    own array, which is the index in the client table only as long as no client has
    left. *)

From Stdlib Require Import Strings.Byte ZArith Lia.
From S2P Require Import Prelude Wp Libc Posix SpoolIo UnixSock OpenModel OpenProofs OpenTable OpenLoop.
From stdpp Require Import base strings numbers gmap list.
#[local] Open Scope Z_scope.

(** ** Packing the array *)

(** The array before and after a place, when an entry there is dropped. *)
Lemma pack_split l i e :
  l !! i = Some e -> exists rest, pack l i = take i l ++ rest /\ rest ≡ₚ drop (S i) l.
Proof.
  intros Hi. pose proof (lookup_lt_Some _ _ _ Hi) as Hlt. unfold pack. destruct (last l) as [z|] eqn:El.
  2: { by apply last_None in El as ->. }
  apply last_Some in El as [q ->]. rewrite removelast_last. rewrite length_app in *. simpl in Hlt |- *.
  destruct (decide (i < length q + 1 - 1)%nat) as [H|H].
  - exists (z :: drop (S i) q). split.
    + rewrite insert_take_drop by lia. by rewrite take_app_le by lia.
    + rewrite drop_app_le by lia. by rewrite Permutation_cons_append.
  - exists []. assert (i = length q) as -> by lia. split; [by rewrite take_app_length, app_nil_r|].
    rewrite drop_app_ge by lia. by replace (S (length q) - length q)%nat with 1%nat by lia.
Qed.

(** ** What a turn serves *)

(** The client closed the connection. *)
Definition p_closed (e : pollfd) : bool :=
  match pf_rev e with PHup | PIn (Some []) => true | _ => false end.

(** The descriptor and the data of a request. *)
Definition p_request (e : pollfd) : option (Z * bytes) :=
  match pf_rev e with PIn (Some (x :: d)) => Some (pf_fd e, take (Z.to_nat MAXLINE) (x :: d)) | _ => None end.

Definition rq_data (r : request) : Z * bytes := (rq_fd r, rq_buf r).

Definition open_clients (l : list pollfd) : list pollfd := filter (fun e => p_closed e = false) l.

(** The client table holds the descriptors of the array, and they are open. *)
Record poll_inv (l : list pollfd) (v : srv) : Prop := PollInv {
  pi_tbl : exists t, tbl (clients v) t /\ (map_to_list t).*1 ≡ₚ pf_fd <$> l;
  pi_fds : Forall (fun fd => 0 <= fd) (pf_fd <$> l);
  pi_socks : u_socks (v_u v) = list_to_set (pf_fd <$> l);
  pi_plain : plain (errmsg v)
}.

Lemma poll_inv_fds l l' v : pf_fd <$> l ≡ₚ pf_fd <$> l' -> poll_inv l v -> poll_inv l' v.
Proof.
  intros Hp [(t & H1 & H2) H3 H4 H5]. split; [exists t; split; [done|by rewrite <- Hp]|by rewrite <- Hp|by rewrite H4, Hp|done].
Qed.

Lemma poll_inv_perm l l' v : l ≡ₚ l' -> poll_inv l v -> poll_inv l' v.
Proof. intros Hp. apply poll_inv_fds. by rewrite Hp. Qed.

Lemma poll_inv_kept l v v' reqs : poll_inv l v -> kept v v' reqs -> poll_inv l v'.
Proof.
  intros [(t & H1 & H2) H3 H4 H5] [Hc Hs _ _ _ Hp]. assert (E : clients v' = clients v) by (unfold clients; by rewrite Hc).
  split; [exists t; by rewrite E|done|congruence|auto].
Qed.

Lemma poll_inv_nodup l v : poll_inv l v -> NoDup (pf_fd <$> l).
Proof. intros [(t & H1 & H2) _ _ _]. rewrite <- H2. apply NoDup_fst_map_to_list. Qed.

(** There are at least as many entries in the client table as in the array. *)
Lemma poll_inv_length l v : poll_inv l v -> (length l <= length (clients v))%nat.
Proof.
  intros [(t & [H1 _] & H2) _ _ _]. apply Permutation_length in H2. rewrite !length_fmap, <- H1 in H2. rewrite <- H2.
  unfold active. generalize (clients v). intros cs. induction cs as [|c cs IH]; [done|]. cbn. destruct (entry_of c); simpl; lia.
Qed.

(** The entry of a descriptor of the array. *)
Lemma poll_inv_entry e l v : poll_inv (e :: l) v -> exists j c, clients v !! j = Some c /\ c_fd c = pf_fd e.
Proof.
  intros [(t & Ht & H2) _ _ _]. assert (Hin : pf_fd e ∈ (map_to_list t).*1) by (rewrite H2; constructor).
  apply list_elem_of_fmap in Hin as ([fd uid] & E & Hin). cbn in E. subst fd. rewrite <- (tb_perm _ _ Ht) in Hin.
  apply list_elem_of_omap in Hin as (c & Hc & He). apply list_elem_of_lookup_1 in Hc as [j Hj]. exists j, c. split; [done|].
  unfold entry_of in He. destruct (0 <=? c_fd c); [|done]. by injection He.
Qed.

(** Forgetting a client. *)
Lemma poll_del e l v :
  poll_inv (e :: l) v ->
  exists v', (client_del (pf_fd e) ;;; close_client (pf_fd e)) v = Ret tt v' /\ poll_inv l v' /\ v_req v' = v_req v.
Proof.
  intros Hi. destruct (poll_inv_entry _ _ _ Hi) as (j & c & Hj & E). pose proof (poll_inv_nodup _ _ Hi) as Hnd.
  destruct Hi as [(t & Ht & H2) H3 H4 H5]. inversion H3 as [|? ? Hfd Hfds]; subst.
  destruct (client_del_ok v t j c Ht Hj ltac:(lia)) as [Hdel Ht']. rewrite E in *. eexists. split; [rewrite (bind_ret _ _ _ _ _ Hdel); reflexivity|].
  split; [|done]. apply NoDup_cons in Hnd as [Hnin _]. split; [|done| |done].
  - exists (delete (pf_fd e) t). split; [done|]. apply (Permutation_cons_inv (a := pf_fd e)). rewrite <- H2.
    pose proof (tbl_entry _ _ _ _ Ht Hj ltac:(lia)) as Hl. rewrite E in Hl. by rewrite <- (map_to_list_delete t (pf_fd e) (c_uid c) Hl).
  - cbn. rewrite H4. cbn. set_solver.
Qed.

Lemma poll_uid_ok i l v : poll_inv l v -> (i < length l)%nat -> exists uid, poll_uid i v = Ret uid v.
Proof.
  intros Hi Hlt. pose proof (poll_inv_length _ _ Hi). unfold poll_uid, bind, gets. fold (clients v).
  destruct (lookup_lt_is_Some_2 (clients v) i ltac:(lia)) as [c ->]. by eexists.
Qed.

Definition reqs_plain (l : list pollfd) : Prop := forall e d, e ∈ l -> pf_rev e = PIn (Some d) -> plain d.

Lemma pack_inv l i e v : l !! i = Some e -> poll_inv l v -> poll_inv (e :: pack l i) v.
Proof.
  intros Hi. apply poll_inv_perm. destruct (pack_split l i e Hi) as (rest & -> & Hp). rewrite Hp.
  rewrite <- (take_drop_middle l i e Hi) at 1. by rewrite Permutation_middle.
Qed.

Section poll.
Context (strerror : Z -> bytes) (Hstr : forall e, plain (strerror e)).

(** What the scan from index [i] leaves in the array, and what it serves. *)
Record scan_post (i : nat) (l : list pollfd) (v : srv) (l' : list pollfd) (v' : srv) : Prop := ScanPost {
  sp_inv : poll_inv l' v';
  sp_fds : exists rest, l' = take i l ++ rest /\ rest ≡ₚ open_clients (drop i l);
  sp_req : exists qs, v_req v' = v_req v ++ qs /\ rq_data <$> qs ≡ₚ omap p_request (drop i l)
}.

(** The entry at [i] stays. *)
Lemma scan_stay i l e v v1 l' v' qs :
  l !! i = Some e -> p_closed e = false -> v_req v1 = v_req v ++ qs -> rq_data <$> qs = option_list (p_request e) ->
  scan_post (S i) l v1 l' v' -> scan_post i l v l' v'.
Proof.
  intros Hi Hc Hv Hq [Hinv (rest & -> & Hr) (qs' & Hv' & Hq')]. split; [done| |]; rewrite (drop_S _ _ _ Hi).
  - exists (e :: rest). split; [by rewrite (take_S_r _ _ _ Hi), <- app_assoc|]. unfold open_clients. rewrite filter_cons_True by done. by rewrite Hr.
  - exists (qs ++ qs'). split; [by rewrite Hv', Hv, app_assoc|]. rewrite fmap_app, Hq, Hq'. cbn. by destruct (p_request e).
Qed.

(** The entry at [i] is dropped. *)
Lemma scan_drop i l e v v1 l' v' :
  l !! i = Some e -> p_closed e = true -> v_req v1 = v_req v -> scan_post i (pack l i) v1 l' v' -> scan_post i l v l' v'.
Proof.
  intros Hi Hc Hv [Hinv (rest & -> & Hr) (qs' & Hv' & Hq')]. destruct (pack_split l i e Hi) as (rest' & Ep & Hp).
  assert (Hl : length (take i l) = i) by (apply length_take_le; apply lookup_lt_Some in Hi; lia).
  assert (Et : take i (pack l i) = take i l) by (rewrite Ep; rewrite <- Hl at 1; apply take_app_length).
  assert (Ed : drop i (pack l i) = rest') by (rewrite Ep; rewrite <- Hl at 1; apply drop_app_length).
  assert (Hn : p_request e = None) by (unfold p_closed, p_request in *; by destruct (pf_rev e) as [| |[[|]|]]).
  rewrite Et, Ed in *. split; [done| |]; rewrite (drop_S _ _ _ Hi).
  - exists rest. split; [done|]. unfold open_clients in *. rewrite filter_cons_False by (by rewrite Hc). by rewrite Hr, Hp.
  - exists qs'. split; [congruence|]. cbn. by rewrite Hn, Hq', Hp.
Qed.

Lemma poll_scan_ok fuel i l v :
  (length l - i <= fuel)%nat -> reqs_plain l -> poll_inv l v ->
  wp (poll_scan strerror fuel i l) (scan_post i l v) exits v.
Proof.
  revert i l v. induction fuel as [|f IH]; intros i l v Hf Hpl Hinv; cbn [poll_scan]; destruct (l !! i) as [e|] eqn:Ei.
  1: { apply lookup_lt_Some in Ei. lia. }
  1, 3: apply lookup_ge_None in Ei; wp_step; (split; [done| |]);
    [exists []; rewrite app_nil_r, take_ge, drop_ge by done; done|exists []; rewrite app_nil_r, drop_ge by done; done].
  pose proof (lookup_lt_Some _ _ _ Ei) as Hlt. assert (He : e ∈ l) by (by eapply list_elem_of_lookup_2).
  assert (Hdrop : p_closed e = true -> wp (poll_uid i ;;; client_del (pf_fd e) ;;; close_client (pf_fd e) ;;; poll_scan strerror f i (pack l i)) (scan_post i l v) exits v).
  { intros Hc. destruct (poll_uid_ok i l v Hinv Hlt) as [uid Hu]. wp_step. eapply wp_eq; [exact Hu|].
    destruct (poll_del e (pack l i) v) as (v1 & Hd & Hi1 & Hr1); [by apply pack_inv|].
    destruct (pack_split l i e Ei) as (rest & Ep & Hp).
    assert (Hw : wp (poll_scan strerror f i (pack l i)) (scan_post i l v) exits v1).
    { eapply wp_conseq; [apply IH; [|intros x d Hx; apply Hpl|done]|intros l' v'; by apply (scan_drop i l e)].
      - rewrite Ep, length_app, length_take, Hp, length_drop. lia.
      - rewrite Ep in Hx. apply elem_of_app in Hx as [Hx|Hx]; [by eapply subseteq_take|]. rewrite Hp in Hx. by eapply subseteq_drop. }
    unfold wp, bind in *. destruct (client_del (pf_fd e) v) as [[] v0| | |]; try done. by rewrite Hd. }
  destruct (pf_rev e) as [| |[[|x d]|]] eqn:Er.
  - eapply wp_conseq; [apply IH; [lia|done|done]|]. intros l' v'. apply (scan_stay i l e v v l' v' []); try done; [by unfold p_closed; rewrite Er|by rewrite app_nil_r|].
    unfold p_request. by rewrite Er.
  - apply Hdrop. unfold p_closed. by rewrite Er.
  - apply Hdrop. unfold p_closed. by rewrite Er.
  - destruct (poll_uid_ok i l v Hinv Hlt) as [uid Hu]. wp_step. eapply wp_eq; [exact Hu|]. wp_step.
    eapply wp_conseq; [apply handle_request_kept; [done|apply plain_take; by eapply Hpl|apply Hinv]|]. intros [] v1 Hk.
    eapply wp_conseq; [apply IH; [lia|done|by eapply poll_inv_kept]|]. intros l' v'.
    apply (scan_stay i l e v v1 l' v' [Request (pf_fd e) uid (take (Z.to_nat MAXLINE) (x :: d))]); try done; [by unfold p_closed; rewrite Er|apply Hk|].
    unfold p_request. by rewrite Er.
  - by eexists.
Qed.

Context (junk_uid : Z) (usable : Z -> Z).

(** Admitting a client. *)
Lemma poll_add fd uid l v u' :
  poll_inv l v -> 0 <= fd -> fd ∉ pf_fd <$> l -> u_socks u' = {[fd]} ∪ u_socks (v_u v) ->
  exists n v', client_add junk_uid fd uid (set_u u' v) = Ret n v' /\ poll_inv (l ++ [Pollfd fd PNone]) v' /\ v_req v' = v_req v.
Proof.
  intros [(t & Ht & H2) H3 H4 H5] Hfd Hnin Hs. assert (Hn : t !! fd = None).
  { destruct (t !! fd) as [x|] eqn:E; [|done]. destruct Hnin. rewrite <- H2. apply list_elem_of_fmap. exists (fd, x). split; [done|]. by apply elem_of_map_to_list. }
  destruct (client_add_ok junk_uid (set_u u' v) t fd uid Ht Hfd Hn) as (i & l' & Hadd & Ht' & _). eexists _, _. split; [exact Hadd|]. split; [|done].
  split; [| | |done].
  - exists (<[fd := uid]> t). split; [done|]. rewrite map_to_list_insert by done. rewrite fmap_app. cbn. by rewrite H2, Permutation_cons_append.
  - rewrite fmap_app. apply Forall_app. split; [done|by repeat constructor].
  - cbn. rewrite Hs, H4, fmap_app. cbn. set_solver.
Qed.

(** What the kernel may report. *)
Definition poll_ok (p : pol) (conn : option (Z * bytes + Z)) (r : gmap Z pev) : Prop :=
  (forall fd path, conn = Some (inl (fd, path)) -> 0 <= fd /\ (fd ∉ pf_fd <$> p_fds p) /\ len path + 1 <= usable NAME_SZ) /\
  (forall fd d, r !! fd = Some (PIn (Some d)) -> plain d).

(** The new client of a turn. *)
Definition p_new (conn : option (Z * bytes + Z)) : list pollfd :=
  match conn with Some (inl (fd, _)) => [Pollfd fd PNone] | _ => [] end.

Lemma poll_conn_ok l m conn v :
  poll_inv l v -> len l <= m -> (forall fd path, conn = Some (inl (fd, path)) -> 0 <= fd /\ (fd ∉ pf_fd <$> l) /\ len path + 1 <= usable NAME_SZ) ->
  wp (poll_conn junk_uid usable l m conn) (fun lm v1 => lm.1 = l ++ p_new conn /\ poll_inv lm.1 v1 /\ v_req v1 = v_req v /\ len lm.1 <= lm.2) exits v.
Proof.
  intros Hinv Hlen Hc. unfold poll_conn. destruct conn as [conn|]; [|wp_step; by rewrite app_nil_r]. wp_step.
  eapply wp_conseq; [apply accept_srv; intros fd path ->; by destruct (Hc fd path eq_refl) as (? & _ & ?)|].
  intros [clifd uid] v1 [Hneg|(fd & path & s & -> & Hs & Ha & [= -> ->] & ->)].
  { cbn [fst] in Hneg. destruct (Z.ltb_spec clifd 0); [by eexists|lia]. }
  destruct (Hc fd path eq_refl) as (Hfd & Hnin & _). destruct (Z.ltb_spec fd 0); [lia|]. wp_step. set (u1 := set_names _ _).
  destruct (poll_add fd (st_uid s) l v u1 Hinv Hfd Hnin eq_refl) as (n & v2 & Hadd & Hi2 & Hr2). eapply wp_eq; [exact Hadd|]. unfold NALLOC.
  assert (Hm : len l < if len l =? m then m + 10 else m) by (destruct (Z.eqb_spec (len l) m); lia).
  destruct (Z.leb_spec (if len l =? m then m + 10 else m) (len l)); [lia|]. wp_step. split_and!; try done. cbn [fst snd]. rewrite len_app. change (len [_]) with 1. lia.
Qed.

Lemma open_clients_length l : (length (open_clients l) <= length l)%nat.
Proof. apply length_filter. Qed.

Lemma sys_poll_fds r l : pf_fd <$> sys_poll r l = pf_fd <$> l.
Proof. unfold sys_poll. by rewrite <- list_fmap_compose. Qed.

(** C32: Assume that no request of the turn contains a '%' (it is used as a format, which
    is undefined otherwise) and that the name of a connecting client and its terminator
    fit the heap block that serv_accept gets.  Then every turn of the loop with poll
    handles the request of each client that is ready once, and no others; the clients that
    did not close stay in its array, with the new one, and the array, the client table and
    the open sockets agree.  It neither reads nor writes outside its arrays, and ends only
    with a system error. *)
Theorem poll_turn_serves (p : pol) (conn : option (Z * bytes + Z)) (r : gmap Z pev) (v : srv) :
  poll_inv (p_fds p) v -> 1 <= len (p_fds p) <= p_max p -> poll_ok p conn r ->
  wp (poll_turn strerror junk_uid usable p conn r) (fun p' v' =>
    let l := sys_poll r (p_fds p) in
    poll_inv (p_fds p') v' /\ 1 <= len (p_fds p') <= p_max p' /\
    (exists rest, p_fds p' = take 1 l ++ rest /\ rest ≡ₚ open_clients (drop 1 l) ++ p_new conn) /\
    exists qs, v_req v' = v_req v ++ qs /\ rq_data <$> qs ≡ₚ omap p_request (drop 1 l)) exits v.
Proof.
  intros Hinv Hlen [Hc Hd]. unfold poll_turn. set (l := sys_poll r (p_fds p)).
  assert (Hl : length l = length (p_fds p)) by (unfold l, sys_poll; by rewrite length_fmap).
  assert (Hil : poll_inv l v) by (eapply poll_inv_fds; [|exact Hinv]; unfold l; by rewrite sys_poll_fds).
  assert (Hpl : forall q, reqs_plain (l ++ p_new q)).
  { intros q e d He Hrev. apply elem_of_app in He as [He|He].
    - unfold l, sys_poll in He. apply list_elem_of_fmap in He as (x & -> & Hx). cbn [pf_rev] in Hrev. destruct (r !! pf_fd x) eqn:E; [|done]. cbn in Hrev. subst. by eapply Hd.
    - unfold p_new in He. destruct q as [[[fd path]|]|]; [apply list_elem_of_singleton in He as ->; done|by apply elem_of_nil in He..]. }
  wp_step. eapply wp_conseq; [apply poll_conn_ok; [done|unfold len in *; lia|]; intros fd path ->; destruct (Hc fd path eq_refl) as (? & ? & ?); unfold l; by rewrite sys_poll_fds|]. intros [l1 m] v1 (E & Hi1 & Hr1 & Hm). cbn [fst snd] in *. subst l1. wp_step.
  eapply wp_conseq; [eapply poll_scan_ok; [lia|apply Hpl|exact Hi1]|]. intros l' v' [Hi' (rest & -> & Hp) (qs & Hq1 & Hq2)]. wp_step. cbn [p_fds p_max].
  assert (H1 : (1 <= length l)%nat) by (unfold len in Hlen; lia).
  rewrite take_app_le in * by done. rewrite drop_app_le in * by done.
  split; [done|]. split; [|split].
  - pose proof (open_clients_length (drop 1 (l ++ p_new conn))) as Hoc. rewrite <- (drop_app_le l (p_new conn)) in Hp by done.
    rewrite <- Hp, length_drop in Hoc. unfold len in *. rewrite length_app in Hm |- *. rewrite length_take. rewrite length_app in Hoc. lia.
  - exists rest. split; [done|]. rewrite Hp. unfold open_clients. rewrite filter_app. f_equiv. unfold p_new. by destruct conn as [[[fd path]|]|].
  - exists qs. split; [congruence|]. rewrite Hq2, omap_app. unfold p_new. destruct conn as [[[fd path]|]|]; cbn; by rewrite app_nil_r.
Qed.
End poll.
