(* ===== verification/OpenFacts.v ===== *)
(** * Facts about the open server

    Concrete runs of the theorems, and behaviour that the server surely does not intend:
    requests under another client's user, an error message that is taken for a format, an
    error message that was meant for another client. *)

From Stdlib Require Import Strings.Byte ZArith Lia.
From S2P Require Import Prelude Wp Libc Posix SpoolIo UnixSock OpenModel OpenProofs OpenTable OpenLoop OpenPoll.
From stdpp Require Import base strings numbers gmap list.
#[local] Open Scope Z_scope.

(** ** A small world *)

Definition k_none : kernel := Kernel ∅ ∅ 1 ∅ [] [] 0.

Definition name_a : bytes := bs "/var/tmp/00101".
Definition name_b : bytes := bs "/var/tmp/00102".
Definition name_c : bytes := bs "/var/tmp/00103".

Definition own (uid : Z) : stat := Stat true CLI_PERM 0 0 0 uid.

(** A server that was just started, and three clients that bound their names. *)
Definition srv0 (ua ub uc : Z) : srv :=
  Srv (Unx k_none [3; 0; 0] ∅ (<[name_a := own ua]> (<[name_b := own ub]> (<[name_c := own uc]> ∅))) 0)
    None [] [] 0 [] ∅ [].

Definition bad_req : bytes := bs "close x" ++ [NUL].

(** ** Requests under the wrong user *)

(** Three clients connect, the first one leaves, and the third sends a request: the loop
    with poll handles it under the user of the first. *)
Definition poll_events : list (option (Z * bytes + Z) * gmap Z pev) :=
  [(Some (inl (4, name_a)), ∅); (Some (inl (5, name_b)), ∅); (Some (inl (6, name_c)), ∅);
   (None, {[4 := PHup]}); (None, {[6 := PIn (Some bad_req)]})].

(** The loop with poll takes the user of a request from the wrong entry of the
    client table once a client has left: when the first of three clients closes, a request
    of the third is handled under the user of the first, whoever they are. *)
Theorem poll_wrong_user (strerror : Z -> bytes) (junk_uid ua ub uc : Z) :
  match (p <- poll_init junk_uid 0 448 ;; poll_loop strerror junk_uid (fun _ => 24) p poll_events) (srv0 ua ub uc) with
  | Ret _ v => v_req v = [Request 6 ua bad_req]
  | _ => False
  end.
Proof. vm_compute. reflexivity. Qed.

(** ** An error message as a format *)

Section messages.
Context (strerror : Z -> bytes).

(** A request for a file that does not exist and whose name has a conversion is
    undefined behaviour: the server logs the error message as a format. *)
Theorem request_percent (fd uid : Z) (v : srv) :
  k_dir (u_k (v_u v)) !! bs "%n" = None ->
  handle_request strerror (request_bytes (bs "%n") 0) fd uid v = Undef "conversion without an argument".
Proof.
  intros Hk. unfold handle_request. unfold bind at 1, modst. rewrite bool_decide_true by done. cbn [negb].
  set (v1 := add_req _ v). assert (Ea : buf_args (cstr (request_bytes (bs "%n") 0)) cli_args v1 = Ret 0 (set_args (bs "%n") 0 v1)) by done.
  rewrite (bind_ret _ _ _ _ _ Ea). change (0 <? 0) with false. cbv iota. set (v2 := set_args _ _ v1).
  rewrite (bind_ret _ _ _ _ _ (eq_refl : getst v2 = Ret v2 v2)), on_vk_run.
  change (u_k (v_u v2)) with (u_k (v_u v)). change (pathname v2) with (bs "%n"). change (oflag v2) with 0.
  assert (Eo : sys_open (bs "%n") 0 (u_k (v_u v)) = (-1, set_errno ENOENT (u_k (v_u v)))) by (unfold sys_open; by rewrite Hk).
  rewrite Eo. cbn [fst snd]. change (-1 <? 0) with true. cbv iota. set (v3 := set_u _ v2).
  rewrite (bind_ret _ _ _ _ _ (eq_refl : getst v3 = Ret v3 v3)). unfold snprintf_errmsg. unfold bind at 1, modst. set (v4 := set_errmsg _ v3).
  destruct (reply_err_cases fd v4) as (wr & out & Hr & _). rewrite (bind_ret _ _ _ _ _ Hr). unfold log_msg_fmt, bind, gets.
  assert (Hb : bad_format (errmsg (set_sent wr out v4)) = true); [|by rewrite Hb].
  change (errmsg (set_sent wr out v4)) with (take (Z.to_nat (MAXLINE - 2)) (bs "can't open " ++ bs "%n" ++ bs ": " ++ strerror ENOENT ++ [x0a])).
  generalize (strerror ENOENT ++ [x0a]). intros q. replace (Z.to_nat (MAXLINE - 2)) with (13 + 4081)%nat by done. generalize 4081%nat. intros n. reflexivity.
Qed.

(** A request without words is answered with the last error message, which may
    have been meant for another client. *)
Theorem request_blank (fd uid : Z) (v : srv) :
  all_written (v_wr v) -> plain (errmsg v) ->
  exists v', handle_request strerror [NUL] fd uid v = Ret tt v' /\ queue_of fd v' = queue_of fd v ++ err_msgs (errmsg v).
Proof.
  intros Hw Hp. unfold handle_request. unfold bind at 1, modst. rewrite bool_decide_true by done. cbn [negb]. set (v1 := add_req _ v).
  rewrite (bind_ret _ _ _ _ _ (eq_refl : buf_args (cstr [NUL]) cli_args v1 = Ret (-1) v1)). change (-1 <? 0) with true. cbv iota.
  destruct (reply_err_cases fd v1) as (wr & out & Hr & Ha). destruct (Ha Hw) as [_ Ho]. rewrite (bind_ret _ _ _ _ _ Hr).
  eexists. split; [unfold log_msg_fmt, bind, gets; change (errmsg (set_sent wr out v1)) with (errmsg v); rewrite bad_format_plain by done; reflexivity|].
  unfold queue_of at 1. cbn [v_out set_sent]. by rewrite Ho, lookup_insert_eq.
Qed.
End messages.

(** [csopen] writes beyond its buffer for a flag of eleven characters. *)
Theorem csopen_long_flag (uid umode pid : Z) (name : bytes) (c : cst) :
  0 <= csfd c -> csopen uid umode pid name (-1000000000) c = Undef "store outside buf".
Proof.
  intros H. unfold csopen. rewrite (bind_ret _ _ _ _ _ (eq_refl : gets csfd c = Ret (csfd c) c)). destruct (Z.ltb_spec (csfd c) 0); [lia|].
  unfold bind at 1, ret at 1. destruct (Z.ltb_spec (csfd c) 0); [lia|]. done.
Qed.

(** ** Concrete runs *)

Definition msg0 : Z -> bytes := fun _ => bs "No such file".

Lemma msg0_ok e : is_cstr (msg0 e) /\ plain (msg0 e).
Proof. split; [by repeat constructor|]. unfold plain. vm_compute. set_solver. Qed.

Definition sel0 : sel := Sel {[3]} 3 (-1) 3.
Definition srv1 : srv := Srv (Unx k_none [] {[3]} {[name_a := own 100]} 0) None [] [] 0 [] ∅ [].
Definition sel_events : list ready :=
  [Ready (Some (inl (4, name_a))) ∅; Ready None {[4 := Some bad_req]}; Ready None {[4 := Some []]}].

Lemma sel0_inv : sel_inv sel0 srv1 (Abs ∅ {[name_a := own 100]}).
Proof.
  split; try done.
  - intros fd Hfd. cbn in Hfd. apply elem_of_singleton in Hfd as ->. done.
  - unfold plain. cbn. set_solver.
Qed.

Lemma ready_ok_data r a lfd fd d :
  r = Ready None {[fd := Some d]} -> plain d -> ready_ok (fun _ => 24) lfd r a.
Proof.
  intros -> Hp. split; [done|]. cbn [r_data]. intros x d'. rewrite lookup_singleton_Some. by intros [_ [= <-]].
Qed.

Lemma bad_req_plain : plain bad_req.
Proof. unfold plain. vm_compute. set_solver. Qed.

Lemma sel_events_ok : run_ok (fun _ => 24) 0 3 sel_events (Abs ∅ {[name_a := own 100]}).
Proof.
  split; [split; [|by intros]|].
  - intros fd path [= <- <-]. split_and!; done.
  - intros a' q _. split; [eapply ready_ok_data; [done|apply bad_req_plain]|]. intros a2 q2 _. split; [|done].
    eapply ready_ok_data; [done|]. unfold plain. set_solver.
Qed.

Lemma select_loop_refines_witness :
  wp (select_loop msg0 7 (fun _ => 24) sel0 sel_events) (fun l' v' =>
    exists a' qs qs', spec_loop 0 sel_events (Abs ∅ {[name_a := own 100]}) = Some (a', qs) /\ sel_inv l' v' a' /\
      v_req v' = v_req srv1 ++ concat qs' /\ Forall2 Permutation qs' qs) exits srv1.
Proof.
  apply (select_loop_refines msg0 (fun e => proj2 (msg0_ok e)) 7 (fun _ => 24) 0 sel_events sel0 srv1 (Abs ∅ {[name_a := own 100]})).
  - exact sel0_inv.
  - exact sel_events_ok.
  - reflexivity.
Defined.

(** The array of the loop with poll when one client is there. *)
Definition pol1 : pol := Pol [Pollfd 3 PNone; Pollfd 4 PNone] 10.
Definition srv2 : srv :=
  Srv (Unx k_none [] {[3; 4]} {[name_b := own 200]} 0) (Some [MkClient 3 0; MkClient 4 100; MkClient (-1) 0]) [] [] 0 [] ∅ [].

Lemma pol1_inv : poll_inv (p_fds pol1) srv2.
Proof.
  split; [|by repeat constructor|done|unfold plain; cbn; set_solver].
  exists (<[3 := 0]> (<[4 := 100]> ∅)). split; [split|].
  - rewrite !map_to_list_insert by done. by rewrite map_to_list_empty.
  - repeat constructor; cbn; lia.
  - rewrite !map_to_list_insert by done. by rewrite map_to_list_empty.
Qed.

Definition conn_b : option (Z * bytes + Z) := Some (inl (5, name_b)).
Definition rev_b : gmap Z pev := {[4 := PIn (Some bad_req)]}.

Lemma poll_turn_serves_witness :
  wp (poll_turn msg0 7 (fun _ => 24) pol1 conn_b rev_b) (fun p' v' =>
    let l := sys_poll rev_b (p_fds pol1) in
    poll_inv (p_fds p') v' /\ 1 <= len (p_fds p') <= p_max p' /\
    (exists rest, p_fds p' = take 1 l ++ rest /\ rest ≡ₚ open_clients (drop 1 l) ++ p_new conn_b) /\
    exists qs, v_req v' = v_req srv2 ++ qs /\ rq_data <$> qs ≡ₚ omap p_request (drop 1 l)) exits srv2.
Proof.
  apply (poll_turn_serves msg0 (fun e => proj2 (msg0_ok e)) 7 (fun _ => 24) pol1 conn_b rev_b srv2).
  - exact pol1_inv.
  - unfold len; cbn; lia.
  - split.
    + intros fd path [= <- <-]. split_and!; [done| |done]. cbn. set_solver.
    + intros fd d. unfold rev_b. rewrite lookup_singleton_Some. intros [_ [= <-]]. apply bad_req_plain.
Defined.

(** A client and a server that has the file it asks for. *)
Definition k_file : kernel := Kernel {[bs "/f" := 1]} {[1 := bs "data"]} 2 ∅ [] [] 0.
Definition srv3 : srv := Srv (Unx k_file [] {[3; 4]} ∅ 0) (Some [MkClient 4 100]) [] [] 0 [] ∅ [].
Definition cst3 : cst :=
  Cst (Unx k_none [] {[3]} ∅ 0) 3 (RMsg <$> [Msg [NUL; NUL] (Some (Ofd 1 0 true false false)) true]) [] [] [] [].

Lemma open_end_to_end_witness :
  exists v' ms, handle_request msg0 (take (Z.to_nat MAXLINE) (request_bytes (bs "/f") 0)) 4 100 srv3 = Ret tt v' /\
    queue_of 4 v' = queue_of 4 srv3 ++ ms /\ k_fds (u_k (v_u v')) = k_fds (u_k (v_u srv3)) /\ client v' = client srv3 /\
    forall got, delivered ms got -> cl_in cst3 = RMsg <$> got ->
    exists r c', csopen 100 448 101 (bs "/f") 0 cst3 = Ret r c' /\ client_gets msg0 (u_k (v_u srv3)) (bs "/f") 0 cst3 c' r.
Proof.
  apply (open_end_to_end msg0 msg0_ok 100 448 101 4 (bs "/f") 0 srv3 cst3).
  - split_and!; [by repeat constructor|by repeat constructor|done].
  - unfold plain. vm_compute. set_solver.
  - lia.
  - by vm_compute.
  - constructor.
  - constructor.
  - constructor.
  - done.
Defined.

(** The client's name, seen by the server. *)
Definition u_client : unx := Unx k_none [5; 0; 0; 0] ∅ ∅ 10.
Definition u_server : unx := Unx k_none [] {[3]} {[cli_name 101 := Stat true CLI_PERM 10 10 10 100]} 30.

Lemma conn_authenticated_witness :
  exists u', cli_conn 100 448 101 CS_OPEN u_client = Ret 5 u' /\
    serv_accept (fun _ => 24) (inl (4, cli_name 101)) u_server =
    Ret (4, 100) (set_names (delete (cli_name 101) (u_names u_server)) (set_socks ({[4]} ∪ u_socks u_server) u_server)).
Proof.
  eexists. split; [vm_compute; reflexivity|].
  eapply (conn_authenticated (fun _ => 24) 100 448 101 4 CS_OPEN u_client _ u_server 5); try lia; [vm_compute; reflexivity|vm_compute; reflexivity|cbn; unfold STALE; lia|by vm_compute].
Defined.
