(* ===== verification/Readline.v ===== *)
(** * Buffered lines (unpv13e/lib/readline.c)

    [my_read] hands out the bytes of a static buffer that it refills with [read];
    [readline] collects them up to a newline.  [readline_ref]: whatever the sizes of the
    pieces that arrive and however often [read] is interrupted, successive calls cut the
    stream into the same lines as a reference on the whole stream. *)

From Stdlib Require Import Strings.Byte ZArith Lia.
From S2P Require Import Prelude Wp Libc Posix SpoolQueue SpoolIo.
From stdpp Require Import base strings numbers gmap list.
#[local] Open Scope Z_scope.

Definition EINTR : Z := 4.
Definition RL_MAXLINE : Z := 4096.

(** The static variables, with [read_ptr] as an index into [read_buf], and the connection. *)
Record rl := Rl { read_cnt : Z; read_ptr : Z; read_buf : bytes; rl_io : ios }.

(** [read(fd, read_buf, sizeof(read_buf))]: the count, with the bytes in the buffer. *)
Definition fill : M rl Z := fun s =>
  match sock_read RL_MAXLINE (rl_io s) with
  | Ret None io => Ret (-1) (Rl (-1) (read_ptr s) (read_buf s) io)
  | Ret (Some d) io => Ret (len d) (Rl (len d) (read_ptr s) (splice 0 d (read_buf s)) io)
  | Die d io => Die d (Rl (read_cnt s) (read_ptr s) (read_buf s) io)
  | Undef w => Undef w
  | NoFuel => NoFuel
  end.

(** From the label [again]: -1, 0, or 1 when the buffer holds data. *)
Fixpoint refill (fuel : nat) : M rl Z :=
  match fuel with
  | O => fun _ => NoFuel
  | S f =>
    n <- fill ;;
    if n <? 0 then
      s <- getst ;;
      if s_errno (rl_io s) =? EINTR then refill f else ret (-1)
    else if n =? 0 then ret 0
    else modst (fun s => Rl (read_cnt s) 0 (read_buf s) (rl_io s)) ;;; ret 1
  end.

(** [Some (Some c)] is 1 with the byte in [*ptr], [Some None] is 0, [None] is -1. *)
Definition my_read : M rl (option (option byte)) :=
  s <- getst ;;
  r <- (if read_cnt s <=? 0 then refill (S (length (s_in (rl_io s)))) else ret 1) ;;
  if r <? 0 then ret None
  else if r =? 0 then ret (Some None)
  else
    s <- getst ;;
    match read_buf s !! Z.to_nat (read_ptr s) with
    | None => undef "read outside read_buf"
    | Some c => modst (fun s => Rl (read_cnt s - 1) (read_ptr s + 1) (read_buf s) (rl_io s)) ;;; ret (Some (Some c))
    end.

Definition nl : byte := x0a.

(** The rest of the loop with counter [n]: the value returned and the bytes stored. *)
Fixpoint line_loop (k : nat) (n : Z) (ptr : bytes) : M rl (Z * bytes) :=
  match k with
  | O => ret (n, ptr ++ [NUL])
  | S k' =>
    r <- my_read ;;
    match r with
    | Some (Some c) => if decide (c = nl) then ret (n, ptr ++ [c; NUL]) else line_loop k' (n + 1) (ptr ++ [c])
    | Some None => ret (n - 1, ptr ++ [NUL])
    | None => ret (-1, ptr)
    end
  end.

Definition readline (maxlen : Z) : M rl (Z * bytes) := line_loop (Z.to_nat (maxlen - 1)) 1 [].

(** The unread part of the buffer. *)
Definition readlinebuf (s : rl) : Z * bytes :=
  (read_cnt s, if read_cnt s =? 0 then [] else slice (Z.to_nat (read_ptr s)) (Z.to_nat (read_cnt s)) (read_buf s)).

Definition Readline (maxlen : Z) : M rl (Z * bytes) :=
  r <- readline maxlen ;;
  if r.1 <? 0 then die (DSys "readline error") else ret r.

(** ** The stream and its lines *)

Inductive tok := TByte (b : byte) | TEof | TErr (e : Z).

Fixpoint tokens (l : list ev) : list tok :=
  match l with
  | [] => []
  | EvData d :: r => (TByte <$> d) ++ tokens r
  | EvTimeout :: r => tokens r
  | EvSelErr e :: r | EvErr e :: r => if e =? EINTR then tokens r else TErr e :: tokens r
  | EvEof :: _ => [TEof]
  end.

(** The bytes of the buffer that were not handed out yet. *)
Definition unread (s : rl) : bytes :=
  if read_cnt s <=? 0 then [] else slice (Z.to_nat (read_ptr s)) (Z.to_nat (read_cnt s)) (read_buf s).

Definition stream (s : rl) : list tok := (TByte <$> unread s) ++ tokens (s_in (rl_io s)).

Inductive lres := LLine (b : bytes) | LFull (b : bytes) | LEof (b : bytes) | LErr (b : bytes).

Definition lcons (c : byte) (r : lres) : lres :=
  match r with LLine b => LLine (c :: b) | LFull b => LFull (c :: b) | LEof b => LEof (c :: b) | LErr b => LErr (c :: b) end.

(** At most [k] bytes, up to a newline; and the stream that is left.  [None]: the peer is
    silent. *)
Fixpoint line (k : nat) (l : list tok) : option (lres * list tok) :=
  match k, l with
  | O, _ => Some (LFull [], l)
  | S k', TByte c :: l' => if decide (c = nl) then Some (LLine [c], l') else (fun p => (lcons c p.1, p.2)) <$> line k' l'
  | S _, TEof :: _ => Some (LEof [], l)
  | S _, TErr _ :: l' => Some (LErr [], l')
  | S _, [] => None
  end.

(** What [readline] returns, and what it stores, for a line that counts from [n] and comes
    after [p]. *)
Definition lvalue (n : Z) (r : lres) : Z :=
  match r with LLine b => n - 1 + len b | LFull b => n + len b | LEof b => n - 1 + len b | LErr _ => -1 end.
Definition lstored (p : bytes) (r : lres) : bytes :=
  match r with LLine b | LFull b | LEof b => p ++ b ++ [NUL] | LErr b => p ++ b end.

(** Data events are not empty, and the buffer is what its size says. *)
Record rl_ok (s : rl) : Prop := RlOk {
  ro_size : len (read_buf s) = RL_MAXLINE;
  ro_ptr : 0 < read_cnt s -> 0 <= read_ptr s /\ read_ptr s + read_cnt s <= RL_MAXLINE;
  ro_data : Forall (fun e => e <> EvData []) (s_in (rl_io s))
}.

(** ** Proofs *)

Abbreviation no_empty := (Forall (fun e => e <> EvData [])).

(** What [read] does with the events. *)
Lemma read_tokens l io :
  no_empty l ->
  match read_events l RL_MAXLINE io with
  | Ret None io' => no_empty (s_in io') /\ (length (s_in io') < length l)%nat /\
      tokens l = (if s_errno io' =? EINTR then [] else [TErr (s_errno io')]) ++ tokens (s_in io')
  | Ret (Some []) io' => tokens l = [TEof] /\ tokens (s_in io') = [TEof] /\ no_empty (s_in io')
  | Ret (Some d) io' => no_empty (s_in io') /\ len d <= RL_MAXLINE /\ tokens l = (TByte <$> d) ++ tokens (s_in io')
  | NoFuel => tokens l = []
  | _ => False
  end.
Proof.
  induction l as [|e l IH]; intros Hl; [done|]. inversion Hl as [|? ? He Hl']; subst. destruct e as [d| | |x|x]; cbn [read_events tokens].
  - unfold bind, modst, ret. destruct d as [|c d]; [done|]. set (k := Z.to_nat RL_MAXLINE). destruct (take k (c :: d)) as [|y q] eqn:E; [done|]. rewrite <- E.
    cbn [s_in set_in]. split; [|split].
    + case_bool_decide; [done|]. constructor; [congruence|done].
    + unfold len, k, RL_MAXLINE. rewrite length_take. lia.
    + rewrite <- (take_drop k (c :: d)) at 1. rewrite fmap_app, <- app_assoc. f_equal. case_bool_decide as Hb; [by rewrite Hb|done].
  - unfold bind, modst, ret. cbn. by split_and!.
  - specialize (IH Hl'). destruct (read_events l RL_MAXLINE io) as [[[|]|]| | |]; try done. destruct IH as (? & ? & ?). split_and!; try done. simpl. lia.
  - unfold bind, modst, ret. cbn. split_and!; [done|simpl; lia|]. by destruct (x =? EINTR).
  - unfold bind, modst, ret. cbn. split_and!; [done|simpl; lia|]. by destruct (x =? EINTR).
Qed.

(** [again]: the stream is the same, or its error was taken. *)
Lemma refill_ok fuel s :
  no_empty (s_in (rl_io s)) -> len (read_buf s) = RL_MAXLINE -> (length (s_in (rl_io s)) < fuel)%nat ->
  match refill fuel s with
  | Ret r s' => rl_ok s' /\
      ((r = -1 /\ read_cnt s' <= 0 /\ exists e, tokens (s_in (rl_io s)) = TErr e :: tokens (s_in (rl_io s'))) \/
       (r = 0 /\ read_cnt s' <= 0 /\ tokens (s_in (rl_io s)) = [TEof] /\ tokens (s_in (rl_io s')) = [TEof]) \/
       (r = 1 /\ 0 < read_cnt s' /\ tokens (s_in (rl_io s)) = stream s'))
  | NoFuel => tokens (s_in (rl_io s)) = []
  | _ => False
  end.
Proof.
  revert s. induction fuel as [|f IH]; intros s Hne Hsz Hf; [lia|]. cbn [refill]. unfold bind at 1, fill, sock_read. unfold bind at 1, gets.
  pose proof (read_tokens (s_in (rl_io s)) (rl_io s) Hne) as H. destruct (read_events _ _ _) as [[[|c d]|] io| | |]; try done.
  - destruct H as (H1 & H2 & H3). change (len (@nil byte) <? 0) with false. change (len (@nil byte) =? 0) with true. cbv iota. unfold ret.
    split; [split; cbn; [by rewrite <- Hsz|by intros ?|done]|]. right. left. by split_and!.
  - destruct H as (H1 & H2 & H3). pose proof (len_nonneg d). assert (0 < len (c :: d)) by (rewrite len_cons; lia).
    destruct (Z.ltb_spec (len (c :: d)) 0); [lia|]. destruct (Z.eqb_spec (len (c :: d)) 0); [lia|]. unfold bind, modst, ret. cbn [read_cnt read_ptr read_buf rl_io].
    assert (Hl : len (splice 0 (c :: d) (read_buf s)) = RL_MAXLINE) by (rewrite <- Hsz; unfold len; rewrite length_splice; unfold len in *; lia).
    split; [split; cbn [read_cnt read_ptr read_buf rl_io]; [done|lia|done]|]. right. right. split_and!; [done|done|].
    unfold stream, unread. cbn [read_cnt read_ptr read_buf rl_io]. destruct (Z.leb_spec (len (c :: d)) 0); [lia|]. rewrite H3. do 2 f_equal.
    unfold len at 1. rewrite Nat2Z.id. symmetry. apply (slice_splice_eq 0). lia.
  - destruct H as (H1 & H2 & H3). cbn [read_cnt]. change (-1 <? 0) with true. cbv iota. unfold bind at 1, getst. cbn [rl_io].
    destruct (s_errno io =? EINTR).
    + specialize (IH (Rl (-1) (read_ptr s) (read_buf s) io) H1 Hsz ltac:(cbn; lia)). cbn [rl_io] in IH. rewrite H3. exact IH.
    + unfold ret. split; [split; cbn; [done|lia|done]|]. left. split_and!; [done|done|]. by eexists.
Qed.

(** [my_read] takes the first token of the stream. *)
Lemma my_read_ok s :
  rl_ok s ->
  match my_read s with
  | Ret (Some (Some c)) s' => rl_ok s' /\ stream s = TByte c :: stream s'
  | Ret (Some None) s' => rl_ok s' /\ stream s = [TEof] /\ stream s' = [TEof]
  | Ret None s' => rl_ok s' /\ exists e, stream s = TErr e :: stream s'
  | NoFuel => stream s = []
  | _ => False
  end.
Proof.
  intros [Hsz Hptr Hne]. unfold my_read. unfold bind at 1, getst.
  assert (Htake : forall s1, rl_ok s1 -> 0 < read_cnt s1 ->
    exists c, read_buf s1 !! Z.to_nat (read_ptr s1) = Some c /\
      let s2 := Rl (read_cnt s1 - 1) (read_ptr s1 + 1) (read_buf s1) (rl_io s1) in rl_ok s2 /\ stream s1 = TByte c :: stream s2).
  { intros s1 [Hz Hp Hn] Hc. destruct (Hp Hc) as [Hp1 Hp2]. destruct (lookup_lt_is_Some_2 (read_buf s1) (Z.to_nat (read_ptr s1))) as [c Hl]; [unfold len in Hz; lia|].
    exists c. split; [done|]. split; [split; cbn; [done|lia|done]|]. unfold stream, unread. cbn [read_cnt read_ptr read_buf rl_io].
    destruct (Z.leb_spec (read_cnt s1) 0); [lia|]. unfold slice. rewrite (drop_S _ _ _ Hl). replace (Z.to_nat (read_cnt s1)) with (S (Z.to_nat (read_cnt s1 - 1))) by lia.
    cbn [take firstn fmap list_fmap app]. f_equal. f_equal. destruct (Z.leb_spec (read_cnt s1 - 1) 0).
    - by replace (Z.to_nat (read_cnt s1 - 1)) with 0%nat by lia.
    - by replace (S (Z.to_nat (read_ptr s1))) with (Z.to_nat (read_ptr s1 + 1)) by lia. }
  destruct (Z.leb_spec (read_cnt s) 0) as [Hc|Hc].
  - assert (Hst : stream s = tokens (s_in (rl_io s))) by (unfold stream, unread; destruct (Z.leb_spec (read_cnt s) 0); [done|lia]).
    pose proof (refill_ok (S (length (s_in (rl_io s)))) s Hne Hsz ltac:(lia)) as H. unfold bind at 1. destruct (refill _ s) as [r s1| | |]; try done; [|by rewrite Hst].
    assert (Hun : read_cnt s1 <= 0 -> stream s1 = tokens (s_in (rl_io s1))) by (intros; unfold stream, unread; destruct (Z.leb_spec (read_cnt s1) 0); [done|lia]).
    destruct H as (Hok & [(-> & Hc1 & e & He)|[(-> & Hc1 & He & He')|(-> & Hc1 & He)]]).
    + change (-1 <? 0) with true. cbv iota. unfold ret. split; [done|]. exists e. by rewrite Hst, He, Hun.
    + change (0 <? 0) with false. change (0 =? 0) with true. cbv iota. unfold ret. by rewrite Hst, Hun.
    + change (1 <? 0) with false. change (1 =? 0) with false. cbv iota. unfold bind at 1, getst. destruct (Htake s1 Hok Hc1) as (c & Hl & Hok2 & Hs2).
      rewrite Hl. unfold bind, modst, ret. split; [done|]. by rewrite Hst, He.
  - unfold bind at 1, ret at 1. change (1 <? 0) with false. change (1 =? 0) with false. cbv iota. unfold bind at 1, getst.
    destruct (Htake s ltac:(by split) Hc) as (c & Hl & Hok2 & Hs2). rewrite Hl. unfold bind, modst, ret. by split.
Qed.

Lemma line_loop_ok k n p s :
  rl_ok s ->
  match line k (stream s) with
  | Some (r, rest) => exists s', line_loop k n p s = Ret (lvalue n r, lstored p r) s' /\ rl_ok s' /\ stream s' = rest
  | None => line_loop k n p s = NoFuel
  end.
Proof.
  revert n p s. induction k as [|k IH]; intros n p s Hs; cbn [line line_loop].
  { exists s. unfold lvalue, lstored. rewrite Z.add_0_r. by split_and!. }
  pose proof (my_read_ok s Hs) as H. unfold bind. destruct (my_read s) as [[[c|]|] s1| | |]; try done.
  - destruct H as [H1 ->]. destruct (decide (c = nl)).
    + exists s1. unfold ret, lvalue, lstored. split_and!; try done. do 2 f_equal. unfold len. simpl. lia.
    + specialize (IH (n + 1) (p ++ [c]) s1 H1). destruct (line k (stream s1)) as [[r rest]|]; cbn; [|done].
      destruct IH as (s2 & -> & H2 & H3). exists s2. split_and!; try done. do 2 f_equal.
      * destruct r; cbn [lcons lvalue]; rewrite ?len_cons; lia.
      * destruct r; cbn [lcons lstored]; by rewrite <- app_assoc.
  - destruct H as (H1 & -> & H2). exists s1. unfold ret, lvalue, lstored. split_and!; try done. do 2 f_equal. unfold len. simpl. lia.
  - destruct H as (H1 & e & ->). exists s1. unfold ret, lvalue, lstored. split_and!; try done. by rewrite app_nil_r.
  - by rewrite H.
Qed.

(** C20: Successive calls of [readline] cut the stream into the lines of the reference,
    whatever the pieces in which it arrives and however often [read] is interrupted; a call
    waits for ever only when the stream has no more to take.  The value is the number of
    bytes stored before the terminator, except for a line that does not fit: then it is
    one too many. *)
Theorem readline_ref (maxlen : Z) (s : rl) :
  rl_ok s -> 1 <= maxlen ->
  match line (Z.to_nat (maxlen - 1)) (stream s) with
  | Some (r, rest) => exists s', readline maxlen s = Ret (lvalue 1 r, lstored [] r) s' /\ rl_ok s' /\ stream s' = rest
  | None => readline maxlen s = NoFuel
  end.
Proof. intros Hs Hm. by apply line_loop_ok. Qed.

(** The bytes stored fit the caller's buffer. *)
Theorem readline_bound (maxlen : Z) (s s' : rl) (n : Z) (stored : bytes) :
  1 <= maxlen -> readline maxlen s = Ret (n, stored) s' -> len stored <= maxlen /\ -1 <= n <= maxlen.
Proof.
  intros Hm. unfold readline. assert (G : forall k n p s, 1 <= n -> len p = n - 1 -> forall r st s', line_loop k n p s = Ret (r, st) s' ->
    len st <= n + Z.of_nat k /\ -1 <= r <= n + Z.of_nat k).
  { clear. induction k as [|k IH]; intros n p s Hn Hp r st s'; cbn [line_loop].
    - intros [= <- <- _]. rewrite len_app. change (len [NUL]) with 1. lia.
    - intros H. apply bind_inv in H as ([[c|]|] & s1 & _ & H).
      + destruct (decide (c = nl)).
        * injection H as <- <- _. rewrite len_app. change (len [c; NUL]) with 2. lia.
        * apply IH in H; [lia|lia|]. rewrite len_app. change (len [c]) with 1. lia.
      + injection H as <- <- _. rewrite len_app. change (len [NUL]) with 1. lia.
      + injection H as <- <- _. lia. }
  intros H. apply G in H; [lia|lia|done].
Qed.

(** A connection with two lines in three pieces. *)
Definition rl0 : rl :=
  Rl 0 0 (replicate (Z.to_nat RL_MAXLINE) NUL) (Ios [EvData (bs "ab"); EvErr EINTR; EvData (bs "c" ++ [nl] ++ bs "d"); EvEof] [] [] 0).

Lemma rl0_ok : rl_ok rl0.
Proof. split; [by unfold len; cbn -[replicate]; rewrite length_replicate|cbn; lia|by repeat constructor]. Qed.

Lemma readline_ref_witness :
  exists s', readline 100 rl0 = Ret (4, bs "abc" ++ [nl; NUL]) s' /\ rl_ok s' /\ stream s' = [TByte "d"; TEof].
Proof. exact (readline_ref 100 rl0 rl0_ok ltac:(lia)). Defined.

Lemma readline_bound_witness : len (bs "ab" ++ [NUL]) <= 3 /\ -1 <= 3 <= 3.
Proof. eapply (readline_bound 3 rl0 _ 3); [lia|]. vm_compute. reflexivity. Defined.
