(* ===== verification/DgEcho.v ===== *)
(** * The signal-driven echo server (unpv13e/sigio/dgecho01.c)

    The handler [sig_io] reads datagrams into a ring of [QSIZE] slots while the main loop
    [dg_echo] sends them back.  The handler runs to its end at any point where the signal
    is not blocked, so the server is a step relation: the places of the main loop between
    two accesses of the shared variables, the handler as one step, and arriving datagrams.
    [Sendto] may fail, which ends the server.
    In every reachable state the datagrams that were read are those sent, followed by those
    in the ring, in order and unchanged; the indices stay within the arrays; and the
    histogram counts every datagram. *)

From Stdlib Require Import Strings.Byte ZArith Lia.
From S2P Require Import Prelude Wp Libc.
From stdpp Require Import base strings numbers list relations.
#[local] Open Scope Z_scope.

Definition QSIZE : Z := 8.
Definition MAXDG : Z := 4096.

Record DG := MkDG { dg_data : bytes; dg_len : Z; dg_sa : bytes; dg_salen : Z }.

(** A datagram and the address of its sender. *)
Record dgram := Dgram { d_data : bytes; d_from : bytes }.

(** What [recvfrom] finds: a datagram or an error other than [EWOULDBLOCK]. *)
Inductive arrival := ADgram (d : dgram) | AErr.

(** The places of the main loop: at the test of [nqueue] with the signal blocked, before
    [Sendto], before [++iget], before the signal is blocked again, before [nqueue--]. *)
Inductive place := PTest | PSend | PNext | PBlock | PDec.

(** [g_recv] and [g_sent] record what was read and sent. *)
Record dge := Dge {
  dg : list DG; cntread : list Z; iget : Z; iput : Z; nqueue : Z; clilen : Z;
  pc : place; sock : list arrival; g_recv : list dgram; g_sent : list dgram
}.

Definition set_pc p s := Dge (dg s) (cntread s) (iget s) (iput s) (nqueue s) (clilen s) p (sock s) (g_recv s) (g_sent s).
Definition set_iget i s := Dge (dg s) (cntread s) i (iput s) (nqueue s) (clilen s) (pc s) (sock s) (g_recv s) (g_sent s).
Definition set_nqueue n s := Dge (dg s) (cntread s) (iget s) (iput s) n (clilen s) (pc s) (sock s) (g_recv s) (g_sent s).
Definition set_cnt c s := Dge (dg s) c (iget s) (iput s) (nqueue s) (clilen s) (pc s) (sock s) (g_recv s) (g_sent s).
Definition set_sock q s := Dge (dg s) (cntread s) (iget s) (iput s) (nqueue s) (clilen s) (pc s) q (g_recv s) (g_sent s).
Definition add_sent d s := Dge (dg s) (cntread s) (iget s) (iput s) (nqueue s) (clilen s) (pc s) (sock s) (g_recv s) (g_sent s ++ [d]).

Definition incr (i : Z) : Z := if QSIZE <=? i + 1 then 0 else i + 1.

(** One datagram into the slot [iput]: [dg_data] and [dg_sa] are buffers of [MAXDG] and
    [clilen] bytes, longer data are cut. *)
Definition store_dg (d : dgram) (s : dge) : M dge unit := fun _ =>
  match dg s !! Z.to_nat (iput s) with
  | None => Undef "store outside dg"
  | Some e =>
    let data := take (Z.to_nat MAXDG) (d_data d) in
    let sa := d_from d in
    let e' := MkDG (splice 0 data (dg_data e)) (len data) (splice 0 sa (dg_sa e)) (len sa) in
    Ret tt (Dge (<[Z.to_nat (iput s) := e']> (dg s)) (cntread s) (iget s) (incr (iput s)) (nqueue s + 1) (clilen s) (pc s)
              (tail (sock s)) (g_recv s ++ [Dgram data sa]) (g_sent s))
  end.

(** The loop of the handler; [nread] datagrams were read. *)
Fixpoint sig_loop (fuel : nat) (nread : Z) : M dge Z :=
  s <- getst ;;
  if QSIZE <=? nqueue s then die (DQuit "receive overflow")
  else
    match sock s with
    | [] => ret nread
    | AErr :: _ => die (DSys "recvfrom error")
    | ADgram d :: _ =>
      match fuel with
      | O => fun _ => NoFuel
      | S f => store_dg d s ;;; sig_loop f (nread + 1)
      end
    end.

Definition sig_io : M dge unit :=
  nread <- sig_loop (Z.to_nat QSIZE) 0 ;;
  c <- gets cntread ;;
  match c !! Z.to_nat nread with
  | None => undef "store outside cntread"
  | Some n => modst (set_cnt (<[Z.to_nat nread := n + 1]> c))
  end.

(** [Sendto] of the slot [iget]; [ok]: the socket, which does not block, takes the whole
    datagram.  Otherwise the wrapper ends the process. *)
Definition send_dg (ok : bool) : M dge unit :=
  s <- getst ;;
  match dg s !! Z.to_nat (iget s) with
  | None => undef "read outside dg"
  | Some e => if negb ok then die (DSys "sendto error") else modst (add_sent (Dgram (take (Z.to_nat (dg_len e)) (dg_data e)) (take (Z.to_nat (dg_salen e)) (dg_sa e))))
  end.

(** A step of the main loop; [None] when it waits in [sigsuspend].  [ok] is the outcome of
    [Sendto]. *)
Definition main_step (ok : bool) (s : dge) : option (result dge unit) :=
  match pc s with
  | PTest => if nqueue s =? 0 then None else Some (Ret tt (set_pc PSend s))
  | PSend => Some ((send_dg ok ;;; modst (set_pc PNext)) s)
  | PNext => Some (Ret tt (set_pc PBlock (set_iget (incr (iget s)) s)))
  | PBlock => Some (Ret tt (set_pc PDec s))
  | PDec => Some (Ret tt (set_pc PTest (set_nqueue (nqueue s - 1) s)))
  end.

(** The handler may run where the signal is not blocked, and in [sigsuspend]. *)
Definition may_interrupt (s : dge) : bool :=
  match pc s with
  | PTest => nqueue s =? 0
  | PSend | PNext | PBlock => true
  | PDec => false
  end.

(** The server runs, or it has ended. *)
Definition config : Type := dge + death.

Definition after (r : result dge unit) (c : config) : Prop :=
  match r with
  | Ret _ s => c = inl s
  | Die d _ => c = inr d
  | Undef _ | NoFuel => False
  end.

(** An address is no longer than [clilen]. *)
Definition arrival_ok (clilen : Z) (a : arrival) : Prop :=
  match a with ADgram d => len (d_from d) <= clilen | AErr => True end.

Inductive dg_step : config -> config -> Prop :=
| st_arrive s a : arrival_ok (clilen s) a -> dg_step (inl s) (inl (set_sock (sock s ++ [a]) s))
| st_main s ok r c : main_step ok s = Some r -> after r c -> dg_step (inl s) c
| st_sigio s c : may_interrupt s = true -> after (sig_io s) c -> dg_step (inl s) c.

(** A slot with its two buffers, whatever is in them. *)
Definition slot_ok (clilen : Z) (e : DG) : Prop := len (dg_data e) = MAXDG /\ len (dg_sa e) = clilen.

(** The state in which the loop starts, with the slots that [Malloc] returned. *)
Definition dg_init (slots : list DG) (clilen : Z) : dge :=
  Dge slots (replicate (Z.to_nat (QSIZE + 1)) 0) 0 0 0 clilen PTest [] [] [].

(** [sig_hup] prints the histogram. *)
Definition sig_hup (s : dge) : list (Z * Z) := imap (fun i n => (Z.of_nat i, n)) (cntread s).

(** ** The ring *)

Definition dgram_of (e : DG) : dgram := Dgram (take (Z.to_nat (dg_len e)) (dg_data e)) (take (Z.to_nat (dg_salen e)) (dg_sa e)).
Definition slot (l : list DG) (i : Z) : dgram := default (Dgram [] []) (dgram_of <$> l !! Z.to_nat i).

(** [n] slots from [b] on, and the index after them. *)
Fixpoint ring (l : list DG) (b : Z) (n : nat) : list dgram :=
  match n with O => [] | S n' => slot l b :: ring l (incr b) n' end.
Definition adv (b : Z) (n : nat) : Z := (b + Z.of_nat n) mod QSIZE.

Lemma incr_mod i : 0 <= i < QSIZE -> incr i = (i + 1) mod QSIZE /\ 0 <= incr i < QSIZE.
Proof.
  unfold incr, QSIZE. intros H. destruct (Z.leb_spec 8 (i + 1)); [|rewrite Z.mod_small; lia].
  assert (i = 7) as -> by lia. by split.
Qed.

Lemma adv_incr b n : 0 <= b < QSIZE -> adv (incr b) n = adv b (S n).
Proof.
  intros H. unfold adv. rewrite (proj1 (incr_mod b H)). unfold QSIZE. rewrite Z.add_mod_idemp_l by lia. f_equal. lia.
Qed.

Lemma adv_S b n : incr (adv b n) = adv b (S n).
Proof.
  assert (0 <= adv b n < QSIZE) by (apply Z.mod_pos_bound; done). rewrite (proj1 (incr_mod _ H)). unfold adv, QSIZE.
  rewrite Z.add_mod_idemp_l by lia. f_equal. lia.
Qed.

Lemma ring_snoc l b n : 0 <= b < QSIZE -> ring l b (S n) = ring l b n ++ [slot l (adv b n)].
Proof.
  revert b. induction n as [|n IH]; intros b Hb.
  - cbn. unfold adv, QSIZE in *. rewrite Z.add_0_r, Z.mod_small by lia. done.
  - change (ring l b (S (S n))) with (slot l b :: ring l (incr b) (S n)). rewrite IH by (by apply incr_mod). by rewrite adv_incr.
Qed.

(** A slot outside a part of the ring may change. *)
Lemma ring_insert l e b n i :
  0 <= b < QSIZE -> 0 <= i -> (forall j, (j < n)%nat -> adv b j <> i) -> ring (<[Z.to_nat i := e]> l) b n = ring l b n.
Proof.
  revert b. induction n as [|n IH]; intros b Hb Hi Hj; [done|]. cbn [ring]. f_equal.
  - unfold slot. rewrite list_lookup_insert_ne; [done|]. specialize (Hj 0%nat ltac:(lia)). unfold adv, QSIZE in *.
    rewrite Z.add_0_r, Z.mod_small in Hj by lia. lia.
  - apply IH; [by apply incr_mod|done|]. intros j Hlt. rewrite adv_incr by done. apply Hj. lia.
Qed.

Lemma adv_ne b j n : 0 <= b < QSIZE -> (j < n)%nat -> Z.of_nat n < QSIZE -> adv b j <> adv b n.
Proof.
  unfold adv, QSIZE. intros Hb Hj Hn E. assert (H : (b + Z.of_nat n - (b + Z.of_nat j)) mod 8 = 0) by (rewrite Zminus_mod, E, Z.sub_diag; done).
  replace (b + Z.of_nat n - (b + Z.of_nat j)) with (Z.of_nat n - Z.of_nat j) in H by lia. rewrite Z.mod_small in H by lia. lia.
Qed.

(** ** The invariant *)

(** The first slot that was not sent, and how many there are. *)
Definition base (s : dge) : Z := match pc s with PNext => incr (iget s) | _ => iget s end.
Definition count (s : dge) : Z := match pc s with PTest | PSend => nqueue s | _ => nqueue s - 1 end.

Record core (s : dge) : Prop := Core {
  co_dg : len (dg s) = QSIZE;
  co_slots : Forall (slot_ok (clilen s)) (dg s);
  co_get : 0 <= iget s < QSIZE;
  co_nq : 0 <= count s /\ nqueue s <= QSIZE /\ (pc s = PSend -> 1 <= nqueue s);
  co_put : iput s = adv (base s) (Z.to_nat (count s));
  co_queue : g_recv s = g_sent s ++ ring (dg s) (base s) (Z.to_nat (count s));
  co_sock : Forall (arrival_ok (clilen s)) (sock s)
}.

(** The number of datagrams that the histogram counts. *)
Fixpoint hist (i : Z) (c : list Z) : Z :=
  match c with [] => 0 | n :: c' => i * n + hist (i + 1) c' end.

Record dg_inv (s : dge) : Prop := DgInv {
  di_core : core s;
  di_cnt : len (cntread s) = QSIZE + 1;
  di_hist : hist 0 (cntread s) = len (g_recv s);
  di_last : cntread s !! Z.to_nat QSIZE = Some 0
}.

Lemma hist_insert c i k n : c !! k = Some n -> hist i (<[k := n + 1]> c) = hist i c + (i + Z.of_nat k).
Proof.
  revert i k. induction c as [|x c IH]; intros i k; [done|]. destruct k as [|k].
  - intros [= ->]. cbn. lia.
  - intros H. change (<[S k := n + 1]> (x :: c)) with (x :: <[k := n + 1]> c). cbn [hist]. rewrite (IH (i + 1) k H). lia.
Qed.

Lemma base_range s : core s -> 0 <= base s < QSIZE.
Proof. intros [_ _ H _ _ _ _]. unfold base. destruct (pc s); try done. by apply incr_mod. Qed.

(** Storing a datagram. *)
Lemma store_ok s d q :
  core s -> nqueue s < QSIZE -> sock s = ADgram d :: q ->
  exists s', store_dg d s s = Ret tt s' /\ core s' /\ nqueue s' = nqueue s + 1 /\ len (g_recv s') = len (g_recv s) + 1 /\
    cntread s' = cntread s /\ g_sent s' = g_sent s /\ pc s' = pc s /\ sock s' = q.
Proof.
  intros Hc Hn Hs. pose proof (base_range s Hc) as Hb. destruct Hc as [Hdg Hsl Hg (Hc0 & _ & Hps) Hput Hq Hsk].
  assert (Hi : 0 <= iput s < QSIZE) by (rewrite Hput; by apply Z.mod_pos_bound).
  destruct (lookup_lt_is_Some_2 (dg s) (Z.to_nat (iput s))) as [e He]; [unfold len, QSIZE in *; lia|].
  assert (Hd : arrival_ok (clilen s) (ADgram d)) by (rewrite Hs in Hsk; by inversion Hsk). cbn in Hd.
  assert (He' : slot_ok (clilen s) e) by (rewrite Forall_forall in Hsl; apply Hsl; by eapply list_elem_of_lookup_2). destruct He' as [He1 He2].
  unfold store_dg. rewrite He. set (data := take _ _). set (e' := MkDG _ _ _ _).
  assert (Hdl : len data <= MAXDG) by (unfold data, len, MAXDG; rewrite length_take; lia).
  assert (Hok : slot_ok (clilen s) e') by (unfold e'; split; cbn [dg_data dg_sa]; rewrite <- ?He1, <- ?He2; unfold len in *; f_equal; apply length_splice; lia).
  assert (Hof : dgram_of e' = Dgram data (d_from d)).
  { unfold dgram_of, e'. cbn [dg_data dg_len dg_sa dg_salen]. unfold splice. rewrite take_0, !app_nil_l. unfold len. rewrite !Nat2Z.id. by rewrite !take_app_length. }
  assert (Hcs : count s <= nqueue s) by (unfold count; destruct (pc s); lia).
  eexists. split; [reflexivity|]. split; [|split_and!; try done; cbn; [by rewrite len_app|by rewrite Hs]].
  set (s' := Dge _ _ _ _ _ _ _ _ _ _). assert (Hbs : base s' = base s) by done.
  assert (Hct : count s' = count s + 1) by (unfold count, s'; cbn; destruct (pc s); lia).
  assert (Hz : Z.to_nat (count s + 1) = S (Z.to_nat (count s))) by lia.
  split; rewrite ?Hbs, ?Hct, ?Hz; cbn [dg clilen iget nqueue iput g_recv g_sent sock pc s']; try done.
  - unfold len. by rewrite length_insert.
  - by apply Forall_insert.
  - split; [lia|]. split; [lia|]. intros ?. lia.
  - rewrite Hput. apply adv_S.
  - rewrite ring_snoc, Hq, app_assoc by done. f_equal; [f_equal; symmetry; apply ring_insert; [done|lia|]|].
    + intros j Hj. rewrite Hput. apply adv_ne; [done|done|lia].
    + rewrite <- Hput. unfold slot. rewrite list_lookup_insert_eq by (by eapply lookup_lt_Some). cbn. by rewrite Hof.
  - rewrite Hs in *. by inversion Hsk.
Qed.

(** The loop of the handler ends within its fuel, and the last place of the histogram is
    out of its reach. *)
Lemma sig_loop_ok fuel nread s :
  core s -> QSIZE - nqueue s <= Z.of_nat fuel ->
  match sig_loop fuel nread s with
  | Ret n s' => core s' /\ n - nread = len (g_recv s') - len (g_recv s) /\ n - nread = nqueue s' - nqueue s /\ nread <= n /\ nqueue s' < QSIZE /\
      cntread s' = cntread s /\ g_sent s' = g_sent s /\ pc s' = pc s
  | Die _ _ => True
  | _ => False
  end.
Proof.
  revert nread s. induction fuel as [|f IH]; intros nread s Hc Hf; cbn [sig_loop]; unfold bind at 1, getst; destruct (Z.leb_spec QSIZE (nqueue s)); try done.
  - destruct (sock s) as [|[d|] q]; [|lia|done]. unfold ret. split_and!; try done; lia.
  - destruct (sock s) as [|[d|] q] eqn:Es; [unfold ret; split_and!; (done || lia)| |done].
    destruct (store_ok s d q Hc ltac:(lia) Es) as (s1 & Hs1 & Hc1 & Hn1 & Hr1 & Hcn & Hsn & Hp1 & _). unfold bind. rewrite Hs1.
    specialize (IH (nread + 1) s1 Hc1 ltac:(lia)). destruct (sig_loop f (nread + 1) s1); try done.
    destruct IH as (I1 & I2 & I3 & I4 & I5 & I6 & I7 & I8). split_and!; try done; (lia || congruence).
Qed.

Lemma sig_io_ok s :
  dg_inv s -> match sig_io s with Ret _ s' => dg_inv s' | Die _ _ => True | _ => False end.
Proof.
  intros [Hc Hl Hh H8]. unfold sig_io. assert (Hq : 0 <= nqueue s) by (destruct (co_nq _ Hc) as [H _]; unfold count in H; destruct (pc s); lia).
  pose proof (sig_loop_ok (Z.to_nat QSIZE) 0 s Hc ltac:(unfold QSIZE; lia)) as H. unfold bind at 1. destruct (sig_loop _ 0 s) as [n s1| | |]; try done.
  destruct H as (I1 & I2 & I3 & I4 & I5 & I6 & I7 & I8). unfold bind, gets. rewrite I6.
  destruct (lookup_lt_is_Some_2 (cntread s) (Z.to_nat n)) as [x Hx]; [unfold len, QSIZE in *; lia|]. rewrite Hx. unfold modst.
  split; cbn [cntread set_cnt g_recv]; [by destruct I1| | |].
  - unfold len in *. by rewrite length_insert.
  - rewrite (hist_insert _ _ _ _ Hx). lia.
  - rewrite list_lookup_insert_ne by (unfold QSIZE in *; lia). done.
Qed.

(** A step of the main loop. *)
Lemma main_step_ok ok s r :
  dg_inv s -> main_step ok s = Some r ->
  match r with Ret _ s' => dg_inv s' | Die d _ => ok = false /\ d = DSys "sendto error" | _ => False end.
Proof.
  intros [Hc Hl Hh H8]. pose proof (base_range s Hc) as Hb. destruct Hc as [Hdg Hsl Hg (Hc0 & Hc1 & Hps) Hput Hq Hsk]. unfold main_step.
  unfold base, count in *. destruct (pc s) eqn:Ep.
  - destruct (Z.eqb_spec (nqueue s) 0); [done|]. intros [= <-]. split; [|done..]. split; try done. unfold count. cbn. lia.
  - intros [= <-]. unfold send_dg. unfold bind at 1 2, getst. destruct (lookup_lt_is_Some_2 (dg s) (Z.to_nat (iget s))) as [e He]; [unfold len, QSIZE in *; lia|].
    rewrite He. destruct ok; [|done]. cbn [negb]. unfold modst. split; [|done..]. specialize (Hps eq_refl). assert (Hz : Z.to_nat (nqueue s) = S (Z.to_nat (nqueue s - 1))) by lia.
    rewrite Hz in Hput, Hq. split; unfold base, count; cbn [pc set_pc add_sent dg clilen iget nqueue iput g_recv g_sent sock]; try done; [by split_and!; try lia|by rewrite adv_incr|].
    rewrite Hq. cbn [ring]. rewrite <- app_assoc. f_equal. cbn. f_equal. unfold slot. by rewrite He.
  - intros [= <-]. split; [|done..]. split; unfold base, count; cbn [pc set_pc set_iget dg clilen iget nqueue iput g_recv g_sent sock]; done.
  - intros [= <-]. split; [|done..]. split; unfold base, count; cbn [pc set_pc dg clilen iget nqueue iput g_recv g_sent sock]; done.
  - intros [= <-]. split; [|done..]. split; unfold base, count; cbn [pc set_pc set_nqueue dg clilen iget nqueue iput g_recv g_sent sock]; try done. by split_and!; try lia.
Qed.

Definition cfg_inv (c : config) : Prop := match c with inl s => dg_inv s | inr _ => True end.

Lemma dg_step_inv c c' : dg_step c c' -> cfg_inv c -> cfg_inv c'.
Proof.
  intros H Hi. destruct H as [s a Ha|s ok r c Hm Haf|s c Hm Haf]; cbn in Hi.
  - destruct Hi as [[] ? ? ?]. split; [|done..]. split; try done. cbn. apply Forall_app. split; [done|by constructor].
  - pose proof (main_step_ok ok s r Hi Hm) as Hr. destruct r as [[] s'|d s'|w|]; try done; cbn in Haf; by subst c.
  - pose proof (sig_io_ok s Hi) as Hr. destruct (sig_io s) as [[] s'|d s'|w|]; try done; cbn in Haf; by subst c.
Qed.

Lemma dg_init_inv slots clilen : len slots = QSIZE -> Forall (slot_ok clilen) slots -> dg_inv (dg_init slots clilen).
Proof. intros Hl Hs. split; [|done..]. split; unfold base, count; cbn; try done; unfold QSIZE; lia. Qed.

Lemma dg_reach c c' : rtc dg_step c c' -> cfg_inv c -> cfg_inv c'.
Proof. induction 1 as [|c0 c1 c2 Hst _ IH]; [done|]. intros Hi. apply IH. by eapply dg_step_inv. Qed.

(** Datagrams that arrive while the server does nothing. *)
Lemma arrive_all s ds :
  Forall (fun d => len (d_from d) <= clilen s) ds -> rtc dg_step (inl s) (inl (set_sock (sock s ++ (ADgram <$> ds)) s)).
Proof.
  revert s. induction ds as [|d ds IH]; intros s H.
  - rewrite app_nil_r. destruct s. apply rtc_refl.
  - inversion H as [|? ? Hd Hds]; subst. eapply rtc_l; [by apply (st_arrive s (ADgram d))|].
    specialize (IH (set_sock (sock s ++ [ADgram d]) s) Hds). cbn [sock set_sock] in IH. by rewrite <- app_assoc in IH.
Qed.

(** A full ring ends the server. *)
Lemma sig_loop_full fuel nread s ds :
  core s -> sock s = ADgram <$> ds -> nqueue s + len ds = QSIZE -> (length ds <= fuel)%nat ->
  exists s', sig_loop fuel nread s = Die (DQuit "receive overflow") s' /\ sock s' = [].
Proof.
  revert fuel nread s. induction ds as [|d ds IH]; intros fuel nread s Hc Hs Hn Hf.
  - exists s. split; [|done]. rewrite len_nil in Hn. destruct fuel; cbn [sig_loop]; unfold bind at 1, getst; by destruct (Z.leb_spec QSIZE (nqueue s)); [|lia].
  - destruct fuel as [|f]; [simpl in Hf; lia|]. rewrite len_cons in Hn. pose proof (len_nonneg ds). cbn [sig_loop]. unfold bind at 1, getst.
    destruct (Z.leb_spec QSIZE (nqueue s)); [lia|]. cbn in Hs. rewrite Hs.
    destruct (store_ok s d (ADgram <$> ds) Hc ltac:(lia) Hs) as (s1 & Hs1 & Hc1 & Hn1 & _ & _ & _ & _ & Hk1). unfold bind. rewrite Hs1.
    apply IH; [done|done|lia|simpl in Hf; lia].
Qed.

(** ** Theorems *)

(** C14: In every reachable state of the server the datagrams that were read are the
    ones that were sent followed by those that wait in the ring, in the order of arrival
    and with the address of their sender: none is lost, doubled, reordered or
    overwritten. *)
Theorem dg_fifo (slots : list DG) (clilen : Z) (s : dge) :
  len slots = QSIZE -> Forall (slot_ok clilen) slots -> rtc dg_step (inl (dg_init slots clilen)) (inl s) ->
  g_recv s = g_sent s ++ ring (dg s) (base s) (Z.to_nat (count s)) /\ 0 <= count s <= QSIZE.
Proof.
  intros Hl Hs Hr. pose proof (dg_reach _ _ Hr (dg_init_inv _ _ Hl Hs)) as [Hc _ _ _]. split; [apply Hc|].
  destruct (co_nq _ Hc) as (H1 & H2 & _). unfold count in *. destruct (pc s); lia.
Qed.

(** In every reachable state the main loop and the handler stay within their arrays and the
    handler ends; the server ends only by the handler's choice or when [Sendto] fails. *)
Theorem dg_safe (slots : list DG) (clilen : Z) (s : dge) :
  len slots = QSIZE -> Forall (slot_ok clilen) slots -> rtc dg_step (inl (dg_init slots clilen)) (inl s) ->
  match sig_io s with Ret _ _ | Die _ _ => True | Undef _ | NoFuel => False end /\
  forall ok r, main_step ok s = Some r ->
    (exists s', r = Ret tt s') \/ ok = false /\ exists s', r = Die (DSys "sendto error") s'.
Proof.
  intros Hl Hs Hr. pose proof (dg_reach _ _ Hr (dg_init_inv _ _ Hl Hs)) as Hi. split.
  - pose proof (sig_io_ok s Hi) as H. by destruct (sig_io s).
  - intros ok r Hm. pose proof (main_step_ok ok s r Hi Hm) as H. destruct r as [[] s'|d s'|w|]; try done; [by left; exists s'|].
    right. destruct H as [-> ->]. eauto.
Qed.

(** The histogram that [sig_hup] prints counts every datagram that was read, and
    its last line is always zero: the handler ends the server when the ring is full. *)
Theorem dg_histogram (slots : list DG) (clilen : Z) (s : dge) :
  len slots = QSIZE -> Forall (slot_ok clilen) slots -> rtc dg_step (inl (dg_init slots clilen)) (inl s) ->
  hist 0 (sig_hup s).*2 = len (g_recv s) /\ last (sig_hup s) = Some (QSIZE, 0).
Proof.
  intros Hl Hs Hr. pose proof (dg_reach _ _ Hr (dg_init_inv _ _ Hl Hs)) as [_ Hc Hh H8]. unfold sig_hup. split.
  - rewrite <- Hh. f_equal. rewrite fmap_imap. apply list_eq. intros i. rewrite list_lookup_imap. by destruct (cntread s !! i).
  - rewrite last_lookup, length_imap, list_lookup_imap. unfold len, QSIZE in *.
    replace (length (cntread s)) with 9%nat by lia. cbn [pred]. change (Z.to_nat 8) with 8%nat in H8. by rewrite H8.
Qed.

(** Eight datagrams that wait for an idle server end it, although the ring has
    room for all of them: the handler tests for a full ring before it looks whether there
    is another datagram. *)
Theorem dg_full_quits (slots : list DG) (clilen : Z) (ds : list dgram) :
  len slots = QSIZE -> Forall (slot_ok clilen) slots -> len ds = QSIZE -> Forall (fun d => len (d_from d) <= clilen) ds ->
  exists s, rtc dg_step (inl (dg_init slots clilen)) (inl s) /\ sock s = ADgram <$> ds /\ nqueue s = 0 /\
    exists s', sig_io s = Die (DQuit "receive overflow") s' /\ sock s' = [].
Proof.
  intros Hl Hs Hd Hf. set (s0 := dg_init slots clilen). exists (set_sock (ADgram <$> ds) s0). split; [by apply (arrive_all s0)|]. split; [done|]. split; [done|].
  assert (Hc : core (set_sock (ADgram <$> ds) s0)).
  { destruct (di_core _ (dg_init_inv _ _ Hl Hs)). split; try done. cbn. by apply Forall_fmap. }
  destruct (sig_loop_full (Z.to_nat QSIZE) 0 _ ds Hc eq_refl ltac:(cbn; lia)) as (s' & H & H'); [unfold len, QSIZE in *; lia|].
  exists s'. split; [|done]. unfold sig_io, bind at 1. by rewrite H.
Qed.

(** ** A run *)

Definition slots0 : list DG := replicate 8 (MkDG (replicate 4096 NUL) 0 (replicate 16 NUL) 16).

Lemma slots0_ok : len slots0 = QSIZE /\ Forall (slot_ok 16) slots0.
Proof.
  unfold slots0. split; [done|]. apply Forall_replicate. unfold slot_ok, len. cbn [dg_data dg_sa]. by rewrite !length_replicate.
Qed.

Definition ping : dgram := Dgram (bs "ping") (bs "client").

(** A datagram arrives, and the handler reads it. *)
Definition dge1 : dge := match sig_io (set_sock [ADgram ping] (dg_init slots0 16)) with Ret _ s => s | _ => dg_init slots0 16 end.

Lemma dge1_reach : rtc dg_step (inl (dg_init slots0 16)) (inl dge1).
Proof.
  eapply rtc_l; [apply (st_arrive _ (ADgram ping)); done|]. apply rtc_once. apply st_sigio; [done|]. by vm_compute.
Qed.

Lemma dg_fifo_witness : g_recv dge1 = g_sent dge1 ++ ring (dg dge1) (base dge1) (Z.to_nat (count dge1)) /\ 0 <= count dge1 <= QSIZE.
Proof. apply (dg_fifo slots0 16 dge1); [apply slots0_ok|apply slots0_ok|exact dge1_reach]. Defined.

Lemma dg_safe_witness :
  match sig_io dge1 with Ret _ _ | Die _ _ => True | Undef _ | NoFuel => False end /\
  forall ok r, main_step ok dge1 = Some r ->
    (exists s', r = Ret tt s') \/ ok = false /\ exists s', r = Die (DSys "sendto error") s'.
Proof. apply (dg_safe slots0 16 dge1); [apply slots0_ok|apply slots0_ok|exact dge1_reach]. Defined.

Lemma dg_histogram_witness : hist 0 (sig_hup dge1).*2 = len (g_recv dge1) /\ last (sig_hup dge1) = Some (QSIZE, 0).
Proof. apply (dg_histogram slots0 16 dge1); [apply slots0_ok|apply slots0_ok|exact dge1_reach]. Defined.

Lemma dg_full_quits_witness :
  exists s, rtc dg_step (inl (dg_init slots0 16)) (inl s) /\ sock s = ADgram <$> replicate 8 ping /\ nqueue s = 0 /\
    exists s', sig_io s = Die (DQuit "receive overflow") s' /\ sock s' = [].
Proof. apply (dg_full_quits slots0 16 (replicate 8 ping)); [apply slots0_ok|apply slots0_ok|done|by apply Forall_replicate]. Defined.

(** ** Sending what is queued *)

(** The main loop alone, with any outcome of [Sendto], and while [Sendto] works. *)
Inductive main_run : config -> config -> Prop :=
| mr_step s ok r c : main_step ok s = Some r -> after r c -> main_run (inl s) c.
Definition main_sends (s s' : dge) : Prop := main_step true s = Some (Ret tt s').

(** The steps that are left until the ring is empty. *)
Definition work (s : dge) : Z :=
  5 * nqueue s - match pc s with PTest => 0 | PSend => 1 | PNext => 2 | PBlock => 3 | PDec => 4 end.
Definition cfg_work (c : config) : Z := match c with inl s => work s | inr _ => 0 end.

Lemma work_range s : dg_inv s -> 0 <= work s <= 5 * QSIZE.
Proof.
  intros [Hc _ _ _]. destruct (co_nq _ Hc) as (H0 & H1 & H2). unfold count, work in *. destruct (pc s); try lia.
  specialize (H2 eq_refl). lia.
Qed.

(** Each step does a part of the work and reads nothing. *)
Lemma main_step_work ok s r :
  dg_inv s -> main_step ok s = Some r ->
  match r with Ret _ s' => work s' = work s - 1 /\ g_recv s' = g_recv s | _ => 1 <= work s end.
Proof.
  intros [Hc _ _ _]. destruct (co_nq _ Hc) as (_ & _ & H2). unfold main_step, work. destruct (pc s) eqn:Ep.
  - destruct (Z.eqb_spec (nqueue s) 0); [done|]. intros [= <-]. cbn. split; [lia|done].
  - intros [= <-]. specialize (H2 eq_refl). unfold send_dg, bind, getst.
    destruct (dg s !! Z.to_nat (iget s)) as [e|]; [|cbn; lia]. destruct ok; cbn; [|lia]. split; [lia|done].
  - intros [= <-]. cbn. split; [lia|done].
  - intros [= <-]. cbn. split; [lia|done].
  - intros [= <-]. cbn. split; [lia|done].
Qed.

(** The main loop waits exactly when no work is left. *)
Lemma main_waits ok s : dg_inv s -> main_step ok s = None <-> work s = 0.
Proof.
  intros [Hc _ _ _]. destruct (co_nq _ Hc) as (_ & _ & H2). unfold main_step, work. destruct (pc s) eqn:Ep.
  - destruct (Z.eqb_spec (nqueue s) 0); split; try done; lia.
  - split; [done|]. specialize (H2 eq_refl). lia.
  - split; [done|lia].
  - split; [done|lia].
  - split; [done|lia].
Qed.

Lemma no_work_sent s : dg_inv s -> work s = 0 -> pc s = PTest /\ nqueue s = 0 /\ g_sent s = g_recv s.
Proof.
  intros [Hc _ _ _] Hw. pose proof (co_queue _ Hc) as Hq. destruct (co_nq _ Hc) as (_ & _ & H2). unfold work, count in *.
  destruct (pc s) eqn:Ep; [|specialize (H2 eq_refl); lia|lia|lia|lia]. assert (E : nqueue s = 0) by lia.
  rewrite E in Hq. cbn in Hq. by rewrite app_nil_r in Hq.
Qed.

(** [c] comes after the main loop alone has worked on [s]. *)
Definition follows (s : dge) (c : config) : Prop :=
  match c with inl s' => dg_inv s' /\ g_recv s' = g_recv s | inr d => d = DSys "sendto error" end.

Lemma main_run_step s c c' :
  follows s c -> main_run c c' -> follows s c' /\ cfg_work c' <= cfg_work c - 1.
Proof.
  intros Hf H. destruct H as [s1 ok r c' Hm Haf]. destruct Hf as [Hi Hg]. pose proof (main_step_ok ok s1 r Hi Hm) as Hk.
  pose proof (main_step_work ok s1 r Hi Hm) as Hw. destruct r as [[] s2|d s2|w|]; try done; cbn in Haf; subst c'; cbn.
  - destruct Hw as [Hw Hr]. split; [split; [done|congruence]|lia].
  - split; [apply Hk|lia].
Qed.

Lemma main_run_steps s n c c' :
  nsteps main_run n c c' -> follows s c -> follows s c' /\ Z.of_nat n + cfg_work c' <= cfg_work c.
Proof.
  induction 1 as [c|n c c1 c2 Hst _ IH]; intros Hf; [split; [done|lia]|].
  destruct (main_run_step s c c1 Hf Hst) as [Hf1 Hw1]. destruct (IH Hf1) as [Hf2 Hw2]. split; [done|lia].
Qed.

Lemma main_sends_all n s : dg_inv s -> work s = Z.of_nat n -> exists s', nsteps main_sends n s s' /\ main_step true s' = None /\ g_sent s' = g_recv s.
Proof.
  revert s. induction n as [|n IH]; intros s Hi Hw.
  - exists s. split; [apply nsteps_O|]. split; [by apply main_waits|by apply no_work_sent].
  - destruct (main_step true s) as [r|] eqn:Em; [|apply main_waits in Em; [lia|done]].
    pose proof (main_step_ok true s r Hi Em) as Hk. pose proof (main_step_work true s r Hi Em) as Hv.
    destruct r as [[] s1|d s1|w|]; try done; [|by destruct Hk]. destruct Hv as [Hv Hr].
    destruct (IH s1 Hk ltac:(lia)) as (s2 & Hn & Hm & Hg). exists s2. split; [by eapply nsteps_l|]. split; [done|congruence].
Qed.

(** C34: When no more datagrams come, the main loop sends what was read.  From every
    reachable state, wherever the loop is, and for every outcome of each [Sendto], the
    loop makes at most [5 * QSIZE] steps; where it stops it either waits in [sigsuspend],
    and everything that was read has been sent, or a failing [Sendto] has ended the
    server.  When no [Sendto] fails it comes to wait after everything was sent. *)
Theorem dg_drains (slots : list DG) (clilen : Z) (s : dge) :
  len slots = QSIZE -> Forall (slot_ok clilen) slots -> rtc dg_step (inl (dg_init slots clilen)) (inl s) ->
  (forall n c, nsteps main_run n (inl s) c -> Z.of_nat n <= 5 * QSIZE) /\
  (forall c, rtc main_run (inl s) c -> (forall c', ~ main_run c c') ->
     (exists s', c = inl s' /\ main_step true s' = None /\ g_sent s' = g_recv s) \/ c = inr (DSys "sendto error")) /\
  (exists s', rtc main_sends s s' /\ main_step true s' = None /\ g_sent s' = g_recv s).
Proof.
  intros Hl Hs Hr. pose proof (dg_reach _ _ Hr (dg_init_inv _ _ Hl Hs)) as Hi. cbn in Hi. pose proof (work_range s Hi) as Hw.
  assert (Hf : follows s (inl s)) by by split. split_and!.
  - intros n c Hn. destruct (main_run_steps s n _ c Hn Hf) as [Hc Hb]. cbn in Hb.
    assert (0 <= cfg_work c) by (destruct c as [s1|d]; [apply work_range, Hc|done]). lia.
  - intros c Hn Hstuck. apply rtc_nsteps in Hn as [n Hn]. destruct (main_run_steps s n _ c Hn Hf) as [Hc _].
    destruct c as [s1|d]; [left|right; cbn in Hc; by subst d]. destruct Hc as [Hi1 Hg1]. exists s1. split; [done|].
    assert (Hm : main_step true s1 = None).
    { destruct (main_step true s1) as [r|] eqn:Em; [|done]. exfalso. pose proof (main_step_ok true s1 r Hi1 Em) as Hk.
      destruct r as [[] s2|d s2|w|]; [|by destruct Hk|done|done]. by apply (Hstuck (inl s2)), (mr_step s1 true _ _ Em). }
    split; [done|]. apply main_waits in Hm; [|done]. rewrite <- Hg1. by apply no_work_sent.
  - destruct (main_sends_all (Z.to_nat (work s)) s Hi ltac:(lia)) as (s' & Hn & Hm & Hg). exists s'. split; [|done].
    apply rtc_nsteps. by eexists.
Qed.

Lemma dg_drains_witness :
  (forall n c, nsteps main_run n (inl dge1) c -> Z.of_nat n <= 5 * QSIZE) /\
  (exists s', rtc main_sends dge1 s' /\ main_step true s' = None /\ g_sent s' = g_recv dge1).
Proof.
  destruct (dg_drains slots0 16 dge1) as (H1 & _ & H3); [apply slots0_ok|apply slots0_ok|exact dge1_reach|]. by split.
Defined.
