(* ===== verification/StrCli.v ===== *)
(** * The echo client without blocking (unpv13e/nonblock/strclinonb.c)

    [str_cli] copies standard input to a socket and the socket to standard output through
    two buffers, with [select] and descriptors that do not block.  A turn of its loop takes
    from its environment what [select] reports and what each [read] and [write] returns;
    partial writes, full buffers and [EWOULDBLOCK] may come at any time.  The ghost fields
    record the bytes of the four streams. *)

From Stdlib Require Import Strings.Byte ZArith Lia.
From S2P Require Import Prelude Wp Libc.
From stdpp Require Import base strings numbers list.
#[local] Open Scope Z_scope.

Definition NB_MAXLINE : Z := 4096.
Definition EWOULDBLOCK : Z := 11.

(** The pointers are indices into their buffers; [fins] counts the calls of [Shutdown]. *)
Record nb := Nb {
  to : bytes; fr : bytes; toiptr : Z; tooptr : Z; friptr : Z; froptr : Z; stdineof : bool; fins : Z;
  g_stdin : bytes; g_net : bytes; g_reply : bytes; g_out : bytes
}.

Inductive rdres := RdErr (e : Z) | RdData (d : bytes).
Inductive wrres := WrErr (e : Z) | WrN (n : Z).

(** One turn of the environment: what [read] returns on the two inputs when they are
    ready, whether the two outputs are, and what [write] returns on them. *)
Record turn := Turn {
  t_stdin : option rdres; t_sock : option rdres; t_stdout : bool; t_sockw : bool; t_wout : wrres; t_wsock : wrres
}.

Definition set_eof s := Nb (to s) (fr s) (toiptr s) (tooptr s) (friptr s) (froptr s) true (fins s) (g_stdin s) (g_net s) (g_reply s) (g_out s).
Definition add_fin s := Nb (to s) (fr s) (toiptr s) (tooptr s) (friptr s) (froptr s) (stdineof s) (fins s + 1) (g_stdin s) (g_net s) (g_reply s) (g_out s).

(** [read] of [d] at [toiptr], and at [friptr]. *)
Definition put_to (d : bytes) s :=
  Nb (splice (Z.to_nat (toiptr s)) d (to s)) (fr s) (toiptr s + len d) (tooptr s) (friptr s) (froptr s) (stdineof s) (fins s)
    (g_stdin s ++ d) (g_net s) (g_reply s) (g_out s).
Definition put_fr (d : bytes) s :=
  Nb (to s) (splice (Z.to_nat (friptr s)) d (fr s)) (toiptr s) (tooptr s) (friptr s + len d) (froptr s) (stdineof s) (fins s)
    (g_stdin s) (g_net s) (g_reply s ++ d) (g_out s).

(** [n] bytes written from [tooptr], and from [froptr]. *)
Definition get_to (n : Z) s :=
  Nb (to s) (fr s) (toiptr s) (tooptr s + n) (friptr s) (froptr s) (stdineof s) (fins s)
    (g_stdin s) (g_net s ++ slice (Z.to_nat (tooptr s)) (Z.to_nat n) (to s)) (g_reply s) (g_out s).
Definition get_fr (n : Z) s :=
  Nb (to s) (fr s) (toiptr s) (tooptr s) (friptr s) (froptr s + n) (stdineof s) (fins s)
    (g_stdin s) (g_net s) (g_reply s) (g_out s ++ slice (Z.to_nat (froptr s)) (Z.to_nat n) (fr s)).

Definition rewind_to s := Nb (to s) (fr s) 0 0 (friptr s) (froptr s) (stdineof s) (fins s) (g_stdin s) (g_net s) (g_reply s) (g_out s).
Definition rewind_fr s := Nb (to s) (fr s) (toiptr s) (tooptr s) 0 0 (stdineof s) (fins s) (g_stdin s) (g_net s) (g_reply s) (g_out s).

(** The descriptors that [select] is asked about. *)
Definition ask_stdin s : bool := negb (stdineof s) && (toiptr s <? NB_MAXLINE).
Definition ask_sock s : bool := friptr s <? NB_MAXLINE.
Definition ask_sockw s : bool := negb (tooptr s =? toiptr s).
Definition ask_stdout s : bool := negb (froptr s =? friptr s).

Definition reported {A} (asked : bool) (r : option A) : option A := if asked then r else None.

(** Standard input; the value says whether the socket was added to [wset]. *)
Definition from_stdin (r : option rdres) : M nb bool :=
  match r with
  | None => ret false
  | Some (RdErr e) => if e =? EWOULDBLOCK then ret false else die (DSys "read error on stdin")
  | Some (RdData d) =>
    s <- getst ;;
    match take (Z.to_nat (NB_MAXLINE - toiptr s)) d with
    | [] => modst set_eof ;;; when (tooptr s =? toiptr s) (modst add_fin) ;;; ret false
    | d' => modst (put_to d') ;;; ret true
    end
  end.

(** The socket; [None] is the return of the function, otherwise whether standard output was
    added to [wset]. *)
Definition from_sock (r : option rdres) : M nb (option bool) :=
  match r with
  | None => ret (Some false)
  | Some (RdErr e) => if e =? EWOULDBLOCK then ret (Some false) else die (DSys "read error on socket")
  | Some (RdData d) =>
    s <- getst ;;
    match take (Z.to_nat (NB_MAXLINE - friptr s)) d with
    | [] => if stdineof s then ret None else die (DQuit "str_cli: server terminated prematurely")
    | d' => modst (put_fr d') ;;; ret (Some true)
    end
  end.

(** What a [write] of [n] bytes returns. *)
Definition written (n : Z) (r : wrres) : Z + Z :=
  match r with WrErr e => inr e | WrN k => inl (Z.max 0 (Z.min k n)) end.

Definition to_stdout (isset : bool) (r : wrres) : M nb unit :=
  s <- getst ;;
  let n := friptr s - froptr s in
  if isset && (0 <? n) then
    match written n r with
    | inr e => if e =? EWOULDBLOCK then ret tt else die (DSys "write error to stdout")
    | inl k =>
      modst (get_fr k) ;;;
      s <- getst ;;
      when (froptr s =? friptr s) (modst rewind_fr)
    end
  else ret tt.

Definition to_sock (isset : bool) (r : wrres) : M nb unit :=
  s <- getst ;;
  let n := toiptr s - tooptr s in
  if isset && (0 <? n) then
    match written n r with
    | inr e => if e =? EWOULDBLOCK then ret tt else die (DSys "write error to socket")
    | inl k =>
      modst (get_to k) ;;;
      s <- getst ;;
      when (tooptr s =? toiptr s) (modst rewind_to ;;; when (stdineof s) (modst add_fin))
    end
  else ret tt.

(** One turn: [true] when the function returns. *)
Definition nb_turn (t : turn) : M nb bool :=
  s <- getst ;;
  w <- from_stdin (reported (ask_stdin s) (t_stdin t)) ;;
  o <- from_sock (reported (ask_sock s) (t_sock t)) ;;
  match o with
  | None => ret true
  | Some o =>
    to_stdout ((ask_stdout s && t_stdout t) || o) (t_wout t) ;;;
    to_sock ((ask_sockw s && t_sockw t) || w) (t_wsock t) ;;;
    ret false
  end.

(** The loop, for the turns that come: whether the function returned. *)
Fixpoint str_cli (ts : list turn) : M nb bool :=
  match ts with
  | [] => ret false
  | t :: ts' => d <- nb_turn t ;; if d then ret true else str_cli ts'
  end.

Definition nb_init (to0 fr0 : bytes) : nb := Nb to0 fr0 0 0 0 0 false 0 [] [] [] [].

(** ** The invariant *)

(** A buffer holds [p], the part of [a] that is not in [b] yet. *)
Record buf_inv (buf : bytes) (i o : Z) (a b : bytes) : Prop := BufInv {
  bi_size : len buf = NB_MAXLINE;
  bi_ptrs : 0 <= o <= i /\ i <= NB_MAXLINE;
  bi_empty : o = i -> i = 0;
  bi_data : a = b ++ slice (Z.to_nat o) (Z.to_nat (i - o)) buf
}.

Record nb_inv (s : nb) : Prop := NbInv {
  ni_to : buf_inv (to s) (toiptr s) (tooptr s) (g_stdin s) (g_net s);
  ni_fr : buf_inv (fr s) (friptr s) (froptr s) (g_reply s) (g_out s);
  ni_fin : fins s = if stdineof s && (tooptr s =? toiptr s) then 1 else 0
}.

Lemma slice_slice_app {A} (o n m : nat) (l : list A) : slice o (n + m) l = slice o n l ++ slice (o + n) m l.
Proof. unfold slice. rewrite <- (take_drop n (take (n + m) (drop o l))). rewrite take_take, Nat.min_l by lia. f_equal. rewrite <- drop_drop. by rewrite skipn_firstn_comm, Nat.add_comm, Nat.add_sub. Qed.

Lemma buf_put buf i o a b d :
  buf_inv buf i o a b -> len d <= NB_MAXLINE - i -> d <> [] -> buf_inv (splice (Z.to_nat i) d buf) (i + len d) o (a ++ d) b.
Proof.
  intros [Hs Hp He Hd] Hl Hn. assert (0 < len d) by (destruct d; [done|]; rewrite len_cons; pose proof (len_nonneg d); lia).
  unfold len, NB_MAXLINE in *. split.
  - unfold len. rewrite length_splice by lia. done.
  - unfold NB_MAXLINE, len. lia.
  - unfold len. lia.
  - rewrite Hd, <- app_assoc. f_equal. replace (Z.to_nat (i + Z.of_nat (length d) - o)) with (Z.to_nat (i - o) + length d)%nat by lia.
    rewrite slice_slice_app. f_equal.
    + unfold slice, splice. rewrite drop_app_le by (rewrite length_take; lia). rewrite take_app_le by (rewrite length_drop, length_take; lia).
      rewrite skipn_firstn_comm, take_take. f_equal. lia.
    + replace (Z.to_nat o + Z.to_nat (i - o))%nat with (Z.to_nat i) by lia. symmetry. apply slice_splice_eq. lia.
Qed.

Lemma buf_get buf i o a b k :
  buf_inv buf i o a b -> 0 <= k <= i - o -> o + k <> i -> buf_inv buf i (o + k) a (b ++ slice (Z.to_nat o) (Z.to_nat k) buf).
Proof.
  intros [Hs Hp He Hd] Hk Hne. split; [done|lia|lia|]. rewrite Hd, <- app_assoc. f_equal.
  replace (Z.to_nat (i - o)) with (Z.to_nat k + Z.to_nat (i - (o + k)))%nat by lia. rewrite slice_slice_app. do 2 f_equal. lia.
Qed.

Lemma buf_drained buf i o a b k :
  buf_inv buf i o a b -> 0 <= k <= i - o -> o + k = i -> buf_inv buf 0 0 a (b ++ slice (Z.to_nat o) (Z.to_nat k) buf).
Proof.
  intros [Hs Hp He Hd] Hk E. split; [done|unfold NB_MAXLINE; lia|done|]. rewrite Hd. replace (i - o) with k by lia. change (slice 0 (Z.to_nat (0 - 0)) buf) with (@nil byte).
  by rewrite app_nil_r.
Qed.

Lemma written_range n r k : 0 <= n -> written n r = inl k -> 0 <= k <= n.
Proof. unfold written. destruct r; [done|]. intros H [= <-]. lia. Qed.

(** The client may end with a system error, or because the server closed too early. *)
Definition nb_exit : death -> nb -> Prop :=
  fun d _ => (exists m, d = DSys m) \/ d = DQuit "str_cli: server terminated prematurely".

Lemma from_stdin_ok r s :
  nb_inv s -> (r <> None -> ask_stdin s = true) -> wp (from_stdin r) (fun _ s' => nb_inv s') nb_exit s.
Proof.
  intros [Ht Hf Hn] Ha. destruct r as [[e|d]|]; cbn [from_stdin]; [| |by split].
  { destruct (e =? EWOULDBLOCK); wp_step; [by split|]. left. by eexists. }
  specialize (Ha ltac:(done)). unfold ask_stdin in Ha. apply andb_true_iff in Ha as [Ha1 Ha2]. apply negb_true_iff in Ha1. apply Z.ltb_lt in Ha2. rewrite Ha1 in Hn. cbn in Hn.
  do 2 wp_step. destruct (take _ d) as [|x q] eqn:E.
  - do 3 wp_step. apply wp_when; intros Eb; wp_steps; (split; [exact Ht|exact Hf|cbn; rewrite Eb]); lia.
  - do 3 wp_step. assert (Hl : len (x :: q) <= NB_MAXLINE - toiptr s) by (rewrite <- E; unfold len; rewrite length_take; lia).
    split; [by apply buf_put|exact Hf|]. cbn. by rewrite Ha1.
Qed.

Lemma from_sock_ok r s :
  nb_inv s -> wp (from_sock r) (fun o s' => nb_inv s' /\ (o = None -> stdineof s' = true)) nb_exit s.
Proof.
  intros Hi. destruct r as [[e|d]|]; cbn [from_sock]; [| |by split].
  { destruct (e =? EWOULDBLOCK); wp_step; [by split|]. left. by eexists. }
  do 2 wp_step. destruct (take _ d) as [|x q] eqn:E.
  - destruct (stdineof s) eqn:Ee; wp_step; [by split|]. by right.
  - do 3 wp_step. destruct Hi as [Ht Hf Hn]. assert (Hl : len (x :: q) <= NB_MAXLINE - friptr s).
    { rewrite <- E. assert (len (take (Z.to_nat (NB_MAXLINE - friptr s)) d) <> 0) by (rewrite E; rewrite len_cons; pose proof (len_nonneg q); lia).
      unfold len in *. rewrite length_take in *. lia. }
    split; [|done]. split; [exact Ht|by apply buf_put|exact Hn].
Qed.

Lemma to_stdout_ok b r s : nb_inv s -> wp (to_stdout b r) (fun _ s' => nb_inv s') nb_exit s.
Proof.
  intros Hi. unfold to_stdout. do 2 wp_step. destruct (b && (0 <? friptr s - froptr s)) eqn:Eb; [|by wp_step].
  apply andb_true_iff in Eb as [_ Eb]. apply Z.ltb_lt in Eb. destruct (written _ r) as [k|e] eqn:Ew.
  2: { destruct (e =? EWOULDBLOCK); wp_step; [done|]. left. by eexists. }
  apply written_range in Ew; [|lia]. do 4 wp_step. destruct Hi as [Ht Hf Hn]. apply wp_when; intros E; cbn in E.
  - wp_step. apply Z.eqb_eq in E. split; [exact Ht|by eapply buf_drained|exact Hn].
  - apply Z.eqb_neq in E. split; [exact Ht|by apply buf_get|exact Hn].
Qed.

Lemma to_sock_ok b r s : nb_inv s -> wp (to_sock b r) (fun _ s' => nb_inv s') nb_exit s.
Proof.
  intros Hi. unfold to_sock. do 2 wp_step. destruct (b && (0 <? toiptr s - tooptr s)) eqn:Eb; [|by wp_step].
  apply andb_true_iff in Eb as [_ Eb]. apply Z.ltb_lt in Eb. destruct (written _ r) as [k|e] eqn:Ew.
  2: { destruct (e =? EWOULDBLOCK); wp_step; [done|]. left. by eexists. }
  apply written_range in Ew; [|lia]. do 4 wp_step. destruct Hi as [Ht Hf Hn]. destruct (Z.eqb_spec (tooptr s) (toiptr s)) as [?|Hne]; [lia|]. rewrite andb_false_r in Hn.
  apply wp_when; intros E; cbn in E.
  - apply Z.eqb_eq in E. do 2 wp_step. apply wp_when; intros Es; cbn in Es; wp_steps; (split; [by eapply buf_drained|exact Hf|cbn; rewrite Es; cbn; lia]).
  - apply Z.eqb_neq in E. split; [by apply buf_get|exact Hf|]. cbn. destruct (Z.eqb_spec (tooptr s + k) (toiptr s)); [done|]. by rewrite andb_false_r.
Qed.

Lemma nb_turn_ok t s : nb_inv s -> wp (nb_turn t) (fun d s' => nb_inv s' /\ (d = true -> stdineof s' = true)) nb_exit s.
Proof.
  intros Hi. unfold nb_turn. do 3 wp_step. eapply wp_conseq; [apply from_stdin_ok; [done|]|].
  { unfold reported. by destruct (ask_stdin s). }
  intros w s1 H1. wp_step. eapply wp_conseq; [by apply from_sock_ok|]. intros [o|] s2 [H2 E2]; [|wp_step; auto].
  wp_step. eapply wp_conseq; [by apply to_stdout_ok|]. intros [] s3 H3. wp_step. eapply wp_conseq; [by apply to_sock_ok|]. intros [] s4 H4. by wp_step.
Qed.

Lemma str_cli_inv ts s : nb_inv s -> wp (str_cli ts) (fun d s' => nb_inv s' /\ (d = true -> stdineof s' = true)) nb_exit s.
Proof.
  revert s. induction ts as [|t ts IH]; intros s Hi; cbn [str_cli]; [by wp_step|]. wp_step. eapply wp_conseq; [by apply nb_turn_ok|].
  intros d s1 [H1 E1]. destruct d; [wp_step; auto|by apply IH].
Qed.

(** ** Theorems *)

(** C19: Whatever [select], [read] and [write] do, the client copies both streams in
    order: what went to the socket is what came from standard input up to the bytes in the
    buffer, and what went to standard output is what came from the socket up to the bytes
    in the other buffer.  The buffers never overflow, and the connection is shut down
    once, when the input has ended and all of it was sent, and not before. *)
Theorem str_cli_copies (to0 fr0 : bytes) (ts : list turn) :
  len to0 = NB_MAXLINE -> len fr0 = NB_MAXLINE ->
  wp (str_cli ts) (fun d s =>
    (exists p, g_stdin s = g_net s ++ p /\ len p <= NB_MAXLINE /\ fins s = if stdineof s && bool_decide (p = []) then 1 else 0) /\
    (exists q, g_reply s = g_out s ++ q /\ len q <= NB_MAXLINE) /\
    (d = true -> stdineof s = true)) nb_exit (nb_init to0 fr0).
Proof.
  intros Ht Hf. eapply wp_conseq; [apply str_cli_inv|].
  { split; [split; try done|split; try done|done]; unfold NB_MAXLINE; cbn; lia. }
  intros d s [[H1 H2 H3] Hd]. assert (Hlen : forall buf i o a b, buf_inv buf i o a b -> let p := slice (Z.to_nat o) (Z.to_nat (i - o)) buf in
    len p <= NB_MAXLINE /\ (p = [] <-> o = i)).
  { intros buf i o a b [Hs Hp He _] p. assert (Hlp : length p = Z.to_nat (i - o)) by (apply length_slice; unfold len, NB_MAXLINE in *; lia).
    unfold len. rewrite Hlp. split; [lia|]. split; intros E; [rewrite E in Hlp; simpl in Hlp; lia|]. apply nil_length_inv. lia. }
  split; [|split; [|done]].
  - destruct (Hlen _ _ _ _ _ H1) as [L1 L2]. eexists. split; [apply (bi_data _ _ _ _ _ H1)|]. split; [done|]. rewrite H3.
    destruct (Z.eqb_spec (tooptr s) (toiptr s)) as [E|E]; [rewrite bool_decide_true by (by apply L2)|rewrite bool_decide_false by (by rewrite L2)]; done.
  - destruct (Hlen _ _ _ _ _ H2) as [L1 _]. eexists. by split; [apply (bi_data _ _ _ _ _ H2)|].
Qed.

(** A server that answers and closes while standard output does not take the answer yet. *)
Definition lost_turns : list turn :=
  [Turn (Some (RdData [])) None false false (WrN 0) (WrN 0);
   Turn None (Some (RdData (bs "reply"))) false false (WrErr EWOULDBLOCK) (WrN 0);
   Turn None (Some (RdData [])) false false (WrErr EWOULDBLOCK) (WrN 0)].

(** The client returns normally although a reply was not written: at the end of
    the socket it does not look at the bytes that wait for standard output. *)
Theorem str_cli_loses (to0 fr0 : bytes) :
  exists s, str_cli lost_turns (nb_init to0 fr0) = Ret true s /\ g_reply s = bs "reply" /\ g_out s = [].
Proof. by eexists. Qed.

Definition zeros : bytes := replicate (Z.to_nat NB_MAXLINE) NUL.

Lemma zeros_len : len zeros = NB_MAXLINE.
Proof. unfold zeros, len. by rewrite length_replicate. Qed.

Lemma str_cli_copies_witness :
  wp (str_cli [Turn (Some (RdData (bs "hello"))) None false false (WrN 0) (WrN 2)]) (fun d s =>
    (exists p, g_stdin s = g_net s ++ p /\ len p <= NB_MAXLINE /\ fins s = if stdineof s && bool_decide (p = []) then 1 else 0) /\
    (exists q, g_reply s = g_out s ++ q /\ len q <= NB_MAXLINE) /\
    (d = true -> stdineof s = true)) nb_exit (nb_init zeros zeros).
Proof. apply (str_cli_copies zeros zeros); exact zeros_len. Defined.
