(* ===== verification/BarrierSort.v ===== *)
(** * Sorting with threads and a barrier (apue.3e/threads/barrier.c)

    Eight threads sort a part of an array each; after the barrier the main thread merges
    the parts.  The library function [heapsort] is a parameter; the number of elements per
    thread is [TNUM], 1000000 in the program.  The parts are disjoint, so a run is the order
    in which the threads and the main thread reach the barrier.  Array indices are [nat]:
    the largest is 8000000. *)

From Stdlib Require Import ZArith Lia Sorting.Sorted.
From S2P Require Import Prelude.
From stdpp Require Import base numbers list sorting.
#[local] Open Scope Z_scope.

Definition NTHR : nat := 8.
Definition LONG_MAX : Z := 2 ^ 63 - 1.

Definition complong (l1 l2 : Z) : Z :=
  if l1 =? l2 then 0 else if l1 <? l2 then -1 else 1.

(** Who waits at the barrier: the main thread, or a thread that has sorted its part. *)
Inductive party := PMain | PThr (i : nat).

#[global] Instance party_eq_dec : EqDecision party.
Proof. solve_decision. Defined.

Section barrier.
Context (TNUM : nat) (heapsort : (Z -> Z -> Z) -> list Z -> list Z).

Definition NUMNUM : nat := NTHR * TNUM.

(** A thread: the array afterwards. *)
Definition thr_fn (nums : list Z) (i : nat) : list Z :=
  splice (i * TNUM) (heapsort complong (slice (i * TNUM) TNUM nums)) nums.

(** The search for the least element at the head of a part, from part [i] on. *)
Fixpoint find_min (nums : list Z) (i : nat) (idx : list nat) (num : Z) (minidx : option nat) : option (Z * option nat) :=
  match idx with
  | [] => Some (num, minidx)
  | k :: idx' =>
    if decide (k < (i + 1) * TNUM)%nat then
      match nums !! k with
      | None => None
      | Some x => if x <? num then find_min nums (S i) idx' x (Some i) else find_min nums (S i) idx' num minidx
      end
    else find_min nums (S i) idx' num minidx
  end.

(** The loop over [sidx]; [minidx] keeps its value from turn to turn, and is not set at the
    beginning.  [None] is a read outside the array, or of [minidx] before it is set. *)
Fixpoint merge_loop (n : nat) (nums : list Z) (idx : list nat) (minidx : option nat) (snums : list Z) : option (list Z) :=
  match n with
  | O => Some snums
  | S n' =>
    match find_min nums 0 idx LONG_MAX minidx with
    | Some (_, Some m) =>
      match idx !! m with
      | Some k =>
        match nums !! k with
        | Some x => merge_loop n' nums (<[m := S k]> idx) (Some m) (snums ++ [x])
        | None => None
        end
      | None => None
      end
    | _ => None
    end
  end.

Definition merge (nums : list Z) : option (list Z) :=
  merge_loop NUMNUM nums ((fun i => i * TNUM)%nat <$> seq 0 NTHR) None [].

(** A barrier of [n] parties, of which [k] have arrived, the main thread among them or
    not; [ps] arrive next.  When [n] are there all of them go on and the barrier starts
    anew. The array at the moment the main thread goes on; [None] when it waits forever. *)
Fixpoint barrier_wait (n k : nat) (main : bool) (ps : list party) (nums : list Z) : option (list Z) :=
  match ps with
  | [] => None
  | p :: ps' =>
    let nums := match p with PMain => nums | PThr i => thr_fn nums i end in
    let main := match p with PMain => true | PThr _ => main end in
    if (S k =? n)%nat then (if main then Some nums else barrier_wait n 0 false ps' nums)
    else barrier_wait n (S k) main ps' nums
  end.

(** The program: the parties reach the barrier in the order [ps]; then the merge. *)
Definition sort_main (ps : list party) (nums : list Z) : option (list Z) :=
  match barrier_wait (NTHR + 1) 0 false ps nums with
  | Some nums' => merge nums'
  | None => None
  end.

(** ** The merge on lists *)

(** What is left of each part. *)
Definition rems (nums : list Z) (i : nat) (idx : list nat) : list (list Z) :=
  imap (fun j k => slice k ((i + j + 1) * TNUM - k) nums) idx.

Definition idx_ok (nums : list Z) (i : nat) (idx : list nat) : Prop :=
  forall j k, idx !! j = Some k -> (k <= (i + j + 1) * TNUM <= length nums)%nat.

Fixpoint pick (i : nat) (rs : list (list Z)) (num : Z) (minidx : option nat) : Z * option nat :=
  match rs with
  | [] => (num, minidx)
  | [] :: rs' => pick (S i) rs' num minidx
  | (x :: _) :: rs' => if x <? num then pick (S i) rs' x (Some i) else pick (S i) rs' num minidx
  end.

Lemma slice_head {A} (k n : nat) (l : list A) x : l !! k = Some x -> (0 < n)%nat -> slice k n l = x :: slice (S k) (n - 1) l.
Proof. intros H Hn. unfold slice. rewrite (drop_S _ _ _ H). by destruct n as [|n]; [lia|]; rewrite Nat.sub_succ, Nat.sub_0_r. Qed.

Lemma rems_cons nums i k idx : rems nums i (k :: idx) = slice k ((i + 1) * TNUM - k) nums :: rems nums (S i) idx.
Proof.
  unfold rems. rewrite imap_cons. rewrite Nat.add_0_r. f_equal. apply imap_ext. intros j x _. unfold compose. do 2 f_equal. lia.
Qed.

Lemma idx_ok_tail nums i k idx : idx_ok nums i (k :: idx) -> idx_ok nums (S i) idx.
Proof. intros H j x Hj. specialize (H (S j) x Hj). by replace (i + S j + 1)%nat with (S i + j + 1)%nat in H by lia. Qed.

Lemma find_min_pick nums i idx num m : idx_ok nums i idx -> find_min nums i idx num m = Some (pick i (rems nums i idx) num m).
Proof.
  revert i num m. induction idx as [|k idx IH]; intros i num m Hok; [done|]. rewrite rems_cons. cbn [find_min].
  pose proof (Hok 0%nat k eq_refl) as Hk. rewrite Nat.add_0_r in Hk. pose proof (idx_ok_tail _ _ _ _ Hok) as Hok'. destruct (decide _) as [Hlt|Hge].
  - destruct (lookup_lt_is_Some_2 nums k) as [x Hx]; [lia|]. rewrite Hx, (slice_head _ _ _ x Hx) by lia. cbn [pick]. destruct (x <? num); by apply IH.
  - replace ((i + 1) * TNUM - k)%nat with 0%nat by lia. cbn [slice take pick]. by apply IH.
Qed.

(** The least head, or nothing below [num]. *)
Lemma pick_spec i rs num m :
  let '(num', m') := pick i rs num m in
  num' <= num /\ (forall j x r, rs !! j = Some (x :: r) -> num' <= x) /\
  ((num' = num /\ m' = m) \/ exists j r, m' = Some (i + j)%nat /\ rs !! j = Some (num' :: r)).
Proof.
  revert i num m. induction rs as [|[|x r] rs IH]; intros i num m; cbn [pick].
  - split; [lia|]. split; [done|]. by left.
  - specialize (IH (S i) num m). destruct (pick (S i) rs num m) as [num' m']. destruct IH as (H1 & H2 & H3). split; [done|]. split.
    + intros [|j] y q Hj; [done|by eapply H2].
    + destruct H3 as [H3|(j & q & -> & Hj)]; [by left|]. right. exists (S j), q. split; [f_equal; lia|done].
  - destruct (Z.ltb_spec x num).
    + specialize (IH (S i) x (Some i)). destruct (pick (S i) rs x (Some i)) as [num' m']. destruct IH as (H1 & H2 & H3). split; [lia|]. split.
      * intros [|j] y q Hj; [injection Hj as -> ->; lia|by eapply H2].
      * right. destruct H3 as [[-> ->]|(j & q & -> & Hj)]; [exists 0%nat, r; split; [f_equal; lia|done]|]. exists (S j), q. split; [f_equal; lia|done].
    + specialize (IH (S i) num m). destruct (pick (S i) rs num m) as [num' m']. destruct IH as (H1 & H2 & H3). split; [done|]. split.
      * intros [|j] y q Hj; [injection Hj as -> ->; lia|by eapply H2].
      * destruct H3 as [H3|(j & q & -> & Hj)]; [by left|]. right. exists (S j), q. split; [f_equal; lia|done].
Qed.

Lemma rems_lookup nums idx j k : idx !! j = Some k -> rems nums 0 idx !! j = Some (slice k ((j + 1) * TNUM - k) nums).
Proof. intros H. unfold rems. by rewrite list_lookup_imap, H. Qed.

Lemma rems_insert nums idx j k :
  idx !! j = Some k -> rems nums 0 (<[j := S k]> idx) = <[j := slice (S k) ((j + 1) * TNUM - S k) nums]> (rems nums 0 idx).
Proof.
  intros H. apply list_eq. intros n. unfold rems. rewrite list_lookup_imap. destruct (decide (n = j)) as [->|Hne].
  - rewrite !list_lookup_insert_eq; [done|rewrite length_imap|]; by eapply lookup_lt_Some.
  - rewrite !list_lookup_insert_ne by done. by rewrite list_lookup_imap.
Qed.

Lemma concat_pick (rs : list (list Z)) j x r : rs !! j = Some (x :: r) -> concat rs ≡ₚ x :: concat (<[j := r]> rs).
Proof.
  revert j. induction rs as [|q rs IH]; intros [|j] H; [done|done|by injection H as ->|].
  cbn [insert list_insert concat]. change (q ++ concat rs ≡ₚ x :: q ++ concat (<[j := r]> rs)). rewrite (IH j H). by rewrite Permutation_middle.
Qed.

Lemma concat_least (rs : list (list Z)) x :
  Forall (StronglySorted Z.le) rs -> (forall j y q, rs !! j = Some (y :: q) -> x <= y) -> Forall (Z.le x) (concat rs).
Proof.
  intros Hs Hh. apply Forall_forall. intros z Hz. apply list_elem_of_In, in_concat in Hz as (q & Hq & Hz). apply list_elem_of_In in Hq, Hz.
  apply list_elem_of_lookup_1 in Hq as [j Hj]. destruct q as [|y q]; [by apply elem_of_nil in Hz|]. specialize (Hh j y q Hj).
  rewrite Forall_lookup in Hs. specialize (Hs j _ Hj). apply StronglySorted_inv in Hs as [_ Hs]. apply elem_of_cons in Hz as [->|Hz]; [done|].
  rewrite Forall_forall in Hs. specialize (Hs z Hz). lia.
Qed.

Lemma merge_loop_ok n nums idx m out :
  length idx = NTHR -> idx_ok nums 0 idx -> Forall (fun x => x < LONG_MAX) nums ->
  Forall (StronglySorted Z.le) (rems nums 0 idx) -> length (concat (rems nums 0 idx)) = n ->
  StronglySorted Z.le out -> Forall (fun y => Forall (Z.le y) (concat (rems nums 0 idx))) out ->
  exists res, merge_loop n nums idx m out = Some res /\ StronglySorted Z.le res /\ res ≡ₚ out ++ concat (rems nums 0 idx).
Proof.
  revert idx m out. induction n as [|n IH]; intros idx m out Hl Hok Hmax Hrs Hn Hso Hle; cbn [merge_loop].
  { exists out. split; [done|]. split; [done|]. apply nil_length_inv in Hn. by rewrite Hn, app_nil_r. }
  rewrite find_min_pick by done. pose proof (pick_spec 0 (rems nums 0 idx) LONG_MAX m) as Hp.
  destruct (pick 0 (rems nums 0 idx) LONG_MAX m) as [x m']. destruct Hp as (Hx & Hmin & Hp).
  assert (Hfound : exists j r, m' = Some j /\ rems nums 0 idx !! j = Some (x :: r)).
  { destruct Hp as [[-> ->]|(j & r & -> & Hj)]; [|by exists j, r]. exfalso.
    destruct (concat (rems nums 0 idx)) as [|z q] eqn:Ec; [done|]. assert (Hz : z ∈ concat (rems nums 0 idx)) by (rewrite Ec; constructor).
    pose proof (concat_least _ LONG_MAX Hrs Hmin) as Hall. rewrite Forall_forall in Hall. specialize (Hall z Hz).
    apply list_elem_of_In, in_concat in Hz as (r & Hr & Hz). apply list_elem_of_In in Hr, Hz. apply list_elem_of_lookup_1 in Hr as [j Hj].
    unfold rems in Hj. rewrite list_lookup_imap in Hj. destruct (idx !! j) as [k|]; [|done]. injection Hj as <-. unfold slice in Hz.
    rewrite Forall_forall in Hmax. assert (z ∈ nums) by (eapply subseteq_drop, subseteq_take, Hz). specialize (Hmax z H). lia. }
  destruct Hfound as (j & r & -> & Hj). destruct (idx !! j) as [k|] eqn:Ek; [|by unfold rems in Hj; rewrite list_lookup_imap, Ek in Hj].
  pose proof (rems_lookup nums idx j k Ek) as Hr. rewrite Hj in Hr. injection Hr as Hr. pose proof (Hok j k Ek) as Hk. rewrite Nat.add_0_l in Hk.
  assert (Hlt : (0 < (j + 1) * TNUM - k)%nat) by (destruct ((j + 1) * TNUM - k)%nat; [by rewrite take_0 in Hr || done|lia]).
  destruct (lookup_lt_is_Some_2 nums k) as [y Hy]; [lia|]. rewrite (slice_head _ _ _ y Hy Hlt) in Hr. injection Hr as -> ->. rewrite Hy.
  assert (Er : rems nums 0 (<[j := S k]> idx) = <[j := slice (S k) ((j + 1) * TNUM - k - 1) nums]> (rems nums 0 idx)).
  { rewrite (rems_insert _ _ _ _ Ek). do 2 f_equal. lia. }
  pose proof (concat_pick _ _ _ _ Hj) as Hperm. rewrite <- Er in Hperm.
  assert (Hxs : Forall (Z.le y) (concat (rems nums 0 (<[j := S k]> idx)))).
  { pose proof (concat_least _ y Hrs Hmin) as H. rewrite Hperm in H. by inversion H. }
  destruct (IH (<[j := S k]> idx) (Some j) (out ++ [y])) as (res & H1 & H2 & H3).
  - by rewrite length_insert.
  - intros j' k' H. apply list_lookup_insert_Some in H as [(-> & <- & _)|[_ H]]; [cbn; lia|by apply Hok].
  - done.
  - rewrite Er. apply Forall_insert; [done|]. rewrite Forall_lookup in Hrs. specialize (Hrs j _ Hj). by apply StronglySorted_inv in Hrs as [? _].
  - apply Permutation_length in Hperm. simpl in Hperm. lia.
  - clear -Hso Hle Hperm. induction Hso as [|a out Ha IH Hall]; [by repeat constructor|]. inversion Hle as [|? ? Hle1 Hle2]; subst. cbn. constructor; [by apply IH|].
    apply Forall_app. split; [done|]. constructor; [|done]. rewrite Hperm in Hle1. by inversion Hle1.
  - apply Forall_app. split; [|by constructor]. eapply Forall_impl; [exact Hle|]. intros a Ha. cbn in Ha. rewrite Hperm in Ha. by inversion Ha.
  - exists res. split; [done|]. split; [done|]. rewrite H3, Hperm, <- app_assoc. done.
Qed.

(** ** The threads *)

(** What [heapsort] promises for a comparison function: the elements, in its order. *)
Context (Hsort : forall l, StronglySorted (fun a b => complong a b <= 0) (heapsort complong l) /\ heapsort complong l ≡ₚ l).

Lemma complong_le a b : complong a b <= 0 <-> a <= b.
Proof. unfold complong. destruct (Z.eqb_spec a b); [lia|]. destruct (Z.ltb_spec a b); lia. Qed.

Lemma heapsort_sorted l : StronglySorted Z.le (heapsort complong l).
Proof.
  destruct (Hsort l) as [H _]. induction H as [|a q Hq IH Ha]; constructor; [done|]. eapply Forall_impl; [exact Ha|]. intros b. apply complong_le.
Qed.

Definition part (nums : list Z) (i : nat) : list Z := slice (i * TNUM) TNUM nums.

Lemma length_part nums i : length nums = NUMNUM -> (i < NTHR)%nat -> length (part nums i) = TNUM.
Proof. intros Hl Hi. apply length_slice. rewrite Hl. unfold NUMNUM, NTHR in *. nia. Qed.

Lemma lookup_slice {A} (o n : nat) (l : list A) x : (x < n)%nat -> slice o n l !! x = l !! (o + x)%nat.
Proof. intros H. unfold slice. rewrite lookup_take_lt by done. by rewrite lookup_drop. Qed.

Lemma thr_fn_part nums i j :
  length nums = NUMNUM -> (i < NTHR)%nat -> (j < NTHR)%nat ->
  length (thr_fn nums i) = NUMNUM /\ part (thr_fn nums i) j = if decide (i = j) then heapsort complong (part nums j) else part nums j.
Proof.
  intros Hl Hi Hj. set (d := heapsort complong (part nums i)). assert (Hd : length d = TNUM).
  { unfold d. rewrite (proj2 (Hsort _)). by apply length_part. }
  assert (Hlen : length (thr_fn nums i) = NUMNUM).
  { unfold thr_fn. fold (part nums i). fold d. rewrite length_splice; [done|]. rewrite Hl. unfold NUMNUM, NTHR in *. nia. }
  split; [done|]. unfold part at 1, thr_fn. fold (part nums i). fold d. destruct (decide (i = j)) as [->|Hne].
  - rewrite <- Hd at 2. apply slice_splice_eq. rewrite Hl. unfold NUMNUM, NTHR in *. nia.
  - apply list_eq_same_length with TNUM; [by apply length_part| |].
    + apply length_slice. unfold thr_fn in Hlen. fold (part nums i) in Hlen. fold d in Hlen. rewrite Hlen. unfold NUMNUM, NTHR in *. nia.
    + intros x a b Hx. rewrite lookup_slice by done. unfold part. rewrite lookup_slice by done. rewrite lookup_splice_ne; [congruence| |rewrite Hl; unfold NUMNUM, NTHR in *; nia].
      rewrite Hd. destruct (Nat.lt_trichotomy i j) as [?|[?|?]]; [right; nia|done|left; nia].
Qed.

(** All threads, in any order. *)
Lemma threads_parts ts nums :
  length nums = NUMNUM -> Forall (fun i => i < NTHR)%nat ts -> NoDup ts ->
  length (foldl thr_fn nums ts) = NUMNUM /\
  forall j, (j < NTHR)%nat -> part (foldl thr_fn nums ts) j = if decide (j ∈ ts) then heapsort complong (part nums j) else part nums j.
Proof.
  revert nums. induction ts as [|i ts IH]; intros nums Hl Hb Hnd; cbn [foldl].
  { split; [done|]. intros j _. rewrite decide_False; [done|]. apply not_elem_of_nil. }
  inversion Hb as [|? ? Hi Hb']; subst. apply NoDup_cons in Hnd as [Hni Hnd]. destruct (thr_fn_part nums i i Hl Hi Hi) as [Hl1 _].
  destruct (IH (thr_fn nums i) Hl1 Hb' Hnd) as [Hl2 Hp]. split; [done|]. intros j Hj. rewrite (Hp j Hj).
  destruct (thr_fn_part nums i j Hl Hi Hj) as [_ Hpj]. rewrite Hpj. destruct (decide (i = j)) as [->|Hne].
  - rewrite decide_False by done. rewrite decide_True; [done|]. constructor.
  - destruct (decide (j ∈ ts)); [rewrite decide_True; [done|by constructor]|]. rewrite decide_False; [done|]. rewrite elem_of_cons. naive_solver.
Qed.

Lemma concat_parts n nums : (n * TNUM <= length nums)%nat -> concat (part nums <$> seq 0 n) = take (n * TNUM) nums.
Proof.
  induction n as [|n IH]; intros Hl; [done|]. rewrite seq_S, fmap_app, concat_app, IH by lia. cbn. rewrite app_nil_r. unfold part, slice.
  rewrite take_take_drop. f_equal. lia.
Qed.

Lemma rems_parts nums : rems nums 0 ((fun i => i * TNUM)%nat <$> seq 0 NTHR) = part nums <$> seq 0 NTHR.
Proof.
  apply list_eq. intros j. unfold rems. rewrite list_lookup_imap, !list_lookup_fmap. destruct (seq 0 NTHR !! j) as [i|] eqn:E; [|done]. cbn.
  apply lookup_seq in E as [-> _]. unfold part. cbn [Nat.add]. replace ((j + 1) * TNUM - j * TNUM)%nat with TNUM by nia. done.
Qed.

(** The threads among the parties. *)
Definition thread_of (p : party) : option nat := match p with PMain => None | PThr i => Some i end.

(** When as many parties come as the barrier counts, the main thread goes on after the
    last of them. *)
Lemma barrier_all n k main ps nums :
  (k + length ps = n)%nat -> ps <> [] -> main = true \/ PMain ∈ ps ->
  barrier_wait n k main ps nums = Some (foldl thr_fn nums (omap thread_of ps)).
Proof.
  revert k main nums. induction ps as [|p ps IH]; intros k main nums Hn Hne Hm; [done|]. cbn [barrier_wait length] in *.
  assert (Hm' : (match p with PMain => true | PThr _ => main end) = true \/ PMain ∈ ps).
  { destruct p; [by left|]. destruct Hm as [->|Hm]; [by left|]. apply elem_of_cons in Hm as [?|?]; [done|by right]. }
  destruct ps as [|q ps].
  - cbn [length] in Hn. replace (S k) with n by lia. rewrite Nat.eqb_refl.
    destruct Hm' as [->|Hm']; [by destruct p|by apply elem_of_nil in Hm'].
  - destruct (Nat.eqb_spec (S k) n) as [E|_]; [cbn [length] in Hn; lia|]. rewrite IH; [by destruct p|cbn [length] in *; lia|done|done].
Qed.

Lemma parties_threads ps : ps ≡ₚ PMain :: (PThr <$> seq 0 NTHR) -> omap thread_of ps ≡ₚ seq 0 NTHR.
Proof.
  intros H. rewrite H. cbn [omap thread_of]. clear H. induction (seq 0 NTHR) as [|i l IH]; [done|]. cbn. by rewrite IH.
Qed.

(** C21: In whatever order the eight threads and the main thread reach the barrier, the
    result is sorted and has the elements of the array, for every array of numbers below
    [LONG_MAX]; no read leaves the array. *)
Theorem sort_main_sorted (ps : list party) (nums : list Z) :
  ps ≡ₚ PMain :: (PThr <$> seq 0 NTHR) -> length nums = NUMNUM -> Forall (fun x => x < LONG_MAX) nums ->
  exists res, sort_main ps nums = Some res /\ StronglySorted Z.le res /\ res ≡ₚ nums.
Proof.
  intros Hps Hl Hmax. pose proof (parties_threads ps Hps) as Hts. unfold sort_main.
  assert (Hlen : length ps = (NTHR + 1)%nat) by (rewrite Hps, length_cons, length_fmap, length_seq; lia).
  rewrite barrier_all; [|done|by destruct ps|right; rewrite Hps; constructor]. set (ts := omap thread_of ps) in *. clearbody ts.
  assert (Hb : Forall (fun i => i < NTHR)%nat ts) by (rewrite Hts; apply Forall_forall; intros i Hi; apply elem_of_seq in Hi; lia).
  assert (Hnd : NoDup ts) by (rewrite Hts; apply NoDup_seq). destruct (threads_parts ts nums Hl Hb Hnd) as [Hl2 Hp].
  set (nums2 := foldl thr_fn nums ts) in *.
  assert (Hp2 : forall i, i ∈ seq 0 NTHR -> part nums2 i = heapsort complong (part nums i)).
  { intros i Hi. rewrite Hp by (apply elem_of_seq in Hi; lia). rewrite decide_True; [done|]. by rewrite Hts. }
  assert (Hperm : nums2 ≡ₚ nums).
  { rewrite <- (take_ge nums2 (NTHR * TNUM)) by (by rewrite Hl2). rewrite <- (take_ge nums (NTHR * TNUM)) by (by rewrite Hl).
    rewrite <- !concat_parts by (by rewrite ?Hl2, ?Hl). revert Hp2. generalize (seq 0 NTHR). intros L HL. induction L as [|i L IH]; [done|]. cbn.
    rewrite (HL i) by constructor. rewrite (proj2 (Hsort _)). rewrite IH; [done|]. intros j Hj. apply HL. by constructor. }
  destruct (merge_loop_ok NUMNUM nums2 ((fun i => i * TNUM)%nat <$> seq 0 NTHR) None []) as (res & H1 & H2 & H3).
  - by rewrite length_fmap, length_seq.
  - intros j k Hj. rewrite list_lookup_fmap in Hj. destruct (seq 0 NTHR !! j) as [i|] eqn:E; [|done]. injection Hj as <-. apply lookup_seq in E as [-> E].
    rewrite Hl2. unfold NUMNUM, NTHR in *. nia.
  - by rewrite Hperm.
  - rewrite rems_parts. apply Forall_forall. intros q Hq. apply list_elem_of_fmap in Hq as (i & -> & Hi). rewrite (Hp2 i Hi). apply heapsort_sorted.
  - rewrite rems_parts, concat_parts, take_ge; unfold NUMNUM in *; lia.
  - constructor.
  - constructor.
  - exists res. split; [exact H1|]. split; [done|]. rewrite H3, rems_parts, concat_parts, take_ge by (unfold NUMNUM in *; lia). done.
Qed.

(** A part of which only [LONG_MAX] is left is never chosen: the merge reads
    [minidx] before it is set. *)
Theorem merge_long_max : (0 < TNUM)%nat -> merge (replicate NUMNUM LONG_MAX) = None.
Proof.
  intros H. unfold merge. replace NUMNUM with (S (NUMNUM - 1)) at 1 by (unfold NUMNUM, NTHR; lia). cbn [merge_loop].
  rewrite find_min_pick.
  2: { intros j k Hj. rewrite list_lookup_fmap in Hj. destruct (seq 0 NTHR !! j) as [i|] eqn:E; [|done]. injection Hj as <-. apply lookup_seq in E as [-> E].
    rewrite length_replicate. unfold NUMNUM, NTHR in *. nia. }
  assert (Hp : forall rs i, Forall (fun q => Forall (fun x => x = LONG_MAX) q) rs -> pick i rs LONG_MAX None = (LONG_MAX, None)).
  { induction rs as [|[|x q] rs IH]; intros i Hr; [done| |]; inversion Hr as [|? ? Hq Hr']; subst; cbn [pick]; [by apply IH|].
    inversion Hq as [|? ? Hx]; subst. rewrite Z.ltb_irrefl. by apply IH. }
  rewrite Hp; [done|]. rewrite rems_parts. apply Forall_forall. intros q Hq. apply list_elem_of_fmap in Hq as (i & -> & _). unfold part, slice.
  rewrite drop_replicate, take_replicate. by apply Forall_replicate.
Qed.
End barrier.

(** ** A run *)

Fixpoint insert_sorted (x : Z) (l : list Z) : list Z :=
  match l with [] => [x] | y :: l' => if x <=? y then x :: l else y :: insert_sorted x l' end.
Definition isort (cmp : Z -> Z -> Z) (l : list Z) : list Z := foldr insert_sorted [] l.

Lemma insert_sorted_perm x l : insert_sorted x l ≡ₚ x :: l.
Proof. induction l as [|y l IH]; [done|]. cbn. destruct (x <=? y); [done|]. rewrite IH. apply Permutation_swap. Qed.

Lemma isort_ok cmp l : StronglySorted (fun a b => complong a b <= 0) (isort cmp l) /\ isort cmp l ≡ₚ l.
Proof.
  split.
  - induction l as [|x l IH]; [constructor|]. change (isort cmp (x :: l)) with (insert_sorted x (isort cmp l)). revert IH. generalize (isort cmp l). intros q Hq. induction Hq as [|y q Hq IH Hy]; cbn; [constructor; constructor|].
    destruct (Z.leb_spec x y).
    + constructor; [by constructor|]. constructor; [by apply complong_le|]. eapply Forall_impl; [exact Hy|]. intros z. rewrite !complong_le. lia.
    + constructor; [done|]. rewrite insert_sorted_perm. constructor; [apply complong_le; lia|done].
  - induction l as [|x l IH]; [done|]. change (isort cmp (x :: l)) with (insert_sorted x (isort cmp l)). by rewrite insert_sorted_perm, IH.
Qed.

Definition nums16 : list Z := [9; 3; 5; 5; 12; -4; 0; 1; 7; 7; 2; 100; 6; 6; -4; 8].

(** The main thread waits for some of the threads. *)
Definition parties9 : list party := [PThr 3; PThr 1; PMain; PThr 2; PThr 0; PThr 7; PThr 6; PThr 5; PThr 4].

Lemma sort_main_sorted_witness :
  exists res, sort_main 2 isort parties9 nums16 = Some res /\ StronglySorted Z.le res /\ res ≡ₚ nums16.
Proof.
  apply (sort_main_sorted 2 isort (isort_ok complong) parties9 nums16).
  - by apply (bool_decide_unpack _); vm_compute.
  - reflexivity.
  - repeat (constructor; [done|]). constructor.
Defined.

Lemma merge_long_max_witness : merge 1 (replicate 8 LONG_MAX) = None.
Proof. apply (merge_long_max 1). lia. Defined.
