(* ===== verification/Semaph.v ===== *)
(** * System V semaphores (apue.3e/lib/semaph.c)

    The functions of semaph.c as processes that run in steps of one system call.  A set has
    three semaphores: the value, a counter of processes and a lock; the kernel keeps an
    adjustment for every process that is added when the process ends.  A process may end at
    any point.  Processes that use [sem_create] and [sem_close] only never lose a semaphore
    that they use, and the counter is always right; [sem_open], which takes no lock, can
    lose it. *)

From Stdlib Require Import ZArith Lia.
From S2P Require Import Prelude.
From stdpp Require Import base strings numbers gmap list relations.
#[local] Open Scope Z_scope.

Definition BIGCOUNT : Z := 10000.
Definition SEMVMX : Z := 32767.
Definition IPC_PRIVATE : Z := 0.

(** ** The kernel *)

Record kset := Kset { v0 : Z; v1 : Z; v2 : Z }.

Definition get (n : nat) (s : kset) : Z := match n with 0%nat => v0 s | 1%nat => v1 s | _ => v2 s end.
Definition put (n : nat) (v : Z) (s : kset) : kset :=
  match n with 0%nat => Kset v (v1 s) (v2 s) | 1%nat => Kset (v0 s) v (v2 s) | _ => Kset (v0 s) (v1 s) v end.

Record sembuf := Sembuf { sem_num : nat; sem_op : Z; sem_undo : bool }.

Definition op_lock : list sembuf := [Sembuf 2 0 false; Sembuf 2 1 true].
Definition op_endcreate : list sembuf := [Sembuf 1 (-1) true; Sembuf 2 (-1) true].
Definition op_open : list sembuf := [Sembuf 1 (-1) true].
Definition op_close : list sembuf := [Sembuf 2 0 false; Sembuf 2 1 true; Sembuf 1 1 true].
Definition op_unlock : list sembuf := [Sembuf 2 (-1) true].
(** The amount is stored in a [short]. *)
Definition op_op (value : Z) : list sembuf := [Sembuf 0 (i16 value) true].

(** The places of a process: in the middle of [sem_create] (C), [sem_open] (O),
    [sem_close] (X) or [sem_op] (S), or using a semaphore ([Held]).  [CWait] sleeps in the
    first [semop] of [sem_create]: when the set is removed meanwhile, the call fails with
    [EIDRM], and not with [EINVAL]. *)
Inductive pc :=
| Idle | Held (id : Z) | Gone | Dead (msg : string)
| CGet (key initval : Z) | CLock (id key initval : Z) | CWait (id initval : Z) | CGetval (id initval : Z) | CSet0 (id initval : Z) | CSet1 (id : Z) | CEnd (id : Z)
| OGet (key : Z) | OOp (id : Z)
| XOp (id : Z) | XGetval (id : Z) | XRm (id : Z) | XUnlock (id : Z)
| SOp (id value : Z).

(** [adj p id n]: what is added to semaphore [n] of the set when the process [p] ends. *)
Record sys := Sys { sets : gmap Z kset; keys : gmap Z Z; nextid : Z; pcs : gmap Z pc; adj : Z -> Z -> nat -> Z }.

Definition set_pc (p : Z) (c : pc) (s : sys) : sys := Sys (sets s) (keys s) (nextid s) (<[p := c]> (pcs s)) (adj s).

Definition EINVAL : Z := 22.
Definition ERANGE : Z := 34.

Inductive tryres := TOk (s : kset) | TBlock | TErr.

(** All operations or none. *)
Fixpoint sem_try (s : kset) (ops : list sembuf) : tryres :=
  match ops with
  | [] => TOk s
  | o :: ops' =>
    let v := get (sem_num o) s in
    if sem_op o =? 0 then (if v =? 0 then sem_try s ops' else TBlock)
    else if v + sem_op o <? 0 then TBlock
    else if SEMVMX <? v + sem_op o then TErr
    else sem_try (put (sem_num o) (v + sem_op o) s) ops'
  end.

(** The adjustments of [ops], for semaphore [n]. *)
Definition undo_of (ops : list sembuf) (n : nat) : Z :=
  foldr (fun o a => if sem_undo o && bool_decide (sem_num o = n) then a - sem_op o else a) 0 ops.

Inductive opres := ODone (s : sys) | OSleep | OErr (e : Z).

Definition semop (p id : Z) (ops : list sembuf) (s : sys) : opres :=
  match sets s !! id with
  | None => OErr EINVAL
  | Some k =>
    match sem_try k ops with
    | TOk k' =>
      ODone (Sys (<[id := k']> (sets s)) (keys s) (nextid s) (pcs s)
        (fun q i n => if bool_decide (q = p) && (i =? id) then adj s q i n + undo_of ops n else adj s q i n))
    | TBlock => OSleep
    | TErr => OErr ERANGE
    end
  end.

(** [SETVAL] also clears the adjustments of all processes. *)
Definition setval (id : Z) (n : nat) (v : Z) (k : kset) (s : sys) : sys :=
  Sys (<[id := put n v k]> (sets s)) (keys s) (nextid s) (pcs s)
    (fun q i m => if (i =? id) && bool_decide (m = n) then 0 else adj s q i m).

Definition rmid (id : Z) (s : sys) : sys :=
  Sys (delete id (sets s)) (filter (fun kv => kv.2 <> id) (keys s)) (nextid s) (pcs s) (adj s).

(** A process ends, for the reason [c]. *)
Definition exit_proc (p : Z) (c : pc) (s : sys) : sys :=
  Sys (map_imap (fun id k => Some (Kset (Z.max 0 (v0 k + adj s p id 0)) (Z.max 0 (v1 k + adj s p id 1)) (Z.max 0 (v2 k + adj s p id 2)))) (sets s))
    (keys s) (nextid s) (<[p := c]> (pcs s)) (fun q i n => if bool_decide (q = p) then 0 else adj s q i n).

Definition err_sys (p : Z) (msg : string) (s : sys) : sys := exit_proc p (Dead msg) s.

(** [semget(key, 3, 0666 | IPC_CREAT)]: the identifier. *)
Definition semget_create (key : Z) (s : sys) : Z * sys :=
  match keys s !! key with
  | Some id => (id, s)
  | None => (nextid s, Sys (<[nextid s := Kset 0 0 0]> (sets s)) (<[key := nextid s]> (keys s)) (nextid s + 1) (pcs s) (adj s))
  end.

(** ** The functions *)

(** A [semop] whose failure ends the process; [None] while it sleeps. *)
Definition semop_or (p id : Z) (ops : list sembuf) (next : pc) (msg : string) (s : sys) : option sys :=
  match semop p id ops s with
  | ODone s' => Some (set_pc p next s')
  | OSleep => None
  | OErr _ => Some (err_sys p msg s)
  end.

(** The next system call of a process in [sem_create]; [ok]: a [semget] finds room and has
    permission. *)
Definition sem_create (ok : bool) (p : Z) (c : pc) (s : sys) : option sys :=
  match c with
  | CGet key initval =>
    if negb ok then Some (set_pc p Idle s)
    else let '(id, s') := semget_create key s in Some (set_pc p (CLock id key initval) s')
  | CLock id key initval =>
    match semop p id op_lock s with
    | ODone s' => Some (set_pc p (CGetval id initval) s')
    | OSleep => Some (set_pc p (CWait id initval) s)
    | OErr e => Some (if e =? EINVAL then set_pc p (CGet key initval) s else err_sys p "can't lock" s)
    end
  | CWait id initval => semop_or p id op_lock (CGetval id initval) "can't lock" s
  | CGetval id initval =>
    match sets s !! id with
    | None => Some (err_sys p "can't GETVAL" s)
    | Some k => Some (set_pc p (if v1 k =? 0 then CSet0 id initval else CEnd id) s)
    end
  | CSet0 id initval =>
    match sets s !! id with
    | None => Some (err_sys p "can SETVAL[0]" s)
    | Some k =>
      if (initval <? 0) || (SEMVMX <? initval) then Some (err_sys p "can SETVAL[0]" s)
      else Some (set_pc p (CSet1 id) (setval id 0 initval k s))
    end
  | CSet1 id =>
    match sets s !! id with
    | None => Some (err_sys p "can SETVAL[1]" s)
    | Some k => Some (set_pc p (CEnd id) (setval id 1 BIGCOUNT k s))
    end
  | CEnd id => semop_or p id op_endcreate (Held id) "can't end create" s
  | _ => None
  end.

Definition sem_open (ok : bool) (p : Z) (c : pc) (s : sys) : option sys :=
  match c with
  | OGet key =>
    match (if ok then keys s !! key else None) with
    | None => Some (set_pc p Idle s)
    | Some id => Some (set_pc p (OOp id) s)
    end
  | OOp id => semop_or p id op_open (Held id) "can't open" s
  | _ => None
  end.

Definition sem_rm (p id : Z) (s : sys) : sys :=
  match sets s !! id with
  | None => err_sys p "can't IPC_RMID" s
  | Some _ => set_pc p Idle (rmid id s)
  end.

Definition sem_close (p : Z) (c : pc) (s : sys) : option sys :=
  match c with
  | XOp id => semop_or p id op_close (XGetval id) "can't semop" s
  | XGetval id =>
    match sets s !! id with
    | None => Some (err_sys p "can't GETVAL" s)
    | Some k =>
      if BIGCOUNT <? v1 k then Some (exit_proc p (Dead "sem[1] > BIGCOUNT") s)
      else Some (set_pc p (if v1 k =? BIGCOUNT then XRm id else XUnlock id) s)
    end
  | XRm id => Some (sem_rm p id s)
  | XUnlock id => semop_or p id op_unlock Idle "can't unlock" s
  | _ => None
  end.

(** The next system call of a process that is inside one of the functions. *)
Definition run (ok : bool) (p : Z) (s : sys) : option sys :=
  match pcs s !! p with
  | None => None
  | Some c =>
    match c with
    | OGet _ | OOp _ => sem_open ok p c s
    | XOp _ | XGetval _ | XRm _ | XUnlock _ => sem_close p c s
    | SOp id value => semop_or p id (op_op value) (Held id) "sem_op error" s
    | _ => sem_create ok p c s
    end
  end.

(** What a process that is outside the functions may call. *)
Inductive call := FCreate (key initval : Z) | FOpen (key : Z) | FClose | FOp (value : Z) | FRm.

Definition bad_key (key : Z) : bool := (key =? IPC_PRIVATE) || (key =? -1).

Definition start (p : Z) (f : call) (s : sys) : option sys :=
  match f, pcs s !! p with
  | FCreate key initval, Some Idle => Some (if bad_key key then s else set_pc p (CGet key initval) s)
  | FOpen key, Some Idle => Some (if bad_key key then s else set_pc p (OGet key) s)
  | FClose, Some (Held id) => Some (set_pc p (XOp id) s)
  | FOp value, Some (Held id) => Some (if i16 value =? 0 then err_sys p "can't have value == 0" s else set_pc p (SOp id value) s)
  | FRm, Some (Held id) => Some (sem_rm p id s)
  | _, _ => None
  end.

Definition sem_wait : call := FOp (-1).
Definition sem_signal : call := FOp 1.

(** A process calls a function, makes its next system call, or ends; [ARefuse]: its
    [semget] fails. *)
Inductive act := AStart (p : Z) (f : call) | ARun (p : Z) | ARefuse (p : Z) | AExit (p : Z).

Definition alive (c : pc) : bool := match c with Gone | Dead _ => false | _ => true end.

Definition apply_act (a : act) (s : sys) : option sys :=
  match a with
  | AStart p f => start p f s
  | ARun p => run true p s
  | ARefuse p => run false p s
  | AExit p => match pcs s !! p with Some c => if alive c then Some (exit_proc p Gone s) else None | None => None end
  end.

Fixpoint exec (l : list act) (s : sys) : option sys :=
  match l with
  | [] => Some s
  | a :: l' => match apply_act a s with Some s' => exec l' s' | None => None end
  end.

(** The system before any semaphore exists. *)
Definition sys_init (ps : gset Z) : sys := Sys ∅ ∅ 1 (gset_to_gmap Idle ps) (fun _ _ _ => 0).

(** Neither [sem_open] nor [sem_rm]. *)
Definition create_only (a : act) : bool :=
  match a with AStart _ (FOpen _) | AStart _ FRm => false | _ => true end.

Definition sem_step (s s' : sys) : Prop := exists a, create_only a = true /\ apply_act a s = Some s'.

(** ** Counting processes *)

Definition count (P : pc -> bool) (m : gmap Z pc) : Z := Z.of_nat (size (filter (fun kv => P kv.2 = true) m)).

Lemma count_nonneg P m : 0 <= count P m.
Proof. unfold count. lia. Qed.

Lemma count_size P m : count P m <= Z.of_nat (size m).
Proof. unfold count. apply Nat2Z.inj_le, map_size_filter. Qed.

Lemma count_insert P m p c c' : m !! p = Some c -> count P (<[p := c']> m) = count P m - Z.b2z (P c) + Z.b2z (P c').
Proof.
  intros Hp. unfold count. assert (E : <[p := c']> m = <[p := c']> (delete p m)) by (by rewrite insert_delete_eq).
  rewrite E. rewrite <- (insert_delete_id m p c Hp) at 2. assert (Hd : delete p m !! p = None) by apply lookup_delete_eq. revert Hd. generalize (delete p m). intros d Hd.
  assert (Hf : forall x, size (filter (fun kv : Z * pc => P kv.2 = true) (<[p := x]> d)) = ((if P x then 1 else 0) + size (filter (fun kv : Z * pc => P kv.2 = true) d))%nat).
  { intros x. destruct (P x) eqn:Ex.
    - rewrite map_filter_insert_True by done. rewrite map_size_insert_None; [done|]. rewrite map_lookup_filter. by rewrite Hd.
    - rewrite map_filter_insert_False by (cbn; by rewrite Ex). by rewrite delete_id. }
  rewrite !Hf. destruct (P c), (P c'); cbn; lia.
Qed.

Lemma count_lookup (P : pc -> bool) (m : gmap Z pc) (p : Z) (c : pc) : m !! p = Some c -> P c = true -> filter (fun kv : Z * pc => P kv.2 = true) m !! p = Some c.
Proof. intros Hp Hc. by apply map_lookup_filter_Some. Qed.

Lemma count_pos P m p c : m !! p = Some c -> P c = true -> 1 <= count P m.
Proof.
  intros Hp Hc. pose proof (count_lookup P m p c Hp Hc) as H. unfold count. revert H. generalize (filter (fun kv : Z * pc => P kv.2 = true) m).
  intros f H. rewrite <- (insert_delete_id f p c H), map_size_insert_None by apply lookup_delete_eq. lia.
Qed.

(** Two processes that both count. *)
Lemma count_two P m p q c d : p <> q -> m !! p = Some c -> m !! q = Some d -> P c = true -> P d = true -> 2 <= count P m.
Proof.
  intros Hne Hp Hq Hc Hd. pose proof (count_lookup P m p c Hp Hc) as H1. pose proof (count_lookup P m q d Hq Hd) as H2. unfold count. revert H1 H2.
  generalize (filter (fun kv : Z * pc => P kv.2 = true) m). intros f H1 H2. rewrite <- (insert_delete_id f p c H1), map_size_insert_None by apply lookup_delete_eq.
  assert (H3 : delete p f !! q = Some d) by (by rewrite lookup_delete_ne).
  rewrite <- (insert_delete_id (delete p f) q d H3), map_size_insert_None by apply lookup_delete_eq. lia.
Qed.

(** ** The invariant *)

(** The process holds the lock of the set, or is counted as a user of it. *)
Definition locks (id : Z) (c : pc) : bool :=
  match c with CGetval i _ | CSet0 i _ | CSet1 i | CEnd i | XGetval i | XRm i | XUnlock i => i =? id | _ => false end.
Definition uses (id : Z) (c : pc) : bool :=
  match c with Held i | XOp i | SOp i _ => i =? id | _ => false end.
Definition id_of (c : pc) : option Z :=
  match c with
  | Held i | CLock i _ _ | CWait i _ | CGetval i _ | CSet0 i _ | CSet1 i | CEnd i | OOp i | XOp i | XGetval i | XRm i | XUnlock i | SOp i _ => Some i
  | _ => None
  end.

Definition users (s : sys) (id : Z) : Z := count (uses id) (pcs s).

Definition pc_ok (s : sys) (c : pc) : Prop :=
  match c with
  | CGetval id _ | XGetval id | XUnlock id | Held id | XOp id | SOp id _ => is_Some (sets s !! id)
  | CSet0 id _ | CSet1 id => exists k, sets s !! id = Some k /\ v1 k = 0 /\ users s id = 0
  | CEnd id => exists k, sets s !! id = Some k /\ v1 k = BIGCOUNT - users s id
  | XRm id => exists k, sets s !! id = Some k /\ v1 k = BIGCOUNT /\ users s id = 0
  | OGet _ | OOp _ => False
  | _ => True
  end.

Record set_ok (s : sys) (id : Z) (k : kset) : Prop := SetOk {
  so_id : id < nextid s;
  so_lock : v2 k = count (locks id) (pcs s) /\ v2 k <= 1;
  so_count : (v1 k = 0 /\ users s id = 0) \/ v1 k = BIGCOUNT - users s id;
  so_adj : forall p c, pcs s !! p = Some c -> adj s p id 1 = Z.b2z (uses id c) /\ adj s p id 2 = - Z.b2z (locks id c)
}.

Record sem_inv (s : sys) : Prop := SemInv {
  si_sets : forall id k, sets s !! id = Some k -> set_ok s id k;
  si_pcs : forall p c, pcs s !! p = Some c -> pc_ok s c /\ (forall id, id_of c = Some id -> id < nextid s);
  si_keys : forall key id, keys s !! key = Some id -> is_Some (sets s !! id);
  si_size : Z.of_nat (size (pcs s)) < BIGCOUNT;
  si_fresh : forall p id n, nextid s <= id -> adj s p id n = 0
}.

(** How one process may change a set: the counter and its users together stay the same,
    and a process becomes a user only under the lock; or the holder of the lock
    initializes the counter. *)
Definition delta (s : sys) (c c' : pc) (id : Z) (k k' : kset) : Prop :=
  v2 k' = v2 k - Z.b2z (locks id c) + Z.b2z (locks id c') /\ v2 k' <= 1 /\
  ((v1 k' + Z.b2z (uses id c') = v1 k + Z.b2z (uses id c) /\ (uses id c' = true -> uses id c = true \/ (locks id c = true /\ v1 k = BIGCOUNT - users s id)))
   \/ (locks id c = true /\ v1 k = 0 /\ users s id = 0 /\ v1 k' = BIGCOUNT /\ uses id c = false /\ uses id c' = false)).

Lemma locks_ok s p c id k : sem_inv s -> pcs s !! p = Some c -> sets s !! id = Some k -> locks id c = true ->
  forall q d, q <> p -> pcs s !! q = Some d -> locks id d = false.
Proof.
  intros Hi Hp Hk Hl q d Hne Hq. destruct (locks id d) eqn:Ed; [|done]. destruct (so_lock _ _ _ (si_sets _ Hi id k Hk)) as [H1 H2].
  pose proof (count_two (locks id) (pcs s) p q c d ltac:(done) Hp Hq Hl Ed). lia.
Qed.

Lemma users_insert s p c c' id sets' keys' n' adj' :
  pcs s !! p = Some c -> users (Sys sets' keys' n' (<[p := c']> (pcs s)) adj') id = users s id - Z.b2z (uses id c) + Z.b2z (uses id c').
Proof. intros Hp. unfold users. cbn [pcs]. by apply count_insert. Qed.

(** One process changes its place, and sets as [delta] allows. *)
Lemma inv_change s p c c' sets' adj' :
  sem_inv s -> pcs s !! p = Some c ->
  (forall id, is_Some (sets' !! id) <-> is_Some (sets s !! id)) ->
  (forall id k k', sets s !! id = Some k -> sets' !! id = Some k' -> delta s c c' id k k' /\
     adj' p id 1%nat = Z.b2z (uses id c') /\ adj' p id 2%nat = - Z.b2z (locks id c') /\
     forall q d, q <> p -> pcs s !! q = Some d -> adj' q id 1%nat = adj s q id 1%nat /\ adj' q id 2%nat = adj s q id 2%nat) ->
  (forall q id n, nextid s <= id -> adj' q id n = 0) ->
  let s' := Sys sets' (keys s) (nextid s) (<[p := c']> (pcs s)) adj' in
  pc_ok s' c' -> (forall id, id_of c' = Some id -> id < nextid s) -> sem_inv s'.
Proof.
  intros Hi Hp Hdom Hd Hfr s' Hc' Hid'. split.
  - intros id k' Hk'. cbn in Hk'. destruct (proj1 (Hdom id) ltac:(eauto)) as [k Hk]. destruct (Hd id k k' Hk Hk') as ((D1 & D2 & D3) & A1 & A2 & A3).
    destruct (si_sets _ Hi id k Hk) as [B0 [B1 B2] B3 B4]. pose proof (users_insert s p c c' id sets' (keys s) (nextid s) adj' Hp) as Hu. fold s' in Hu.
    split; [done| | |].
    + split; [|done]. cbn [pcs s']. rewrite (count_insert _ _ _ _ _ Hp). lia.
    + rewrite Hu. destruct D3 as [[D3 D4]|(_ & _ & D5 & D6 & D7 & D8)]; [|right; rewrite D7, D8; cbn; lia].
      destruct (uses id c') eqn:E'; destruct (uses id c) eqn:E; cbn in *.
      * destruct B3 as [B3|B3]; [pose proof (count_pos (uses id) (pcs s) p c Hp E); unfold users in B3; lia|right; lia].
      * right. destruct (D4 eq_refl) as [?|[_ ?]]; [done|lia].
      * destruct B3 as [B3|B3]; [pose proof (count_pos (uses id) (pcs s) p c Hp E); unfold users in B3; lia|right; lia].
      * destruct B3 as [B3|B3]; [left|right]; lia.
    + intros q d Hq. cbn [pcs s'] in Hq. cbn [adj s']. destruct (decide (q = p)) as [->|Hne].
      * rewrite lookup_insert_eq in Hq. by injection Hq as <-.
      * rewrite lookup_insert_ne in Hq by done. destruct (A3 q d Hne Hq) as [-> ->]. by apply B4.
  - intros q d Hq. cbn [pcs s'] in Hq. destruct (decide (q = p)) as [->|Hne].
    { rewrite lookup_insert_eq in Hq. by injection Hq as <-. }
    rewrite lookup_insert_ne in Hq by done. destruct (si_pcs _ Hi q d Hq) as [Hd1 Hd2]. split; [|done].
    assert (Hsome : forall id, is_Some (sets s !! id) -> is_Some (sets s' !! id)) by (intros id; cbn; apply Hdom).
    (* a place under the lock of [id], with its counter *)
    assert (Hlk : forall id k, sets s !! id = Some k -> locks id d = true -> exists k', sets s' !! id = Some k' /\
      v1 k' + users s' id = v1 k + users s id /\ (users s id = 0 -> users s' id = 0)).
    { intros id k Hk Hl. destruct (Hsome id ltac:(eauto)) as [k' Hk']. exists k'. split; [done|]. destruct (Hd id k k' Hk Hk') as ((_ & _ & D3) & _).
      pose proof (users_insert s p c c' id sets' (keys s) (nextid s) adj' Hp) as Hu. fold s' in Hu.
      assert (Hnl : locks id c = true -> False) by (intros Hl'; pose proof (locks_ok s p c id k Hi Hp Hk Hl' q d Hne Hq); congruence).
      destruct D3 as [[D3 D4]|(D5 & _)]; [|by destruct (Hnl D5)]. split; [lia|]. intros Hz.
      assert (Euse : uses id c = false) by (destruct (uses id c) eqn:E; [|done]; pose proof (count_pos (uses id) (pcs s) p c Hp E); unfold users in Hz; lia).
      destruct (uses id c') eqn:E'; [destruct (D4 eq_refl) as [?|[? _]]; [congruence|by destruct Hnl]|]. rewrite Hu, Euse. cbn. lia. }
    destruct d; cbn [pc_ok] in *; try done; try (by apply Hsome).
    all: match type of Hd1 with ex _ => idtac end.
    all: destruct Hd1 as (k & Hk & Hv); edestruct (Hlk _ k Hk ltac:(cbn; apply Z.eqb_refl)) as (k' & Hk' & Hsum & Hz); exists k'; split; [done|]; try lia.
    all: destruct Hv as [Hv1 Hv2]; specialize (Hz Hv2); lia.
  - intros key id Hkey. cbn. apply Hdom. by apply (si_keys _ Hi key).
  - cbn [pcs s']. rewrite map_size_insert_Some by eauto. apply Hi.
  - exact Hfr.
Qed.

(** A place with the same lock and use. *)
Definition alike (c c' : pc) : Prop := forall id, locks id c' = locks id c /\ uses id c' = uses id c.

Lemma delta_alike s c c' id k k' : alike c c' -> v1 k' = v1 k -> v2 k' = v2 k -> v2 k <= 1 -> delta s c c' id k k'.
Proof. intros Ha H1 H2 H3. unfold delta. destruct (Ha id) as [-> ->]. rewrite H1, H2. split; [lia|]. split; [lia|]. left. auto. Qed.

Lemma inv_move s p c c' :
  sem_inv s -> pcs s !! p = Some c -> alike c c' -> pc_ok (set_pc p c' s) c' -> (forall id, id_of c' = Some id -> id < nextid s) -> sem_inv (set_pc p c' s).
Proof.
  intros Hi Hp Ha Hc Hid. apply (inv_change s p c c' (sets s) (adj s)); try done; [|exact (si_fresh _ Hi)]. intros id k k' Hk Hk'. rewrite Hk in Hk'. injection Hk' as <-.
  destruct (si_sets _ Hi id k Hk) as [_ [_ H2] _ H4]. destruct (H4 p c Hp) as [A1 A2]. destruct (Ha id) as [E1 E2].
  split; [by apply delta_alike|]. rewrite E1, E2. done.
Qed.

Lemma inv_semop s p c c' id ops s1 :
  sem_inv s -> pcs s !! p = Some c -> semop p id ops s = ODone s1 ->
  (forall k k', sets s !! id = Some k -> sem_try k ops = TOk k' -> delta s c c' id k k') ->
  undo_of ops 1 = Z.b2z (uses id c') - Z.b2z (uses id c) -> undo_of ops 2 = Z.b2z (locks id c) - Z.b2z (locks id c') ->
  (forall i, i <> id -> locks i c' = locks i c /\ uses i c' = uses i c) ->
  pc_ok (set_pc p c' s1) c' -> id_of c' = Some id \/ id_of c' = None -> sem_inv (set_pc p c' s1).
Proof.
  intros Hi Hp Hs Hd U1 U2 Ho Hc Hid. unfold semop in Hs. destruct (sets s !! id) as [k|] eqn:Hk; [|done]. destruct (sem_try k ops) as [k'| |] eqn:Et; try done.
  injection Hs as <-. specialize (Hd k k' eq_refl Et). apply (inv_change s p c c' (<[id := k']> (sets s))); try done.
  - intros i. rewrite lookup_insert_is_Some. split; [intros [->|[_ ?]]; [by rewrite Hk|done]|]. intros ?. destruct (decide (id = i)); auto.
  - intros i k1 k2 H1 H2. destruct (si_sets _ Hi i k1 H1) as [_ [_ L2] _ H4]. destruct (H4 p c Hp) as [A1 A2]. cbn [adj]. rewrite bool_decide_true by done. cbn [andb].
    assert (Hq : forall q, q <> p -> bool_decide (q = p) = false) by (intros; by apply bool_decide_false).
    destruct (decide (i = id)) as [->|Hne].
    + rewrite lookup_insert_eq in H2. injection H2 as <-. rewrite Hk in H1. injection H1 as <-. rewrite Z.eqb_refl, A1, A2, U1, U2.
      split; [done|]. split; [lia|]. split; [lia|]. intros q d Hqp _. by rewrite Hq.
    + rewrite lookup_insert_ne in H2 by done. rewrite H1 in H2. injection H2 as <-. destruct (Ho i Hne) as [E1 E2]. destruct (Z.eqb_spec i id); [done|].
      rewrite A1, A2, E1, E2. split; [|split; [done|]; split; [done|]; intros q d Hqp _; by rewrite Hq].
      unfold delta. rewrite E1, E2. split; [lia|]. split; [done|]. left. auto.
  - intros q i n Hn. cbn [adj]. rewrite (si_fresh _ Hi) by done. destruct (Z.eqb_spec i id) as [->|]; [|by rewrite andb_false_r].
    pose proof (so_id _ _ _ (si_sets _ Hi id k Hk)). lia.
  - intros i Hi'. destruct Hid as [Hid|Hid]; rewrite Hid in Hi'; [|done]. injection Hi' as <-. by apply (so_id s id k), (si_sets _ Hi).
Qed.

Lemma inv_exit s p c c' :
  sem_inv s -> pcs s !! p = Some c -> alive c' = false -> sem_inv (exit_proc p c' s).
Proof.
  intros Hi Hp Hc'. assert (Hl : forall id, locks id c' = false /\ uses id c' = false /\ id_of c' = None) by (by destruct c').
  apply (inv_change s p c c'); try done.
  - intros id. rewrite map_lookup_imap. destruct (sets s !! id); cbn; [|done]. split; eauto.
  - intros id k k' Hk Hk'. rewrite map_lookup_imap, Hk in Hk'. cbn in Hk'. injection Hk' as <-. destruct (Hl id) as (E1 & E2 & _).
    destruct (si_sets _ Hi id k Hk) as [_ [L1 L2] L3 H4]. destruct (H4 p c Hp) as [A1 A2]. cbv beta. rewrite E1, E2, bool_decide_true by done. split; [|split; [done|]; split; [done|]].
    + unfold delta. cbn [v1 v2]. rewrite A1, A2, E1, E2. pose proof (count_nonneg (locks id) (pcs s)). pose proof (count_size (uses id) (pcs s)) as Hsz.
      pose proof (si_size _ Hi). fold (users s id) in Hsz.
      assert (Hlk : Z.b2z (locks id c) <= v2 k) by (destruct (locks id c) eqn:E; cbn; [pose proof (count_pos _ _ _ _ Hp E)|]; lia).
      assert (Hv1 : 0 <= v1 k) by lia. destruct (uses id c), (locks id c); cbn [Z.b2z] in *; (split; [lia|]; split; [lia|]; left; split; [lia|done]).
    + intros q d Hqp _. by rewrite bool_decide_false.
  - intros q i n Hn. rewrite (si_fresh _ Hi) by done. by destruct (bool_decide _).
  - by destruct c'.
  - intros id Hid. by rewrite (proj2 (proj2 (Hl id))) in Hid.
Qed.

Lemma lock_id id c : locks id c = true -> id_of c = Some id.
Proof. destruct c; cbn; try done; by intros ->%Z.eqb_eq. Qed.

Lemma use_id id c : uses id c = true -> id_of c = Some id.
Proof. destruct c; cbn; try done; by intros ->%Z.eqb_eq. Qed.

Lemma count_zero P m : (forall p c, m !! p = Some c -> P c = false) -> count P m = 0.
Proof.
  intros H. unfold count. assert (E : filter (fun kv : Z * pc => P kv.2 = true) m = ∅).
  { apply map_empty. intros p. apply map_lookup_filter_None. right. intros c Hp. cbn. by rewrite (H p c Hp). }
  by rewrite E, map_size_empty.
Qed.

(** Removing a set, under its lock and without users. *)
Lemma inv_rm s p id : sem_inv s -> pcs s !! p = Some (XRm id) -> sem_inv (set_pc p Idle (rmid id s)).
Proof.
  intros Hi Hp. destruct (si_pcs _ Hi p _ Hp) as [(k & Hk & Hv & Hu) _]. set (s' := set_pc p Idle (rmid id s)).
  assert (Hus : forall i, users s' i = users s i) by (intros i; unfold users, s'; cbn [pcs set_pc rmid]; rewrite (count_insert _ _ _ _ _ Hp); cbn; lia).
  assert (Hother : forall q d, q <> p -> pcs s !! q = Some d -> locks id d = false /\ uses id d = false).
  { intros q d Hne Hq. split; [by eapply (locks_ok s p (XRm id) id k); try done; cbn; apply Z.eqb_refl|].
    destruct (uses id d) eqn:E; [|done]. pose proof (count_pos (uses id) (pcs s) q d Hq E). unfold users in Hu. lia. }
  split.
  - intros i k' Hk'. cbn in Hk'. apply lookup_delete_Some in Hk' as [Hne Hk']. destruct (si_sets _ Hi i k' Hk') as [H1 H2 H3 H4]. split; [done| |by rewrite Hus|].
    + cbn [pcs set_pc rmid s']. rewrite (count_insert _ _ _ _ _ Hp). cbn. destruct (Z.eqb_spec id i); [done|]. cbn. lia.
    + intros q d Hq. cbn [pcs set_pc rmid s'] in Hq. cbn [adj set_pc rmid s']. destruct (decide (q = p)) as [->|Hqp].
      * rewrite lookup_insert_eq in Hq. injection Hq as <-. destruct (H4 p _ Hp) as [-> ->]. cbn. by destruct (Z.eqb_spec id i).
      * rewrite lookup_insert_ne in Hq by done. by apply H4.
  - intros q d Hq. cbn [pcs set_pc rmid s'] in Hq. destruct (decide (q = p)) as [->|Hqp].
    { rewrite lookup_insert_eq in Hq. by injection Hq as <-. }
    rewrite lookup_insert_ne in Hq by done. destruct (si_pcs _ Hi q d Hq) as [Hd1 Hd2]. split; [|done]. destruct (Hother q d Hqp Hq) as [O1 O2].
    assert (Hst : forall i, id_of d = Some i -> locks i d = true \/ uses i d = true -> sets s' !! i = sets s !! i).
    { intros i _ Hor. cbn. apply lookup_delete_ne. intros <-. destruct Hor; congruence. }
    destruct d; cbn [pc_ok] in *; try done; rewrite ?Hus; rewrite Hst; try done; cbn; rewrite Z.eqb_refl; auto.
  - intros key i Hkey. cbn in Hkey. apply map_lookup_filter_Some in Hkey as [Hkey Hne]. cbn in Hne. cbn. rewrite lookup_delete_ne by done. by apply (si_keys _ Hi key).
  - cbn [pcs set_pc rmid s']. rewrite map_size_insert_Some by eauto. apply Hi.
  - apply Hi.
Qed.

(** [semget] makes a set that no process knows. *)
Lemma inv_semget s key : sem_inv s -> sem_inv (semget_create key s).2.
Proof.
  intros Hi. unfold semget_create. destruct (keys s !! key) as [id|] eqn:Ek; [done|]. cbn [snd]. set (n := nextid s). set (s' := Sys _ _ _ _ _).
  assert (Hnone : forall c p, pcs s !! p = Some c -> locks n c = false /\ uses n c = false).
  { intros c p Hp. destruct (si_pcs _ Hi p c Hp) as [_ Hid]. split.
    - destruct (locks n c) eqn:E; [|done]. apply lock_id in E. specialize (Hid n E). unfold n in Hid. lia.
    - destruct (uses n c) eqn:E; [|done]. apply use_id in E. specialize (Hid n E). unfold n in Hid. lia. }
  assert (Hfree : sets s !! n = None).
  { destruct (sets s !! n) as [k|] eqn:E; [|done]. pose proof (so_id _ _ _ (si_sets _ Hi n k E)). unfold n in *. lia. }
  split.
  - intros i k Hk. cbn in Hk. apply lookup_insert_Some in Hk as [[<- <-]|[Hne Hk]].
    + split; cbn [v1 v2 pcs adj nextid s']; [lia| | |].
      * rewrite count_zero; [lia|]. intros p c Hp. by apply (Hnone c p).
      * left. split; [done|]. apply count_zero. intros p c Hp. by apply (Hnone c p).
      * intros p c Hp. destruct (Hnone c p Hp) as [-> ->]. rewrite !(si_fresh _ Hi) by done. done.
    + destruct (si_sets _ Hi i k Hk) as [H1 H2 H3 H4]. split; try done. cbn. unfold n in *. lia.
  - intros p c Hp. cbn in Hp. destruct (si_pcs _ Hi p c Hp) as [H1 H2]. split.
    + assert (Hst : forall i, is_Some (sets s !! i) -> sets s' !! i = sets s !! i).
      { intros i [k Hk]. cbn. rewrite lookup_insert_ne; [done|]. intros <-. congruence. }
      destruct c; cbn [pc_ok] in *; try done; try (by rewrite Hst); destruct H1 as (k & Hk & Hv); exists k; rewrite Hst by eauto; done.
    + intros i Hid. specialize (H2 i Hid). cbn. unfold n. lia.
  - intros key' i Hkey. cbn in Hkey. cbn. rewrite lookup_insert_is_Some. apply lookup_insert_Some in Hkey as [[_ <-]|[_ Hkey]]; [by left|].
    destruct (decide (n = i)); [by left|right]. split; [done|]. by apply (si_keys _ Hi key').
  - apply Hi.
  - intros p i m Hm. cbn in *. apply (si_fresh _ Hi). unfold n in *. lia.
Qed.

(** ** Steps *)

Lemma try_lock k k' : sem_try k op_lock = TOk k' -> v2 k = 0 /\ k' = Kset (v0 k) (v1 k) 1.
Proof. cbn [sem_try op_lock sem_num sem_op get put]. change (0 =? 0) with true. cbv iota. destruct (Z.eqb_spec (v2 k) 0) as [E|]; [|done]. rewrite E. by intros [= <-]. Qed.

Lemma try_endcreate k k' : sem_try k op_endcreate = TOk k' -> k' = Kset (v0 k) (v1 k - 1) (v2 k - 1).
Proof. cbn. repeat (case_match; try done). by intros [= <-]. Qed.

Lemma try_close k k' : sem_try k op_close = TOk k' -> v2 k = 0 /\ k' = Kset (v0 k) (v1 k + 1) 1.
Proof.
  cbn [sem_try op_close sem_num sem_op get put]. change (0 =? 0) with true. cbv iota. destruct (Z.eqb_spec (v2 k) 0) as [E|]; [|done]. rewrite E. cbn.
  repeat (case_match; try done). by intros [= <-].
Qed.

Lemma try_unlock k k' : sem_try k op_unlock = TOk k' -> k' = Kset (v0 k) (v1 k) (v2 k - 1).
Proof. cbn. repeat (case_match; try done). by intros [= <-]. Qed.

Lemma try_op value k k' : sem_try k (op_op value) = TOk k' -> v1 k' = v1 k /\ v2 k' = v2 k.
Proof. cbn. repeat (case_match; try done); by intros [= <-]. Qed.

Lemma users_move s p c c' id : pcs s !! p = Some c -> users (set_pc p c' s) id = users s id - Z.b2z (uses id c) + Z.b2z (uses id c').
Proof. intros Hp. unfold users. cbn [pcs set_pc]. by apply count_insert. Qed.

(** Error exits. *)
Lemma semop_or_inv s p c id ops next msg s' :
  sem_inv s -> pcs s !! p = Some c -> (forall s1, semop p id ops s = ODone s1 -> sem_inv (set_pc p next s1)) ->
  semop_or p id ops next msg s = Some s' -> sem_inv s'.
Proof.
  intros Hi Hp Hok. unfold semop_or. destruct (semop p id ops s) as [s1| |e] eqn:E; [|done|]; intros [= <-]; [by apply Hok|by eapply inv_exit].
Qed.

Lemma semop_sets p id ops s s1 : semop p id ops s = ODone s1 -> exists k k', sets s !! id = Some k /\ sem_try k ops = TOk k' /\ sets s1 = <[id := k']> (sets s) /\ pcs s1 = pcs s.
Proof. unfold semop. destruct (sets s !! id) as [k|]; [|done]. destruct (sem_try k ops) as [k'| |] eqn:E; try done. intros [= <-]. exists k, k'. by split_and!. Qed.

Lemma lock_inv s p c id initval s1 :
  sem_inv s -> pcs s !! p = Some c -> (forall i, locks i c = false /\ uses i c = false) -> semop p id op_lock s = ODone s1 -> sem_inv (set_pc p (CGetval id initval) s1).
Proof.
  intros Hi Hp Hc Hs. destruct (semop_sets _ _ _ _ _ Hs) as (k & k' & Hk & Ht & Hss & _). destruct (Hc id) as [L U].
  eapply inv_semop; [done|exact Hp|exact Hs|..]; try (rewrite ?L, ?U; cbn; rewrite ?Z.eqb_refl; done).
  - intros k1 k2 Hk1 Ht1. apply try_lock in Ht1 as [Hz ->]. unfold delta. cbn [v1 v2]. rewrite L, U. cbn. rewrite Z.eqb_refl. cbn. split; [lia|]. split; [lia|]. left. split; [done|done].
  - intros i Hne. destruct (Hc i) as [-> ->]. cbn. by destruct (Z.eqb_spec id i).
  - cbn. rewrite Hss, lookup_insert_eq. eauto.
  - by left.
Qed.

Ltac other_id := intros i Hne; cbn; repeat match goal with |- context [?x =? i] => destruct (Z.eqb_spec x i); [congruence|] end; done.

Lemma step_CGet ok s p key initval s' :
  sem_inv s -> pcs s !! p = Some (CGet key initval) -> sem_create ok p (CGet key initval) s = Some s' -> sem_inv s'.
Proof.
  intros Hi Hp. destruct (si_pcs _ Hi p _ Hp) as [Hc Hid]. cbn [sem_create pc_ok] in *.
  destruct ok; cbn [negb]; [|intros [= <-]; by eapply inv_move].
  pose proof (inv_semget s key Hi) as Hi1. destruct (semget_create key s) as [id s1] eqn:E. cbn [snd] in Hi1. intros [= <-].
  assert (Hp1 : pcs s1 !! p = Some (CGet key initval) /\ id < nextid s1).
  { unfold semget_create in E. destruct (keys s !! key) as [i|] eqn:Ek; injection E as <- <-; [|cbn; split; [done|lia]].
    split; [done|]. destruct (si_keys _ Hi key i Ek) as [k Hk]. by apply (so_id s i k), (si_sets _ Hi). }
  destruct Hp1 as [Hp1 Hlt]. eapply inv_move; [done|exact Hp1|done|done|]. by intros i [= <-].
Qed.

Lemma step_CLock ok s p id key initval s' :
  sem_inv s -> pcs s !! p = Some (CLock id key initval) -> sem_create ok p (CLock id key initval) s = Some s' -> sem_inv s'.
Proof.
  intros Hi Hp. destruct (si_pcs _ Hi p _ Hp) as [Hc Hid]. cbn [sem_create pc_ok] in *.
  destruct (semop p id op_lock s) as [s1| |e] eqn:E; intros [= <-].
  + by eapply lock_inv.
  + eapply inv_move; [done|exact Hp|done|done|]. intros i [= <-]. by apply Hid.
  + destruct (e =? EINVAL); [|by eapply inv_exit]. by eapply inv_move.
Qed.

Lemma step_CGetval ok s p id initval s' :
  sem_inv s -> pcs s !! p = Some (CGetval id initval) -> sem_create ok p (CGetval id initval) s = Some s' -> sem_inv s'.
Proof.
  intros Hi Hp. destruct (si_pcs _ Hi p _ Hp) as [Hc Hid]. cbn [sem_create pc_ok] in *.
  destruct Hc as [k Hk]. rewrite Hk. intros [= <-]. destruct (si_sets _ Hi id k Hk) as [_ _ H3 _].
  pose proof (count_size (uses id) (pcs s)) as Hsz. fold (users s id) in Hsz. pose proof (si_size _ Hi).
  assert (Hu : forall c', users (set_pc p c' s) id = users s id - 0 + Z.b2z (uses id c')) by (intros c'; exact (users_move s p (CGetval id initval) c' id Hp)).
  destruct (Z.eqb_spec (v1 k) 0); (eapply inv_move; [done|exact Hp|done| |intros i [= <-]; by apply Hid]); cbn [pc_ok]; exists k; (split; [done|]); rewrite Hu; cbn; lia.
Qed.

Lemma step_CSet0 ok s p id initval s' :
  sem_inv s -> pcs s !! p = Some (CSet0 id initval) -> sem_create ok p (CSet0 id initval) s = Some s' -> sem_inv s'.
Proof.
  intros Hi Hp. destruct (si_pcs _ Hi p _ Hp) as [Hc Hid]. cbn [sem_create pc_ok] in *.
  destruct Hc as (k & Hk & Hv & Hu). rewrite Hk. destruct (_ || _); intros [= <-]; [by eapply inv_exit|].
  assert (Hu' : forall c' ss aa, uses id c' = false -> users (Sys ss (keys s) (nextid s) (<[p := c']> (pcs s)) aa) id = 0)
    by (intros c' ss aa E; rewrite (users_insert s p (CSet0 id initval) c' id _ _ _ _ Hp), E; cbn; lia).
  apply (inv_change s p (CSet0 id initval) (CSet1 id) (<[id := put 0 initval k]> (sets s))); try done.
  + intros i. rewrite lookup_insert_is_Some. split; [intros [->|[_ ?]]; [by rewrite Hk|done]|]. intros ?. destruct (decide (id = i)); auto.
  + intros i k1 k2 H1 H2. destruct (si_sets _ Hi i k1 H1) as [_ [_ L2] _ H4]. destruct (H4 p _ Hp) as [A1 A2]. cbn [adj setval]. rewrite !andb_false_r.
    split; [|done]. assert (Hvv : v1 k2 = v1 k1 /\ v2 k2 = v2 k1).
    { apply lookup_insert_Some in H2 as [[<- <-]|[_ H2]]; [|by rewrite H1 in H2; injection H2 as <-]. rewrite Hk in H1. by injection H1 as <-. }
    destruct Hvv. by apply delta_alike.
  + intros q i n Hn. cbn [adj setval]. rewrite (si_fresh _ Hi) by done. by destruct (_ && _).
  + cbn [pc_ok]. exists (put 0 initval k). cbn [sets setval]. rewrite lookup_insert_eq. split; [done|]. split; [done|]. by apply Hu'.
Qed.

Lemma step_CSet1 ok s p id s' :
  sem_inv s -> pcs s !! p = Some (CSet1 id) -> sem_create ok p (CSet1 id) s = Some s' -> sem_inv s'.
Proof.
  intros Hi Hp. destruct (si_pcs _ Hi p _ Hp) as [Hc Hid]. cbn [sem_create pc_ok] in *.
  destruct Hc as (k & Hk & Hv & Hu). rewrite Hk. intros [= <-].
  apply (inv_change s p (CSet1 id) (CEnd id) (<[id := put 1 BIGCOUNT k]> (sets s))); try done.
  + intros i. rewrite lookup_insert_is_Some. split; [intros [->|[_ ?]]; [by rewrite Hk|done]|]. intros ?. destruct (decide (id = i)); auto.
  + intros i k1 k2 H1 H2. destruct (si_sets _ Hi i k1 H1) as [_ [L1 L2] _ H4]. destruct (H4 p _ Hp) as [A1 A2]. cbn [adj setval].
    rewrite bool_decide_true by done. rewrite bool_decide_false by done. rewrite andb_false_r, andb_true_r. destruct (Z.eqb_spec i id) as [->|Hne].
    * rewrite lookup_insert_eq in H2. injection H2 as <-. rewrite Hk in H1. injection H1 as <-. split; [|split; [done|]; split; [done|]].
      -- unfold delta. cbn. rewrite Z.eqb_refl. cbn. split; [lia|]. split; [lia|]. right. by split_and!.
      -- intros q d Hqp Hq. split; [|done]. destruct (H4 q d Hq) as [-> _]. destruct (uses id d) eqn:E; [|done].
         pose proof (count_pos _ _ _ _ Hq E). unfold users in Hu. lia.
    * rewrite lookup_insert_ne in H2 by done. rewrite H1 in H2. injection H2 as <-. split; [by apply delta_alike|]. by rewrite A1, A2.
  + intros q i n Hn. cbn [adj setval]. rewrite (si_fresh _ Hi) by done. by destruct (_ && _).
  + cbn [pc_ok]. exists (put 1 BIGCOUNT k). cbn [sets setval]. rewrite lookup_insert_eq. split; [done|]. cbn [v1 put]. rewrite (users_insert s p (CSet1 id) (CEnd id) id _ _ _ _ Hp). cbn. lia.
Qed.

Lemma step_CEnd ok s p id s' :
  sem_inv s -> pcs s !! p = Some (CEnd id) -> sem_create ok p (CEnd id) s = Some s' -> sem_inv s'.
Proof.
  intros Hi Hp. destruct (si_pcs _ Hi p _ Hp) as [Hc Hid]. cbn [sem_create pc_ok] in *.
  destruct Hc as (k & Hk & Hv). apply (semop_or_inv s p (CEnd id)); [done|done|]. intros s1 E. destruct (semop_sets _ _ _ _ _ E) as (k0 & k' & Hk0 & Ht & Hss & _).
  eapply inv_semop; [done|exact Hp|exact E|..]; try (cbn; rewrite ?Z.eqb_refl; done).
  + intros k1 k2 Hk1 Ht1. rewrite Hk in Hk1. injection Hk1 as <-. apply try_endcreate in Ht1 as ->. destruct (so_lock _ _ _ (si_sets _ Hi id k Hk)).
    unfold delta. cbn. rewrite Z.eqb_refl. cbn. split; [lia|]. split; [lia|]. left. split; [lia|auto].
  + other_id.
  + cbn. rewrite Hss, lookup_insert_eq. eauto.
  + by left.
Qed.

Lemma step_XOp s p id s' :
  sem_inv s -> pcs s !! p = Some (XOp id) -> sem_close p (XOp id) s = Some s' -> sem_inv s'.
Proof.
  intros Hi Hp. destruct (si_pcs _ Hi p _ Hp) as [Hc Hid]. cbn [sem_close pc_ok] in *.
  apply (semop_or_inv s p (XOp id)); [done|done|]. intros s1 E. destruct (semop_sets _ _ _ _ _ E) as (k0 & k' & Hk0 & Ht & Hss & _).
  eapply inv_semop; [done|exact Hp|exact E|..]; try (cbn; rewrite ?Z.eqb_refl; done).
  + intros k1 k2 Hk1 Ht1. apply try_close in Ht1 as [Hz ->]. unfold delta. cbn. rewrite Z.eqb_refl. cbn. split; [lia|]. split; [lia|]. left. split; [lia|done].
  + other_id.
  + cbn. rewrite Hss, lookup_insert_eq. eauto.
  + by left.
Qed.

Lemma step_XGetval s p id s' :
  sem_inv s -> pcs s !! p = Some (XGetval id) -> sem_close p (XGetval id) s = Some s' -> sem_inv s'.
Proof.
  intros Hi Hp. destruct (si_pcs _ Hi p _ Hp) as [Hc Hid]. cbn [sem_close pc_ok] in *.
  destruct Hc as [k Hk]. rewrite Hk. destruct (BIGCOUNT <? v1 k); intros [= <-]; [by eapply inv_exit|]. destruct (si_sets _ Hi id k Hk) as [_ _ H3 _].
  assert (Hu : forall c', users (set_pc p c' s) id = users s id - 0 + Z.b2z (uses id c')) by (intros c'; exact (users_move s p (XGetval id) c' id Hp)).
  destruct (Z.eqb_spec (v1 k) BIGCOUNT) as [E|E]; (eapply inv_move; [done|exact Hp|done| |intros i [= <-]; by apply Hid]); cbn [pc_ok]; [|cbn; eauto].
  exists k. split; [done|]. split; [done|]. rewrite Hu. cbn. unfold BIGCOUNT in *. lia.
Qed.

Lemma step_XUnlock s p id s' :
  sem_inv s -> pcs s !! p = Some (XUnlock id) -> sem_close p (XUnlock id) s = Some s' -> sem_inv s'.
Proof.
  intros Hi Hp. destruct (si_pcs _ Hi p _ Hp) as [Hc Hid]. cbn [sem_close pc_ok] in *.
  apply (semop_or_inv s p (XUnlock id)); [done|done|]. intros s1 E.
  eapply inv_semop; [done|exact Hp|exact E|..]; try (cbn; rewrite ?Z.eqb_refl; done).
  + intros k1 k2 Hk1 Ht1. apply try_unlock in Ht1 as ->. destruct (so_lock _ _ _ (si_sets _ Hi id k1 Hk1)). unfold delta. cbn. rewrite Z.eqb_refl. cbn.
    split; [lia|]. split; [lia|]. left. split; [lia|done].
  + other_id.
  + by right.
Qed.

Lemma run_inv ok s p s' : sem_inv s -> run ok p s = Some s' -> sem_inv s'.
Proof.
  intros Hi. unfold run. destruct (pcs s !! p) as [c|] eqn:Hp; [|done]. destruct (si_pcs _ Hi p c Hp) as [Hc Hid].
  destruct c; try done; cbn [pc_ok] in Hc;
    eauto using step_CGet, step_CLock, step_CGetval, step_CSet0, step_CSet1, step_CEnd, step_XOp, step_XGetval, step_XUnlock; cbn [sem_create sem_close].
  - apply (semop_or_inv s p (CWait id initval)); [done|done|]. intros s1 E. by eapply lock_inv.
  - destruct Hc as (k & Hk & _). unfold sem_rm. rewrite Hk. intros [= <-]. by apply inv_rm.
  - apply (semop_or_inv s p (SOp id value)); [done|done|]. intros s1 E. destruct (semop_sets _ _ _ _ _ E) as (k0 & k' & Hk0 & Ht & Hss & _).
    eapply inv_semop; [done|exact Hp|exact E|..]; try (cbn; rewrite ?Z.eqb_refl; done).
    + intros k1 k2 Hk1 Ht1. apply try_op in Ht1 as [E1 E2]. apply delta_alike; try done. apply (so_lock _ _ _ (si_sets _ Hi id k1 Hk1)).
    + cbn. rewrite Hss, lookup_insert_eq. eauto.
    + by left.
Qed.

Lemma act_inv a s s' : create_only a = true -> apply_act a s = Some s' -> sem_inv s -> sem_inv s'.
Proof.
  intros Ha Hs Hi. destruct a as [p f|p|p|p]; cbn [apply_act] in Hs; [|by eapply run_inv|by eapply run_inv|].
  - unfold start in Hs. destruct f as [key initval|key| |value|]; try done; destruct (pcs s !! p) as [c|] eqn:Hp; try done; destruct c; try done;
      destruct (si_pcs _ Hi p _ Hp) as [Hc Hid].
    + destruct (bad_key key); injection Hs as <-; [done|]. by eapply inv_move.
    + injection Hs as <-. by eapply inv_move.
    + destruct (i16 value =? 0); injection Hs as <-; [by eapply inv_exit|]. by eapply inv_move.
  - destruct (pcs s !! p) as [c|] eqn:Hp; [|done]. destruct (alive c); [|done]. injection Hs as <-. by eapply inv_exit.
Qed.

Lemma sem_init_inv ps : Z.of_nat (size ps) < BIGCOUNT -> sem_inv (sys_init ps).
Proof.
  intros Hs. split; cbn; try done.
  - intros p c Hp. apply lookup_gset_to_gmap_Some in Hp as [_ <-]. done.
  - by rewrite <- size_dom, dom_gset_to_gmap.
Qed.

Lemma sem_reach_inv s s' : rtc sem_step s s' -> sem_inv s -> sem_inv s'.
Proof. induction 1 as [|s s1 s2 (a & Ha & Hs) _ IH]; [done|]. intros Hi. apply IH. by eapply act_inv. Qed.

Lemma exec_reach l s s' : forallb create_only l = true -> exec l s = Some s' -> rtc sem_step s s'.
Proof.
  revert s. induction l as [|a l IH]; intros s Hl Hs; cbn in *; [by injection Hs as <-; apply rtc_refl|]. apply andb_true_iff in Hl as [Ha Hl].
  destruct (apply_act a s) as [s1|] eqn:E; [|done]. eapply rtc_l; [by exists a|]. by apply IH.
Qed.

(** ** Theorems *)

(** C6: When processes use [sem_create], [sem_op] and [sem_close], in any order and
    ending at any moment, a process that uses a semaphore always finds its set, the counter
    of the set is [BIGCOUNT] less the number of its users, and at most one process is in
    the part of [sem_create] or [sem_close] that the lock protects.  There are fewer than
    [BIGCOUNT] processes, and any [semget] may fail. *)
Theorem sem_users_counted (ps : gset Z) (s : sys) (p id : Z) :
  Z.of_nat (size ps) < BIGCOUNT -> rtc sem_step (sys_init ps) s -> pcs s !! p = Some (Held id) ->
  exists k, sets s !! id = Some k /\ v1 k = BIGCOUNT - users s id /\ v2 k = count (locks id) (pcs s) /\ v2 k <= 1.
Proof.
  intros Hn Hr Hp. pose proof (sem_reach_inv _ _ Hr (sem_init_inv ps Hn)) as Hi. destruct (si_pcs _ Hi p _ Hp) as [[k Hk] _]. exists k.
  destruct (si_sets _ Hi id k Hk) as [_ [H1 H2] H3 _]. split_and!; try done. destruct H3 as [[_ H3]|H3]; [|done].
  pose proof (count_pos (uses id) (pcs s) p _ Hp ltac:(cbn; apply Z.eqb_refl)). unfold users in H3. lia.
Qed.

(** A set is removed only by the last user that closes it: whenever a process is
    about to remove a set nobody uses it. *)
Theorem sem_removed_unused (ps : gset Z) (s : sys) (p id : Z) :
  Z.of_nat (size ps) < BIGCOUNT -> rtc sem_step (sys_init ps) s -> pcs s !! p = Some (XRm id) -> users s id = 0.
Proof.
  intros Hn Hr Hp. pose proof (sem_reach_inv _ _ Hr (sem_init_inv ps Hn)) as Hi. by destruct (si_pcs _ Hi p _ Hp) as [(k & _ & _ & H) _].
Qed.

(** Process 1 creates a semaphore and closes it; process 2 opens it after process 1 has
    looked at the counter. *)
Definition race : list act :=
  [AStart 1 (FCreate 77 1); ARun 1; ARun 1; ARun 1; ARun 1; ARun 1; ARun 1;
   AStart 1 FClose; ARun 1; ARun 1; AStart 2 (FOpen 77); ARun 2; ARun 2; ARun 1].

(** [sem_open] takes no lock: a process that has just opened the semaphore can
    lose it to another one that closes it. *)
Theorem sem_open_race :
  exists s id, exec race (sys_init {[1; 2]}) = Some s /\ pcs s !! 2 = Some (Held id) /\ sets s !! id = None.
Proof. eexists _, 1. split; [vm_compute; reflexivity|]. by split. Qed.

(** Process 2 waits for the lock while process 1 removes the set. *)
Definition eidrm : list act :=
  [AStart 1 (FCreate 77 1); ARun 1; ARun 1; ARun 1; ARun 1; ARun 1; ARun 1;
   AStart 1 FClose; ARun 1; AStart 2 (FCreate 77 1); ARun 2; ARun 2; ARun 1; ARun 1; ARun 2].

(** [sem_create] starts again when its set was removed before the call, but ends
    the process when the set is removed while it waits for the lock: the error is then
    [EIDRM] and not [EINVAL]. *)
Theorem sem_create_killed :
  exists s, exec eidrm (sys_init {[1; 2]}) = Some s /\ pcs s !! 2 = Some (Dead "can't lock") /\ forallb create_only eidrm = true.
Proof. eexists. split; [vm_compute; reflexivity|]. by split. Qed.

(** ** Runs *)

Definition create2 : list act :=
  [AStart 1 (FCreate 77 1); ARun 1; ARun 1; ARun 1; ARun 1; ARun 1; ARun 1; AStart 2 (FCreate 77 1); ARun 2; ARun 2; ARun 2; ARun 2].
Definition sys2 : sys := default (sys_init ∅) (exec create2 (sys_init {[1; 2]})).
Definition sys3 : sys := default (sys_init ∅) (exec (take 10 race) (sys_init {[1; 2]})).

Lemma sem_users_counted_witness :
  exists k, sets sys2 !! 1 = Some k /\ v1 k = BIGCOUNT - users sys2 1 /\ v2 k = count (locks 1) (pcs sys2) /\ v2 k <= 1.
Proof.
  apply (sem_users_counted {[1; 2]} sys2 2 1); [done| |by vm_compute]. apply (exec_reach create2); [done|]. by vm_compute.
Defined.

Lemma sem_removed_unused_witness : users sys3 1 = 0.
Proof.
  apply (sem_removed_unused {[1; 2]} sys3 1 1); [done| |by vm_compute]. apply (exec_reach (take 10 race)); [done|]. by vm_compute.
Defined.
