(* ===== verification/Gai.v ===== *)
(** * Names and services (unpv13e/libgai)

    [getaddrinfo] and the functions it is made of, [freeaddrinfo], and [getnameinfo].  A
    list of [addrinfo] structures is the Coq list of its nodes in the order of their
    [ai_next] pointers.  The resolver and the services database are fields of the class
    [resolver], with the outcome of every allocation; [inet_pton] and [inet_ntop] are the
    ones of unpv13e/libfree (Inet.v).  [g_live] counts the blocks that were allocated and
    not freed.  The options IPv4, IPv6 and UNIXdomain are on, as configure leaves them on
    a system that has the three. *)

From Stdlib Require Import Strings.Byte ZArith Lia.
From S2P Require Import Prelude Wp Libc Inet.
From stdpp Require Import base strings numbers gmap list.
#[local] Open Scope Z_scope.

(** ** Constants (addrinfo.h, gai_hdr.h and the system) *)

Definition AI_PASSIVE : Z := 1.
Definition AI_CANONNAME : Z := 2.
Definition AI_CLONE : Z := 4.

Definition EAI_ADDRFAMILY : Z := 1.
Definition EAI_AGAIN : Z := 2.
Definition EAI_BADFLAGS : Z := 3.
Definition EAI_FAIL : Z := 4.
Definition EAI_FAMILY : Z := 5.
Definition EAI_MEMORY : Z := 6.
Definition EAI_NODATA : Z := 7.
Definition EAI_NONAME : Z := 8.
Definition EAI_SERVICE : Z := 9.
Definition EAI_SOCKTYPE : Z := 10.
Definition EAI_SYSTEM : Z := 11.

Definition NI_NOFQDN : Z := 1.
Definition NI_NUMERICHOST : Z := 2.
Definition NI_NAMEREQD : Z := 4.
Definition NI_NUMERICSERV : Z := 8.
Definition NI_DGRAM : Z := 16.

Definition AF_UNSPEC : Z := 0.
Definition AF_LOCAL : Z := 1.
Definition SOCK_STREAM : Z := 1.
Definition SOCK_DGRAM : Z := 2.
Definition SOCK_RAW : Z := 3.

Definition HOST_NOT_FOUND : Z := 1.
Definition TRY_AGAIN : Z := 2.
Definition NO_RECOVERY : Z := 3.
Definition NO_DATA : Z := 4.

Definition RES_INIT : Z := 1.
Definition RES_USE_INET6 : Z := 8192.

Definition SUN_PATH_SZ : Z := 108.
Definition SOCKADDR_IN_SZ : Z := 16.
Definition SOCKADDR_IN6_SZ : Z := 28.
Definition SOCKADDR_UN_SZ : Z := 110.

(** ** Data *)

(** The socket address structures; the port is in network byte order. *)
Inductive sockaddr :=
| SIn (sin_port : Z) (sin_addr : list Z)
| SIn6 (sin6_port : Z) (sin6_addr : list Z)
| SUn (sun_path : bytes).

#[global] Instance sockaddr_eq_dec : EqDecision sockaddr.
Proof. solve_decision. Defined.

Record addrinfo := AddrInfo {
  ai_flags : Z; ai_family : Z; ai_socktype : Z; ai_protocol : Z;
  ai_addrlen : Z; ai_canonname : option bytes; ai_addr : option sockaddr
}.

#[global] Instance addrinfo_eq_dec : EqDecision addrinfo.
Proof. solve_decision. Defined.

Definition set_socktype (t : Z) (ai : addrinfo) : addrinfo :=
  AddrInfo (ai_flags ai) (ai_family ai) t (ai_protocol ai) (ai_addrlen ai) (ai_canonname ai) (ai_addr ai).
Definition set_canonname (c : option bytes) (ai : addrinfo) : addrinfo :=
  AddrInfo (ai_flags ai) (ai_family ai) (ai_socktype ai) (ai_protocol ai) (ai_addrlen ai) c (ai_addr ai).
Definition set_addr (sz : Z) (a : option sockaddr) (ai : addrinfo) : addrinfo :=
  AddrInfo (ai_flags ai) (ai_family ai) (ai_socktype ai) (ai_protocol ai) sz (ai_canonname ai) a.

(** [struct search] *)
Record search := Search { s_host : bytes; s_family : Z }.

(** [struct hostent]: the addresses are blocks of bytes. *)
Record hostent := Hostent { h_name : bytes; h_addrtype : Z; h_addr_list : list (list Z) }.

(** What [ga_aistruct] gets as [addr]: a block of bytes, or a path name. *)
Inductive addr_arg := ABin (a : list Z) | APath (p : bytes).

(** ** The system *)

(** [alloc_ok n]: the outcome of the [n]th allocation.  [gethostbyname] and
    [gethostbyname2] get the value of [_res.options]; [inr] is the value of [h_errno].
    The ports of the services database are in network byte order. *)
Class resolver := Resolver {
  alloc_ok : nat -> bool;
  res_defaults : Z;
  gethostbyname : Z -> bytes -> hostent + Z;
  gethostbyname2 : Z -> bytes -> Z -> hostent + Z;
  gethostbyaddr : list Z -> Z -> option (option bytes);
  getservbyname : bytes -> bytes -> option Z;
  getservbyport : Z -> option bytes -> option (option bytes);
  uname : option bytes
}.

Record gai := GaiSt {
  g_allocs : nat;          (* allocations so far *)
  g_live : Z;              (* blocks in use *)
  g_options : Z;           (* _res.options *)
  g_unlinked : list bytes  (* path names given to unlink *)
}.

Definition set_live (f : Z -> Z) (g : gai) : gai := GaiSt (g_allocs g) (f (g_live g)) (g_options g) (g_unlinked g).
Definition set_options (f : Z -> Z) (g : gai) : gai := GaiSt (g_allocs g) (g_live g) (f (g_options g)) (g_unlinked g).
Definition log_unlink (p : bytes) (g : gai) : gai := GaiSt (g_allocs g) (g_live g) (g_options g) (p :: g_unlinked g).

Definition free1 : M gai unit := modst (set_live (fun n => n - 1)).

(** [htons], [ntohs] on a little-endian machine: the argument becomes a [uint16_t]. *)
Definition htons (v : Z) : Z := Z.lor (Z.shiftl (Z.land (u16 v) 255) 8) (Z.shiftr (u16 v) 8).
Definition ntohs (v : Z) : Z := htons v.

(** [p == NULL || p[0] == '\0'] *)
Definition no_string (p : option bytes) : bool := match p with None | Some [] => true | _ => false end.

Definition has (flags bit : Z) : bool := negb (Z.land flags bit =? 0).

Definition isxdigit (c : byte) : bool :=
  isdigit c || ((65 <=? uc c) && (uc c <=? 70)) || ((97 <=? uc c) && (uc c <=? 102)).

(** ** ga_echeck, ga_nsearch *)

Definition bad_socktype (socktype : Z) : bool :=
  negb (socktype =? 0) &&
  (negb (socktype =? SOCK_STREAM) && negb (socktype =? SOCK_DGRAM) && negb (socktype =? SOCK_RAW)).

Definition ga_echeck (hostname servname : option bytes) (flags family socktype protocol : Z) : Z :=
  if negb (Z.land flags (Z.lnot (Z.lor AI_PASSIVE AI_CANONNAME)) =? 0) then EAI_BADFLAGS
  else if no_string hostname && no_string servname then EAI_NONAME
  else if family =? AF_UNSPEC then 0
  else if family =? AF_INET then if bad_socktype socktype then EAI_SOCKTYPE else 0
  else if family =? AF_INET6 then if bad_socktype socktype then EAI_SOCKTYPE else 0
  else if family =? AF_LOCAL then
    if negb (socktype =? 0) && (negb (socktype =? SOCK_STREAM) && negb (socktype =? SOCK_DGRAM))
    then EAI_SOCKTYPE else 0
  else EAI_FAMILY.

(** The entries of [search] by the family wanted. *)
Definition by_family (family : Z) (host4 host6 : bytes) : list search :=
  if family =? AF_INET then [Search host4 AF_INET]
  else if family =? AF_INET6 then [Search host6 AF_INET6]
  else if family =? AF_UNSPEC then [Search host6 AF_INET6; Search host4 AF_INET]
  else [].

Definition search_list (hostname : option bytes) (hints : addrinfo) : list search :=
  match hostname with
  | None | Some [] =>
    if has (ai_flags hints) AI_PASSIVE
    then by_family (ai_family hints) (bs "0.0.0.0") (bs "0::0")
    else by_family (ai_family hints) (bs "localhost") (bs "0::1")
  | Some h => by_family (ai_family hints) h h
  end.

Definition ga_nsearch (hostname : option bytes) (hints : addrinfo) : M gai (list search) :=
  let search := search_list hostname hints in
  if (len search <? 1) || (2 <? len search) then die (DQuit "nsearch = %d") else ret search.

(** What the loop carries: [aihead], [canon], and the error of [goto bad], or 0. *)
Abbreviation found := (list addrinfo * option bytes * Z)%type.

Section resolving.
Context `{R : resolver}.

(** [calloc], [malloc], [strdup]: true when there is memory. *)
Definition alloc : M gai bool := fun g =>
  if alloc_ok (g_allocs g) then Ret true (GaiSt (S (g_allocs g)) (g_live g + 1) (g_options g) (g_unlinked g))
  else Ret false (GaiSt (S (g_allocs g)) (g_live g) (g_options g) (g_unlinked g)).

(** ** ga_aistruct *)

(** The list that [aipnext] ends, with the new node, and the return value. *)
Definition ga_aistruct (l : list addrinfo) (hints : addrinfo) (addr : addr_arg) (family : Z) :
    M gai (list addrinfo * Z) :=
  ok <- alloc ;;
  if negb ok then ret (l, EAI_MEMORY)
  else
    let flags := if ai_socktype hints =? 0 then AI_CLONE else 0 in
    let ai := AddrInfo flags family (ai_socktype hints) (ai_protocol hints) 0 None None in
    if family =? AF_INET then
      ok <- alloc ;;
      if negb ok then ret (l ++ [ai], EAI_MEMORY)
      else match addr with
      | ABin a =>
        if len a <? 4 then undef "memcpy past the end of the address"
        else ret (l ++ [set_addr SOCKADDR_IN_SZ (Some (SIn 0 (take 4 a))) ai], 0)
      | APath _ => undef "not a binary address"
      end
    else if family =? AF_INET6 then
      ok <- alloc ;;
      if negb ok then ret (l ++ [ai], EAI_MEMORY)
      else match addr with
      | ABin a =>
        if len a <? 16 then undef "memcpy past the end of the address"
        else ret (l ++ [set_addr SOCKADDR_IN6_SZ (Some (SIn6 0 (take 16 a))) ai], 0)
      | APath _ => undef "not a binary address"
      end
    else if family =? AF_LOCAL then
      match addr with
      | APath p =>
        if SUN_PATH_SZ <=? len p then ret (l ++ [ai], EAI_SERVICE)
        else
          ok <- alloc ;;
          if negb ok then ret (l ++ [ai], EAI_MEMORY)
          else
            when (has (ai_flags hints) AI_PASSIVE) (modst (log_unlink p)) ;;;
            ret (l ++ [set_addr SOCKADDR_UN_SZ (Some (SUn p)) ai], 0)
      | ABin _ => undef "not a string"
      end
    else ret (l ++ [ai], 0).

(** ** ga_clone, ga_port, ga_serv *)

(** The node that [ga_clone] links behind [ai], unless there was no memory for it, and
    whether it succeeded. *)
Definition ga_clone (ai : addrinfo) : M gai (option addrinfo * bool) :=
  ok <- alloc ;;
  if negb ok then ret (None, false)
  else
    let new a := AddrInfo 0 (ai_family ai) (ai_socktype ai) (ai_protocol ai) (ai_addrlen ai) None a in
    ok <- alloc ;;
    if negb ok then ret (Some (new None), false) else ret (Some (new (ai_addr ai)), true).

(** The stores into the socket address structure of one entry, and what they add to
    [nfound]. *)
Definition store_port (port : Z) (ai : addrinfo) : option (addrinfo * Z) :=
  if ai_family ai =? AF_INET then
    match ai_addr ai with
    | Some (SIn _ a) => Some (set_addr (ai_addrlen ai) (Some (SIn (u16 port) a)) ai, 1)
    | _ => None
    end
  else if ai_family ai =? AF_INET6 then
    match ai_addr ai with
    | Some (SIn6 _ a) => Some (set_addr (ai_addrlen ai) (Some (SIn6 (u16 port) a)) ai, 1)
    | _ => None
    end
  else Some (ai, 0).

(** The list afterwards and the return value. *)
Fixpoint ga_port_loop (ais : list addrinfo) (port socktype nfound : Z) : M gai (list addrinfo * Z) :=
  match ais with
  | [] => ret ([], nfound)
  | ai :: rest =>
    (* the rest of the body, with [ai] the entry to fill in and [before] the nodes passed *)
    let fill before ai :=
      match store_port port (set_socktype socktype ai) with
      | None => undef "store through a null pointer"
      | Some (ai', k) =>
        r <- ga_port_loop rest port socktype (nfound + k) ;;
        ret (before ++ ai' :: r.1, r.2)
      end in
    if has (ai_flags ai) AI_CLONE then
      if negb (ai_socktype ai =? 0) then
        c <- ga_clone ai ;;
        match c with
        | (Some new, true) => fill [ai] new
        | (Some new, false) => ret (ai :: new :: rest, -1)
        | (None, _) => ret (ai :: rest, -1)
        end
      else fill [] ai
    else if negb (ai_socktype ai =? socktype) then
      r <- ga_port_loop rest port socktype nfound ;;
      ret (ai :: r.1, r.2)
    else fill [] ai
  end.

Definition ga_port (aihead : list addrinfo) (port socktype : Z) : M gai (list addrinfo * Z) :=
  ga_port_loop aihead port socktype 0.

(** The end of [ga_serv]: the list and the return value. *)
Definition serv_end (hints : addrinfo) (l : list addrinfo) (nfound : Z) : M gai (list addrinfo * Z) :=
  if nfound =? 0 then ret (l, if ai_socktype hints =? 0 then EAI_NONAME else EAI_SERVICE) else ret (l, 0).

(** The service name with UDP, after [nfound] entries were found with TCP. *)
Definition serv_udp (hints : addrinfo) (serv : bytes) (l : list addrinfo) (nfound : Z) :
    M gai (list addrinfo * Z) :=
  if (ai_socktype hints =? 0) || (ai_socktype hints =? SOCK_DGRAM) then
    match getservbyname serv (bs "udp") with
    | Some p =>
      r <- ga_port l p SOCK_DGRAM ;;
      if r.2 <? 0 then ret (r.1, EAI_MEMORY) else serv_end hints r.1 (nfound + r.2)
    | None => serv_end hints l nfound
    end
  else serv_end hints l nfound.

Definition ga_serv (aihead : list addrinfo) (hints : addrinfo) (serv : bytes) : M gai (list addrinfo * Z) :=
  let st := ai_socktype hints in
  if isdigit (hd NUL serv) then
    let port := htons (atoi serv) in
    if negb (st =? 0) then
      r <- ga_port aihead port st ;;
      if r.2 <? 0 then ret (r.1, EAI_MEMORY) else serv_end hints r.1 r.2
    else
      r <- ga_port aihead port SOCK_STREAM ;;
      if r.2 <? 0 then ret (r.1, EAI_MEMORY)
      else
        r2 <- ga_port r.1 port SOCK_DGRAM ;;
        if r2.2 <? 0 then ret (r2.1, EAI_MEMORY) else serv_end hints r2.1 (r.2 + r2.2)
  else if (st =? 0) || (st =? SOCK_STREAM) then
    match getservbyname serv (bs "tcp") with
    | Some p =>
      r <- ga_port aihead p SOCK_STREAM ;;
      if r.2 <? 0 then ret (r.1, EAI_MEMORY) else serv_udp hints serv r.1 r.2
    | None => serv_udp hints serv aihead 0
    end
  else serv_udp hints serv aihead 0.

(** ** ga_unix *)

(** From the second call of [ga_aistruct] on, with the list so far: the value stored
    through [result], if any, and the return value. *)
Definition unix_last (path : bytes) (l : list addrinfo) (hints : addrinfo) : M gai (option (list addrinfo) * Z) :=
  r <- ga_aistruct l hints (APath path) AF_LOCAL ;;
  if negb (r.2 =? 0) then ret (None, r.2)
  else if has (ai_flags hints) AI_CANONNAME then
    match uname with
    | None => ret (None, EAI_SYSTEM)
    | Some nodename =>
      ok <- alloc ;;
      if negb ok then ret (None, EAI_MEMORY)
      else match r.1 with
      | ai :: rest => ret (Some (set_canonname (Some nodename) ai :: rest), 0)
      | [] => undef "null pointer"
      end
    end
  else ret (Some r.1, 0).

Definition ga_unix (path : bytes) (hints : addrinfo) : M gai (option (list addrinfo) * Z) :=
  if negb (ai_family hints =? AF_UNSPEC) && negb (ai_family hints =? AF_LOCAL)
  then ret (None, EAI_ADDRFAMILY)
  else if ai_socktype hints =? 0 then
    r <- ga_aistruct [] (set_socktype SOCK_STREAM hints) (APath path) AF_LOCAL ;;
    if negb (r.2 =? 0) then ret (None, r.2)
    else unix_last path r.1 (set_socktype SOCK_DGRAM hints)
  else unix_last path [] hints.

(** ** freeaddrinfo *)

Fixpoint freeaddrinfo (aihead : list addrinfo) : M gai unit :=
  match aihead with
  | [] => ret tt
  | ai :: ainext =>
    when (bool_decide (is_Some (ai_addr ai))) free1 ;;;
    when (bool_decide (is_Some (ai_canonname ai))) free1 ;;;
    free1 ;;;
    freeaddrinfo ainext
  end.

(** ** getaddrinfo *)

(** One entry for every address of a host. *)
Fixpoint add_addrs (l : list addrinfo) (hints : addrinfo) (addrs : list (list Z)) (family : Z) :
    M gai (list addrinfo * Z) :=
  match addrs with
  | [] => ret (l, 0)
  | a :: addrs' =>
    r <- ga_aistruct l hints (ABin a) family ;;
    if negb (r.2 =? 0) then ret r else add_addrs r.1 hints addrs' family
  end.

Definition h_error (h_errno : Z) : Z :=
  if h_errno =? HOST_NOT_FOUND then EAI_NONAME
  else if h_errno =? TRY_AGAIN then EAI_AGAIN
  else if h_errno =? NO_RECOVERY then EAI_FAIL
  else if h_errno =? NO_DATA then EAI_NODATA
  else EAI_NONAME.

(** The query for one entry of [search]. *)
Definition ask (nsearch : Z) (sp : search) : M gai (hostent + Z) :=
  o <- gets g_options ;;
  when (negb (has o RES_INIT)) (modst (set_options (fun _ => Z.lor res_defaults RES_INIT))) ;;;
  if nsearch =? 2 then
    modst (set_options (fun o => Z.land o (Z.lnot RES_USE_INET6))) ;;;
    o <- gets g_options ;;
    ret (gethostbyname2 o (s_host sp) (s_family sp))
  else
    modst (set_options (fun o => if s_family sp =? AF_INET6 then Z.lor o RES_USE_INET6
                                 else Z.land o (Z.lnot RES_USE_INET6))) ;;;
    o <- gets g_options ;;
    ret (gethostbyname o (s_host sp)).

(** The part of the body that looks the name up. *)
Definition by_name (nsearch : Z) (hostname : option bytes) (hints : addrinfo) (sp : search)
    (l : list addrinfo) (canon : option bytes) : M gai found :=
  h <- ask nsearch sp ;;
  match h with
  | inr e => if nsearch =? 2 then ret (l, canon, 0) else ret (l, canon, h_error e)
  | inl hp =>
    if negb (ai_family hints =? AF_UNSPEC) && negb (ai_family hints =? h_addrtype hp)
    then ret (l, canon, EAI_ADDRFAMILY)
    else
      let entries canon :=
        r <- add_addrs l hints (h_addr_list hp) (h_addrtype hp) ;;
        ret (r.1, canon, r.2) in
      if negb (no_string hostname) && has (ai_flags hints) AI_CANONNAME && bool_decide (canon = None) then
        ok <- alloc ;;
        if negb ok then ret (l, None, EAI_MEMORY) else entries (Some (h_name hp))
      else entries canon
  end.

(** The entry of a numeric address of family [af]. *)
Definition by_number (af : Z) (a : list Z) (hints : addrinfo) (sp : search)
    (l : list addrinfo) (canon : option bytes) : M gai found :=
  if negb (ai_family hints =? AF_UNSPEC) && negb (ai_family hints =? af)
  then ret (l, canon, EAI_ADDRFAMILY)
  else if negb (s_family sp =? af) then ret (l, canon, 0)
  else r <- ga_aistruct l hints (ABin a) af ;; ret (r.1, canon, r.2).

(** The body of the loop. *)
Definition search_one (nsearch : Z) (hostname : option bytes) (hints : addrinfo) (sp : search)
    (l : list addrinfo) (canon : option bytes) : M gai found :=
  let host := s_host sp in
  let v6 :=
    if (isxdigit (hd NUL host) || bool_decide (hd NUL host = c_colon)) && bool_decide (is_Some (strchr host c_colon))
    then match inet_pton AF_INET6 host (replicate 16 0) 0 with
         | None => undef "store outside the array"
         | Some (rc, in6addr, _) =>
           if rc =? 1 then by_number AF_INET6 in6addr hints sp l canon
           else by_name nsearch hostname hints sp l canon
         end
    else by_name nsearch hostname hints sp l canon in
  if isdigit (hd NUL host)
  then match inet_pton AF_INET host (replicate 4 0) 0 with
       | None => undef "store outside the array"
       | Some (rc, inaddr, _) => if rc =? 1 then by_number AF_INET inaddr hints sp l canon else v6
       end
  else v6.

Fixpoint search_loop (nsearch : Z) (hostname : option bytes) (hints : addrinfo) (sps : list search)
    (l : list addrinfo) (canon : option bytes) : M gai found :=
  match sps with
  | [] => ret (l, canon, 0)
  | sp :: sps' =>
    r <- search_one nsearch hostname hints sp l canon ;;
    if negb (r.2 =? 0) then ret r else search_loop nsearch hostname hints sps' r.1.1 r.1.2
  end.

(** [error(e)] *)
Definition bad (aihead : list addrinfo) (error : Z) : M gai (option (list addrinfo) * Z) :=
  freeaddrinfo aihead ;;; ret (None, error).

Definition no_hints : addrinfo := AddrInfo 0 AF_UNSPEC 0 0 0 None None.

Definition is_unix (hostname servname : option bytes) : bool :=
  match hostname, servname with
  | Some h, Some s =>
    (bool_decide (h = bs "/local") || bool_decide (h = bs "/unix")) && bool_decide (hd NUL s = "/"%byte)
  | _, _ => false
  end.

(** The canonical name of the first entry. *)
Definition give_canon (hostname : option bytes) (hints : addrinfo) (sps : list search)
    (aihead : list addrinfo) (canon : option bytes) : M gai (list addrinfo * Z) :=
  match aihead with
  | [] => ret ([], EAI_NONAME)
  | ai :: rest =>
    if negb (no_string hostname) && has (ai_flags hints) AI_CANONNAME then
      match canon with
      | Some c => ret (set_canonname (Some c) ai :: rest, 0)
      | None =>
        ok <- alloc ;;
        if negb ok then ret (set_canonname None ai :: rest, EAI_MEMORY)
        else ret (set_canonname (Some (from_option s_host [] (head sps))) ai :: rest, 0)
      end
    else ret (aihead, 0)
  end.

(** The value stored through [result], if any, and the return value. *)
Definition getaddrinfo (hostname servname : option bytes) (hintsp : option addrinfo) :
    M gai (option (list addrinfo) * Z) :=
  let hints := default no_hints hintsp in
  let rc := ga_echeck hostname servname (ai_flags hints) (ai_family hints) (ai_socktype hints) (ai_protocol hints) in
  if negb (rc =? 0) then bad [] rc
  else if is_unix hostname servname then ga_unix (default [] servname) hints
  else
    sps <- ga_nsearch hostname hints ;;
    r <- search_loop (len sps) hostname hints sps [] None ;;
    let '(l, canon, e) := r in
    if negb (e =? 0) then bad l e
    else
      c <- give_canon hostname hints sps l canon ;;
      if negb (c.2 =? 0) then bad c.1 c.2
      else match servname with
      | Some (c0 :: s) =>
        p <- ga_serv c.1 hints (c0 :: s) ;;
        if negb (p.2 =? 0) then bad p.1 p.2 else ret (Some p.1, 0)
      | _ => ret (Some c.1, 0)
      end.

(** ** getnameinfo *)

(** [snprintf(buf, size, "%s", s)] with [size > 0] *)
Definition snprintf_s (buf s : bytes) : bytes := splice 0 (take (length buf - 1) s ++ [NUL]) buf.

(** The buffers afterwards and the return value; their sizes are [hostlen] and
    [servlen]. *)
Definition gn_ipv46 (host serv : bytes) (aptr : list Z) (family port flags : Z) : option (bytes * bytes * Z) :=
  let service host :=
    if 0 <? len serv then
      if has flags NI_NUMERICSERV then Some (host, snprintf_s serv (dec (ntohs port)), 0)
      else match getservbyport port (if has flags NI_DGRAM then Some (bs "udp") else None) with
           | Some (Some name) => Some (host, snprintf_s serv name, 0)
           | _ => Some (host, snprintf_s serv (dec (ntohs port)), 0)
           end
    else Some (host, serv, 0) in
  let numeric :=
    match inet_ntop family aptr host 0 with
    | None => None
    | Some (None, _) => Some (host, serv, 1)
    | Some (Some host', _) => service host'
    end in
  if 0 <? len host then
    if has flags NI_NUMERICHOST then numeric
    else match gethostbyaddr aptr family with
         | Some (Some name) =>
           let name' := match strchr name "."%byte with
                        | Some p => if has flags NI_NOFQDN then take p name else name
                        | None => name
                        end in
           service (snprintf_s host name')
         | _ => if has flags NI_NAMEREQD then Some (host, serv, 1) else numeric
         end
  else service host.

Definition getnameinfo (sa : sockaddr) (host serv : bytes) (flags : Z) : option (bytes * bytes * Z) :=
  match sa with
  | SIn port addr => gn_ipv46 host serv addr AF_INET port flags
  | SIn6 port addr => gn_ipv46 host serv addr AF_INET6 port flags
  | SUn path =>
    Some (if 0 <? len host then snprintf_s host (bs "/local") else host,
          if 0 <? len serv then snprintf_s serv path else serv, 0)
  end.
End resolving.
