(* ===== verification/GaiMem.v ===== *)
(** * Memory of name resolution

    Whatever allocations fail, [getaddrinfo] follows no null pointer and every block it
    allocated is in the list it returns, or was freed, with one exception: the canonical
    name.  [owned] counts the blocks of a list. *)

From Stdlib Require Import Strings.Byte ZArith Lia.
From S2P Require Import Prelude Wp Libc Inet InetProofs Gai.
From stdpp Require Import base strings numbers gmap list.
#[local] Open Scope Z_scope.

Definition opt_block {A} (p : option A) : Z := match p with Some _ => 1 | None => 0 end.

Definition blocks (ai : addrinfo) : Z := 1 + opt_block (ai_addr ai) + opt_block (ai_canonname ai).

Definition owned (l : list addrinfo) : Z := foldr (fun ai n => blocks ai + n) 0 l.

Lemma owned_app l l' : owned (l ++ l') = owned l + owned l'.
Proof. induction l as [|ai l IH]; simpl; lia. Qed.

Lemma owned_cons ai l : owned (ai :: l) = blocks ai + owned l.
Proof. done. Qed.

Lemma owned_nonneg l : 0 <= owned l.
Proof. induction l as [|ai l IH]; [done|]. rewrite owned_cons. unfold blocks, opt_block. repeat case_match; lia. Qed.

(** The socket address of an Internet entry is of the kind its family says. *)
Definition wf_ai (ai : addrinfo) : Prop :=
  exists p a, (ai_family ai = AF_INET /\ ai_addr ai = Some (SIn p a)) \/
              (ai_family ai = AF_INET6 /\ ai_addr ai = Some (SIn6 p a)).

(** The entries before the canonical name is stored. *)
Definition fresh_ai (ai : addrinfo) : Prop := wf_ai ai /\ ai_canonname ai = None.

(** What the resolver documents of a host: the addresses have the size of their family. *)
Definition wf_addr (family : Z) (a : list Z) : Prop :=
  (family = AF_INET /\ length a = 4%nat) \/ (family = AF_INET6 /\ length a = 16%nat).

Definition wf_hostent (h : hostent) : Prop := Forall (wf_addr (h_addrtype h)) (h_addr_list h).

Class wf_resolver (R : resolver) : Prop := WfResolver {
  wf_by_name o h hp : gethostbyname o h = inl hp -> wf_hostent hp;
  wf_by_name2 o h f hp : gethostbyname2 o h f = inl hp -> wf_hostent hp
}.

Section memory.
Context `{R : resolver, !wf_resolver R}.
Implicit Types (l : list addrinfo) (ai hints : addrinfo) (g : gai).

(** [keeps g l]: of the blocks in use, those of [l] are accounted for. *)
Definition keeps (g g' : gai) (l l' : list addrinfo) : Prop :=
  g_live g' - owned l' = g_live g - owned l.

Lemma wp_alloc (Q : bool -> gai -> Prop) E g :
  (forall g', g_live g' = g_live g + 1 -> Q true g') ->
  (forall g', g_live g' = g_live g -> Q false g') ->
  wp alloc Q E g.
Proof. unfold wp, alloc. intros H1 H0. destruct (alloc_ok _); [by apply H1|by apply H0]. Qed.

Ltac alloc_step := wp_step; apply wp_alloc; intros ? ?; cbn [negb].
Ltac account :=
  unfold keeps in *; cbn [fst snd] in *; rewrite ?owned_app, ?owned_cons in *;
  change (owned []) with 0 in *; unfold blocks in *; cbn in *; lia.

Lemma ga_aistruct_mem E l hints a family g :
  wf_addr family a -> Forall fresh_ai l ->
  wp (ga_aistruct l hints (ABin a) family)
    (fun r g' => keeps g g' l r.1 /\ (r.2 = 0 -> Forall fresh_ai r.1)) E g.
Proof.
  intros Ha Hl. unfold ga_aistruct. alloc_step; [|wp_step; split; [account|done]].
  destruct Ha as [[-> Ha]|[-> Ha]];
    rewrite ?(eq_refl : (AF_INET6 =? AF_INET) = false), Z.eqb_refl; cbv iota; alloc_step.
  1,3: unfold len; rewrite Ha; 
    (progress change (Z.of_nat 4 <? 4) with false || change (Z.of_nat 16 <? 16) with false); cbv iota; wp_step; (split; [account|]); intros _;
    apply Forall_app; split; [done|]; constructor; [|constructor]; split; [do 2 eexists; (by left) || by right|done].
  all: wp_step; split; [account|done].
Qed.

Lemma add_addrs_mem E hints addrs family l g :
  Forall (wf_addr family) addrs -> Forall fresh_ai l ->
  wp (add_addrs l hints addrs family)
    (fun r g' => keeps g g' l r.1 /\ (r.2 = 0 -> Forall fresh_ai r.1)) E g.
Proof.
  revert l g. induction addrs as [|a addrs IH]; intros l g Ha Hl; simpl; [wp_step; split; [account|done]|].
  apply Forall_cons in Ha as [Ha Has]. wp_step. eapply wp_conseq; [by apply ga_aistruct_mem|].
  intros [l' rc] g' [Hk Hw]. cbn [fst snd] in *. destruct (Z.eqb_spec rc 0) as [->|Hrc]; simpl.
  - eapply wp_conseq; [by apply IH, Hw|]. intros [l'' rc] g'' [Hk' Hw']. cbn [fst snd] in *. split; [account|done].
  - wp_step. cbn [fst snd]. done.
Qed.

(** The blocks of the list so far and of the saved canonical name are accounted for. *)
Definition search_post (g : gai) (n : Z) (canonical : bool) (r : found) (g' : gai) : Prop :=
  g_live g' - owned r.1.1 - opt_block r.1.2 = n /\
  (r.2 = 0 -> Forall fresh_ai r.1.1) /\
  (canonical = false -> r.1.2 = None).

Definition wants_canon (hostname : option bytes) (hints : addrinfo) : bool :=
  negb (no_string hostname) && has (ai_flags hints) AI_CANONNAME.

Lemma by_number_mem E af a hints sp l canon hostname g n :
  wf_addr af a -> Forall fresh_ai l -> (wants_canon hostname hints = false -> canon = None) ->
  g_live g - owned l - opt_block canon = n ->
  wp (by_number af a hints sp l canon) (search_post g n (wants_canon hostname hints)) E g.
Proof.
  intros Ha Hl Hc Hn. unfold by_number. apply wp_if; intros _; [wp_step; done|].
  apply wp_if; intros _; [wp_step; done|]. wp_step.
  eapply wp_conseq; [by apply ga_aistruct_mem|]. intros [l' rc] g' [Hk Hw]. wp_step.
  split_and!; cbn [fst snd] in *; [account|done|done].
Qed.

Lemma ask_mem E nsearch sp g :
  wp (ask nsearch sp) (fun r g' => g_live g' = g_live g /\ forall hp, r = inl hp -> wf_hostent hp) E g.
Proof.
  unfold ask. wp_step. wp_step. wp_step. apply wp_when; intros _; [wp_step|];
    (apply wp_if; intros _; wp_steps; (split; [done|]); intros hp H; (by eapply wf_by_name) || by eapply wf_by_name2).
Qed.

Lemma by_name_mem E nsearch hostname hints sp l canon g n :
  Forall fresh_ai l -> (wants_canon hostname hints = false -> canon = None) ->
  g_live g - owned l - opt_block canon = n ->
  wp (by_name nsearch hostname hints sp l canon) (search_post g n (wants_canon hostname hints)) E g.
Proof.
  intros Hl Hc Hn. unfold by_name. wp_step. eapply wp_conseq; [apply ask_mem|].
  intros h g1 [Hg1 Hh]. destruct h as [hp|e]; [|apply wp_if; intros _; wp_step; unfold search_post; cbn; rewrite Hg1; done].
  apply wp_if; intros _; [wp_step; unfold search_post; cbn; rewrite Hg1; done|].
  assert (Hent : forall c g2, g_live g2 - owned l - opt_block c = n ->
            (wants_canon hostname hints = false -> c = None) ->
            wp (r <- add_addrs l hints (h_addr_list hp) (h_addrtype hp) ;; ret (r.1, c, r.2))
              (search_post g n (wants_canon hostname hints)) E g2).
  { intros c g2 Hg2 Hcc. wp_step. eapply wp_conseq; [apply add_addrs_mem; [by apply Hh|done]|].
    intros [l' rc] g3 [Hk Hw]. wp_step. split_and!; cbn [fst snd] in *; [account|done|done]. }
  apply wp_if; intros Hb.
  - apply andb_prop in Hb as [Hb Hnone]. apply bool_decide_eq_true in Hnone as ->. cbn [opt_block] in Hn.
    alloc_step; [|wp_step; unfold search_post; cbn [fst snd opt_block] in *; split_and!; [lia|done|done]].
    apply Hent; [cbn; lia|]. unfold wants_canon. rewrite Hb. done.
  - apply Hent; [lia|done].
Qed.

(** [inet_pton] with an array of the right size, in terms of the two parsers. *)
Definition numeric (af : Z) (host : bytes) : option (list Z) :=
  match (if af =? AF_INET then inet_pton4 host else inet_pton6 host) with POk a => Some a | _ => None end.

Lemma inet_pton_numeric af n host e :
  af = AF_INET /\ n = 4%nat \/ af = AF_INET6 /\ n = 16%nat ->
  exists d, inet_pton af host (replicate n 0) e =
    Some (match numeric af host with Some a => (1, a, e) | None => (0, d, e) end) /\
  (forall a, numeric af host = Some a -> wf_addr af a).
Proof.
  intros [[-> ->]|[-> ->]]; unfold inet_pton, numeric; simpl.
  - pose proof (inet_pton4_ok host) as H. destruct (inet_pton4 host) as [a| |]; simpl in H; [|by eexists|done].
    destruct H as [H _]. assert (Hl : length a = 4%nat) by (unfold len in H; lia). exists []. split.
    + rewrite splice_0, Hl. simpl. by rewrite app_nil_r.
    + intros ? [= <-]. by left.
  - pose proof (inet_pton6_ok host) as H. destruct (inet_pton6 host) as [a| |]; simpl in H; [|by eexists|done].
    destruct H as [H _]. assert (Hl : length a = 16%nat) by (unfold len in H; lia). exists []. split.
    + rewrite splice_0, Hl. simpl. by rewrite app_nil_r.
    + intros ? [= <-]. by right.
Qed.

Lemma search_one_mem E nsearch hostname hints sp l canon g n :
  Forall fresh_ai l -> (wants_canon hostname hints = false -> canon = None) ->
  g_live g - owned l - opt_block canon = n ->
  wp (search_one nsearch hostname hints sp l canon) (search_post g n (wants_canon hostname hints)) E g.
Proof.
  intros Hl Hc Hn. unfold search_one.
  pose proof (by_name_mem E nsearch hostname hints sp l canon g n Hl Hc Hn) as Hname.
  destruct (inet_pton_numeric AF_INET 4 (s_host sp) 0 ltac:(by left)) as (d4 & -> & H4).
  destruct (inet_pton_numeric AF_INET6 16 (s_host sp) 0 ltac:(by right)) as (d6 & -> & H6).
  assert (H46 : forall af a, numeric af (s_host sp) = Some a -> wf_addr af a ->
            wp (by_number af a hints sp l canon) (search_post g n (wants_canon hostname hints)) E g)
    by (intros; by apply by_number_mem).
  set (v6 := if _ && _ then _ else _).
  assert (Hv6 : wp v6 (search_post g n (wants_canon hostname hints)) E g).
  { unfold v6. apply wp_if; intros _; [|done].
    destruct (numeric AF_INET6 _) as [a|] eqn:E6; simpl; [|done]. apply H46; auto. }
  apply wp_if; intros _; [|done]. destruct (numeric AF_INET _) as [a|] eqn:E4; simpl; [apply H46; auto|done].
Qed.

Lemma search_loop_mem E nsearch hostname hints sps l canon g n :
  Forall fresh_ai l -> (wants_canon hostname hints = false -> canon = None) ->
  g_live g - owned l - opt_block canon = n ->
  wp (search_loop nsearch hostname hints sps l canon) (search_post g n (wants_canon hostname hints)) E g.
Proof.
  revert l canon g. induction sps as [|sp sps IH]; intros l canon g Hl Hc Hn; simpl; [by wp_step|].
  wp_step. eapply wp_conseq; [by apply search_one_mem|]. intros [[l' c'] e] g' (H1 & H2 & H3).
  cbn [fst snd] in *. destruct (Z.eqb_spec e 0) as [->|He]; simpl.
  - eapply wp_conseq; [apply IH; auto|]. done.
  - by wp_step.
Qed.

Lemma store_port_wf port ai : wf_ai ai ->
  exists ai' k, store_port port ai = Some (ai', k) /\ 0 <= k /\ wf_ai ai' /\ blocks ai' = blocks ai.
Proof.
  intros (p & a & [[Hf Ha]|[Hf Ha]]); unfold store_port; rewrite Hf, Ha.
  - do 2 eexists. split; [done|]. split_and!; [done|do 2 eexists; by left|]. unfold blocks. cbn. by rewrite Ha.
  - do 2 eexists. split; [done|]. split_and!; [done|do 2 eexists; by right|]. unfold blocks. cbn. by rewrite Ha.
Qed.

Definition port_post (g : gai) (l : list addrinfo) (r : list addrinfo * Z) (g' : gai) : Prop :=
  keeps g g' l r.1 /\ (0 <= r.2 -> Forall wf_ai r.1) /\ (length l <= length r.1)%nat.

Lemma ga_port_mem E port socktype l nfound g :
  Forall wf_ai l -> 0 <= nfound -> wp (ga_port_loop l port socktype nfound) (port_post g l) E g.
Proof.
  revert nfound g. induction l as [|ai l IH]; intros nfound g Hl Hn; simpl; [wp_step; split_and!; [account|done|done]|].
  apply Forall_cons in Hl as [Hai Hl]. unfold port_post.
  assert (Hfill : forall before ai1 g1, wf_ai ai1 -> Forall wf_ai before ->
    g_live g1 - owned before - blocks ai1 = g_live g - blocks ai ->
    wp (match store_port port (set_socktype socktype ai1) with
        | None => undef "store through a null pointer"
        | Some (ai', k) => r <- ga_port_loop l port socktype (nfound + k) ;; ret (before ++ ai' :: r.1, r.2)
        end) (port_post g (ai :: l)) E g1).
  { intros before ai1 g1 Hw1 Hb Hg1.
    destruct (store_port_wf port (set_socktype socktype ai1) Hw1) as (ai' & k & -> & Hk & Hw' & Hbl).
    wp_step. eapply wp_conseq; [apply IH; [done|lia]|]. intros [l' rc] g' (Hkk & Hw & Hlen). wp_step. cbn [fst snd] in *. split_and!.
    - change (blocks (set_socktype socktype ai1)) with (blocks ai1) in Hbl. unfold keeps in *. cbn [fst snd].
      rewrite owned_app, !owned_cons. lia.
    - intros Hrc. apply Forall_app. split; [done|]. constructor; auto.
    - cbn [fst]. rewrite length_app. simpl. lia. }
  apply wp_if; intros _.
  - apply wp_if; intros _; [|apply (Hfill []); [done|done|cbn; lia]].
    unfold ga_clone. wp_step. wp_step. apply wp_alloc; intros g1 H1; cbn [negb]; [|wp_step; wp_step; split_and!; [account|done|done]].
    alloc_step; wp_step.
    + apply (Hfill [ai]); [done|by constructor|]. rewrite owned_cons. change (owned []) with 0. unfold blocks at 2. cbn [ai_addr ai_canonname opt_block].
      destruct Hai as (p & a & [[_ ->]|[_ ->]]); cbn [opt_block]; lia.
    + wp_step. split_and!; [account|cbn; lia|cbn; lia].
  - apply wp_if; intros _; [|apply (Hfill []); [done|done|cbn; lia]].
    wp_step. eapply wp_conseq; [apply IH; [done|lia]|]. intros [l' rc] g' (Hkk & Hw & Hlen). wp_step. cbn [fst snd] in *.
    split_and!; [account|intros; constructor; auto|simpl; lia].
Qed.

(** [ga_serv]: the blocks are accounted for; without an error the list is as long. *)
Definition serv_post (g : gai) (l : list addrinfo) (r : list addrinfo * Z) (g' : gai) : Prop :=
  keeps g g' l r.1 /\ (r.2 = 0 -> Forall wf_ai r.1 /\ (length l <= length r.1)%nat).

Lemma ga_port_then E port socktype l0 l nfound g0 g (k : list addrinfo * Z -> M gai (list addrinfo * Z)) :
  keeps g0 g l0 l -> Forall wf_ai l -> (length l0 <= length l)%nat -> 0 <= nfound ->
  (forall l' n g', keeps g0 g' l0 l' -> Forall wf_ai l' -> (length l0 <= length l')%nat -> 0 <= n ->
    wp (k (l', n)) (serv_post g0 l0) E g') ->
  wp (r <- ga_port l port socktype ;; if r.2 <? 0 then ret (r.1, EAI_MEMORY) else k r) (serv_post g0 l0) E g.
Proof.
  intros Hk Hw Hl Hn Hrest. wp_step. eapply wp_conseq; [by apply ga_port_mem|].
  intros [l' n] g' (Hk' & Hw' & Hl'). cbn [fst snd] in *. destruct (Z.ltb_spec n 0).
  - wp_step. split; [account|done].
  - apply Hrest; [account|auto|lia|lia].
Qed.

Lemma ga_serv_mem E l hints serv g :
  Forall wf_ai l -> wp (ga_serv l hints serv) (serv_post g l) E g.
Proof.
  intros Hw. unfold ga_serv.
  assert (Hend : forall l' n g', keeps g g' l l' -> Forall wf_ai l' -> (length l <= length l')%nat ->
            wp (serv_end hints l' n) (serv_post g l) E g').
  { intros l' n g' Hk Hw' Hl'. unfold serv_end. apply wp_if; intros _; wp_step; (split; [done|]); [|done]. by destruct (_ =? 0). }
  assert (Hudp : forall l' n g', keeps g g' l l' -> Forall wf_ai l' -> (length l <= length l')%nat -> 0 <= n ->
            wp (serv_udp hints serv l' n) (serv_post g l) E g').
  { intros l' n g' Hk Hw' Hl' Hn. unfold serv_udp. apply wp_if; intros _; [|by apply Hend].
    destruct (getservbyname serv (bs "udp")); [|by apply Hend].
    eapply (ga_port_then E _ _ l l' n g g' (fun r => serv_end hints r.1 (n + r.2))); try done; intros; by apply Hend. }
  assert (Hk0 : keeps g g l l) by done.
  apply wp_if; intros _; apply wp_if; intros _; [| |destruct (getservbyname serv (bs "tcp")); [|by apply Hudp]|by apply Hudp].
  - eapply (ga_port_then E _ _ l l 0 g g (fun r => serv_end hints r.1 r.2)); try done; intros; by apply Hend.
  - eapply (ga_port_then E _ _ l l 0 g g (fun r => r2 <- ga_port r.1 _ SOCK_DGRAM ;;
      if r2.2 <? 0 then ret (r2.1, EAI_MEMORY) else serv_end hints r2.1 (r.2 + r2.2))); try done.
    intros l1 n1 g1 ? ? ? ?. cbn [fst snd].
    eapply (ga_port_then E _ _ l l1 n1 g g1 (fun r => serv_end hints r.1 (n1 + r.2))); try done; intros; by apply Hend.
  - eapply (ga_port_then E _ _ l l 0 g g (fun r => serv_udp hints serv r.1 r.2)); try done; intros; by apply Hudp.
Qed.

(** [freeaddrinfo] gives back exactly the blocks of its list. *)
Lemma freeaddrinfo_mem E l g :
  wp (freeaddrinfo l) (fun _ g' => g_live g' = g_live g - owned l) E g.
Proof.
  revert g. induction l as [|ai l IH]; intros g; cbn [freeaddrinfo]; [wp_step; cbn; lia|].
  assert (Hopt : forall A (p : option A) (Q : unit -> gai -> Prop) g0,
            (forall g1, g_live g1 = g_live g0 - opt_block p -> Q tt g1) ->
            wp (when (bool_decide (is_Some p)) free1) Q E g0).
  { intros A p Q g0 HQ. destruct p; apply HQ; cbn; lia. }
  wp_step. apply Hopt. intros g1 H1. wp_step. apply Hopt. intros g2 H2. wp_step. unfold free1. wp_step.
  eapply wp_conseq; [apply IH|]. intros [] g3 H3. cbn in H3. rewrite owned_cons. unfold blocks. lia.
Qed.

Lemma bad_mem E l e g (Q : option (list addrinfo) * Z -> gai -> Prop) :
  (forall g', g_live g' = g_live g - owned l -> Q (None, e) g') -> wp (bad l e) Q E g.
Proof.
  intros HQ. unfold bad. wp_step. eapply wp_conseq; [apply freeaddrinfo_mem|]. intros [] g' H. wp_step. by apply HQ.
Qed.

Lemma give_canon_mem E hostname hints sps l canon g n :
  Forall fresh_ai l ->
  (wants_canon hostname hints = false -> canon = None) ->
  g_live g - owned l - opt_block canon = n ->
  wp (give_canon hostname hints sps l canon)
    (fun r g' => n <= g_live g' - owned r.1 <= n + opt_block canon /\
       (r.2 = 0 -> g_live g' - owned r.1 = n /\ Forall wf_ai r.1 /\ r.1 <> []) /\
       (wants_canon hostname hints = false -> g_live g' - owned r.1 = n)) E g.
Proof.
  intros Hw Hc Hn. unfold give_canon. fold (wants_canon hostname hints).
  destruct l as [|ai l].
  { wp_step. cbn [fst snd]. split_and!; [unfold opt_block in *; destruct canon; lia..|done|].
    intros H. rewrite (Hc H) in Hn. cbn [opt_block] in Hn. lia. }
  apply Forall_cons in Hw as [[Hai Hai0] Hw]. apply (Forall_impl _ wf_ai) in Hw; [|by intros ? []]. rewrite owned_cons in Hn.
  unfold blocks in Hn. rewrite Hai0 in Hn. cbn [opt_block] in Hn.
  assert (Hw' : forall c, wf_ai (set_canonname c ai)) by done.
  destruct (wants_canon hostname hints) eqn:Hwc.
  - destruct canon as [c|].
    + wp_step. cbn [fst snd opt_block] in *. rewrite owned_cons. unfold blocks. cbn.
      split_and!; [lia|lia|intros _; split_and!; [lia|by constructor|done]|done].
    + cbn [opt_block] in *. alloc_step; wp_step; cbn [fst snd] in *; rewrite owned_cons; unfold blocks; cbn.
      * split_and!; [lia|lia|intros _; split_and!; [lia|by constructor|done]|done].
      * split_and!; [lia|lia|done|done].
  - rewrite (Hc eq_refl) in *. cbn [opt_block] in *. wp_step. cbn [fst snd]. rewrite owned_cons. unfold blocks. rewrite Hai0. cbn.
    split_and!; [lia|lia|intros _; split_and!; [lia|by constructor|done]|intros; lia].
Qed.


(** The path of the UNIX domain. *)
Lemma ga_aistruct_unix E l hints path g :
  wp (ga_aistruct l hints (APath path) AF_LOCAL)
    (fun r g' => g_live g <= g_live g' /\
       (r.2 = 0 -> keeps g g' l r.1 /\ exists ai, r.1 = l ++ [ai] /\ ai_addr ai = Some (SUn path) /\ ai_canonname ai = None)) E g.
Proof.
  unfold ga_aistruct. alloc_step; [|wp_step; cbn [fst snd]; split; [lia|done]].
  rewrite (eq_refl : (AF_LOCAL =? AF_INET) = false), (eq_refl : (AF_LOCAL =? AF_INET6) = false), Z.eqb_refl. cbv iota.
  apply wp_if; intros _; [wp_step; cbn [fst snd]; split; [lia|done]|]. alloc_step; [|wp_step; cbn [fst snd]; split; [lia|done]].
  wp_step. apply wp_when; intros _; [wp_step|]; wp_step; cbn [fst snd g_live log_unlink];
    (split; [lia|intros _; split; [account|by eexists]]).
Qed.

Definition unix_post (path : bytes) (g : gai) (r : option (list addrinfo) * Z) (g' : gai) : Prop :=
  match r.1 with
  | Some l => r.2 = 0 /\ l <> [] /\ Forall (fun ai => ai_addr ai = Some (SUn path)) l /\ g_live g' = g_live g + owned l
  | None => r.2 <> 0 /\ g_live g <= g_live g'
  end.

Lemma unix_last_mem E path l hints g g1 :
  Forall (fun ai => ai_addr ai = Some (SUn path) /\ ai_canonname ai = None) l ->
  g_live g1 = g_live g + owned l -> wp (unix_last path l hints) (unix_post path g) E g1.
Proof.
  intros Hl Hg1. unfold unix_last. wp_step. eapply wp_conseq; [apply ga_aistruct_unix|].
  pose proof (owned_nonneg l).
  intros [l' rc] g2 [Hle Hk]. cbn [fst snd] in *.
  destruct (Z.eqb_spec rc 0) as [->|Hrc]; cbn [negb]; [|wp_step; split; cbn; [done|lia]].
  destruct (Hk eq_refl) as (Hkk & ai & -> & Ha & Hc).
  assert (Hl' : Forall (fun ai => ai_addr ai = Some (SUn path) /\ ai_canonname ai = None) (l ++ [ai]))
    by (apply Forall_app; split; [done|by repeat constructor]).
  assert (Hadd : Forall (fun ai => ai_addr ai = Some (SUn path)) (l ++ [ai])) by (eapply Forall_impl; [done|by intros ? []]).
  assert (Hown : g_live g2 = g_live g + owned (l ++ [ai])) by account.
  pose proof (owned_nonneg [ai]).
  apply wp_if; intros _; [|wp_step; split_and!; cbn; try done; by destruct l].
  destruct uname as [nodename|]; [|wp_step; split; cbn; [done|rewrite owned_app in Hown; lia]].
  alloc_step; [|wp_step; split; cbn; [done|rewrite owned_app in Hown; lia]].
  destruct (l ++ [ai]) as [|ai0 rest] eqn:El; [by destruct l|].
  apply Forall_cons in Hl' as [[Ha0 Hc0] _]. apply Forall_cons in Hadd as [_ Hrest]. wp_step. split_and!; cbn [fst snd]; try done.
  - by constructor.
  - rewrite owned_cons in *. unfold blocks in *. cbn. rewrite Hc0 in Hown. cbn in Hown. lia.
Qed.

Lemma ga_unix_mem E path hints g : wp (ga_unix path hints) (unix_post path g) E g.
Proof.
  unfold ga_unix. apply wp_if; intros _; [wp_step; split; cbn; [done|lia]|].
  apply wp_if; intros _; [|apply unix_last_mem; [done|cbn; lia]].
  wp_step. eapply wp_conseq; [apply ga_aistruct_unix|]. intros [l rc] g1 [Hle Hk]. cbn [fst snd] in *.
  destruct (Z.eqb_spec rc 0) as [->|Hrc]; cbn [negb]; [|wp_step; split; cbn; done].
  destruct (Hk eq_refl) as (Hkk & ai & -> & Ha & Hc). apply unix_last_mem; [by repeat constructor|account].
Qed.

(** ** Theorems *)

Lemma ga_echeck_family hostname servname flags family socktype protocol :
  ga_echeck hostname servname flags family socktype protocol = 0 ->
  family = AF_UNSPEC \/ family = AF_INET \/ family = AF_INET6 \/ family = AF_LOCAL.
Proof.
  unfold ga_echeck. intros H. repeat case_match; try done; rewrite ?Z.eqb_eq in *; auto.
Qed.

(** [ga_nsearch] ends the process for AF_LOCAL, and only then. *)
Lemma ga_nsearch_ends hostname servname hints g :
  ga_echeck hostname servname (ai_flags hints) (ai_family hints) (ai_socktype hints) (ai_protocol hints) = 0 ->
  wp (ga_nsearch hostname hints) (fun _ g' => g' = g)
    (fun d g' => d = DQuit "nsearch = %d" /\ ai_family hints = AF_LOCAL /\ g' = g) g.
Proof.
  intros Hrc%ga_echeck_family. unfold ga_nsearch.
  apply wp_if; intros Hn; wp_step; [|done]. split_and!; [done| |done].
  destruct Hrc as [Hf|[Hf|[Hf|Hf]]]; [..|done]; exfalso; revert Hn; unfold search_list, by_family; rewrite Hf.
  all: by destruct hostname as [[|? ?]|]; repeat case_match.
Qed.

(** What the list that getaddrinfo returns is made of. *)
Definition gai_post (hostname servname : option bytes) (hints : addrinfo) (g : gai)
    (r : option (list addrinfo) * Z) (g' : gai) : Prop :=
  match r.1 with
  | Some l => r.2 = 0 /\ l <> [] /\ Forall (fun ai => is_Some (ai_addr ai)) l /\ g_live g' = g_live g + owned l
  | None => r.2 <> 0 /\ g_live g <= g_live g' /\
      (is_unix hostname servname = false -> g_live g' <= g_live g + 1) /\
      (is_unix hostname servname = false -> wants_canon hostname hints = false -> g_live g' = g_live g)
  end.

Lemma getaddrinfo_mem hostname servname hintsp g :
  wp (getaddrinfo hostname servname hintsp)
    (gai_post hostname servname (default no_hints hintsp) g)
    (fun d g' => d = DQuit "nsearch = %d" /\ ai_family (default no_hints hintsp) = AF_LOCAL /\
                 is_unix hostname servname = false /\ g' = g) g.
Proof.
  unfold getaddrinfo. set (hints := default no_hints hintsp). set (rc := ga_echeck _ _ _ _ _ _).
  destruct (Z.eqb_spec rc 0) as [Hrc|Hrc]; cbn [negb].
  2: { apply bad_mem. intros g' Hg'. cbn in Hg'. split_and!; cbn; intros; lia || done. }
  destruct (is_unix hostname servname) eqn:Hux.
  { eapply wp_conseq; [apply ga_unix_mem|]. unfold unix_post, gai_post. intros [[l|] e] g' H; cbn [fst snd] in *.
    - destruct H as (H1 & H2 & H3 & H4). split_and!; try done. eapply Forall_impl; [done|]. intros ai ->. by eexists.
    - destruct H as (H1 & H2). split_and!; intros; done || congruence. }
  wp_step. eapply wp_mono; [by eapply ga_nsearch_ends| |]; [intros sps g0 ->|by intros d g' (-> & ? & ->)]. wp_step.
  eapply wp_conseq; [apply (search_loop_mem _ _ _ _ _ [] None g (g_live g)); cbn; [done|done|lia]|].
  intros [[l canon] e] g1 (H1 & H2 & H3). cbn [fst snd] in *.
  assert (Hopt : 0 <= opt_block canon <= 1) by (unfold opt_block; case_match; lia).
  assert (Hbad : forall (x : list addrinfo) e' g2, e' <> 0 -> g_live g <= g_live g2 - owned x <= g_live g + 1 ->
            (wants_canon hostname hints = false -> g_live g2 - owned x = g_live g) ->
            wp (bad x e') (gai_post hostname servname hints g)
              (fun d g' => d = DQuit "nsearch = %d" /\ ai_family hints = AF_LOCAL /\ false = false /\ g' = g) g2).
  { intros x e' g2 He' Hr Hc. apply bad_mem. intros g' Hg'. split_and!; cbn; [done|lia|intros; lia|]. intros _ Hw. specialize (Hc Hw). lia. }
  destruct (Z.eqb_spec e 0) as [->|He]; cbn [negb].
  2: { apply Hbad; [done|lia|]. intros Hw. rewrite (H3 Hw) in H1. cbn in H1. lia. }
  wp_step. eapply wp_conseq; [by apply (give_canon_mem _ hostname hints sps l canon g1 (g_live g)); [apply H2| |]|].
  intros [l2 e2] g2 (K1 & K2 & K3). cbn [fst snd] in *. destruct (Z.eqb_spec e2 0) as [->|He]; cbn [negb].
  2: { apply Hbad; [done|lia|done]. }
  destruct (K2 eq_refl) as (K4 & K5 & K6).
  assert (Hok : forall x g3, Forall wf_ai x -> (length l2 <= length x)%nat -> g_live g3 - owned x = g_live g ->
            gai_post hostname servname hints g (Some x, 0) g3).
  { intros x g3 Hx Hlen Hg3. split_and!; cbn; [done| | |lia].
    - intros ->. destruct l2; [done|]. simpl in Hlen. lia.
    - eapply Forall_impl; [done|]. intros ai (p & a & [[_ ->]|[_ ->]]); by eexists. }
  destruct servname as [[|c0 s]|]; [wp_step; by apply Hok| |wp_step; by apply Hok].
  wp_step. eapply wp_conseq; [by apply ga_serv_mem|]. intros [l3 e3] g3 [L1 L2]. cbn [fst snd] in *.
  unfold keeps in L1. destruct (Z.eqb_spec e3 0) as [->|He]; cbn [negb].
  - wp_step. destruct (L2 eq_refl). apply Hok; [done|done|]. cbn in L1. lia.
  - apply Hbad; [done|cbn in L1; lia|cbn in L1; intros; lia].
Qed.

(** C11: Memory of getaddrinfo.  Whatever allocations fail, [getaddrinfo] follows no null
    pointer and copies no more than an address holds.  When it returns 0 the list has at
    least one entry, every entry has a socket address, and the blocks in use are those
    from before and those that [freeaddrinfo] of the list gives back.  When it returns an
    error, everything was freed, with two exceptions: the canonical name, one block, when
    AI_CANONNAME was asked for, and the entries of a path of the UNIX domain.  It ends the
    process only for AF_LOCAL with a host that is not /local or /unix. *)
Theorem getaddrinfo_memory hostname servname hintsp g :
  match getaddrinfo hostname servname hintsp g with
  | Ret (Some l, rc) g' =>
    rc = 0 /\ l <> [] /\ Forall (fun ai => is_Some (ai_addr ai)) l /\ g_live g' = g_live g + owned l /\
    exists g2, freeaddrinfo l g' = Ret tt g2 /\ g_live g2 = g_live g
  | Ret (None, rc) g' =>
    rc <> 0 /\
    (is_unix hostname servname = false -> g_live g <= g_live g' <= g_live g + 1) /\
    (is_unix hostname servname = false -> wants_canon hostname (default no_hints hintsp) = false -> g_live g' = g_live g)
  | Die d g' =>
    d = DQuit "nsearch = %d" /\ ai_family (default no_hints hintsp) = AF_LOCAL /\
    is_unix hostname servname = false /\ g' = g
  | Undef _ | NoFuel => False
  end.
Proof.
  pose proof (getaddrinfo_mem hostname servname hintsp g) as H. unfold wp in H.
  destruct (getaddrinfo hostname servname hintsp g) as [[[l|] rc] g'|d g'| |]; [| |done..].
  - destruct H as (Hrc & Hne & Ha & Hg). cbn [fst snd] in *. split_and!; try done.
    destruct (proj1 (wp_run _ _ _) (freeaddrinfo_mem no_exit l g')) as ([] & g2 & H2 & Hg2). exists g2. split; [done|lia].
  - destruct H as (Hrc & H1 & H2 & H3). cbn [fst snd] in *. split_and!; auto.
Qed.
End memory.
