(* ===== verification/GaiSpec.v ===== *)
(** * What name resolution returns

    With memory for every allocation, [getaddrinfo] is the function [gai_spec]: the
    addresses of the host, in the order of the searches, each with every (socket type,
    port) of the service. *)

From Stdlib Require Import Strings.Byte ZArith Lia.
From S2P Require Import Prelude Wp Libc Inet InetProofs Gai GaiMem.
From stdpp Require Import base strings numbers gmap list.
#[local] Open Scope Z_scope.

(** ** Numeric hosts *)

Lemma isxdigit_of c : isxdigit c = bool_decide (is_Some (xdigit_of c)).
Proof. by destruct c. Qed.

Lemma pton4_first host : isdigit (hd NUL host) = false -> numeric AF_INET host = None.
Proof.
  unfold numeric. rewrite Z.eqb_refl. destruct host as [|c host]; [done|]. cbn [hd]. intros Hc.
  unfold inet_pton4. cbn [pton4_loop]. pose proof (isdigit_strchr c) as H. destruct (strchr digits c); [destruct H; congruence|].
  by rewrite andb_false_r.
Qed.

Definition pton_some (p : pton) : bool := match p with POk _ => true | _ => false end.

Lemma pton6_shift_short tmp tp : tp <> IN6ADDRSZ -> pton_some (pton6_shift tmp tp None) = false.
Proof. intros H. unfold pton6_shift. apply Z.eqb_neq in H. by rewrite H. Qed.

Lemma pton6_no_colon src curtok tmp saw val :
  strchr src c_colon = None -> pton_some (pton6_loop src curtok tmp 0 None saw val) = false.
Proof.
  revert saw val. induction src as [|c src IH]; intros saw val Hc; simpl.
  - unfold pton6_finish. destruct saw; [|by apply pton6_shift_short].
    change (IN6ADDRSZ <? 0 + INT16SZ) with false. cbv iota. destruct (put_word 0 val tmp); [|done].
    by apply pton6_shift_short.
  - simpl in Hc. destruct (decide (c = c_colon)) as [|Hne]; [done|].
    destruct (strchr src c_colon) eqn:Hs; [done|]. specialize (fun s v => IH s v eq_refl).
    destruct (xdigit_of c); [case_match; [done|apply IH]|].
    rewrite bool_decide_eq_false_2 by done. case_match; [|done].
    by destruct (inet_pton4 curtok).
Qed.

Lemma pton6_first host :
  (isxdigit (hd NUL host) || bool_decide (hd NUL host = c_colon)) && bool_decide (is_Some (strchr host c_colon)) = false ->
  numeric AF_INET6 host = None.
Proof.
  intros H. unfold numeric. change (AF_INET6 =? AF_INET) with false. cbv iota.
  enough (Hf : pton_some (inet_pton6 host) = false) by (by destruct (inet_pton6 host)).
  destruct host as [|c host]; [done|]. apply andb_false_iff in H as [H|H].
  - simpl in H. apply orb_false_iff in H as [Hx Hcol]. unfold inet_pton6. rewrite Hcol. simpl.
    rewrite isxdigit_of in Hx. apply bool_decide_eq_false in Hx. destruct (xdigit_of c) eqn:Ex; [by destruct Hx|].
    rewrite Hcol. case_match; [|done].
    assert (Hd : isdigit c = false).
    { apply not_true_is_false. intros Hd. destruct Hx. rewrite <- Ex. revert Hd. clear. by destruct c. }
    pose proof (pton4_first (c :: host) Hd) as H4. unfold numeric in H4. simpl in H4.
    by destruct (inet_pton4 (c :: host)).
  - apply bool_decide_eq_false in H. destruct (strchr (c :: host) c_colon) eqn:Es; [by destruct H|].
    unfold inet_pton6. destruct (bool_decide_reflect (c = c_colon)) as [->|_]; [done|]. by apply pton6_no_colon.
Qed.

(** The address that a host is the text of. *)
Definition numeric_host (host : bytes) : option (Z * list Z) :=
  match numeric AF_INET host with
  | Some a => Some (AF_INET, a)
  | None => match numeric AF_INET6 host with Some a => Some (AF_INET6, a) | None => None end
  end.

Lemma numeric_host_wf host af a : numeric_host host = Some (af, a) -> wf_addr af a.
Proof.
  unfold numeric_host. intros H.
  destruct (inet_pton_numeric AF_INET 4 host 0 ltac:(by left)) as (_ & _ & H4).
  destruct (inet_pton_numeric AF_INET6 16 host 0 ltac:(by right)) as (_ & _ & H6).
  destruct (numeric AF_INET host); [by simplify_eq; apply H4|].
  destruct (numeric AF_INET6 host); [by simplify_eq; apply H6|done].
Qed.

(** The tests of the first character and of a colon only save calls of [inet_pton]. *)
Lemma search_one_numeric `{R : resolver} nsearch hostname hints sp l canon :
  search_one nsearch hostname hints sp l canon =
  match numeric_host (s_host sp) with
  | Some (af, a) => by_number af a hints sp l canon
  | None => by_name nsearch hostname hints sp l canon
  end.
Proof.
  unfold search_one, numeric_host.
  destruct (inet_pton_numeric AF_INET 4 (s_host sp) 0 ltac:(by left)) as (d4 & -> & _).
  destruct (inet_pton_numeric AF_INET6 16 (s_host sp) 0 ltac:(by right)) as (d6 & -> & _).
  pose proof (pton4_first (s_host sp)) as H4. pose proof (pton6_first (s_host sp)) as H6.
  set (v6 := if _ && _ then _ else _).
  assert (v6 = match numeric AF_INET6 (s_host sp) with
               | Some a => by_number AF_INET6 a hints sp l canon
               | None => by_name nsearch hostname hints sp l canon
               end) as ->.
  { unfold v6. destruct (_ && _); [by destruct (numeric AF_INET6 (s_host sp))|by rewrite H6]. }
  destruct (isdigit (hd NUL (s_host sp))) eqn:E4; [|rewrite H4 by done; by destruct (numeric AF_INET6 (s_host sp))].
  destruct (numeric AF_INET (s_host sp)); [done|]. by destruct (numeric AF_INET6 (s_host sp)).
Qed.

(** ** The specification *)

Section spec.
Context `{R : resolver}.

(** The value of [_res.options] that a query sees. *)
Definition query_opts (o nsearch family : Z) : Z :=
  let o1 := if has o RES_INIT then o else Z.lor res_defaults RES_INIT in
  if negb (nsearch =? 2) && (family =? AF_INET6) then Z.lor o1 RES_USE_INET6
  else Z.land o1 (Z.lnot RES_USE_INET6).

Definition query (o nsearch : Z) (sp : search) : hostent + Z :=
  let o' := query_opts o nsearch (s_family sp) in
  if nsearch =? 2 then gethostbyname2 o' (s_host sp) (s_family sp) else gethostbyname o' (s_host sp).

Definition wrong_family (hints : addrinfo) (af : Z) : bool :=
  negb (ai_family hints =? AF_UNSPEC) && negb (ai_family hints =? af).

(** The addresses of one search, with the official name if the resolver was asked, or an
    error. *)
Definition host_addrs (o nsearch : Z) (hints : addrinfo) (sp : search) : (list (Z * list Z) * option bytes) + Z :=
  match numeric_host (s_host sp) with
  | Some (af, a) =>
    if wrong_family hints af then inr EAI_ADDRFAMILY
    else inl (if s_family sp =? af then [(af, a)] else [], None)
  | None =>
    match query o nsearch sp with
    | inr e => if nsearch =? 2 then inl ([], None) else inr (h_error e)
    | inl hp =>
      if wrong_family hints (h_addrtype hp) then inr EAI_ADDRFAMILY
      else inl ((h_addrtype hp,.) <$> h_addr_list hp, Some (h_name hp))
    end
  end.

Fixpoint all_addrs (o nsearch : Z) (hints : addrinfo) (sps : list search) : (list (Z * list Z) * option bytes) + Z :=
  match sps with
  | [] => inl ([], None)
  | sp :: sps' =>
    match host_addrs o nsearch hints sp with
    | inr e => inr e
    | inl (addrs, name) =>
      match all_addrs o nsearch hints sps' with
      | inr e => inr e
      | inl (addrs', name') => inl (addrs ++ addrs', match name with Some _ => name | None => name' end)
      end
    end
  end.

(** The socket types and ports of a service. *)
Definition named_service (t : Z) (proto serv : bytes) (hints : addrinfo) : list (Z * Z) :=
  if (ai_socktype hints =? 0) || (ai_socktype hints =? t)
  then from_option (fun p => [(t, p)]) [] (getservbyname serv proto) else [].

Definition services (hints : addrinfo) (serv : bytes) : list (Z * Z) :=
  if isdigit (hd NUL serv) then
    (., htons (atoi serv)) <$> (if ai_socktype hints =? 0 then [SOCK_STREAM; SOCK_DGRAM] else [ai_socktype hints])
  else named_service SOCK_STREAM (bs "tcp") serv hints ++ named_service SOCK_DGRAM (bs "udp") serv hints.

Definition inet_size (af : Z) : Z := if af =? AF_INET then SOCKADDR_IN_SZ else SOCKADDR_IN6_SZ.
Definition inet_sock (af port : Z) (a : list Z) : sockaddr := if af =? AF_INET then SIn (u16 port) a else SIn6 (u16 port) a.

Definition clone_flag (hints : addrinfo) : Z := if ai_socktype hints =? 0 then AI_CLONE else 0.

Definition entry (hints : addrinfo) (flags : Z) (c : option bytes) (tp : Z * Z) (fa : Z * list Z) : addrinfo :=
  AddrInfo flags fa.1 tp.1 (ai_protocol hints) (inet_size fa.1) c (Some (inet_sock fa.1 tp.2 fa.2)).

(** The entries of one address: the one made for the host, with the first socket type and
    port of [ps], and its clones for the others, the last one first. *)
Definition group (hints : addrinfo) (ps : list (Z * Z)) (x : option bytes * (Z * list Z)) : list addrinfo :=
  match ps with
  | [] => [entry hints (clone_flag hints) x.1 (ai_socktype hints, 0) x.2]
  | tp :: ps' => entry hints (clone_flag hints) x.1 tp x.2 :: reverse ((fun tp => entry hints 0 None tp x.2) <$> ps')
  end.

(** The canonical name is that of the first entry only. *)
Definition labelled (c : option bytes) (addrs : list (Z * list Z)) : list (option bytes * (Z * list Z)) :=
  match addrs with [] => [] | fa :: rest => (c, fa) :: ((None,.) <$> rest) end.

Definition unix_entry (path : bytes) (hints : addrinfo) (t : Z) : addrinfo :=
  AddrInfo 0 AF_LOCAL t (ai_protocol hints) SOCKADDR_UN_SZ None (Some (SUn path)).

Definition unix_spec (path : bytes) (hints : addrinfo) : list addrinfo + Z :=
  if wrong_family hints AF_LOCAL then inr EAI_ADDRFAMILY
  else if SUN_PATH_SZ <=? len path then inr EAI_SERVICE
  else
    let l := unix_entry path hints <$> (if ai_socktype hints =? 0 then [SOCK_STREAM; SOCK_DGRAM] else [ai_socktype hints]) in
    if has (ai_flags hints) AI_CANONNAME then
      match uname, l with
      | Some nodename, ai :: rest => inl (set_canonname (Some nodename) ai :: rest)
      | _, _ => inr EAI_SYSTEM
      end
    else inl l.

(** The list, or the error; [None]: the process ends. *)
Definition gai_spec (o : Z) (hostname servname : option bytes) (hints : addrinfo) : option (list addrinfo + Z) :=
  let rc := ga_echeck hostname servname (ai_flags hints) (ai_family hints) (ai_socktype hints) (ai_protocol hints) in
  let sps := search_list hostname hints in
  if negb (rc =? 0) then Some (inr rc)
  else if is_unix hostname servname then Some (unix_spec (default [] servname) hints)
  else if ai_family hints =? AF_LOCAL then None
  else Some (
    match all_addrs o (len sps) hints sps with
    | inr e => inr e
    | inl ([], _) => inr EAI_NONAME
    | inl (addrs, name) =>
      let c := if wants_canon hostname hints then Some (default (from_option s_host [] (head sps)) name) else None in
      match servname with
      | Some (c0 :: s) =>
        match services hints (c0 :: s) with
        | [] => inr (if ai_socktype hints =? 0 then EAI_NONAME else EAI_SERVICE)
        | ps => inl (labelled c addrs ≫= group hints ps)
        end
      | _ => inl (labelled c addrs ≫= group hints [])
      end
    end).
End spec.

(** ** The queries *)

Lemma has_pow o n : 0 <= n -> has o (2 ^ n) = Z.testbit o n.
Proof.
  intros Hn. unfold has. rewrite <- Z.shiftl_1_l.
  destruct (Z.testbit o n) eqn:E.
  - apply negb_true_iff, Z.eqb_neq. intros H. apply (f_equal (fun z => Z.testbit z n)) in H.
    rewrite Z.land_spec, E, Z.shiftl_spec, Z.sub_diag, Z.bits_0 in H by done. done.
  - apply negb_false_iff, Z.eqb_eq, Z.bits_inj_0. intros m.
    rewrite Z.land_spec, Z.shiftl_1_l, Z.pow2_bits_eqb by done. destruct (Z.eqb_spec n m) as [<-|]; [by rewrite E|apply andb_false_r].
Qed.

Section functional.
Context `{R : resolver, !wf_resolver R} (Hmem : forall n, alloc_ok n = true).
Implicit Types (hints : addrinfo) (g : gai).

Lemma query_opts_init o n f : has (query_opts o n f) RES_INIT = true.
Proof.
  unfold query_opts. change RES_INIT with (2 ^ 0). change RES_USE_INET6 with (2 ^ 13). rewrite !has_pow by done.
  set (o1 := if Z.testbit o 0 then o else Z.lor res_defaults (2 ^ 0)).
  assert (Z.testbit o1 0 = true) as H1.
  { unfold o1. destruct (Z.testbit o 0) eqn:E; [done|]. rewrite Z.lor_spec. by rewrite orb_true_r. }
  case_match; rewrite ?Z.lor_spec, ?Z.land_spec, H1; done.
Qed.

(** A second query sees the options that it would see as the first. *)
Lemma query_opts_again o n f f' : query_opts (query_opts o n f) n f' = query_opts o n f'.
Proof.
  unfold query_opts at 1. rewrite query_opts_init. unfold query_opts.
  set (o1 := if has o RES_INIT then o else _). change RES_USE_INET6 with (2 ^ 13).
  apply Z.bits_inj'. intros m Hm.
  repeat case_match; rewrite ?Z.lor_spec, ?Z.land_spec, ?Z.lnot_spec, ?Z.lor_spec, ?Z.land_spec, ?Z.lnot_spec by done;
    destruct (Z.testbit o1 m), (Z.testbit (2 ^ 13) m); done.
Qed.

Definition same_opts (n o : Z) (g : gai) : Prop := forall f, query_opts (g_options g) n f = query_opts o n f.

Lemma ask_ok n o sp g :
  same_opts n o g -> wp (ask n sp) (fun r g' => r = query o n sp /\ same_opts n o g') no_exit g.
Proof.
  intros Ho. unfold ask, query. rewrite <- Ho. set (q := query_opts (g_options g) n (s_family sp)).
  assert (Hq : forall g', g_options g' = q -> same_opts n o g').
  { intros g' Hg' f. rewrite Hg'. unfold q. by rewrite query_opts_again. }
  wp_step. wp_step. wp_step. apply wp_when; intros Hi; [apply negb_true_iff in Hi; wp_step|apply negb_false_iff in Hi].
  all: destruct (n =? 2) eqn:En; wp_steps.
  all: match goal with |- ?a = ?b /\ same_opts _ _ ?g' =>
         assert (Hg' : g_options g' = q) by (unfold q, query_opts; rewrite Hi, En; cbn; by destruct (s_family sp =? AF_INET6)) end.
  all: split; [by rewrite Hg'|by apply Hq].
Qed.

Lemma alloc_ok_wp (Q : bool -> gai -> Prop) E g :
  (forall g', g_options g' = g_options g -> Q true g') -> wp alloc Q E g.
Proof. unfold wp, alloc. rewrite Hmem. intros H. by apply H. Qed.

Lemma same_opts_eq n o g g' : g_options g' = g_options g -> same_opts n o g -> same_opts n o g'.
Proof. unfold same_opts. by intros ->. Qed.

(** ** The entries of the hosts *)

Lemma ga_aistruct_ok l hints af a g :
  wf_addr af a ->
  wp (ga_aistruct l hints (ABin a) af)
    (fun r g' => r = (l ++ group hints [] (None, (af, a)), 0) /\ g_options g' = g_options g) no_exit g.
Proof.
  intros Ha. unfold ga_aistruct. wp_step. apply alloc_ok_wp. intros g1 H1. cbn [negb].
  destruct Ha as [[-> Ha]|[-> Ha]].
  - rewrite Z.eqb_refl. wp_step. apply alloc_ok_wp. intros g2 H2. cbn [negb].
    unfold len. rewrite Ha. change (Z.of_nat 4 <? 4) with false. cbv iota. wp_step.
    rewrite take_ge by lia. split; [done|congruence].
  - change (AF_INET6 =? AF_INET) with false. rewrite Z.eqb_refl. cbv iota. wp_step. apply alloc_ok_wp. intros g2 H2. cbn [negb].
    unfold len. rewrite Ha. change (Z.of_nat 16 <? 16) with false. cbv iota. wp_step.
    rewrite take_ge by lia. split; [done|congruence].
Qed.

Abbreviation made hints addrs := (addrs ≫= fun fa => group hints [] (None, fa)).

Lemma add_addrs_ok hints af addrs l g :
  Forall (wf_addr af) addrs ->
  wp (add_addrs l hints addrs af)
    (fun r g' => r = (l ++ made hints ((af,.) <$> addrs), 0) /\ g_options g' = g_options g) no_exit g.
Proof.
  revert l g. induction addrs as [|a addrs IH]; intros l g Ha; cbn [add_addrs]; [wp_step; by rewrite app_nil_r|].
  apply Forall_cons in Ha as [Ha Has]. wp_step. eapply wp_conseq; [by apply ga_aistruct_ok|].
  intros r g1 [-> H1]. cbn [snd fst]. eapply wp_conseq; [by apply IH|]. intros r g2 [-> H2]. split; [|congruence].
  rewrite fmap_cons, bind_cons, <- app_assoc. done.
Qed.

Lemma host_addrs_error o n hints sp e : host_addrs o n hints sp = inr e -> e <> 0.
Proof. unfold host_addrs, h_error. intros H. repeat case_match; simplify_eq; done. Qed.

Lemma all_addrs_error o n hints sps e : all_addrs o n hints sps = inr e -> e <> 0.
Proof.
  induction sps as [|sp sps IH]; simpl; [done|]. intros H. repeat case_match; simplify_eq; auto.
  by eapply host_addrs_error.
Qed.

(** What the loop has after a search, from the list [l] and the saved name [canon]. *)
Definition next_canon (w : bool) (canon name : option bytes) : option bytes :=
  match canon with Some _ => canon | None => if w then name else None end.

Definition searched (hostname : option bytes) hints (n o : Z) (l : list addrinfo) (canon : option bytes)
    (s : (list (Z * list Z) * option bytes) + Z) (r : found) (g' : gai) : Prop :=
  match s with
  | inl (addrs, name) => r = (l ++ made hints addrs, next_canon (wants_canon hostname hints) canon name, 0)
  | inr e => r.2 = e
  end /\ same_opts n o g'.

Lemma search_one_ok hostname hints sp l canon n o g :
  same_opts n o g ->
  wp (search_one n hostname hints sp l canon) (searched hostname hints n o l canon (host_addrs o n hints sp)) no_exit g.
Proof.
  intros Ho. rewrite search_one_numeric. unfold host_addrs, searched.
  destruct (numeric_host (s_host sp)) as [[af a]|] eqn:En.
  - apply numeric_host_wf in En. unfold by_number. fold (wrong_family hints af).
    destruct (wrong_family hints af); [by wp_step|]. destruct (s_family sp =? af); cbn [negb].
    + wp_step. eapply wp_conseq; [by apply ga_aistruct_ok|]. intros r g1 [-> H1]. wp_step. cbn [fst snd].
      split; [|by eapply same_opts_eq]. rewrite bind_cons, app_nil_r. by destruct canon, (wants_canon _ _).
    + wp_step. rewrite app_nil_r. split; [|done]. by destruct canon, (wants_canon _ _).
  - unfold by_name. wp_step. eapply wp_conseq; [by apply ask_ok|]. intros h g1 [Hh H1].
    assert (Hwf : forall hp, h = inl hp -> wf_hostent hp).
    { rewrite Hh. unfold query. intros hp. case_match; intros; (by eapply wf_by_name) || by eapply wf_by_name2. }
    rewrite <- Hh. destruct h as [hp|e].
    2: { destruct (n =? 2); wp_step; [|done]. rewrite app_nil_r. split; [|done]. by destruct canon, (wants_canon _ _). }
    fold (wrong_family hints (h_addrtype hp)). destruct (wrong_family _ _); [by wp_step|].
    fold (wants_canon hostname hints). specialize (Hwf hp eq_refl).
    assert (Hent : forall c g2, g_options g2 = g_options g1 ->
              c = next_canon (wants_canon hostname hints) canon (Some (h_name hp)) ->
              wp (r <- add_addrs l hints (h_addr_list hp) (h_addrtype hp) ;; ret (r.1, c, r.2))
              (fun r g' => r = (l ++ made hints ((h_addrtype hp,.) <$> h_addr_list hp),
                 next_canon (wants_canon hostname hints) canon (Some (h_name hp)), 0) /\ same_opts n o g') no_exit g2).
    { intros c g2 H2 ->. wp_step. eapply wp_conseq; [by apply add_addrs_ok|]. intros r g3 [-> H3]. wp_step.
      split; [done|]. eapply same_opts_eq; [|done]. congruence. }
    destruct (wants_canon hostname hints) eqn:Hw; [|apply Hent; [done|by destruct canon]].
    destruct canon as [c|]; [by apply Hent|]. cbn [andb]. rewrite bool_decide_eq_true_2 by done. wp_step. apply alloc_ok_wp. intros g2 H2. by apply Hent.
Qed.

Lemma search_loop_ok hostname hints sps l canon n o g :
  same_opts n o g ->
  wp (search_loop n hostname hints sps l canon) (searched hostname hints n o l canon (all_addrs o n hints sps)) no_exit g.
Proof.
  revert l canon g. induction sps as [|sp sps IH]; intros l canon g Ho; cbn [search_loop all_addrs].
  { wp_step. split; [|done]. rewrite app_nil_r. by destruct canon, (wants_canon _ _). }
  wp_step. eapply wp_conseq; [by apply search_one_ok|]. intros r g1 [H1 Ho1].
  pose proof (host_addrs_error o n hints sp) as He. destruct (host_addrs o n hints sp) as [[addrs name]|e].
  2: { specialize (He e eq_refl). apply Z.eqb_neq in He. rewrite H1, He. cbn [negb]. by wp_step. }
  subst r. cbn [snd fst]. eapply wp_conseq; [by apply IH|]. intros r g2 [H2 Ho2]. split; [|done].
  destruct (all_addrs o n hints sps) as [[addrs' name']|e]; [|done].
  rewrite H2, bind_app, <- app_assoc. by destruct canon, (wants_canon _ _), name.
Qed.
End functional.
