(* ===== verification/GaiPort.v ===== *)
(** * Ports and socket types, and the correctness of name resolution *)

From Stdlib Require Import Strings.Byte ZArith Lia.
From S2P Require Import Prelude Wp Libc Inet InetProofs Gai GaiMem GaiSpec.
From stdpp Require Import base strings numbers gmap list.
#[local] Open Scope Z_scope.

Section ports.
Context `{R : resolver, !wf_resolver R} (Hmem : forall n, alloc_ok n = true).
Implicit Types (hints : addrinfo) (g : gai) (x : option bytes * (Z * list Z)).

(** ** ga_port *)

Definition inet_family (af : Z) : Prop := af = AF_INET \/ af = AF_INET6.

Lemma store_port_entry hints flags c t p af a port t' :
  inet_family af ->
  store_port port (set_socktype t' (entry hints flags c (t, p) (af, a))) = Some (entry hints flags c (t', port) (af, a), 1).
Proof. by intros [-> | ->]. Qed.

Lemma entry_flags hints flags c tp fa : ai_flags (entry hints flags c tp fa) = flags.
Proof. done. Qed.

Lemma entry_socktype hints flags c tp fa : ai_socktype (entry hints flags c tp fa) = tp.1.
Proof. done. Qed.

Lemma clone_entry hints flags c tp fa :
  let e := entry hints flags c tp fa in
  AddrInfo 0 (ai_family e) (ai_socktype e) (ai_protocol e) (ai_addrlen e) None (ai_addr e) = entry hints 0 None tp fa.
Proof. done. Qed.

(** Entries that are not to be cloned and have another socket type are passed over. *)
Lemma ga_port_skip port t skip rest n E (Q : list addrinfo * Z -> gai -> Prop) g :
  Forall (fun ai => ai_flags ai = 0 /\ ai_socktype ai <> t) skip ->
  wp (ga_port_loop rest port t n) (fun r g' => Q (skip ++ r.1, r.2) g') E g ->
  wp (ga_port_loop (skip ++ rest) port t n) Q E g.
Proof.
  revert Q. induction skip as [|ai skip IH]; intros Q Hs Hw; [by eapply wp_conseq; [exact Hw|]; intros [] ?|].
  apply Forall_cons in Hs as [[Hf Ht] Hs]. simpl. rewrite Hf. change (has 0 AI_CLONE) with false. cbv iota.
  apply Z.eqb_neq in Ht. rewrite Ht. cbn [negb]. wp_step. apply IH; [done|].
  eapply wp_conseq; [exact Hw|]. intros r g' H. by wp_step.
Qed.

(** One pass over the entries of one address adds the socket type to them. *)
Lemma ga_port_group hints ps x rest t port n E (Q : list addrinfo * Z -> gai -> Prop) g :
  inet_family x.2.1 ->
  (if ai_socktype hints =? 0 then t <> 0 /\ (t ∉ ps.*1) /\ (0 ∉ ps.*1) else ps = [] /\ t = ai_socktype hints) ->
  (forall g', g_options g' = g_options g ->
     wp (ga_port_loop rest port t (n + 1)) (fun r g2 => Q (group hints (ps ++ [(t, port)]) x ++ r.1, r.2) g2) E g') ->
  wp (ga_port_loop (group hints ps x ++ rest) port t n) Q E g.
Proof.
  destruct x as [c [af a]]. cbn [fst snd]. intros Haf Hps Hrest. unfold group, clone_flag in *.
  destruct (Z.eqb_spec (ai_socktype hints) 0) as [Hst|Hst].
  - destruct Hps as (Ht & Hnew & H0). destruct ps as [|[t1 p1] ps]; cbn [app].
    + cbn [ga_port_loop]. rewrite entry_flags, entry_socktype, Hst. cbn [fst snd].
      change (has AI_CLONE AI_CLONE) with true. change (0 =? 0) with true. cbv iota. cbn [negb].
      rewrite store_port_entry by done. wp_step.
      eapply wp_conseq; [by apply Hrest|]. intros [l' rc] g' H. by wp_step.
    + rewrite !fmap_cons in *. cbn [fst] in *. rewrite !not_elem_of_cons in *. destruct Hnew as [Hne Hnew], H0 as [Hne0 H0].
      cbn [ga_port_loop]. rewrite entry_flags, entry_socktype. change (has AI_CLONE AI_CLONE) with true. cbv iota. cbn [fst snd].
      rewrite (proj2 (Z.eqb_neq t1 0)) by done. cbn [negb].
      wp_step. unfold ga_clone. wp_step. apply (alloc_ok_wp Hmem). intros g1 H1. cbn [negb]. wp_step.
      apply (alloc_ok_wp Hmem). intros g2 H2. cbn [negb]. wp_step.
      rewrite clone_entry, store_port_entry by done. wp_step.
      apply ga_port_skip.
      { apply Forall_reverse, Forall_fmap, Forall_forall. intros [t2 p2] Hin. split; [done|]. cbn. intros ->.
        apply Hnew. apply list_elem_of_fmap. by exists (t, p2). }
      eapply wp_conseq; [apply Hrest; congruence|]. intros [l' rc] g' H. wp_step. cbn [fst snd app] in *.
      by rewrite fmap_app, reverse_app in H.
  - destruct Hps as [-> ->]. cbn [app ga_port_loop]. rewrite entry_flags, entry_socktype. change (has 0 AI_CLONE) with false. cbv iota.
    cbn [fst snd]. rewrite Z.eqb_refl. cbn [negb].
    rewrite store_port_entry by done. wp_step. eapply wp_conseq; [by apply Hrest|]. intros [l' rc] g' H. by wp_step.
Qed.

(** One pass over the entries of all addresses. *)
Lemma ga_port_pass hints ps xs t port g :
  Forall (fun x => inet_family x.2.1) xs ->
  (if ai_socktype hints =? 0 then t <> 0 /\ (t ∉ ps.*1) /\ (0 ∉ ps.*1) else ps = [] /\ t = ai_socktype hints) ->
  wp (ga_port (xs ≫= group hints ps) port t)
    (fun r g' => r = (xs ≫= group hints (ps ++ [(t, port)]), len xs) /\ g_options g' = g_options g) no_exit g.
Proof.
  intros Hxs Hps. unfold ga_port. change (len xs) with (0 + len xs). generalize 0 at 1 2 as n.
  revert g. induction xs as [|x xs IH]; intros g n; [cbn; by rewrite Z.add_0_r|].
  apply Forall_cons in Hxs as [Hx Hxs]. rewrite !bind_cons. apply ga_port_group; [done|done|]. intros g1 H1.
  eapply wp_conseq; [by apply IH|]. intros r g2 [-> H2]. cbn [fst snd]. split; [|congruence]. f_equal. rewrite len_cons. lia.
Qed.

(** Passes for one (socket type, port) after the other. *)
Fixpoint ga_ports (l : list addrinfo) (ps : list (Z * Z)) : M gai (list addrinfo) :=
  match ps with
  | [] => ret l
  | (t, port) :: ps' => r <- ga_port l port t ;; ga_ports r.1 ps'
  end.

Lemma ga_ports_from hints xs before ps g :
  ai_socktype hints = 0 -> Forall (fun x => inet_family x.2.1) xs ->
  NoDup (before ++ ps).*1 -> 0 ∉ (before ++ ps).*1 ->
  exists g', ga_ports (xs ≫= group hints before) ps g = Ret (xs ≫= group hints (before ++ ps)) g'.
Proof.
  intros Hst Hxs. revert before g. induction ps as [|[t p] ps IH]; intros before g Hnd H0; [rewrite app_nil_r; by eexists|].
  assert (Hps : if ai_socktype hints =? 0 then t <> 0 /\ (t ∉ before.*1) /\ (0 ∉ before.*1) else before = [] /\ t = ai_socktype hints).
  { rewrite Hst. change (0 =? 0) with true. cbv iota.
    rewrite fmap_app, fmap_cons in *. cbn [fst] in *. rewrite not_elem_of_app, not_elem_of_cons in H0.
    apply NoDup_app in Hnd as (_ & Hnd & _). split_and!; [naive_solver| |naive_solver].
    intros Hin. by apply (Hnd t Hin), list_elem_of_here. }
  cbn [ga_ports]. destruct (proj1 (wp_run _ _ _) (ga_port_pass hints before xs t p g Hxs Hps)) as (r & g1 & Hr & -> & _).
  step Hr. cbn [fst]. rewrite (cons_middle (t, p) before ps) in *. rewrite (app_assoc before) in *. by apply IH.
Qed.

(** The AI_CLONE flag works for any number of socket types.  For hosts resolved
    without a socket type, passes of [ga_port] for distinct nonzero types give every
    address all of them: the entry of the host has the first, clones of it the others,
    each with the port of its type. *)
Theorem ga_ports_product hints xs ps g :
  ai_socktype hints = 0 -> Forall (fun x => inet_family x.2.1) xs ->
  NoDup ps.*1 -> 0 ∉ ps.*1 ->
  exists g', ga_ports (xs ≫= group hints []) ps g = Ret (xs ≫= group hints ps) g'.
Proof.
  intros Hst Hxs Hnd H0. by apply (ga_ports_from hints xs [] ps g).
Qed.
(** ** ga_serv *)

Definition serv_code hints : Z := if ai_socktype hints =? 0 then EAI_NONAME else EAI_SERVICE.

Definition served hints (ps : list (Z * Z)) (xs : list (option bytes * (Z * list Z))) (r : list addrinfo * Z) : Prop :=
  match ps with [] => r.2 = serv_code hints | _ => r = (xs ≫= group hints ps, 0) end.

Lemma serv_end_ok hints ps xs n g :
  (n = 0 <-> ps = []) -> wp (serv_end hints (xs ≫= group hints ps) n) (fun r _ => served hints ps xs r) no_exit g.
Proof.
  intros Hn. unfold serv_end. destruct (Z.eqb_spec n 0) as [H|H]; wp_step.
  - by rewrite (proj1 Hn H).
  - destruct ps; [by destruct H; apply Hn|done].
Qed.

Section service.
Context (hints : addrinfo) (xs : list (option bytes * (Z * list Z))).
Context (Hxs : Forall (fun x => inet_family x.2.1) xs) (Hne : xs <> []).

Lemma xs_len : 0 < len xs.
Proof. destruct xs; [done|]. rewrite len_cons. pose proof (len_nonneg l). lia. Qed.

(** A pass of [ga_port] in [ga_serv]: it finds every address. *)
Lemma serv_pass ps t port (k : list addrinfo * Z -> M gai (list addrinfo * Z)) (Q : list addrinfo * Z -> gai -> Prop) g :
  (if ai_socktype hints =? 0 then t <> 0 /\ (t ∉ ps.*1) /\ (0 ∉ ps.*1) else ps = [] /\ t = ai_socktype hints) ->
  (forall g', wp (k (xs ≫= group hints (ps ++ [(t, port)]), len xs)) Q no_exit g') ->
  wp (r <- ga_port (xs ≫= group hints ps) port t ;; if r.2 <? 0 then ret (r.1, EAI_MEMORY) else k r) Q no_exit g.
Proof.
  intros Hps Hk. wp_step. eapply wp_conseq; [by apply ga_port_pass|]. intros r g' [-> _]. cbn [snd].
  pose proof xs_len. destruct (Z.ltb_spec (len xs) 0); [lia|done].
Qed.

Lemma serv_udp_ok serv ps n g :
  (n = 0 <-> ps = []) -> 0 <= n ->
  (if ai_socktype hints =? 0 then ps = [] \/ exists p, ps = [(SOCK_STREAM, p)] else ai_socktype hints = SOCK_DGRAM -> ps = []) ->
  wp (serv_udp hints serv (xs ≫= group hints ps) n)
    (fun r _ => served hints (ps ++ named_service SOCK_DGRAM (bs "udp") serv hints) xs r) no_exit g.
Proof.
  intros Hn Hn0 Hps. unfold serv_udp, named_service.
  destruct ((ai_socktype hints =? 0) || (ai_socktype hints =? SOCK_DGRAM)) eqn:Ht; [|rewrite app_nil_r; by apply serv_end_ok].
  destruct (getservbyname serv (bs "udp")) as [p|]; cbn [from_option]; [|rewrite app_nil_r; by apply serv_end_ok].
  apply (serv_pass ps SOCK_DGRAM p (fun r => serv_end hints r.1 (n + r.2))).
  - destruct (Z.eqb_spec (ai_socktype hints) 0) as [H|H].
    + destruct Hps as [-> |[q ->]]; split_and!; cbn; set_solver by lia.
    + apply Z.eqb_eq in Ht. auto.
  - intros g'. cbn [fst snd]. apply serv_end_ok. pose proof xs_len. split; [lia|]. by destruct ps.
Qed.

Lemma ga_serv_ok serv g :
  wp (ga_serv (xs ≫= group hints []) hints serv) (fun r _ => served hints (services hints serv) xs r) no_exit g.
Proof.
  pose proof xs_len as Hl. unfold ga_serv, services. destruct (isdigit (hd NUL serv)).
  - destruct (Z.eqb_spec (ai_socktype hints) 0) as [Hst|Hst]; cbn [negb fmap list_fmap].
    + apply (serv_pass [] SOCK_STREAM _ (fun r => r2 <- ga_port r.1 _ SOCK_DGRAM ;;
        if r2.2 <? 0 then ret (r2.1, EAI_MEMORY) else serv_end hints r2.1 (r.2 + r2.2))); [rewrite Hst; cbn; set_solver|].
      intros g1. cbn [fst snd]. apply (serv_pass ([] ++ [_]) SOCK_DGRAM _ (fun r => serv_end hints r.1 (len xs + r.2))).
      { rewrite Hst. split_and!; cbn; set_solver by lia. }
      intros g2. cbn [fst snd]. apply (serv_end_ok hints [_; _]). split; [lia|done].
    + apply (serv_pass [] (ai_socktype hints) _ (fun r => serv_end hints r.1 r.2)).
      { by rewrite (proj2 (Z.eqb_neq _ _) Hst). }
      intros g1. cbn [fst snd]. apply (serv_end_ok hints [_]). split; [lia|done].
  - unfold named_service at 1.
    destruct ((ai_socktype hints =? 0) || (ai_socktype hints =? SOCK_STREAM)) eqn:Ht.
    2: { apply serv_udp_ok; [done|done|]. destruct (ai_socktype hints =? 0); auto. }
    destruct (getservbyname serv (bs "tcp")) as [p|]; cbn [from_option].
    2: { apply serv_udp_ok; [done|done|]. destruct (ai_socktype hints =? 0); auto. }
    apply (serv_pass [] SOCK_STREAM p (fun r => serv_udp hints serv r.1 r.2)).
    { destruct (Z.eqb_spec (ai_socktype hints) 0); [cbn; set_solver|]. apply Z.eqb_eq in Ht. auto. }
    intros g1. cbn [fst snd]. apply (serv_udp_ok serv [_]); [split; [lia|done]|lia|].
    destruct (Z.eqb_spec (ai_socktype hints) 0); [right; by eexists|]. apply Z.eqb_eq in Ht. intros H. by rewrite H in Ht.
Qed.
End service.

(** ** ga_unix *)

Lemma ga_aistruct_path l hints path g :
  len path < SUN_PATH_SZ -> ai_socktype hints <> 0 ->
  wp (ga_aistruct l hints (APath path) AF_LOCAL)
    (fun r _ => r = (l ++ [unix_entry path hints (ai_socktype hints)], 0)) no_exit g.
Proof.
  intros Hlen Hst. unfold ga_aistruct. wp_step. apply (alloc_ok_wp Hmem). intros g1 _. cbn [negb].
  rewrite (proj2 (Z.eqb_neq _ _) Hst), (eq_refl : (AF_LOCAL =? AF_INET) = false), (eq_refl : (AF_LOCAL =? AF_INET6) = false), Z.eqb_refl.
  cbv iota. rewrite (proj2 (Z.leb_gt _ _) Hlen). wp_step. apply (alloc_ok_wp Hmem). intros g2 _. cbn [negb].
  wp_step. apply wp_when; intros _; [wp_step|]; by wp_step.
Qed.

Lemma ga_aistruct_long l hints path g :
  SUN_PATH_SZ <= len path ->
  wp (ga_aistruct l hints (APath path) AF_LOCAL) (fun r _ => r.2 = EAI_SERVICE) no_exit g.
Proof.
  intros Hlen. unfold ga_aistruct. wp_step. apply (alloc_ok_wp Hmem). intros g1 _. cbn [negb].
  rewrite (eq_refl : (AF_LOCAL =? AF_INET) = false), (eq_refl : (AF_LOCAL =? AF_INET6) = false), Z.eqb_refl.
  cbv iota. rewrite (proj2 (Z.leb_le _ _) Hlen). by wp_step.
Qed.

(** A result as [getaddrinfo] returns it. *)
Definition returned (s : list addrinfo + Z) : option (list addrinfo) * Z :=
  match s with inl l => (Some l, 0) | inr e => (None, e) end.

Lemma unix_last_ok path l hints g :
  len path < SUN_PATH_SZ -> ai_socktype hints <> 0 ->
  wp (unix_last path l hints)
    (fun r _ => r = returned
       (if has (ai_flags hints) AI_CANONNAME then
          match uname, l ++ [unix_entry path hints (ai_socktype hints)] with
          | Some nodename, ai :: rest => inl (set_canonname (Some nodename) ai :: rest)
          | _, _ => inr EAI_SYSTEM
          end
        else inl (l ++ [unix_entry path hints (ai_socktype hints)]))) no_exit g.
Proof.
  intros Hlen Hst. unfold unix_last. wp_step. eapply wp_conseq; [by apply ga_aistruct_path|]. intros r g1 ->. cbn [fst snd].
  change (negb (0 =? 0)) with false. cbv iota. destruct (has _ _); [|by wp_step]. destruct uname as [nodename|]; [|by wp_step].
  wp_step. apply (alloc_ok_wp Hmem). intros g2 _. cbn [negb].
  destruct (l ++ [_]) eqn:E; [by destruct l|by wp_step].
Qed.

Lemma ga_unix_ok path hints g :
  wp (ga_unix path hints) (fun r _ => r = returned (unix_spec path hints)) no_exit g.
Proof.
  unfold ga_unix, unix_spec. fold (wrong_family hints AF_LOCAL). destruct (wrong_family hints AF_LOCAL); [by wp_step|].
  destruct (Z.leb_spec SUN_PATH_SZ (len path)) as [Hlen|Hlen].
  - destruct (Z.eqb_spec (ai_socktype hints) 0) as [Hst|Hst]; [|unfold unix_last];
      (wp_step; eapply wp_conseq; [by apply ga_aistruct_long|]; intros [l e] g1 He; cbn [fst snd] in *; subst e;
       change (negb (EAI_SERVICE =? 0)) with true; cbv iota; by wp_step).
  - destruct (Z.eqb_spec (ai_socktype hints) 0) as [Hst|Hst]; [|by apply unix_last_ok].
    wp_step. eapply wp_conseq; [by apply ga_aistruct_path|]. intros r g1 ->. cbn [fst snd].
    change (negb (0 =? 0)) with false. cbv iota.
    eapply wp_conseq; [by apply (unix_last_ok path _ (set_socktype SOCK_DGRAM hints))|]. by intros r g2 ->.
Qed.

(** ** getaddrinfo *)

Lemma made_labelled hints addrs :
  (addrs ≫= fun fa => group hints [] (None, fa)) = labelled None addrs ≫= group hints [].
Proof.
  destruct addrs as [|fa addrs]; [done|]. cbn [labelled]. rewrite !bind_cons. f_equal.
  induction addrs as [|fa' addrs IH]; [done|]. rewrite fmap_cons, !bind_cons. by f_equal.
Qed.

Lemma give_canon_ok hostname hints sps fa addrs name g :
  wp (give_canon hostname hints sps (labelled None (fa :: addrs) ≫= group hints []) 
        (next_canon (wants_canon hostname hints) None name))
    (fun r _ => r = (labelled (if wants_canon hostname hints
                     then Some (default (from_option s_host [] (head sps)) name) else None) (fa :: addrs) ≫= group hints [], 0)) no_exit g.
Proof.
  unfold give_canon. fold (wants_canon hostname hints). cbn [labelled]. rewrite !bind_cons. cbn [group app].
  destruct (wants_canon hostname hints); cbv iota; [|by wp_step]. destruct name as [name|]; cbn [next_canon]; [by wp_step|].
  wp_step. apply (alloc_ok_wp Hmem). intros g1 _. cbn [negb]. by wp_step.
Qed.

(** The addresses of the resolver and of numeric hosts have the size of their family,
    which is the family that was asked for. *)
Definition good_addr hints (fa : Z * list Z) : Prop := wf_addr fa.1 fa.2 /\ wrong_family hints fa.1 = false.

Lemma good_inet hints fa : good_addr hints fa -> inet_family fa.1.
Proof. intros [[[-> _]|[-> _]] _]; [by left|by right]. Qed.

Lemma host_addrs_good o n hints sp addrs name :
  host_addrs o n hints sp = inl (addrs, name) -> Forall (good_addr hints) addrs.
Proof.
  unfold host_addrs. intros H. destruct (numeric_host _) as [[af a]|] eqn:En.
  - apply numeric_host_wf in En. repeat case_match; simplify_eq; [|done]. constructor; [done|constructor].
  - destruct (query o n sp) as [hp|e] eqn:Eq; [|by case_match; simplify_eq]. case_match; simplify_eq.
    assert (wf_hostent hp) as Hh by (revert Eq; unfold query; case_match; intros; (by eapply wf_by_name) || by eapply wf_by_name2).
    apply Forall_fmap. eapply Forall_impl; [exact Hh|]. done.
Qed.

Lemma all_addrs_good o n hints sps addrs name :
  all_addrs o n hints sps = inl (addrs, name) -> Forall (good_addr hints) addrs.
Proof.
  revert addrs name. induction sps as [|sp sps IH]; intros addrs name H; simpl in H; [by simplify_eq|].
  destruct (host_addrs o n hints sp) as [[a1 n1]|] eqn:E1; [|done].
  destruct (all_addrs o n hints sps) as [[a2 n2]|] eqn:E2; [|done]. simplify_eq.
  apply Forall_app. split; [by eapply host_addrs_good|by eapply IH].
Qed.

Lemma labelled_all (P : Z * list Z -> Prop) c addrs : Forall P addrs -> Forall (fun x => P x.2) (labelled c addrs).
Proof. destruct 1 as [|fa addrs Hfa Hrest]; [constructor|]. constructor; [done|]. by apply Forall_fmap. Qed.

Lemma bad_ok l e g : wp (bad l e) (fun r _ => r = (None, e)) no_exit g.
Proof. by apply bad_mem. Qed.

Lemma search_list_local hostname hints : ai_family hints = AF_LOCAL -> search_list hostname hints = [].
Proof. intros H. unfold search_list, by_family. rewrite H. by repeat case_match. Qed.

Lemma search_list_len hostname servname hints :
  ga_echeck hostname servname (ai_flags hints) (ai_family hints) (ai_socktype hints) (ai_protocol hints) = 0 ->
  ai_family hints <> AF_LOCAL ->
  (len (search_list hostname hints) <? 1) || (2 <? len (search_list hostname hints)) = false.
Proof.
  intros Hrc%ga_echeck_family Hloc. unfold search_list, by_family.
  destruct Hrc as [-> |[-> |[-> |?]]]; [..|done]; by repeat case_match.
Qed.

Lemma getaddrinfo_wp hostname servname hintsp g :
  wp (getaddrinfo hostname servname hintsp)
    (fun r _ => returned <$> gai_spec (g_options g) hostname servname (default no_hints hintsp) = Some r)
    (fun d _ => d = DQuit "nsearch = %d" /\ gai_spec (g_options g) hostname servname (default no_hints hintsp) = None) g.
Proof.
  unfold gai_spec, getaddrinfo. set (hints := default no_hints hintsp). set (rc := ga_echeck _ _ _ _ _ _).
  destruct (rc =? 0) eqn:Hrc; cbn [negb].
  2: { apply wp_total. eapply wp_conseq; [apply bad_ok|]. by intros r g' ->. }
  destruct (is_unix hostname servname).
  { apply wp_total. eapply wp_conseq; [apply ga_unix_ok|]. by intros r g' ->. }
  apply Z.eqb_eq in Hrc. unfold rc in Hrc. clear rc. unfold ga_nsearch. wp_step.
  destruct (Z.eqb_spec (ai_family hints) AF_LOCAL) as [Hloc|Hloc].
  { rewrite (search_list_local hostname hints Hloc). by apply wp_die. }
  rewrite (search_list_len hostname servname hints Hrc Hloc). wp_step. apply wp_total. wp_step. cbn [fmap option_fmap option_map].
  set (sps := search_list hostname hints). eapply wp_conseq; [by apply search_loop_ok|]. intros r g1 [Hr _].
  pose proof (all_addrs_error (g_options g) (len sps) hints sps) as Herr.
  pose proof (all_addrs_good (g_options g) (len sps) hints sps) as Hin.
  destruct (all_addrs (g_options g) (len sps) hints sps) as [[addrs name]|e].
  2: { destruct r as [[l c] e']. cbn [snd] in Hr. subst e'. specialize (Herr e eq_refl). apply Z.eqb_neq in Herr. rewrite Herr.
       cbn [negb]. eapply wp_conseq; [apply bad_ok|]. by intros r g' ->. }
  subst r. cbn [app]. rewrite made_labelled. change (negb (0 =? 0)) with false. cbv iota.
  destruct addrs as [|fa addrs]; [wp_step; apply wp_ret; eapply wp_conseq; [apply bad_ok|]; by intros r g' ->|].
  wp_step. eapply wp_conseq; [apply give_canon_ok|]. intros r g2 ->. cbn [fst snd]. change (negb (0 =? 0)) with false. cbv iota.
  destruct servname as [[|c0 s]|]; [by wp_step| |by wp_step].
  wp_step. eapply wp_conseq; [apply ga_serv_ok; [|done]|].
  { apply (labelled_all (fun fa => inet_family fa.1)). eapply Forall_impl; [by apply (Hin _ _ eq_refl)|apply good_inet]. }
  intros [l e] g3 Hs. unfold served in Hs. destruct (services hints (c0 :: s)) as [|p ps].
  - cbn [snd] in Hs. subst e. unfold serv_code. destruct (ai_socktype hints =? 0);
      (eapply wp_conseq; [apply bad_ok|]; by intros r g' ->).
  - injection Hs as -> ->. cbn [snd fst]. change (negb (0 =? 0)) with false. cbv iota. by wp_step.
Qed.

(** C10: Correctness of getaddrinfo.  With memory for every allocation, [getaddrinfo]
    returns what [gai_spec] says: the error of the arguments, of the host or of the
    service, or the list of the addresses of all searches in their order, each with every
    socket type and port of the service, TCP before UDP, and the canonical name in the
    first entry; and it ends the process where [gai_spec] has no value. *)
Theorem getaddrinfo_correct hostname servname hintsp g :
  match gai_spec (g_options g) hostname servname (default no_hints hintsp) with
  | Some s => exists g', getaddrinfo hostname servname hintsp g = Ret (returned s) g'
  | None => exists g', getaddrinfo hostname servname hintsp g = Die (DQuit "nsearch = %d") g'
  end.
Proof.
  pose proof (getaddrinfo_wp hostname servname hintsp g) as H. unfold wp in H.
  destruct (getaddrinfo hostname servname hintsp g) as [r g'|d g'| |]; [| |done..].
  - destruct (gai_spec _ _ _ _); [|done]. simplify_eq/=. by exists g'.
  - destruct H as [-> ->]. by exists g'.
Qed.

(** ** The entries are well formed *)

(** The socket address is of the kind, and has the size, that the family says; the entry
    agrees with the hints. *)
Definition typed hints (ai : addrinfo) : Prop :=
  match ai_addr ai with
  | Some (SIn _ a) => ai_family ai = AF_INET /\ ai_addrlen ai = SOCKADDR_IN_SZ /\ length a = 4%nat
  | Some (SIn6 _ a) => ai_family ai = AF_INET6 /\ ai_addrlen ai = SOCKADDR_IN6_SZ /\ length a = 16%nat
  | Some (SUn path) => ai_family ai = AF_LOCAL /\ ai_addrlen ai = SOCKADDR_UN_SZ /\ len path < SUN_PATH_SZ
  | None => False
  end /\
  ai_protocol ai = ai_protocol hints /\
  (ai_family hints <> AF_UNSPEC -> ai_family ai = ai_family hints) /\
  (ai_socktype hints <> 0 -> ai_socktype ai = ai_socktype hints).

Lemma right_family hints af : wrong_family hints af = false -> ai_family hints <> AF_UNSPEC -> af = ai_family hints.
Proof.
  unfold wrong_family. destruct (Z.eqb_spec (ai_family hints) AF_UNSPEC), (Z.eqb_spec (ai_family hints) af); done.
Qed.

Lemma entry_typed hints flags c tp fa :
  good_addr hints fa -> (ai_socktype hints <> 0 -> tp.1 = ai_socktype hints) -> typed hints (entry hints flags c tp fa).
Proof.
  destruct fa as [af a]. intros [Hwf Hf] Ht. cbn [fst snd] in *.
  split; [|split; [done|split; [by apply right_family|done]]].
  destruct Hwf as [[-> Hl]|[-> Hl]]; done.
Qed.

Lemma services_typed hints serv : Forall (fun tp => ai_socktype hints <> 0 -> tp.1 = ai_socktype hints) (services hints serv).
Proof.
  unfold services, named_service. destruct (isdigit _).
  - destruct (Z.eqb_spec (ai_socktype hints) 0); repeat constructor; done.
  - apply Forall_app. split; (case_match; [|constructor]); destruct (getservbyname _ _); repeat constructor; cbn; intros; lia.
Qed.

Lemma group_typed hints ps x :
  good_addr hints x.2 -> Forall (fun tp => ai_socktype hints <> 0 -> tp.1 = ai_socktype hints) ps ->
  Forall (typed hints) (group hints ps x).
Proof.
  intros Hx Hps. destruct Hps as [|tp ps Htp Hps]; cbn [group]; (constructor; [by apply entry_typed|]); [constructor|].
  apply Forall_reverse, Forall_fmap. eapply Forall_impl; [exact Hps|]. intros tp' H. by apply entry_typed.
Qed.

Lemma groups_typed hints ps xs :
  Forall (fun x => good_addr hints x.2) xs -> Forall (fun tp => ai_socktype hints <> 0 -> tp.1 = ai_socktype hints) ps ->
  Forall (typed hints) (xs ≫= group hints ps).
Proof.
  intros Hxs Hps. induction Hxs as [|x xs Hx _ IH]; [constructor|]. rewrite bind_cons. apply Forall_app. split; [by apply group_typed|done].
Qed.

Lemma unix_spec_typed path hints l : unix_spec path hints = inl l -> Forall (typed hints) l.
Proof.
  unfold unix_spec. destruct (wrong_family hints AF_LOCAL) eqn:Hf; [done|]. destruct (Z.leb_spec SUN_PATH_SZ (len path)); [done|].
  set (ts := if _ =? 0 then _ else _). intros Hl.
  assert (Hts : Forall (typed hints) (unix_entry path hints <$> ts)).
  { apply Forall_fmap. unfold ts. destruct (Z.eqb_spec (ai_socktype hints) 0).
    all: repeat first [apply Forall_nil_2 | apply Forall_cons_2]; (split; [done|]; split; [done|]; split; [by apply right_family|done]). }
  destruct (has _ _); [|by simplify_eq]. destruct uname; [|done]. destruct (unix_entry path hints <$> ts) as [|ai rest]; [done|]. simplify_eq.
  apply Forall_cons in Hts as [Ha Hr]. by constructor.
Qed.

(** C35: Well-formed results, when every allocation succeeds.  Every entry that
    [getaddrinfo] returns has a socket address of the kind its family names (four bytes
    for AF_INET, sixteen for AF_INET6, a path with room for its terminator for AF_LOCAL)
    and of the size in [ai_addrlen], and agrees with the protocol, the family and the
    socket type of the hints where these are given. *)
Theorem getaddrinfo_typed hostname servname hintsp g l rc g' :
  getaddrinfo hostname servname hintsp g = Ret (Some l, rc) g' ->
  Forall (typed (default no_hints hintsp)) l.
Proof.
  intros Hr. pose proof (getaddrinfo_wp hostname servname hintsp g) as H. unfold wp in H. rewrite Hr in H.
  set (hints := default no_hints hintsp) in *. unfold gai_spec in H.
  destruct (ga_echeck _ _ _ _ _ _ =? 0); cbn [negb] in H; [|done].
  destruct (is_unix hostname servname).
  { destruct (unix_spec (default [] servname) hints) eqn:E; simplify_eq/=. by eapply unix_spec_typed. }
  destruct (ai_family hints =? AF_LOCAL); [done|].
  pose proof (all_addrs_good (g_options g) (len (search_list hostname hints)) hints (search_list hostname hints)) as Hin.
  destruct (all_addrs _ _ _ _) as [[[|fa addrs] name]|]; [done| |done]. specialize (Hin _ _ eq_refl).
  set (c := if wants_canon hostname hints then _ else _) in H.
  pose proof (labelled_all _ c _ Hin) as Hx. generalize dependent (labelled c (fa :: addrs)). intros xs H Hx.
  destruct servname as [[|c0 s]|]; cbn [fmap option_fmap option_map returned] in H.
  1,3: injection H as <- <-; apply groups_typed; [done|constructor].
  pose proof (services_typed hints (c0 :: s)) as Hsv. destruct (services hints (c0 :: s)) as [|p ps]; [done|].
  injection H as <- <-. by apply groups_typed.
Qed.
End ports.
