(* ===== verification/GaiName.v ===== *)
(** * Numeric names: getaddrinfo and getnameinfo are inverse

    The text of an address and the digits of a port resolve to that address and that
    port, without a query, and [getnameinfo] gives the two texts back. *)

From Stdlib Require Import Strings.Byte ZArith Lia.
From S2P Require Import Prelude Wp Libc Inet InetProofs Gai GaiMem GaiSpec GaiPort.
From stdpp Require Import base strings numbers gmap list.
#[local] Open Scope Z_scope.

(** ** Byte order *)

Lemma htons_involutive p : 0 <= p < 2 ^ 16 -> 0 <= htons p < 2 ^ 16 /\ ntohs (htons p) = p.
Proof.
  intros Hp.
  assert (Hs : forall v, 0 <= v < 2 ^ 16 -> htons v = 256 * (v mod 256) + v / 256).
  { intros v Hv. unfold htons. rewrite wrap_small by done. change 255 with (Z.ones 8). rewrite Z.land_ones by done.
    rewrite Z.shiftr_div_pow2 by done. change (2 ^ 8) with 256.
    pose proof (Z.mod_pos_bound v 256 ltac:(lia)).
    rewrite lor_add_low; [lia|done|]. change (2 ^ 8) with 256. split; [apply Z.div_pos; lia|]. apply Z.div_lt_upper_bound; lia. }
  pose proof (Z.div_mod p 256 ltac:(lia)). pose proof (Z.mod_pos_bound p 256 ltac:(lia)).
  assert (0 <= p / 256 < 256) by (split; [apply Z.div_pos; lia|apply Z.div_lt_upper_bound; lia]).
  assert (Hr : 0 <= htons p < 2 ^ 16) by (rewrite (Hs p Hp); lia). split; [done|].
  unfold ntohs. rewrite (Hs (htons p) Hr), (Hs p Hp).
  replace (256 * (p mod 256) + p / 256) with (p / 256 + p mod 256 * 256) by lia.
  rewrite Z.mod_add, Z.div_add, (Z.mod_small (p / 256)), (Z.div_small (p / 256)) by lia. lia.
Qed.

(** ** Text of an address *)

Definition ntop_text (af : Z) (a : list Z) : bytes := if af =? AF_INET then ntop4_text a else ntop6_text a.

Lemma pton4_colon src tmp tp saw octets :
  is_Some (strchr src c_colon) ->
  pton_some (pton4_loop src tmp tp saw octets (fun tmp octets => if octets <? 4 then PInvalid else POk tmp)) = false.
Proof.
  revert tmp tp saw octets. induction src as [|c src IH]; intros tmp tp saw octets Hc; [by destruct Hc|].
  cbn [pton4_loop]. destruct (decide (c = c_colon)) as [->|Hne].
  { by change (strchr digits c_colon) with (@None nat). }
  assert (Hs : is_Some (strchr src c_colon)).
  { cbn [strchr] in Hc. rewrite decide_False in Hc by done. by destruct (strchr src c_colon); [eexists|destruct Hc]. }
  repeat case_match; try done; by apply IH.
Qed.

Lemma numeric_text af a : wf_addr af a -> Forall u_char a -> numeric_host (ntop_text af a) = Some (af, a).
Proof.
  intros Hwf Hu. unfold numeric_host, ntop_text. destruct Hwf as [[-> Hl]|[-> Hl]].
  - do 4 (destruct a as [|? a]; [done|]). destruct a; [|done]. repeat (apply Forall_cons in Hu as [? Hu]).
    unfold numeric. rewrite Z.eqb_refl, pton4_ntop4 by done. done.
  - change (AF_INET6 =? AF_INET) with false. cbv iota.
    assert (H6 : numeric AF_INET6 (ntop6_text a) = Some a) by (unfold numeric; simpl; by rewrite pton6_ntop6).
    assert (Hcol : is_Some (strchr (ntop6_text a) c_colon)).
    { destruct (strchr (ntop6_text a) c_colon) eqn:E; [by eexists|].
      rewrite pton6_first in H6; [done|]. rewrite E. by rewrite andb_false_r. }
    assert (numeric AF_INET (ntop6_text a) = None) as ->; [|by rewrite H6].
    unfold numeric. rewrite Z.eqb_refl. unfold inet_pton4.
    pose proof (pton4_colon (ntop6_text a) (replicate 4 0) 0 false 0 Hcol) as H. by destruct (pton4_loop _ _ _ _ _ _).
Qed.

Lemma inet_ntop_text af a dst e :
  wf_addr af a -> Forall u_char a -> 46 <= len dst ->
  exists d, inet_ntop af a dst e = Some (Some d, e) /\ cstr d = ntop_text af a.
Proof.
  intros Hwf Hu Hd. unfold inet_ntop, ntop_text. destruct Hwf as [[-> Hl]|[-> Hl]].
  - rewrite Z.eqb_refl. destruct (ntop4_text_ok a Hu) as [Ht Htl]. unfold inet_ntop4.
    destruct (strcpy_ok dst (ntop4_text a)) as (d & Hs & Hc & _); [unfold len in *; lia|done|].
    exists d. rewrite Hs. destruct (Z.ltb_spec (len dst) (len (ntop4_text a))); [unfold len in *; lia|done].
  - change (AF_INET6 =? AF_INET) with false. rewrite Z.eqb_refl. cbv iota.
    destruct (ntop6_text_ok a Hl Hu) as [Ht Htl]. unfold inet_ntop6.
    destruct (strcpy_ok dst (ntop6_text a)) as (d & Hs & Hc & _); [unfold len in *; lia|done|].
    exists d. rewrite Hs. destruct (Z.ltb_spec (len dst) (len (ntop6_text a) + 1)); [unfold len in *; lia|done].
Qed.

Lemma snprintf_text buf s : is_cstr s -> len s < len buf -> cstr (snprintf_s buf s) = s.
Proof.
  intros Hs Hl. unfold snprintf_s. rewrite take_ge by (unfold len in *; lia).
  rewrite splice_0, <- app_assoc. by apply cstr_app_nul.
Qed.

(** ** Resolving a numeric host *)

Section numeric_names.
Context `{R : resolver, !wf_resolver R} (Hmem : forall n, alloc_ok n = true).

Lemma numeric_nonempty host fa : numeric_host host = Some fa -> exists c s, host = c :: s.
Proof. destruct host as [|c s]; [done|by eexists _, _]. Qed.

Lemma numeric_not_unix host fa servname : numeric_host host = Some fa -> is_unix (Some host) servname = false.
Proof.
  intros H. unfold is_unix. destruct servname; [|done].
  by rewrite (bool_decide_eq_false_2 (host = bs "/local")), (bool_decide_eq_false_2 (host = bs "/unix")) by (by intros ->).
Qed.

Lemma gai_spec_numeric o host af a serv :
  numeric_host host = Some (af, a) -> serv <> [] -> services no_hints serv <> [] ->
  gai_spec o (Some host) (Some serv) no_hints = Some (inl (group no_hints (services no_hints serv) (None, (af, a)))).
Proof.
  intros Hn Hs Hsv. unfold gai_spec. rewrite (numeric_not_unix host _ _ Hn).
  assert (Haf : af = AF_INET \/ af = AF_INET6) by (by destruct (numeric_host_wf _ _ _ Hn) as [[-> _]|[-> _]]; auto).
  destruct (numeric_nonempty host _ Hn) as (c & h & ->). destruct serv as [|c0 s]; [done|].
  unfold ga_echeck, search_list, by_family. cbn [no_string andb no_hints ai_flags ai_family ai_socktype ai_protocol].
  change (Z.land 0 (Z.lnot (Z.lor AI_PASSIVE AI_CANONNAME)) =? 0) with true. cbn [negb Z.eqb AF_UNSPEC AF_INET AF_INET6 AF_LOCAL].
  unfold all_addrs, host_addrs. cbn [s_host s_family]. rewrite Hn. cbn [wrong_family ai_family no_hints].
  change (wants_canon (Some (c :: h)) no_hints) with false. cbv iota.
  destruct (services no_hints (c0 :: s)) as [|p ps] eqn:E; [done|].
  destruct Haf as [-> | ->]; simpl; by rewrite ?app_nil_r.
Qed.

Lemma services_port p : 0 <= p < 2 ^ 16 ->
  services no_hints (dec p) = [(SOCK_STREAM, htons p); (SOCK_DGRAM, htons p)].
Proof.
  intros Hp. unfold services. pose proof (dec_digits p ltac:(lia)) as Hd. pose proof (dec_nonnil p ltac:(lia)) as Hne.
  assert (isdigit (hd NUL (dec p)) = true) as -> by (by destruct Hd).
  assert (atoi (dec p) = p) as Ha.
  { unfold atoi. rewrite <- (app_nil_r (dec p)), atol_dec; [apply swrap_small; lia|unfold LONG_MAX; lia|done]. }
  cbn [ai_socktype no_hints]. by rewrite Ha.
Qed.

(** C25: Numeric names round trip, when every allocation succeeds.  For every IPv4 or IPv6
    address and every port, the text of the address as [inet_ntop] writes it and the
    digits of the port resolve, without a query, to a stream and a datagram entry of
    exactly that address and port; and [getnameinfo] with numeric flags gives the two
    strings back for each of them. *)
Theorem name_roundtrip af a port hbuf sbuf g :
  wf_addr af a -> Forall u_char a -> 0 <= port < 2 ^ 16 -> 46 <= len hbuf -> 6 <= len sbuf ->
  let e flags t := entry no_hints flags None (t, htons port) (af, a) in
  (exists g', getaddrinfo (Some (ntop_text af a)) (Some (dec port)) None g =
     Ret (Some [e AI_CLONE SOCK_STREAM; e 0 SOCK_DGRAM], 0) g') /\
  forall flags t, exists sa h s, ai_addr (e flags t) = Some sa /\
    getnameinfo sa hbuf sbuf (Z.lor NI_NUMERICHOST NI_NUMERICSERV) = Some (h, s, 0) /\
    cstr h = ntop_text af a /\ cstr s = dec port.
Proof.
  intros Hwf Hu Hp Hh Hs e. destruct (htons_involutive port Hp) as [Hr Hinv]. split.
  - pose proof (getaddrinfo_wp Hmem (Some (ntop_text af a)) (Some (dec port)) None g) as H. unfold wp in H. cbn [default] in H.
    rewrite (gai_spec_numeric _ _ _ _ _ (numeric_text af a Hwf Hu)) in H.
    3: by rewrite services_port. 2: by apply dec_nonnil; lia.
    rewrite services_port in H by done. destruct (getaddrinfo _ _ _ g) as [r g'| | |]; [|by destruct H|done..].
    exists g'. by injection H as <-.
  - intros flags t. cbn [e entry ai_addr fst snd].
    destruct (inet_ntop_text af a hbuf 0 Hwf Hu Hh) as (d & Hd & Hc).
    assert (Hgn : gn_ipv46 hbuf sbuf a af (u16 (htons port)) (Z.lor NI_NUMERICHOST NI_NUMERICSERV) =
              Some (d, snprintf_s sbuf (dec port), 0)).
    { unfold gn_ipv46. rewrite Hd. rewrite wrap_small, Hinv by done.
      rewrite (proj2 (Z.ltb_lt 0 (len hbuf))), (proj2 (Z.ltb_lt 0 (len sbuf))) by lia. done. }
    exists (inet_sock af (htons port) a), d, (snprintf_s sbuf (dec port)). split_and!; [done| |done|].
    + unfold inet_sock. destruct Hwf as [[-> _]|[-> _]]; exact Hgn.
    + apply snprintf_text; [by apply is_cstr_dec_pos; lia|]. unfold len in *. pose proof (length_dec_le port 5 ltac:(lia) ltac:(lia)). lia.
Qed.
End numeric_names.
