(* ===== verification/TcpConn.v ===== *)
(** * Sockets by name (unpv13e/lib: tcp_connect.c, tcp_listen.c, udp_client.c,
    udp_connect.c, udp_server.c, host_serv.c)

    Each function resolves a host and a service and tries the addresses in their order
    until one works.  [n_log] records the socket calls with their results; [n_socks] are
    the open sockets.  Whether the [n]th call succeeds is a parameter, and so is the
    descriptor that the kernel gives out, one that is not in use. *)

From Stdlib Require Import Strings.Byte ZArith Lia.
From S2P Require Import Prelude Wp Libc Inet Gai GaiMem.
From stdpp Require Import base strings numbers gmap list.
#[local] Open Scope Z_scope.

Definition LISTENQ : Z := 1024.

Inductive event :=
| ESocket (family socktype protocol r : Z)
| EConnect (fd : Z) (a : option sockaddr) (len r : Z)
| EBind (fd : Z) (a : option sockaddr) (len r : Z)
| EReuse (fd : Z)
| EListen (fd backlog : Z)
| EClose (fd : Z).

Class network := Network {
  call_ok : nat -> bool;
  new_fd : gset Z -> Z;
  env_listenq : option bytes
}.

(** What the kernel documents of a new descriptor. *)
Class wf_network (N : network) : Prop := WfNetwork {
  new_fd_fresh s : new_fd s ∉ s;
  new_fd_nonneg s : 0 <= new_fd s
}.

Record net := Net { n_gai : gai; n_calls : nat; n_socks : gset Z; n_log : list event }.

Definition on_gai {A} (m : M gai A) : M net A := fun s =>
  match m (n_gai s) with
  | Ret a g => Ret a (Net g (n_calls s) (n_socks s) (n_log s))
  | Die d g => Die d (Net g (n_calls s) (n_socks s) (n_log s))
  | Undef w => Undef w
  | NoFuel => NoFuel
  end.

Definition log (e : event) : M net unit := modst (fun s => Net (n_gai s) (n_calls s) (n_socks s) (n_log s ++ [e])).
Definition set_socks (f : gset Z -> gset Z) : M net unit := modst (fun s => Net (n_gai s) (n_calls s) (f (n_socks s)) (n_log s)).

Definition hints_for (flags socktype : Z) : addrinfo := AddrInfo flags AF_UNSPEC socktype 0 0 None None.

Section sockets.
Context `{R : resolver, N : network}.

(** The next system call: whether it succeeds. *)
Definition call : M net bool := fun s => Ret (call_ok (n_calls s)) (Net (n_gai s) (S (n_calls s)) (n_socks s) (n_log s)).

Definition sys_socket (ai : addrinfo) : M net Z :=
  ok <- call ;;
  s <- gets n_socks ;;
  let fd := if ok then new_fd s else -1 in
  when ok (set_socks (fun s => {[fd]} ∪ s)) ;;;
  log (ESocket (ai_family ai) (ai_socktype ai) (ai_protocol ai) fd) ;;;
  ret fd.

Definition sys_connect (fd : Z) (ai : addrinfo) : M net Z :=
  ok <- call ;;
  let r := if ok then 0 else -1 in
  log (EConnect fd (ai_addr ai) (ai_addrlen ai) r) ;;; ret r.

Definition sys_bind (fd : Z) (ai : addrinfo) : M net Z :=
  ok <- call ;;
  let r := if ok then 0 else -1 in
  log (EBind fd (ai_addr ai) (ai_addrlen ai) r) ;;; ret r.

(** The wrappers end the process when the call fails. *)
Definition Close (fd : Z) : M net unit :=
  ok <- call ;;
  if negb ok then die (DSys "close error")
  else set_socks (fun s => s ∖ {[fd]}) ;;; log (EClose fd).

Definition Setsockopt_reuse (fd : Z) : M net unit :=
  ok <- call ;;
  if negb ok then die (DSys "setsockopt error") else log (EReuse fd).

Definition Listen (fd backlog : Z) : M net unit :=
  let backlog := match env_listenq with Some p => atoi p | None => backlog end in
  ok <- call ;;
  if negb ok then die (DSys "listen error") else log (EListen fd backlog).

Definition Malloc : M net unit :=
  ok <- on_gai alloc ;;
  if negb ok then die (DSys "malloc error") else ret tt.

(** ** The loops *)

(** [do { ... } while ((res = res->ai_next) != NULL)]: the first entry for which the body
    breaks, with the descriptor; [None] when [res] is a null pointer at the end. *)
Fixpoint try_each (body : addrinfo -> M net (option Z)) (res : list addrinfo) : M net (option (Z * addrinfo)) :=
  match res with
  | [] => ret None
  | ai :: rest =>
    r <- body ai ;;
    match r with Some fd => ret (Some (fd, ai)) | None => try_each body rest end
  end.

Definition connect_body (ai : addrinfo) : M net (option Z) :=
  sockfd <- sys_socket ai ;;
  if sockfd <? 0 then ret None
  else
    c <- sys_connect sockfd ai ;;
    if c =? 0 then ret (Some sockfd) else Close sockfd ;;; ret None.

Definition bind_body (reuse : bool) (ai : addrinfo) : M net (option Z) :=
  listenfd <- sys_socket ai ;;
  if listenfd <? 0 then ret None
  else
    when reuse (Setsockopt_reuse listenfd) ;;;
    b <- sys_bind listenfd ai ;;
    if b =? 0 then ret (Some listenfd) else Close listenfd ;;; ret None.

Definition socket_body (ai : addrinfo) : M net (option Z) :=
  sockfd <- sys_socket ai ;;
  if 0 <=? sockfd then ret (Some sockfd) else ret None.

(** What the functions have in common: the list, the loop, what is done with the entry
    that worked, and the end of the list. *)
Definition by_name_and_service {A} (name : string) (hints : addrinfo) (body : addrinfo -> M net (option Z))
    (use : Z -> addrinfo -> M net A) (host serv : option bytes) : M net A :=
  n <- on_gai (getaddrinfo host serv (Some hints)) ;;
  match n with
  | (Some (ai :: res), 0) =>
    r <- try_each body (ai :: res) ;;
    match r with
    | None => die (DSys name)
    | Some (fd, ai') => a <- use fd ai' ;; on_gai (freeaddrinfo (ai :: res)) ;;; ret a
    end
  | (Some [], 0) => undef "null pointer"
  | _ => die (DQuit name)
  end.

Definition tcp_connect (host serv : option bytes) : M net Z :=
  by_name_and_service "tcp_connect error for %s, %s" (hints_for 0 SOCK_STREAM) connect_body
    (fun sockfd _ => ret sockfd) host serv.

(** The descriptor and [*addrlenp]. *)
Definition tcp_listen (host serv : option bytes) : M net (Z * Z) :=
  by_name_and_service "tcp_listen error for %s, %s" (hints_for AI_PASSIVE SOCK_STREAM) (bind_body true)
    (fun listenfd ai => Listen listenfd LISTENQ ;;; ret (listenfd, ai_addrlen ai)) host serv.

(** The descriptor, the copy [*saptr] and its length. *)
Definition udp_client (host serv : option bytes) : M net (Z * option sockaddr * Z) :=
  by_name_and_service "udp_client error for %s, %s" (hints_for 0 SOCK_DGRAM) socket_body
    (fun sockfd ai => Malloc ;;; ret (sockfd, ai_addr ai, ai_addrlen ai)) host serv.

Definition udp_connect (host serv : option bytes) : M net Z :=
  by_name_and_service "udp_connect error for %s, %s" (hints_for 0 SOCK_DGRAM) connect_body
    (fun sockfd _ => ret sockfd) host serv.

Definition udp_server (host serv : option bytes) : M net (Z * Z) :=
  by_name_and_service "udp_server error for %s, %s" (hints_for AI_PASSIVE SOCK_DGRAM) (bind_body false)
    (fun sockfd ai => ret (sockfd, ai_addrlen ai)) host serv.

Definition host_serv (host serv : option bytes) (family socktype : Z) : M gai (option (list addrinfo)) :=
  n <- getaddrinfo host serv (Some (AddrInfo AI_CANONNAME family socktype 0 0 None None)) ;;
  if negb (n.2 =? 0) then ret None else ret n.1.
End sockets.

(** ** Theorems *)

Definition socket_event (ai : addrinfo) (fd : Z) : event := ESocket (ai_family ai) (ai_socktype ai) (ai_protocol ai) fd.

(** The calls for an entry that did not work, and for the one that did. *)
Definition connect_failed (ai : addrinfo) (evs : list event) : Prop :=
  evs = [socket_event ai (-1)] \/
  exists fd, evs = [socket_event ai fd; EConnect fd (ai_addr ai) (ai_addrlen ai) (-1); EClose fd].
Definition connect_done (ai : addrinfo) (fd : Z) (evs : list event) : Prop :=
  evs = [socket_event ai fd; EConnect fd (ai_addr ai) (ai_addrlen ai) 0].

Definition reuse_events (reuse : bool) (fd : Z) : list event := if reuse then [EReuse fd] else [].
Definition bind_failed (reuse : bool) (ai : addrinfo) (evs : list event) : Prop :=
  evs = [socket_event ai (-1)] \/
  exists fd, evs = socket_event ai fd :: reuse_events reuse fd ++ [EBind fd (ai_addr ai) (ai_addrlen ai) (-1); EClose fd].
Definition bind_done (reuse : bool) (ai : addrinfo) (fd : Z) (evs : list event) : Prop :=
  evs = socket_event ai fd :: reuse_events reuse fd ++ [EBind fd (ai_addr ai) (ai_addrlen ai) 0].

Definition socket_failed (ai : addrinfo) (evs : list event) : Prop := evs = [socket_event ai (-1)].
Definition socket_done (ai : addrinfo) (fd : Z) (evs : list event) : Prop := evs = [socket_event ai fd].

Section sockets_correct.
Context `{R : resolver, !wf_resolver R, N : network, !wf_network N}.
Implicit Types (s : net) (body : addrinfo -> M net (option Z)).

(** A body either leaves no socket behind or one new socket. *)
Definition body_post (F : addrinfo -> list event -> Prop) (D : addrinfo -> Z -> list event -> Prop)
    (ai : addrinfo) s (r : option Z) s' : Prop :=
  n_gai s' = n_gai s /\ exists evs, n_log s' = n_log s ++ evs /\
  match r with
  | None => F ai evs /\ n_socks s' = n_socks s
  | Some fd => D ai fd evs /\ 0 <= fd /\ (fd ∉ n_socks s) /\ n_socks s' = {[fd]} ∪ n_socks s
  end.

Definition a_wrapper_failed (d : death) (_ : net) : Prop :=
  d = DSys "close error" \/ d = DSys "setsockopt error" \/ d = DSys "listen error" \/ d = DSys "malloc error".

Lemma wp_call (Q : bool -> net -> Prop) E s :
  (forall b s', n_gai s' = n_gai s -> n_socks s' = n_socks s -> n_log s' = n_log s -> Q b s') -> wp call Q E s.
Proof. intros H. unfold wp, call. by apply H. Qed.

Lemma sys_socket_spec ai (Q : Z -> net -> Prop) E s :
  (forall s', n_gai s' = n_gai s -> n_socks s' = n_socks s -> n_log s' = n_log s ++ [socket_event ai (-1)] -> Q (-1) s') ->
  (forall fd s', 0 <= fd -> fd ∉ n_socks s -> n_gai s' = n_gai s -> n_socks s' = {[fd]} ∪ n_socks s ->
     n_log s' = n_log s ++ [socket_event ai fd] -> Q fd s') ->
  wp (sys_socket ai) Q E s.
Proof.
  intros Hf Hs. unfold sys_socket. wp_step. apply wp_call. intros b s1 H1 H2 H3. wp_step. wp_step. wp_step.
  unfold set_socks, log.
  apply wp_when; intros ->; [wp_step|]; wp_steps.
  - apply Hs; cbn; rewrite ?H1, ?H2, ?H3; try done; [apply new_fd_nonneg|apply new_fd_fresh].
  - apply Hf; cbn; by rewrite ?H1, ?H2, ?H3.
Qed.

Lemma sys_connect_spec fd ai (Q : Z -> net -> Prop) E s :
  (forall r s', r = 0 \/ r = -1 -> n_gai s' = n_gai s -> n_socks s' = n_socks s ->
     n_log s' = n_log s ++ [EConnect fd (ai_addr ai) (ai_addrlen ai) r] -> Q r s') ->
  wp (sys_connect fd ai) Q E s.
Proof.
  intros H. unfold sys_connect. wp_step. apply wp_call. intros b s1 H1 H2 H3. unfold log. wp_steps.
  apply H; cbn; try congruence. destruct b; auto.
Qed.

Lemma sys_bind_spec fd ai (Q : Z -> net -> Prop) E s :
  (forall r s', r = 0 \/ r = -1 -> n_gai s' = n_gai s -> n_socks s' = n_socks s ->
     n_log s' = n_log s ++ [EBind fd (ai_addr ai) (ai_addrlen ai) r] -> Q r s') ->
  wp (sys_bind fd ai) Q E s.
Proof.
  intros H. unfold sys_bind. wp_step. apply wp_call. intros b s1 H1 H2 H3. unfold log. wp_steps.
  apply H; cbn; try congruence. destruct b; auto.
Qed.

Lemma Close_spec fd (Q : unit -> net -> Prop) s :
  (forall s', n_gai s' = n_gai s -> n_socks s' = n_socks s ∖ {[fd]} -> n_log s' = n_log s ++ [EClose fd] -> Q tt s') ->
  wp (Close fd) Q a_wrapper_failed s.
Proof.
  intros H. unfold Close. wp_step. apply wp_call. intros b s1 H1 H2 H3. apply wp_if; intros _; [wp_step; by left|].
  unfold set_socks, log. wp_steps. apply H; cbn; congruence.
Qed.

Lemma reuse_spec reuse fd (Q : unit -> net -> Prop) s :
  (forall s', n_gai s' = n_gai s -> n_socks s' = n_socks s -> n_log s' = n_log s ++ reuse_events reuse fd -> Q tt s') ->
  wp (when reuse (Setsockopt_reuse fd)) Q a_wrapper_failed s.
Proof.
  intros H. apply wp_when; intros ->; [|by apply H; cbn; rewrite ?app_nil_r].
  unfold Setsockopt_reuse. wp_step. apply wp_call. intros b s1 H1 H2 H3. apply wp_if; intros _; [wp_step; by right; left|].
  unfold log. wp_step. apply H; cbn; congruence.
Qed.

Lemma connect_body_ok ai s : wp (connect_body ai) (body_post connect_failed connect_done ai s) a_wrapper_failed s.
Proof.
  unfold connect_body. wp_step. apply sys_socket_spec.
  - intros s1 H1 H2 H3. change (-1 <? 0) with true. cbv iota. wp_step. split; [done|]. eexists. split; [done|]. split; [by left|done].
  - intros fd s1 Hfd Hnew H1 H2 H3. rewrite (proj2 (Z.ltb_ge fd 0)) by done. wp_step.
    apply sys_connect_spec. intros r s2 Hr K1 K2 K3. rewrite H3, <- app_assoc in K3. destruct Hr as [-> | ->].
    + change (0 =? 0) with true. cbv iota. wp_step. split; [congruence|]. eexists. split; [done|]. split_and!; [done|done|done|congruence].
    + change (-1 =? 0) with false. cbv iota. wp_step. apply Close_spec. intros s3 L1 L2 L3. wp_step.
      rewrite K3, <- app_assoc in L3. split; [congruence|]. eexists. split; [done|]. split; [right; by exists fd|].
      rewrite L2, K2, H2. set_solver.
Qed.

Lemma bind_body_ok reuse ai s :
  wp (bind_body reuse ai) (body_post (bind_failed reuse) (bind_done reuse) ai s) a_wrapper_failed s.
Proof.
  unfold bind_body. wp_step. apply sys_socket_spec.
  - intros s1 H1 H2 H3. change (-1 <? 0) with true. cbv iota. wp_step. split; [done|]. eexists. split; [done|]. split; [by left|done].
  - intros fd s1 Hfd Hnew H1 H2 H3. rewrite (proj2 (Z.ltb_ge fd 0)) by done. wp_step. apply reuse_spec. intros s0 J1 J2 J3. wp_step.
    apply sys_bind_spec. intros r s2 Hr K1 K2 K3. rewrite J3, H3, <- !app_assoc in K3. destruct Hr as [-> | ->].
    + change (0 =? 0) with true. cbv iota. wp_step. split; [congruence|]. eexists. split; [done|]. split_and!; [done|done|done|congruence].
    + change (-1 =? 0) with false. cbv iota. wp_step. apply Close_spec. intros s3 L1 L2 L3. wp_step.
      rewrite K3, <- !app_assoc in L3. split; [congruence|]. eexists. split; [done|]. split; [right; by exists fd|].
      rewrite L2, K2, J2, H2. set_solver.
Qed.

Lemma socket_body_ok ai s : wp (socket_body ai) (body_post socket_failed socket_done ai s) a_wrapper_failed s.
Proof.
  unfold socket_body. wp_step. apply sys_socket_spec.
  - intros s1 H1 H2 H3. change (0 <=? -1) with false. cbv iota. wp_step. split; [done|]. by eexists.
  - intros fd s1 Hfd Hnew H1 H2 H3. rewrite (proj2 (Z.leb_le 0 fd)) by done. wp_step. split; [done|]. by eexists.
Qed.

Section loop.
Context (F : addrinfo -> list event -> Prop) (D : addrinfo -> Z -> list event -> Prop).
Context (body : addrinfo -> M net (option Z)).
Context (Hbody : forall ai s, wp (body ai) (body_post F D ai s) a_wrapper_failed s).

(** The entries before the first one that works failed, and left nothing behind. *)
Definition first_of (res : list addrinfo) s (fd : Z) (ai : addrinfo) s' : Prop :=
  exists l1 l2 tr evs, res = l1 ++ ai :: l2 /\ Forall2 F l1 tr /\ D ai fd evs /\
    n_log s' = n_log s ++ concat tr ++ evs /\ 0 <= fd /\ (fd ∉ n_socks s) /\ n_socks s' = {[fd]} ∪ n_socks s.

Definition none_of (res : list addrinfo) s s' : Prop :=
  exists tr, Forall2 F res tr /\ n_log s' = n_log s ++ concat tr /\ n_socks s' = n_socks s.

Lemma try_each_ok res s :
  wp (try_each body res)
    (fun r s' => n_gai s' = n_gai s /\ match r with Some (fd, ai) => first_of res s fd ai s' | None => none_of res s s' end)
    a_wrapper_failed s.
Proof.
  revert s. induction res as [|ai res IH]; intros s; cbn [try_each].
  { wp_step. split; [done|]. exists []. by rewrite app_nil_r. }
  wp_step. eapply wp_conseq; [apply Hbody|]. intros [fd|] s1 (H1 & evs & H2 & H3).
  - wp_step. split; [done|]. destruct H3 as (HD & Hfd & Hnew & Hs). exists [], res, [], evs. by split_and!.
  - destruct H3 as [HF Hs]. eapply wp_conseq; [apply IH|]. intros r s2 [K1 K2]. split; [congruence|].
    destruct r as [[fd ai']|].
    + destruct K2 as (l1 & l2 & tr & evs' & -> & L1 & L2 & L3 & L4). exists (ai :: l1), l2, (evs :: tr), evs'.
      rewrite Hs in L4. split_and!; [done|by constructor|done| |apply L4..]. rewrite L3, H2. cbn. by rewrite <- !app_assoc.
    + destruct K2 as (tr & L1 & L2 & L3). exists (evs :: tr). split_and!; [by constructor| |congruence].
      rewrite L2, H2. cbn. by rewrite <- !app_assoc.
Qed.

(** How a function that goes through the addresses of a name ends: with the first entry
    that works, or with the process. *)
Definition reached (hints : addrinfo) (host serv : option bytes) (after : Z -> list event) (extra : Z)
    s (fd : Z) (ai : addrinfo) s' : Prop :=
  exists res g1 l1 l2 tr evs,
    getaddrinfo host serv (Some hints) (n_gai s) = Ret (Some res, 0) g1 /\ res = l1 ++ ai :: l2 /\
    Forall2 F l1 tr /\ D ai fd evs /\ n_log s' = n_log s ++ concat tr ++ evs ++ after fd /\
    0 <= fd /\ (fd ∉ n_socks s) /\ n_socks s' = {[fd]} ∪ n_socks s /\
    g_live (n_gai s') = g_live (n_gai s) + extra.

Definition gave_up (name : string) (hints : addrinfo) (host serv : option bytes) s (d : death) s' : Prop :=
  (d = DQuit name /\ exists e g1, getaddrinfo host serv (Some hints) (n_gai s) = Ret (None, e) g1 /\ e <> 0) \/
  (d = DSys name /\ exists res g1, getaddrinfo host serv (Some hints) (n_gai s) = Ret (Some res, 0) g1 /\ none_of res s s') \/
  a_wrapper_failed d s'.

Lemma by_name_ok {A} name hints (use : Z -> addrinfo -> M net A) (val : Z -> addrinfo -> A) after extra host serv s :
  ai_family hints = AF_UNSPEC ->
  (forall fd ai s0, wp (use fd ai) (fun a s1 => a = val fd ai /\ n_socks s1 = n_socks s0 /\ n_log s1 = n_log s0 ++ after fd /\
     g_live (n_gai s1) = g_live (n_gai s0) + extra) a_wrapper_failed s0) ->
  wp (by_name_and_service name hints body use host serv)
    (fun a s' => exists fd ai, a = val fd ai /\ reached hints host serv after extra s fd ai s')
    (gave_up name hints host serv s) s.
Proof.
  intros Hun Huse. unfold by_name_and_service. wp_step.
  pose proof (getaddrinfo_mem host serv (Some hints) (n_gai s)) as H. unfold wp in H. unfold wp, on_gai.
  destruct (getaddrinfo host serv (Some hints) (n_gai s)) as [[[l|] e] g1|d g1| |] eqn:Eg; [| |destruct H as (_ & H & _); cbn in H; by rewrite Hun in H|done..].
  2: { destruct H as (He & _). cbn in He. left. split; [done|]. by exists e, g1. }
  destruct H as (He & Hne & _ & Hg). cbn [fst snd] in *. subst e. destruct l as [|ai0 res]; [done|].
  set (s1 := Net g1 _ _ _). set (l := ai0 :: res) in *.
  change (wp (r <- try_each body l ;;
              match r with
              | Some (fd, ai') => a <- use fd ai' ;; on_gai (freeaddrinfo l) ;;; ret a
              | None => die (DSys name)
              end) (fun a s' => exists fd ai, a = val fd ai /\ reached hints host serv after extra s fd ai s') (gave_up name hints host serv s) s1).
  wp_step. eapply wp_mono; [apply try_each_ok| |by right; right]. intros [[fd ai]|] s2 [Hg2 Hr].
  2: { wp_step. right; left. split; [done|]. by exists l, g1. }
  wp_step. eapply wp_mono; [apply Huse| |by right; right]. intros a s3 (-> & H1 & H2 & H3). wp_step.
  unfold wp, on_gai. pose proof (freeaddrinfo_mem no_exit l (n_gai s3)) as Hf. unfold wp in Hf.
  destruct (freeaddrinfo l (n_gai s3)) as [[] g4| | |]; [|done..]. exists fd, ai. split; [done|].
  destruct Hr as (l1 & l2 & tr & evs & -> & K1 & K2 & K3 & K4 & K5 & K6).
  eexists _, g1, l1, l2, tr, evs. split_and!; [exact Eg|reflexivity|done|done| |done|done| |].
  - cbn [n_log]. rewrite H2, K3. cbn. by rewrite <- !app_assoc.
  - cbn [n_socks]. by rewrite H1, K6.
  - cbn [n_gai]. rewrite Hf, H3, Hg2. cbn. lia.
Qed.
End loop.

(** C22: Connecting by name.  [tcp_connect] returns a connected socket of the first
    address, in the order of [getaddrinfo], for which socket and connect both succeed:
    for each address before it the socket could not be created, or was closed after
    connect failed.  The socket is the only one left open, and the list of addresses was
    freed.  Otherwise the process ends: the name does not resolve, all addresses failed
    (and nothing is open), or a wrapper's call failed. *)
Theorem tcp_connect_first host serv s :
  wp (tcp_connect host serv)
    (fun fd s' => exists ai, reached connect_failed connect_done (hints_for 0 SOCK_STREAM) host serv (fun _ => []) 0 s fd ai s')
    (gave_up connect_failed "tcp_connect error for %s, %s" (hints_for 0 SOCK_STREAM) host serv s) s.
Proof.
  eapply wp_conseq.
  - apply (by_name_ok _ _ _ connect_body_ok _ _ _ (fun fd _ => fd) (fun _ => []) 0); [done|].
    intros fd ai s0. wp_step. split_and!; [done|done|by rewrite app_nil_r|lia].
  - intros a s' (fd & ai & -> & H). by exists ai.
Qed.

(** Listening by name.  [tcp_listen] returns a listening socket bound, with
    SO_REUSEADDR, to the first address for which socket and bind succeed, and the size of
    that address; the sockets of the addresses before it were closed and the list was
    freed. *)
Theorem tcp_listen_first host serv s :
  wp (tcp_listen host serv)
    (fun r s' => exists ai, r.2 = ai_addrlen ai /\
       reached (bind_failed true) (bind_done true) (hints_for AI_PASSIVE SOCK_STREAM) host serv
         (fun fd => [EListen fd (match env_listenq with Some p => atoi p | None => LISTENQ end)]) 0 s r.1 ai s')
    (gave_up (bind_failed true) "tcp_listen error for %s, %s" (hints_for AI_PASSIVE SOCK_STREAM) host serv s) s.
Proof.
  eapply wp_conseq.
  - eapply (by_name_ok _ _ _ (bind_body_ok true) _ _ _ (fun fd ai => (fd, ai_addrlen ai)) _ 0); [done|].
    intros fd ai s0. wp_step. unfold Listen. wp_step. apply wp_call. intros b s1 H1 H2 H3.
    apply wp_if; intros _; [wp_step; by right; right; left|]. unfold log. wp_step. wp_step.
    cbn [n_socks n_log n_gai]. rewrite H1, H2, H3. split_and!; [done|done|reflexivity|lia].
  - intros a s' (fd & ai & -> & H). by exists ai.
Qed.

(** The other three. *)
Lemma udp_connect_first host serv s :
  wp (udp_connect host serv)
    (fun fd s' => exists ai, reached connect_failed connect_done (hints_for 0 SOCK_DGRAM) host serv (fun _ => []) 0 s fd ai s')
    (gave_up connect_failed "udp_connect error for %s, %s" (hints_for 0 SOCK_DGRAM) host serv s) s.
Proof.
  eapply wp_conseq.
  - apply (by_name_ok _ _ _ connect_body_ok _ _ _ (fun fd _ => fd) (fun _ => []) 0); [done|].
    intros fd ai s0. wp_step. split_and!; [done|done|by rewrite app_nil_r|lia].
  - intros a s' (fd & ai & -> & H). by exists ai.
Qed.

Lemma udp_server_first host serv s :
  wp (udp_server host serv)
    (fun r s' => exists ai, r.2 = ai_addrlen ai /\
       reached (bind_failed false) (bind_done false) (hints_for AI_PASSIVE SOCK_DGRAM) host serv (fun _ => []) 0 s r.1 ai s')
    (gave_up (bind_failed false) "udp_server error for %s, %s" (hints_for AI_PASSIVE SOCK_DGRAM) host serv s) s.
Proof.
  eapply wp_conseq.
  - apply (by_name_ok _ _ _ (bind_body_ok false) _ _ _ (fun fd ai => (fd, ai_addrlen ai)) (fun _ => []) 0); [done|].
    intros fd ai s0. wp_step. split_and!; [done|done|by rewrite app_nil_r|lia].
  - intros a s' (fd & ai & -> & H). by exists ai.
Qed.

(** The copy of the address is the one block that stays allocated. *)
Lemma udp_client_first host serv s :
  wp (udp_client host serv)
    (fun r s' => exists ai, r.1.2 = ai_addr ai /\ r.2 = ai_addrlen ai /\
       reached socket_failed socket_done (hints_for 0 SOCK_DGRAM) host serv (fun _ => []) 1 s r.1.1 ai s')
    (gave_up socket_failed "udp_client error for %s, %s" (hints_for 0 SOCK_DGRAM) host serv s) s.
Proof.
  eapply wp_conseq.
  - apply (by_name_ok _ _ _ socket_body_ok _ _ _ (fun fd ai => (fd, ai_addr ai, ai_addrlen ai)) (fun _ => []) 1); [done|].
    intros fd ai s0. wp_step. unfold Malloc. wp_step. unfold wp at 1, on_gai, alloc.
    destruct (alloc_ok _); cbn [negb]; [|by right; right; right]. apply wp_ret, wp_ret. cbn.
    split_and!; [done|done|by rewrite app_nil_r|lia].
  - intros a s' (fd & ai & -> & H). by exists ai.
Qed.
End sockets_correct.
