(* ===== verification/GaiFacts.v ===== *)
(** * Concrete resolutions: witnesses and edge cases of name resolution *)

From Stdlib Require Import Strings.Byte ZArith Lia.
From S2P Require Import Prelude Wp Libc Inet InetProofs Gai GaiMem GaiSpec GaiPort GaiName TcpConn.
From stdpp Require Import base strings numbers gmap list.
#[local] Open Scope Z_scope.

(** ** A resolver with two hosts and two services *)

Definition addr6_a : list Z := [254; 128; 0; 0; 0; 0; 0; 0; 2; 2; 179; 255; 254; 30; 131; 41].

Definition demo_host (h : bytes) (family : Z) : hostent + Z :=
  if bool_decide (h = bs "aix") then
    if family =? AF_INET6 then inl (Hostent (bs "aix.unpbook.com") AF_INET6 [addr6_a])
    else inl (Hostent (bs "aix.unpbook.com") AF_INET [[192; 168; 42; 2]; [192; 168; 43; 2]])
  else if bool_decide (h = bs "localhost") && negb (family =? AF_INET6)
  then inl (Hostent (bs "localhost") AF_INET [[127; 0; 0; 1]])
  else inr (if bool_decide (h = bs "slow") then TRY_AGAIN else HOST_NOT_FOUND).

Definition demo_serv (s proto : bytes) : option Z :=
  if bool_decide (s = bs "domain") then Some (htons 53)
  else if bool_decide (s = bs "ftp") && bool_decide (proto = bs "tcp") then Some (htons 21)
  else None.

(** [oom n]: the allocations from number [n] on fail. *)
Definition demo (oom : nat) : resolver := {|
  alloc_ok n := (n <? oom)%nat;
  res_defaults := 704;
  gethostbyname o h := demo_host h (if has o RES_USE_INET6 then AF_INET6 else AF_INET);
  gethostbyname2 _ h f := demo_host h f;
  gethostbyaddr _ _ := None;
  getservbyname := demo_serv;
  getservbyport _ _ := None;
  uname := Some (bs "aix")
|}.

(** The same with all the memory there is. *)
Definition demo_mem : resolver := {|
  alloc_ok _ := true;
  res_defaults := 704;
  gethostbyname o h := demo_host h (if has o RES_USE_INET6 then AF_INET6 else AF_INET);
  gethostbyname2 _ h f := demo_host h f;
  gethostbyaddr _ _ := None;
  getservbyname := demo_serv;
  getservbyport _ _ := None;
  uname := Some (bs "aix")
|}.

Lemma demo_host_wf h f hp : demo_host h f = inl hp -> wf_hostent hp.
Proof.
  unfold demo_host, wf_hostent. intros H. repeat case_match; simplify_eq/=;
    repeat first [apply Forall_nil_2 | apply Forall_cons_2; [by (left + right)|]].
Qed.

#[global] Instance demo_wf oom : wf_resolver (demo oom).
Proof. split; intros *; apply demo_host_wf. Qed.

#[global] Instance demo_mem_wf : wf_resolver demo_mem.
Proof. split; intros *; apply demo_host_wf. Qed.

Definition g0 : gai := GaiSt 0 0 0 [].

(** The list and the code, the blocks in use. *)
Definition outcome (r : result gai (option (list addrinfo) * Z)) : option (option (list addrinfo) * Z * Z) :=
  match r with Ret a g => Some (a, g_live g) | _ => None end.

(** ** Edge cases *)

(** With AF_LOCAL and any host but /local and /unix, [getaddrinfo] ends the process. *)
Lemma local_family_quits `{R : resolver} h serv socktype g :
  h <> [] -> is_unix (Some h) (Some serv) = false -> (socktype = 0 \/ socktype = SOCK_STREAM \/ socktype = SOCK_DGRAM) ->
  getaddrinfo (Some h) (Some serv) (Some (AddrInfo 0 AF_LOCAL socktype 0 0 None None)) g = Die (DQuit "nsearch = %d") g.
Proof.
  intros Hh Hu Hst. unfold getaddrinfo. rewrite Hu. destruct h as [|c h]; [done|].
  destruct Hst as [-> |[-> | ->]]; done.
Qed.

(** A temporary failure of the resolver is reported as a host that does not exist when no
    family was asked for. *)
Lemma unspec_hides_try_again `{R : resolver, !wf_resolver R} (Hmem : forall n, alloc_ok n = true) h serv g :
  h <> [] -> serv <> [] -> is_unix (Some h) (Some serv) = false -> numeric_host h = None ->
  (forall o f, gethostbyname2 o h f = inr TRY_AGAIN) ->
  exists g', getaddrinfo (Some h) (Some serv) None g = Ret (None, EAI_NONAME) g'.
Proof.
  intros Hh Hs Hu Hn Hq. pose proof (getaddrinfo_wp Hmem (Some h) (Some serv) None g) as H. unfold wp in H.
  assert (gai_spec (g_options g) (Some h) (Some serv) no_hints = Some (inr EAI_NONAME)) as Hspec.
  { unfold gai_spec. rewrite Hu. destruct h as [|c h]; [done|]. destruct serv as [|c0 s]; [done|].
    unfold all_addrs, host_addrs, query. cbn -[numeric_host]. rewrite Hn, !Hq. done. }
  cbn [default] in H. rewrite Hspec in H. destruct (getaddrinfo _ _ _ g) as [r g'| | |]; [|by destruct H|done..].
  exists g'. by injection H as <-.
Qed.

(** A path that does not fit leaves its entry allocated. *)
Lemma unix_path_leaks :
  outcome (@getaddrinfo demo_mem (Some (bs "/local")) (Some (replicate 108 "/"%byte)) None g0) = Some (None, EAI_SERVICE, 1).
Proof. vm_compute. reflexivity. Qed.

(** The canonical name is not freed when a later allocation fails. *)
Lemma canon_leaks :
  outcome (@getaddrinfo (demo 2) (Some (bs "aix")) (Some (bs "domain"))
             (Some (AddrInfo AI_CANONNAME AF_INET SOCK_STREAM 0 0 None None)) g0) = Some (None, EAI_MEMORY, 1).
Proof. vm_compute. reflexivity. Qed.

(** A port that does not fit in 16 bits becomes another port. *)
Lemma port_wraps `{R : resolver} : services no_hints (bs "65616") = services no_hints (bs "80").
Proof. vm_compute. reflexivity. Qed.

(** A socket type that does not exist is accepted when no family is given. *)
Lemma unspec_any_socktype :
  option_map fst (outcome (@getaddrinfo demo_mem (Some (bs "10.0.0.1")) (Some (bs "80"))
             (Some (AddrInfo 0 AF_UNSPEC 77 0 0 None None)) g0)) =
  Some (Some [AddrInfo 0 AF_INET 77 0 16 None (Some (SIn (htons 80) [10; 0; 0; 1]))], 0).
Proof. vm_compute. reflexivity. Qed.

(** ** Witnesses *)

(** Two families, three addresses, two protocols: six entries. *)
Lemma getaddrinfo_correct_witness :
  exists g', @getaddrinfo demo_mem (Some (bs "aix")) (Some (bs "domain"))
    (Some (AddrInfo AI_CANONNAME AF_UNSPEC 0 0 0 None None)) g0 = Ret (Some [
      AddrInfo 4 AF_INET6 SOCK_STREAM 0 28 (Some (bs "aix.unpbook.com")) (Some (SIn6 (htons 53) addr6_a));
      AddrInfo 0 AF_INET6 SOCK_DGRAM 0 28 None (Some (SIn6 (htons 53) addr6_a));
      AddrInfo 4 AF_INET SOCK_STREAM 0 16 None (Some (SIn (htons 53) [192; 168; 42; 2]));
      AddrInfo 0 AF_INET SOCK_DGRAM 0 16 None (Some (SIn (htons 53) [192; 168; 42; 2]));
      AddrInfo 4 AF_INET SOCK_STREAM 0 16 None (Some (SIn (htons 53) [192; 168; 43; 2]));
      AddrInfo 0 AF_INET SOCK_DGRAM 0 16 None (Some (SIn (htons 53) [192; 168; 43; 2]))], 0) g'.
Proof.
  exact (@getaddrinfo_correct demo_mem demo_mem_wf (fun _ => eq_refl) (Some (bs "aix")) (Some (bs "domain"))
    (Some (AddrInfo AI_CANONNAME AF_UNSPEC 0 0 0 None None)) g0).
Defined.

Lemma getaddrinfo_typed_witness :
  exists l g', @getaddrinfo demo_mem (Some (bs "aix")) (Some (bs "ftp")) None g0 = Ret (Some l, 0) g' /\
    length l = 3%nat /\ Forall (typed no_hints) l.
Proof.
  assert (Hr : exists l g', @getaddrinfo demo_mem (Some (bs "aix")) (Some (bs "ftp")) None g0 = Ret (Some l, 0) g' /\ length l = 3%nat)
    by (vm_compute; eexists _, _; split; reflexivity).
  destruct Hr as (l & g' & Hr & Hl). exists l, g'. split; [exact Hr|]. split; [exact Hl|].
  exact (@getaddrinfo_typed demo_mem demo_mem_wf (fun _ => eq_refl) (Some (bs "aix")) (Some (bs "ftp")) None g0 l 0 g' Hr).
Defined.

(** Memory runs out at the clone of the first entry: everything is freed. *)
Lemma getaddrinfo_memory_witness :
  outcome (@getaddrinfo (demo 6) (Some (bs "aix")) (Some (bs "domain")) None g0) = Some (None, EAI_MEMORY, 0) /\
  match @getaddrinfo (demo 6) (Some (bs "aix")) (Some (bs "domain")) None g0 with
  | Ret (None, rc) g' => g_live g' = g_live g0
  | _ => False
  end.
Proof.
  split; [vm_compute; reflexivity|].
  pose proof (@getaddrinfo_memory (demo 6) (demo_wf 6) (Some (bs "aix")) (Some (bs "domain")) None g0) as H.
  assert (Hn : exists g', @getaddrinfo (demo 6) (Some (bs "aix")) (Some (bs "domain")) None g0 = Ret (None, EAI_MEMORY) g')
    by (vm_compute; eexists; reflexivity).
  destruct Hn as [g' Hn]. rewrite Hn in H |- *. destruct H as (_ & _ & H). apply H; reflexivity.
Defined.

Lemma ga_ports_product_witness :
  exists g', @ga_ports demo_mem ([(None, (AF_INET, [10; 0; 0; 1])); (None, (AF_INET, [10; 0; 0; 2]))] ≫= group no_hints [])
    [(SOCK_STREAM, 5); (SOCK_DGRAM, 6); (SOCK_RAW, 7)] g0 =
  Ret ([(None, (AF_INET, [10; 0; 0; 1])); (None, (AF_INET, [10; 0; 0; 2]))] ≫=
       group no_hints [(SOCK_STREAM, 5); (SOCK_DGRAM, 6); (SOCK_RAW, 7)]) g'.
Proof.
  apply (@ga_ports_product demo_mem (fun _ => eq_refl)); [reflexivity| | |].
  - repeat first [apply Forall_nil_2 | apply Forall_cons_2; [by left|]].
  - apply (bool_decide_unpack _). vm_compute. exact I.
  - apply (bool_decide_unpack _). vm_compute. exact I.
Defined.

Lemma name_roundtrip_witness :
  (exists g', @getaddrinfo demo_mem (Some (bs "fe80::202:b3ff:fe1e:8329")) (Some (bs "80")) None g0 =
     Ret (Some [entry no_hints AI_CLONE None (SOCK_STREAM, htons 80) (AF_INET6, addr6_a);
                entry no_hints 0 None (SOCK_DGRAM, htons 80) (AF_INET6, addr6_a)], 0) g') /\
  @getnameinfo demo_mem (SIn6 (htons 80) addr6_a) (replicate 46 NUL) (replicate 6 NUL) 10 =
    Some (bs "fe80::202:b3ff:fe1e:8329" ++ replicate 22 NUL, bs "80" ++ replicate 4 NUL, 0).
Proof.
  split; [|vm_compute; reflexivity].
  assert (Hu : Forall u_char addr6_a) by (by apply u_chars_dec).
  exact (proj1 (@name_roundtrip demo_mem demo_mem_wf (fun _ => eq_refl) AF_INET6 addr6_a 80 (replicate 46 NUL) (replicate 6 NUL) g0
    (or_intror (conj eq_refl eq_refl)) Hu ltac:(split; reflexivity || discriminate) ltac:(discriminate) ltac:(discriminate))).
Defined.

(** ** A network in which the first connect fails *)

Definition next_fd (s : gset Z) : Z := foldr Z.max (-1) (elements s) + 1.

Definition demo_net : network := {| call_ok n := negb (n =? 1)%nat; new_fd := next_fd; env_listenq := None |}.

#[global] Instance demo_net_wf : wf_network demo_net.
Proof.
  assert (Hmax : forall l x, x ∈ l -> x <= foldr Z.max (-1) l).
  { induction l as [|y l IH]; intros x Hx; [by apply not_elem_of_nil in Hx|]. simpl. apply elem_of_cons in Hx as [-> |Hx]; [lia|].
    apply IH in Hx. lia. }
  split; intros s; cbn; unfold next_fd.
  - intros Hin. apply elem_of_elements, Hmax in Hin. lia.
  - assert (forall l, -1 <= foldr Z.max (-1) l) as H by (induction l; simpl; lia). specialize (H (elements s)). lia.
Qed.

Definition s0 : net := Net g0 0 {[3]} [].

Lemma tcp_connect_first_witness :
  exists s', @tcp_connect demo_mem demo_net (Some (bs "aix")) (Some (bs "ftp")) s0 = Ret 4 s' /\
    n_socks s' = {[4]} ∪ {[3]} /\ g_live (n_gai s') = g_live g0.
Proof.
  pose proof (@tcp_connect_first demo_mem demo_mem_wf demo_net demo_net_wf (Some (bs "aix")) (Some (bs "ftp")) s0) as H.
  assert (Hr : exists s', @tcp_connect demo_mem demo_net (Some (bs "aix")) (Some (bs "ftp")) s0 = Ret 4 s')
    by (vm_compute; eexists; reflexivity).
  destruct Hr as [s' Hr]. exists s'. split; [exact Hr|]. unfold wp in H. rewrite Hr in H.
  destruct H as (ai & res & g1 & l1 & l2 & tr & evs & _ & _ & _ & _ & _ & _ & _ & H1 & H2). split; [exact H1|].
  rewrite H2. reflexivity.
Defined.
