(* ===== verification/RefChain.v ===== *)
(** * Objects in a hash table (apue.3e/threads: mutex2.c, mutex3.c): data and chains

    The structure [foo], the table of chains and the operations on them that both programs
    have in common, and sums over threads.  A pointer is an integer, NULL is 0; [heap] maps
    the allocated pointers to their objects. *)

From Stdlib Require Import ZArith Lia.
From S2P Require Import Prelude.
From stdpp Require Import base strings numbers gmap list.
#[local] Open Scope Z_scope.

Definition NHASH : Z := 29.

(** [((unsigned long)id)%NHASH] *)
Definition HASH (id : Z) : Z := u64 id mod NHASH.

(** [f_own] is the thread that has locked [f_lock]. *)
Record foo := Foo { f_count : Z; f_own : option Z; f_id : Z; f_next : Z }.

Definition set_count (n : Z) (o : foo) : foo := Foo n (f_own o) (f_id o) (f_next o).
Definition set_own (t : option Z) (o : foo) : foo := Foo (f_count o) t (f_id o) (f_next o).
Definition set_next (p : Z) (o : foo) : foo := Foo (f_count o) (f_own o) (f_id o) p.

Definition upd {A} (i : Z) (v : A) (f : Z -> A) : Z -> A := fun j => if j =? i then v else f j.

Lemma upd_eq {A} i (v : A) f : upd i v f i = v.
Proof. unfold upd. by rewrite Z.eqb_refl. Qed.

Lemma upd_ne {A} i (v : A) f j : j <> i -> upd i v f j = f j.
Proof. intros H. unfold upd. by rewrite (proj2 (Z.eqb_neq j i) H). Qed.

(** ** Chains *)

(** The nodes of [l] are linked from [p] on, and the last one has a null pointer. *)
Fixpoint chain (h : gmap Z foo) (p : Z) (l : list Z) : Prop :=
  match l with
  | [] => p = 0
  | x :: l' => p = x /\ x <> 0 /\ exists o, h !! x = Some o /\ chain h (f_next o) l'
  end.

(** [chain] depends on the links of its nodes only. *)
Lemma chain_same h h' p l :
  (forall x o, x ∈ l -> h !! x = Some o -> exists o', h' !! x = Some o' /\ f_next o' = f_next o) ->
  chain h p l -> chain h' p l.
Proof.
  revert p. induction l as [|x l IH]; intros p Hs Hc; [done|].
  destruct Hc as (-> & Hx & o & Ho & Hc). destruct (Hs x o) as (o' & Ho' & Hn); [by left|done|].
  split; [done|]. split; [done|]. exists o'. split; [done|]. rewrite Hn. apply IH; [|done].
  intros y oy Hy. apply Hs. by right.
Qed.

Lemma chain_app h p a x b :
  chain h p (a ++ x :: b) -> x <> 0 /\ exists o, h !! x = Some o /\ chain h (f_next o) b.
Proof.
  revert p. induction a as [|y a IH]; intros p Hc; simpl in Hc.
  - destruct Hc as (-> & Hx & o & Ho & Hc). eauto.
  - destruct Hc as (_ & _ & o & _ & Hc). by apply IH in Hc.
Qed.

Lemma chain_hd h p l : chain h p l -> p = hd 0 l.
Proof. destruct l; simpl; naive_solver. Qed.

(** A node is taken off the chain by the link of the one before it. *)
Lemma chain_unlink h p a x y b ox oy :
  NoDup (a ++ x :: y :: b) -> chain h p (a ++ x :: y :: b) ->
  h !! x = Some ox -> h !! y = Some oy ->
  chain (<[x := set_next (f_next oy) ox]> h) p (a ++ x :: b).
Proof.
  intros Hnd. revert p. induction a as [|z a IH]; intros p Hc Hx Hy; simpl in *.
  - destruct Hc as (-> & Hx0 & o & Ho & Hy1 & _ & oy' & Hoy & Hc). simplify_eq.
    apply NoDup_cons in Hnd as [Hnx _]. split; [done|]. split; [done|]. eexists. split; [by rewrite lookup_insert_eq|]. simpl.
    eapply chain_same; [|exact Hc]. intros w ow Hw How. exists ow. rewrite lookup_insert_ne; [done|].
    intros ->. apply Hnx. by right.
  - destruct Hc as (-> & Hz0 & o & Ho & Hc). apply NoDup_cons in Hnd as [Hnz Hnd].
    split; [done|]. split; [done|]. exists o. rewrite lookup_insert_ne by (intros ->; apply Hnz; apply elem_of_app; right; by left).
    split; [done|]. by apply IH.
Qed.

(** ** Sums over threads *)

Section sums.
Context {A : Type} (f : A -> Z).

Definition msum (m : gmap Z A) : Z := map_fold (fun _ x acc => f x + acc) 0 m.

Lemma msum_empty : msum ∅ = 0.
Proof. apply map_fold_empty. Qed.

Lemma msum_insert_new m i x : m !! i = None -> msum (<[i := x]> m) = f x + msum m.
Proof. intros H. unfold msum. rewrite map_fold_insert_L; [done|intros; lia|done]. Qed.

Lemma msum_insert m i x y : m !! i = Some y -> msum (<[i := x]> m) = msum m - f y + f x.
Proof.
  intros H. rewrite <- (insert_delete_id m i y H) at 2.
  rewrite <- (insert_delete_eq m i x), !msum_insert_new by apply lookup_delete_eq. lia.
Qed.

Hypothesis Hf : forall x, 0 <= f x.

Lemma msum_nonneg m : 0 <= msum m.
Proof using Hf.
  induction m as [|i x m Hi IH] using map_ind; [by rewrite msum_empty|].
  rewrite msum_insert_new by done. specialize (Hf x). lia.
Qed.

Lemma msum_one m i x : m !! i = Some x -> f x <= msum m.
Proof using Hf.
  intros H. rewrite <- (insert_delete_id m i x H), msum_insert_new by apply lookup_delete_eq.
  pose proof (msum_nonneg (delete i m)). lia.
Qed.

Lemma msum_two m i j x y : i <> j -> m !! i = Some x -> m !! j = Some y -> f x + f y <= msum m.
Proof using Hf.
  intros Hne Hi Hj. rewrite <- (insert_delete_id m i x Hi), msum_insert_new by apply lookup_delete_eq.
  pose proof (msum_one (delete i m) j y) as H. rewrite lookup_delete_ne in H by done. specialize (H Hj). lia.
Qed.

Lemma msum_zero m : (forall i x, m !! i = Some x -> f x = 0) -> msum m = 0.
Proof.
  induction m as [|i x m Hi IH] using map_ind; intros H; [by rewrite msum_empty|].
  rewrite msum_insert_new by done. rewrite (H i x) by apply lookup_insert_eq. rewrite IH; [done|].
  intros j y Hj. apply (H j). rewrite lookup_insert_ne; [done|]. by intros ->; rewrite Hi in Hj.
Qed.
End sums.
