(* ===== verification/Mutex2.v ===== *)
(** * Reference counts with two levels of locks (apue.3e/threads/mutex2.c)

    Threads call foo_alloc, foo_hold, foo_find and foo_rele concurrently, in steps of one
    statement.  [hashlock] protects the chains; the lock of an object protects its count.
    A reference that no call is using is in [pool]; a thread calls foo_hold and foo_rele
    only with a reference from there.  An access to a freed object, a null pointer, an
    unlock by a thread that is not the owner and an overflow of the count are faults. *)

From Stdlib Require Import ZArith Lia.
From S2P Require Import Prelude RefChain.
From stdpp Require Import base strings numbers gmap list relations.
#[local] Open Scope Z_scope.

Definition INT_MAX : Z := 2147483647.

(** The next statement of a thread in foo_alloc (A), foo_hold (H), foo_find (F) or
    foo_rele (R). *)
Inductive pc :=
| Idle
| ALock (fp : Z) | ANext (fp : Z) | AHead (fp : Z) | AObj (fp : Z) | AUnh (fp : Z) | AUnf (fp : Z)
| HLock (fp : Z) | HInc (fp : Z) | HUnl (fp : Z)
| FLock (id : Z) | FHead (id : Z) | FWalk (id fp : Z)
| FHLock (id fp : Z) | FHInc (id fp : Z) | FHUnl (id fp : Z) | FUnl (id fp : Z)
| RLock (fp : Z) | RTest (fp : Z) | RDec (fp : Z) | RUnl (fp : Z)
| RUnl1 (fp : Z) | RLockh (fp : Z) | RLockf (fp : Z) | RTest2 (fp : Z)
| RDec2 (fp : Z) | RUnl2f (fp : Z) | RUnl2h
| RHead (fp : Z) | RWalk (fp tfp : Z) | RUnh (fp : Z) | RUnf (fp : Z) | RFree (fp : Z).

Record st := St {
  heap : gmap Z foo; fh : Z -> Z; hashlock : option Z; pool : Z -> Z; pcs : gmap Z pc
}.

Definition set_heap h s := St h (fh s) (hashlock s) (pool s) (pcs s).
Definition set_fh f s := St (heap s) f (hashlock s) (pool s) (pcs s).
Definition set_hl o s := St (heap s) (fh s) o (pool s) (pcs s).
Definition set_pool p s := St (heap s) (fh s) (hashlock s) p (pcs s).
Definition goto (t : Z) (c : pc) s := St (heap s) (fh s) (hashlock s) (pool s) (<[t := c]> (pcs s)).

(** A call returns with [n] references to [fp]. *)
Definition give (fp n : Z) s := set_pool (upd fp (pool s fp + n) (pool s)) s.

Inductive res := Step (s : st) | Block | Fault (why : string).

(** ** Memory and locks *)

Definition access (fp : Z) (s : st) (k : foo -> res) : res :=
  match heap s !! fp with Some o => k o | None => Fault "not an object" end.

Definition write (fp : Z) (o : foo) (s : st) : st := set_heap (<[fp := o]> (heap s)) s.

Definition lock_h (t : Z) (next : pc) (s : st) : res :=
  match hashlock s with Some _ => Block | None => Step (goto t next (set_hl (Some t) s)) end.

Definition unlock_h (t : Z) (s : st) (k : st -> res) : res :=
  if bool_decide (hashlock s = Some t) then k (set_hl None s) else Fault "not the owner".

Definition lock_f (t fp : Z) (next : pc) (s : st) : res :=
  access fp s (fun o =>
    match f_own o with Some _ => Block | None => Step (goto t next (write fp (set_own (Some t) o) s)) end).

Definition unlock_f (t fp : Z) (s : st) (k : st -> res) : res :=
  access fp s (fun o =>
    if bool_decide (f_own o = Some t) then k (write fp (set_own None o) s) else Fault "not the owner").

(** ** The functions *)

(** foo_alloc, after the object [fp] was allocated and its count, identifier and lock
    were set. *)
Definition foo_alloc (t : Z) (c : pc) (s : st) : res :=
  match c with
  | ALock fp => lock_h t (ANext fp) s
  | ANext fp => access fp s (fun o => Step (goto t (AHead fp) (write fp (set_next (fh s (HASH (f_id o))) o) s)))
  | AHead fp => access fp s (fun o => Step (goto t (AObj fp) (set_fh (upd (HASH (f_id o)) fp (fh s)) s)))
  | AObj fp => lock_f t fp (AUnh fp) s
  | AUnh fp => unlock_h t s (fun s => Step (goto t (AUnf fp) s))
  | AUnf fp => unlock_f t fp s (fun s => Step (goto t Idle (give fp 1 s)))
  | _ => Block
  end.

(** [fp->f_count++] *)
Definition incr (t fp : Z) (next : pc) (s : st) : res :=
  access fp s (fun o =>
    if f_count o =? INT_MAX then Fault "overflow" else Step (goto t next (write fp (set_count (f_count o + 1) o) s))).

(** [fp->f_count--] *)
Definition decr (t fp : Z) (next : pc) (s : st) : res :=
  access fp s (fun o => Step (goto t next (write fp (set_count (f_count o - 1) o) s))).

Definition foo_hold (t : Z) (c : pc) (s : st) : res :=
  match c with
  | HLock fp => lock_f t fp (HInc fp) s
  | HInc fp => incr t fp (HUnl fp) s
  | HUnl fp => unlock_f t fp s (fun s => Step (goto t Idle (give fp 2 s)))
  | _ => Block
  end.

Definition foo_find (t : Z) (c : pc) (s : st) : res :=
  match c with
  | FLock id => lock_h t (FHead id) s
  | FHead id => Step (goto t (FWalk id (fh s (HASH id))) s)
  | FWalk id fp =>
    if fp =? 0 then Step (goto t (FUnl id 0) s)
    else access fp s (fun o => Step (goto t (if f_id o =? id then FHLock id fp else FWalk id (f_next o)) s))
  | FHLock id fp => lock_f t fp (FHInc id fp) s
  | FHInc id fp => incr t fp (FHUnl id fp) s
  | FHUnl id fp => unlock_f t fp s (fun s => Step (goto t (FUnl id fp) s))
  | FUnl id fp => unlock_h t s (fun s => Step (goto t Idle (if fp =? 0 then s else give fp 1 s)))
  | _ => Block
  end.

Definition foo_rele (t : Z) (c : pc) (s : st) : res :=
  match c with
  | RLock fp => lock_f t fp (RTest fp) s
  | RTest fp => access fp s (fun o => Step (goto t (if f_count o =? 1 then RUnl1 fp else RDec fp) s))
  | RDec fp => decr t fp (RUnl fp) s
  | RUnl fp => unlock_f t fp s (fun s => Step (goto t Idle s))
  | RUnl1 fp => unlock_f t fp s (fun s => Step (goto t (RLockh fp) s))
  | RLockh fp => lock_h t (RLockf fp) s
  | RLockf fp => lock_f t fp (RTest2 fp) s
  | RTest2 fp => access fp s (fun o => Step (goto t (if f_count o =? 1 then RHead fp else RDec2 fp) s))
  | RDec2 fp => decr t fp (RUnl2f fp) s
  | RUnl2f fp => unlock_f t fp s (fun s => Step (goto t RUnl2h s))
  | RUnl2h => unlock_h t s (fun s => Step (goto t Idle s))
  | RHead fp =>
    access fp s (fun o =>
      let tfp := fh s (HASH (f_id o)) in
      if tfp =? fp then Step (goto t (RUnh fp) (set_fh (upd (HASH (f_id o)) (f_next o) (fh s)) s))
      else Step (goto t (RWalk fp tfp) s))
  | RWalk fp tfp =>
    access tfp s (fun ot =>
      if f_next ot =? fp
      then access fp s (fun o => Step (goto t (RUnh fp) (write tfp (set_next (f_next o) ot) s)))
      else Step (goto t (RWalk fp (f_next ot)) s))
  | RUnh fp => unlock_h t s (fun s => Step (goto t (RUnf fp) s))
  | RUnf fp => unlock_f t fp s (fun s => Step (goto t (RFree fp) s))
  | RFree fp =>
    access fp s (fun o =>
      match f_own o with
      | Some _ => Fault "mutex destroyed while locked"
      | None => Step (goto t Idle (set_heap (delete fp (heap s)) s))
      end)
  | _ => Block
  end.

(** The next statement of thread [t]. *)
Definition run (t : Z) (s : st) : res :=
  match pcs s !! t with
  | None | Some Idle => Block
  | Some c =>
    match c with
    | ALock _ | ANext _ | AHead _ | AObj _ | AUnh _ | AUnf _ => foo_alloc t c s
    | HLock _ | HInc _ | HUnl _ => foo_hold t c s
    | FLock _ | FHead _ | FWalk _ _ | FHLock _ _ | FHInc _ _ | FHUnl _ _ | FUnl _ _ => foo_find t c s
    | _ => foo_rele t c s
    end
  end.

(** ** Executions *)

(** Calls.  [malloc] gives out a pointer that is not in use; when it or
    pthread_mutex_init fails, foo_alloc returns without an effect. *)
Inductive call := CAlloc (fp id : Z) | CHold (fp : Z) | CFind (id : Z) | CRele (fp : Z).

Definition enabled (s : st) (op : call) : Prop :=
  match op with
  | CAlloc fp _ => fp <> 0 /\ heap s !! fp = None
  | CHold fp | CRele fp => 1 <= pool s fp
  | CFind _ => True
  end.

Definition begin (t : Z) (op : call) (s : st) : st :=
  match op with
  | CAlloc fp id => goto t (ALock fp) (write fp (Foo 1 None id 0) s)
  | CHold fp => goto t (HLock fp) (give fp (-1) s)
  | CFind id => goto t (FLock id) s
  | CRele fp => goto t (RLock fp) (give fp (-1) s)
  end.

Inductive step : st -> st -> Prop :=
| step_begin t op s : pcs s !! t = Some Idle -> enabled s op -> step s (begin t op s)
| step_run t s s' : run t s = Step s' -> step s s'.

(** At the start the threads [T] are idle and the table is empty. *)
Definition init (T : gset Z) : st := St ∅ (fun _ => 0) None (fun _ => 0) (gset_to_gmap Idle T).

(** The references to [fp] that a thread is using. *)
Definition carry (fp : Z) (c : pc) : Z :=
  match c with
  | ALock p | ANext p | AHead p | AObj p | AUnh p | AUnf p
  | HLock p | HInc p | FHUnl _ p
  | RLock p | RTest p | RDec p | RUnl1 p | RLockh p | RLockf p | RTest2 p | RDec2 p
  | RHead p | RWalk p _ | RUnh p | RUnf p | RFree p => if p =? fp then 1 else 0
  | HUnl p => if p =? fp then 2 else 0
  | FUnl _ p => if (p =? fp) && negb (p =? 0) then 1 else 0
  | _ => 0
  end.

(** All references to [fp]. *)
Definition refs (s : st) (fp : Z) : Z := pool s fp + msum (carry fp) (pcs s).

(** Executions in which no object has more references than an int can count. *)
Definition bounded (s : st) : Prop := forall fp, refs s fp < INT_MAX.

Definition bstep (s s' : st) : Prop := bounded s /\ step s s'.

Definition reachable (T : gset Z) (s : st) : Prop := rtc bstep (init T) s.
