(* ===== verification/Mutex2Proofs.v ===== *)
(** * Reference counts with two levels of locks: theorems

    Under every interleaving of the statements of mutex2.c the counts are right, nothing is
    used after it was freed, and no deadlock occurs.  [inv] is the invariant: who holds
    which lock, what the count of an object is, what is on the chains, and what each thread
    relies on at its next statement ([loc]).  [inv_trans] is what one statement must
    establish; the lemmas after it are its instances for the kinds of statements. *)

From Stdlib Require Import ZArith Lia.
From S2P Require Import Prelude RefChain Mutex2.
From stdpp Require Import base strings numbers gmap list relations.
#[local] Open Scope Z_scope.

(** ** The invariant *)

(** The locks that a thread has. *)
Definition holdsH (c : pc) : bool :=
  match c with
  | ANext _ | AHead _ | AObj _ | AUnh _ | FHead _ | FWalk _ _ | FHLock _ _ | FHInc _ _ | FHUnl _ _ | FUnl _ _
  | RLockf _ | RTest2 _ | RDec2 _ | RUnl2f _ | RUnl2h | RHead _ | RWalk _ _ | RUnh _ => true
  | _ => false
  end.

Definition holdsF (c : pc) : option Z :=
  match c with
  | AUnh p | AUnf p | HInc p | HUnl p | FHInc _ p | FHUnl _ p | RTest p | RDec p | RUnl p | RUnl1 p
  | RTest2 p | RDec2 p | RUnl2f p | RHead p | RWalk p _ | RUnh p | RUnf p => Some p
  | _ => None
  end.

(** The object that is not, or no longer, on its chain. *)
Definition outside (c : pc) : option Z :=
  match c with ALock p | ANext p | AHead p | RUnh p | RUnf p | RFree p => Some p | _ => None end.

(** The object that only this thread has a reference to. *)
Definition solo (c : pc) : option Z :=
  match c with RHead p | RWalk p _ => Some p | _ => outside c end.

Definition owner (s : st) (fp : Z) : option Z := heap s !! fp ≫= f_own.

(** No object of [l] has the identifier. *)
Definition absent (s : st) (id : Z) (l : list Z) : Prop :=
  forall x o, x ∈ l -> heap s !! x = Some o -> f_id o <> id.

(** [fp] is the first object on its chain that has the identifier. *)
Definition first (s : st) (L : Z -> list Z) (id fp : Z) : Prop :=
  exists o a b, heap s !! fp = Some o /\ f_id o = id /\ L (HASH id) = a ++ fp :: b /\ absent s id a.

Definition loc (s : st) (L : Z -> list Z) (c : pc) : Prop :=
  match c with
  | ALock p | ANext p | RUnh p | RUnf p | RFree p =>
    exists o, heap s !! p = Some o /\ f_count o = 1 /\ forall i, p ∉ L i
  | AHead p => exists o, heap s !! p = Some o /\ f_count o = 1 /\ (forall i, p ∉ L i) /\ f_next o = fh s (HASH (f_id o))
  | FWalk id p => exists a b, L (HASH id) = a ++ b /\ p = hd 0 b /\ absent s id a
  | FHLock id p | FHInc id p | FHUnl id p => first s L id p
  | FUnl id p => if p =? 0 then absent s id (L (HASH id)) else first s L id p
  | RDec p | RDec2 p => exists o, heap s !! p = Some o /\ 1 < f_count o
  | RHead p => exists o, heap s !! p = Some o /\ f_count o = 1 /\ p ∈ L (HASH (f_id o))
  | RWalk p tp => exists o a b c, heap s !! p = Some o /\ f_count o = 1 /\ L (HASH (f_id o)) = a ++ tp :: b ++ p :: c
  | _ => True
  end.

Record inv (s : st) (L : Z -> list Z) : Prop := Inv {
  i_h : forall t, hashlock s = Some t <-> exists c, pcs s !! t = Some c /\ holdsH c = true;
  i_f : forall fp t, owner s fp = Some t <-> exists c, pcs s !! t = Some c /\ holdsF c = Some fp;
  i_cnt : forall fp, match heap s !! fp with Some o => f_count o = refs s fp /\ 1 <= f_count o | None => refs s fp = 0 end;
  i_pool : forall fp, 0 <= pool s fp;
  i_null : heap s !! 0 = None;
  i_chain : forall i, NoDup (L i) /\ chain (heap s) (fh s i) (L i);
  i_in : forall i fp, fp ∈ L i -> exists o, heap s !! fp = Some o /\ HASH (f_id o) = i;
  i_out : forall fp o, heap s !! fp = Some o ->
    fp ∈ L (HASH (f_id o)) \/ exists t c, pcs s !! t = Some c /\ outside c = Some fp;
  i_loc : forall t c, pcs s !! t = Some c -> loc s L c;
  i_free : forall t fp, pcs s !! t = Some (RFree fp) -> owner s fp = None
}.

Lemma carry_nonneg fp c : 0 <= carry fp c.
Proof. destruct c; simpl; repeat case_match; lia. Qed.

Lemma carry_one fp t c s : pcs s !! t = Some c -> (forall p, 0 <= pool s p) -> carry fp c <= refs s fp.
Proof. intros H Hp. unfold refs. pose proof (msum_one (carry fp) (carry_nonneg fp) _ _ _ H). specialize (Hp fp). lia. Qed.

Lemma carry_two fp t t' c c' s :
  t <> t' -> pcs s !! t = Some c -> pcs s !! t' = Some c' -> (forall p, 0 <= pool s p) -> carry fp c + carry fp c' <= refs s fp.
Proof.
  intros Hne H H' Hp. unfold refs. pose proof (msum_two (carry fp) (carry_nonneg fp) _ _ _ _ _ Hne H H'). specialize (Hp fp). lia.
Qed.

(** ** One statement *)

(** What a statement of thread [t] must establish: its own part, and that the other
    threads are not disturbed. *)
Section transition.
Context (s : st) (L : Z -> list Z) (t : Z) (c c' : pc).
Context (h' : gmap Z foo) (fh' : Z -> Z) (hl' : option Z) (pool' : Z -> Z) (L' : Z -> list Z).
Let s' : st := St h' fh' hl' pool' (<[t := c']> (pcs s)).
Let delta (fp : Z) : Z := pool' fp - pool s fp + carry fp c' - carry fp c.

Lemma inv_trans :
  inv s L -> pcs s !! t = Some c ->
  hl' = (if holdsH c' then Some t else if holdsH c then None else hashlock s) ->
  (holdsH c' = true -> holdsH c = true \/ hashlock s = None) ->
  (forall fp, owner s' fp = if decide (holdsF c' = Some fp) then Some t else if decide (holdsF c = Some fp) then None else owner s fp) ->
  (forall fp, holdsF c' = Some fp -> holdsF c = Some fp \/
     (owner s fp = None /\ forall u d, u <> t -> pcs s !! u = Some d -> solo d <> Some fp)) ->
  (forall fp, c' = RFree fp -> owner s' fp = None) ->
  (forall fp, match h' !! fp with
              | Some o => f_count o = refs s fp + delta fp /\ 1 <= f_count o
              | None => refs s fp + delta fp = 0 end) ->
  (forall fp, 0 <= pool' fp) -> h' !! 0 = None ->
  (forall i, NoDup (L' i) /\ chain h' (fh' i) (L' i)) ->
  (forall i fp, fp ∈ L' i -> exists o, h' !! fp = Some o /\ HASH (f_id o) = i) ->
  (forall fp o, h' !! fp = Some o ->
     fp ∈ L' (HASH (f_id o)) \/ exists u d, <[t := c']> (pcs s) !! u = Some d /\ outside d = Some fp) ->
  loc s' L' c' ->
  (forall t' d, t' <> t -> pcs s !! t' = Some d -> loc s L d -> loc s' L' d) ->
  inv s' L'.
Proof.
  intros I Hc Hhl Hhl' Hown Hown' Hfr Hcnt Hp H0 Hch Hin Hout Hloc Hoth. split; try done.
  - intros u. cbn [hashlock pcs s']. rewrite Hhl. destruct (decide (u = t)) as [->|Hu].
    + rewrite lookup_insert_eq. pose proof (proj2 (i_h _ _ I t)) as Ht. destruct (holdsH c') eqn:E.
      { split; [by exists c'|done]. }
      split; [|intros (d & [= <-] & Hd); congruence]. destruct (holdsH c) eqn:E'; [done|].
      intros Hh. apply (i_h _ _ I) in Hh as (d & Hd & Hd'). simplify_eq. congruence.
    + rewrite lookup_insert_ne by done. rewrite <- (i_h _ _ I u). destruct (holdsH c') eqn:E.
      { split; [congruence|]. intros Hh. destruct (Hhl' eq_refl) as [Hc'|]; [|congruence].
        assert (hashlock s = Some t) by (apply (i_h _ _ I); eauto). congruence. }
      destruct (holdsH c) eqn:E'; [|done]. split; [done|]. intros Hh.
      assert (hashlock s = Some t) by (apply (i_h _ _ I); eauto). congruence.
  - intros fp u. rewrite Hown. cbn [pcs s']. destruct (decide (u = t)) as [->|Hu].
    + rewrite lookup_insert_eq. destruct (decide (holdsF c' = Some fp)) as [E|E]; [split; [by exists c'|done]|].
      split; [|intros (d & [= <-] & Hd); congruence]. destruct (decide (holdsF c = Some fp)); [done|].
      intros Hh. apply (i_f _ _ I) in Hh as (d & Hd & Hd'). congruence.
    + rewrite lookup_insert_ne by done. rewrite <- (i_f _ _ I fp u). destruct (decide (holdsF c' = Some fp)) as [E|E].
      { split; [congruence|]. intros Hh. destruct (Hown' fp E) as [Hc'|[? _]]; [|congruence].
        assert (owner s fp = Some t) by (apply (i_f _ _ I); eauto). congruence. }
      destruct (decide (holdsF c = Some fp)) as [E'|E']; [|done]. split; [done|]. intros Hh.
      assert (owner s fp = Some t) by (apply (i_f _ _ I); eauto). congruence.
  - intros fp. assert (refs s' fp = refs s fp + delta fp) as ->; [|apply Hcnt].
    unfold refs, delta. cbn [pool pcs s']. rewrite (msum_insert _ _ _ _ _ Hc). lia.
  - intros u d. cbn [pcs s']. destruct (decide (u = t)) as [->|Hu].
    + rewrite lookup_insert_eq. by intros [= <-].
    + rewrite lookup_insert_ne by done. intros Hd. eapply Hoth; [done..|]. by apply (i_loc _ _ I u).
  - intros u fp. cbn [pcs s']. destruct (decide (u = t)) as [->|Hu].
    + rewrite lookup_insert_eq. intros [= ->]. by apply Hfr.
    + rewrite lookup_insert_ne by done. intros Hd. rewrite Hown. destruct (decide (holdsF c' = Some fp)) as [E|E].
      { exfalso. destruct (Hown' fp E) as [E'|[_ Hso]]; [|by eapply Hso].
        assert (owner s fp = Some t) by (apply (i_f _ _ I); eauto). pose proof (i_free _ _ I u fp Hd). congruence. }
      destruct (decide (holdsF c = Some fp)); [done|]. by apply (i_free _ _ I u).
Qed.
End transition.

(** Objects that differ in their locks only. *)
Definition same_objs (h h' : gmap Z foo) : Prop :=
  forall fp, match h !! fp, h' !! fp with
             | Some o, Some o' => f_count o' = f_count o /\ f_id o' = f_id o /\ f_next o' = f_next o
             | None, None => True
             | _, _ => False
             end.

Lemma same_objs_l h h' fp o : same_objs h h' -> h !! fp = Some o ->
  exists o', h' !! fp = Some o' /\ f_count o' = f_count o /\ f_id o' = f_id o /\ f_next o' = f_next o.
Proof. intros H Ho. specialize (H fp). rewrite Ho in H. destruct (h' !! fp) as [o'|]; [|done]. eauto. Qed.

Lemma same_objs_r h h' fp o' : same_objs h h' -> h' !! fp = Some o' ->
  exists o, h !! fp = Some o /\ f_count o' = f_count o /\ f_id o' = f_id o /\ f_next o' = f_next o.
Proof. intros H Ho. specialize (H fp). rewrite Ho in H. destruct (h !! fp) as [o|]; [|done]. eauto. Qed.

Lemma same_objs_refl h : same_objs h h.
Proof. intros fp. by destruct (h !! fp). Qed.

Lemma same_objs_own h fp o t : h !! fp = Some o -> same_objs h (<[fp := set_own t o]> h).
Proof.
  intros Ho q. destruct (decide (q = fp)) as [->|Hq]; [by rewrite Ho, lookup_insert_eq|].
  rewrite lookup_insert_ne by done. by destruct (h !! q).
Qed.

Lemma absent_same s h' f' hl' p' q' id l :
  same_objs (heap s) h' -> absent s id l -> absent (St h' f' hl' p' q') id l.
Proof. intros Hs Ha x o' Hx Ho'. destruct (same_objs_r _ _ _ _ Hs Ho') as (o & Ho & _ & -> & _). by eapply Ha. Qed.

Lemma loc_same s L h' hl' p' q' d :
  same_objs (heap s) h' -> loc s L d -> loc (St h' (fh s) hl' p' q') L d.
Proof.
  intros Hs. pose proof same_objs_l as Hl.
  assert (Hf : forall id p, first s L id p -> first (St h' (fh s) hl' p' q') L id p).
  { intros id p (o & a & b & Ho & Hid & HL & Ha). destruct (Hl _ _ _ _ Hs Ho) as (o' & Ho' & _ & Hid' & _).
    exists o', a, b. split_and!; [done|congruence|done|by eapply absent_same]. }
  assert (Hfix : forall p (P : foo -> Prop), (exists o, heap s !! p = Some o /\ P o) ->
            (forall o o', f_count o' = f_count o -> f_id o' = f_id o -> f_next o' = f_next o -> P o -> P o') ->
            exists o, h' !! p = Some o /\ P o).
  { intros p P (o & Ho & HP) HPP. destruct (Hl _ _ _ _ Hs Ho) as (o' & Ho' & ? & ? & ?). eauto. }
  destruct d; simpl; try done; intros H; try (by apply Hf); try (apply Hfix; [done|]; intros ? ? E1 E2 E3; rewrite ?E1, ?E2, ?E3; done).
  - destruct H as (a & b & HL & Hp & Ha). exists a, b. split_and!; [done|done|by eapply absent_same].
  - case_match; [by eapply absent_same|by apply Hf].
  - destruct H as (o & a & b & c & Ho & H1 & HL). destruct (Hl _ _ _ _ Hs Ho) as (o' & Ho' & E1 & E2 & E3).
    exists o', a, b, c. rewrite E1, E2. done.
Qed.

(** Statements that change locks and the next statement only. *)
Lemma inv_same s L t c c' h' hl' pool' :
  inv s L -> pcs s !! t = Some c -> same_objs (heap s) h' ->
  hl' = (if holdsH c' then Some t else if holdsH c then None else hashlock s) ->
  (holdsH c' = true -> holdsH c = true \/ hashlock s = None) ->
  (forall fp, h' !! fp ≫= f_own = if decide (holdsF c' = Some fp) then Some t else if decide (holdsF c = Some fp) then None else owner s fp) ->
  (forall fp, holdsF c' = Some fp -> holdsF c = Some fp \/
     (owner s fp = None /\ forall u d, u <> t -> pcs s !! u = Some d -> solo d <> Some fp)) ->
  (forall fp, c' = RFree fp -> h' !! fp ≫= f_own = None) ->
  (forall fp, pool' fp + carry fp c' = pool s fp + carry fp c) ->
  (forall fp, 0 <= pool' fp) ->
  (outside c = None \/ outside c' = outside c) ->
  loc s L c' ->
  inv (St h' (fh s) hl' pool' (<[t := c']> (pcs s))) L.
Proof.
  intros I Hc Hs Hhl Hhl' Hown Hown' Hfr Hd Hp Hout Hloc. eapply inv_trans; try done.
  - intros fp. pose proof (i_cnt _ _ I fp) as H. specialize (Hs fp). specialize (Hd fp).
    destruct (heap s !! fp) as [o|], (h' !! fp) as [o'|]; try done; [|lia]. destruct Hs as (-> & _). lia.
  - pose proof (Hs 0) as H. rewrite (i_null _ _ I) in H. by destruct (h' !! 0).
  - intros i. destruct (i_chain _ _ I i) as [Hnd Hch]. split; [done|]. eapply chain_same; [|exact Hch].
    intros x o _ Ho. destruct (same_objs_l _ _ _ _ Hs Ho) as (o' & Ho' & _ & _ & Hn). eauto.
  - intros i fp Hi. destruct (i_in _ _ I i fp Hi) as (o & Ho & Hh).
    destruct (same_objs_l _ _ _ _ Hs Ho) as (o' & Ho' & _ & Hid & _). exists o'. by rewrite Hid.
  - intros fp o' Ho'. destruct (same_objs_r _ _ _ _ Hs Ho') as (o & Ho & _ & -> & _).
    destruct (i_out _ _ I fp o Ho) as [Hi|(u & d & Hu & Hd')]; [by left|]. right.
    destruct (decide (u = t)) as [->|Hne]; [|exists u, d; by rewrite lookup_insert_ne].
    exists t, c'. rewrite lookup_insert_eq. split; [done|]. destruct Hout as [Ho0|Ho0]; congruence.
  - by apply loc_same.
  - intros u d _ _. by apply loc_same.
Qed.

Section statements.
Context (s : st) (L : Z -> list Z) (t : Z) (c : pc).
Context (I : inv s L) (Hc : pcs s !! t = Some c).

Lemma has_h : holdsH c = true -> hashlock s = Some t.
Proof. intros H. apply (i_h _ _ I). eauto. Qed.

Lemma has_f fp : holdsF c = Some fp -> exists o, heap s !! fp = Some o /\ f_own o = Some t.
Proof.
  intros H. assert (Ho : owner s fp = Some t) by (apply (i_f _ _ I); eauto).
  unfold owner in Ho. destruct (heap s !! fp) as [o|]; [|done]. eauto.
Qed.

Lemma has_obj fp : 0 < carry fp c -> exists o, heap s !! fp = Some o /\ f_count o = refs s fp /\ 1 <= f_count o.
Proof.
  intros H. pose proof (carry_one fp t c s Hc (i_pool _ _ I)) as H1. pose proof (i_cnt _ _ I fp) as H2.
  destruct (heap s !! fp) as [o|]; [|lia]. eauto.
Qed.

(** Nobody else has a reference to an object with one reference. *)
Lemma sole fp o u d :
  heap s !! fp = Some o -> f_count o = 1 -> 0 < carry fp c -> u <> t -> pcs s !! u = Some d -> carry fp d = 0.
Proof.
  intros Ho H1 Hcar Hu Hd. pose proof (carry_two fp u t d c s Hu Hd Hc (i_pool _ _ I)) as H2.
  pose proof (i_cnt _ _ I fp) as H3. rewrite Ho in H3. pose proof (carry_nonneg fp d). lia.
Qed.

Lemma other_h u d : holdsH c = true -> u <> t -> pcs s !! u = Some d -> holdsH d = false.
Proof.
  intros H Hu Hd. apply not_true_is_false. intros Hd'. pose proof (has_h H) as H1.
  assert (hashlock s = Some u) by (apply (i_h _ _ I); eauto). congruence.
Qed.

Lemma other_f fp u d : holdsF c = Some fp -> u <> t -> pcs s !! u = Some d -> holdsF d <> Some fp.
Proof.
  intros H Hu Hd Hd'. assert (owner s fp = Some t) by (apply (i_f _ _ I); eauto).
  assert (owner s fp = Some u) by (apply (i_f _ _ I); eauto). congruence.
Qed.

(** ** Statements on locks *)

Context (c' : pc).

Lemma owner_stays fp : holdsF c' = holdsF c ->
  owner s fp = if decide (holdsF c' = Some fp) then Some t else if decide (holdsF c = Some fp) then None else owner s fp.
Proof.
  intros ->. destruct (decide (holdsF c = Some fp)) as [E|E]; [|done].
  destruct (has_f fp E) as (o & Ho & Hoo). unfold owner. by rewrite Ho.
Qed.

Lemma inv_goto :
  (forall fp, c' <> RFree fp) -> holdsH c' = holdsH c -> holdsF c' = holdsF c -> (forall fp, carry fp c' = carry fp c) ->
  outside c = None \/ outside c' = outside c -> loc s L c' -> inv (goto t c' s) L.
Proof.
  intros Hfr HH HF Hcar Hout Hloc. apply (inv_same s L t c c'); try done.
  - apply same_objs_refl.
  - rewrite HH. destruct (holdsH c) eqn:E; [by apply has_h|done].
  - rewrite HH. by left.
  - intros fp. by apply owner_stays.
  - intros fp. rewrite HF. by left.
  - intros fp E. by destruct (Hfr fp).
  - intros fp. by rewrite Hcar.
  - apply (i_pool _ _ I).
Qed.

Lemma inv_lock_h :
  (forall fp, c' <> RFree fp) -> hashlock s = None -> holdsH c' = true -> holdsF c' = holdsF c -> (forall fp, carry fp c' = carry fp c) ->
  outside c = None \/ outside c' = outside c -> loc s L c' -> inv (goto t c' (set_hl (Some t) s)) L.
Proof.
  intros Hfr Hn HH HF Hcar Hout Hloc. apply (inv_same s L t c c'); try done.
  - apply same_objs_refl.
  - by rewrite HH.
  - by right.
  - intros fp. by apply owner_stays.
  - intros fp. rewrite HF. by left.
  - intros fp E. by destruct (Hfr fp).
  - intros fp. by rewrite Hcar.
  - apply (i_pool _ _ I).
Qed.

Lemma inv_unlock_h pool' :
  (forall fp, c' <> RFree fp) -> holdsH c = true -> holdsH c' = false -> holdsF c' = holdsF c ->
  (forall fp, pool' fp + carry fp c' = pool s fp + carry fp c) -> (forall fp, 0 <= pool' fp) ->
  outside c = None \/ outside c' = outside c -> loc s L c' ->
  inv (goto t c' (set_pool pool' (set_hl None s))) L.
Proof.
  intros Hfr HH HH' HF Hcar Hp Hout Hloc. apply (inv_same s L t c c'); try done.
  - apply same_objs_refl.
  - by rewrite HH, HH'.
  - by left.
  - intros fp. by apply owner_stays.
  - intros fp. rewrite HF. by left.
  - intros fp E. by destruct (Hfr fp).
Qed.

Lemma inv_lock_f fp o :
  heap s !! fp = Some o -> f_own o = None -> holdsH c' = holdsH c -> holdsF c = None -> holdsF c' = Some fp ->
  (forall fp, carry fp c' = carry fp c) -> outside c = None \/ outside c' = outside c -> loc s L c' ->
  (forall u d, u <> t -> pcs s !! u = Some d -> solo d <> Some fp) ->
  inv (goto t c' (write fp (set_own (Some t) o) s)) L.
Proof.
  intros Ho Hn HH HF HF' Hcar Hout Hloc Hso. apply (inv_same s L t c c'); try done.
  - by apply same_objs_own.
  - rewrite HH. destruct (holdsH c) eqn:E; [by apply has_h|done].
  - rewrite HH. by left.
  - intros q. cbn [heap write set_heap set_pool]. rewrite HF', HF. destruct (decide (q = fp)) as [->|Hq].
    + by rewrite lookup_insert_eq, decide_True.
    + rewrite lookup_insert_ne by done. rewrite decide_False by congruence. by rewrite decide_False.
  - intros q. rewrite HF'. intros [= <-]. right. unfold owner. by rewrite Ho.
  - intros q E. by rewrite E in HF'.
  - intros q. by rewrite Hcar.
  - apply (i_pool _ _ I).
Qed.

Lemma inv_unlock_f fp o pool' :
  (forall q, c' = RFree q -> q = fp) -> heap s !! fp = Some o -> holdsH c' = holdsH c -> holdsF c = Some fp -> holdsF c' = None ->
  (forall fp, pool' fp + carry fp c' = pool s fp + carry fp c) -> (forall fp, 0 <= pool' fp) ->
  outside c = None \/ outside c' = outside c -> loc s L c' ->
  inv (goto t c' (set_pool pool' (write fp (set_own None o) s))) L.
Proof.
  intros Hfr Ho HH HF HF' Hcar Hp Hout Hloc. apply (inv_same s L t c c'); try done.
  - by apply same_objs_own.
  - rewrite HH. destruct (holdsH c) eqn:E; [by apply has_h|done].
  - rewrite HH. by left.
  - intros q. cbn [heap write set_heap set_pool]. rewrite HF', HF. rewrite decide_False by done. destruct (decide (q = fp)) as [->|Hq].
    + by rewrite lookup_insert_eq, decide_True.
    + rewrite lookup_insert_ne by done. by rewrite decide_False by congruence.
  - intros q. by rewrite HF'.
  - intros q E. cbn [heap write set_heap set_pool]. destruct (decide (q = fp)) as [->|Hq]; [by rewrite lookup_insert_eq|].
    by specialize (Hfr q E).
Qed.
End statements.

(** ** Statements on objects and chains *)

Lemma solo_carry c fp : solo c = Some fp -> carry fp c = 1.
Proof. destruct c; simpl; intros [= ->]; by rewrite Z.eqb_refl. Qed.

Lemma solo_count s L c fp : solo c = Some fp -> loc s L c -> exists o, heap s !! fp = Some o /\ f_count o = 1.
Proof. destruct c; simpl; intros [= ->]; naive_solver. Qed.

Lemma absent_upd s h' f' hl' p' q' fp o o' id l :
  h' = <[fp := o']> (heap s) -> heap s !! fp = Some o -> f_id o' = f_id o ->
  absent s id l -> absent (St h' f' hl' p' q') id l.
Proof.
  intros -> Ho Hid Ha x y Hx Hy. cbn in Hy. destruct (decide (x = fp)) as [->|Hne].
  - rewrite lookup_insert_eq in Hy. simplify_eq. rewrite Hid. by eapply Ha.
  - rewrite lookup_insert_ne in Hy by done. by eapply Ha.
Qed.

Lemma first_upd s L h' f' hl' p' q' fp o o' id q :
  h' = <[fp := o']> (heap s) -> heap s !! fp = Some o -> f_id o' = f_id o ->
  first s L id q -> first (St h' f' hl' p' q') L id q.
Proof.
  intros Hh Ho Hid (y & a & b & Hy & Hyid & HL & Ha).
  assert (exists z, h' !! q = Some z /\ f_id z = id) as (z & Hz & Hzid).
  { subst h'. destruct (decide (q = fp)) as [->|Hne]; [|rewrite lookup_insert_ne by done; eauto].
    rewrite lookup_insert_eq. exists o'. simplify_eq. done. }
  exists z, a, b. split_and!; [done|done|done|by eapply absent_upd].
Qed.

(** A change of one object that leaves its identifier disturbs only the threads that rely
    on its count or its link. *)
Lemma loc_upd s L h' hl' p' q' fp o o' d :
  h' = <[fp := o']> (heap s) -> heap s !! fp = Some o -> f_id o' = f_id o ->
  solo d <> Some fp -> (d <> RDec fp /\ d <> RDec2 fp) ->
  loc s L d -> loc (St h' (fh s) hl' p' q') L d.
Proof.
  intros Hh Ho Hid Hsolo [Hr1 Hr2].
  assert (Hfix : forall p (P : foo -> Prop), p <> fp -> (exists y, heap s !! p = Some y /\ P y) -> exists y, h' !! p = Some y /\ P y).
  { intros p P Hp (y & Hy & HP). exists y. subst h'. by rewrite lookup_insert_ne. }
  destruct d; simpl in *; try done; intros H; try (by eapply first_upd); try (apply Hfix; [congruence|done]).
  - destruct H as (a & b & HL & Hp & Ha). exists a, b. split_and!; [done|done|by eapply absent_upd].
  - case_match; [by eapply absent_upd|by eapply first_upd].
  - destruct H as (y & a & b & c & Hy & H1 & HL). exists y, a, b, c. split; [|done]. subst h'. rewrite lookup_insert_ne; [done|congruence].
Qed.

Ltac unf := cbn [heap fh hashlock pool pcs goto write set_heap set_fh set_hl set_pool give].

Section objects.
Context (s : st) (L : Z -> list Z) (t : Z) (c c' : pc) (fp : Z) (o : foo).
Context (I : inv s L) (Hc : pcs s !! t = Some c) (Ho : heap s !! fp = Some o).

Lemma keep_hl : holdsH c' = holdsH c ->
  hashlock s = if holdsH c' then Some t else if holdsH c then None else hashlock s.
Proof. intros ->. destruct (holdsH c) eqn:E; [by eapply has_h|done]. Qed.

Lemma in_upd o' i q : f_id o' = f_id o -> q ∈ L i -> exists y, <[fp := o']> (heap s) !! q = Some y /\ HASH (f_id y) = i.
Proof.
  intros Hid Hq. destruct (i_in _ _ I i q Hq) as (y & Hy & Hi). destruct (decide (q = fp)) as [->|Hne].
  - rewrite lookup_insert_eq. exists o'. split; [done|]. congruence.
  - rewrite lookup_insert_ne by done. eauto.
Qed.

Lemma out_upd o' q y :
  f_id o' = f_id o -> outside c' = outside c -> <[fp := o']> (heap s) !! q = Some y ->
  q ∈ L (HASH (f_id y)) \/ exists u d, <[t := c']> (pcs s) !! u = Some d /\ outside d = Some q.
Proof.
  intros Hid Hout Hy. assert (exists y0, heap s !! q = Some y0 /\ f_id y = f_id y0) as (y0 & Hy0 & ->).
  { destruct (decide (q = fp)) as [->|Hne]; [rewrite lookup_insert_eq in Hy; simplify_eq; eauto|].
    rewrite lookup_insert_ne in Hy by done. eauto. }
  destruct (i_out _ _ I q y0 Hy0) as [Hi|(u & d & Hu & Hd)]; [by left|right].
  destruct (decide (u = t)) as [->|Hne]; [|exists u, d; by rewrite lookup_insert_ne].
  exists t, c'. rewrite lookup_insert_eq. split; [done|]. congruence.
Qed.

Lemma owner_upd o' q : f_own o' = f_own o -> <[fp := o']> (heap s) !! q ≫= f_own = owner s q.
Proof.
  intros Hown. unfold owner. destruct (decide (q = fp)) as [->|Hne]; [by rewrite lookup_insert_eq, Ho|].
  by rewrite lookup_insert_ne.
Qed.

(** [fp->f_count++], [fp->f_count--] *)
Lemma inv_count n :
  holdsH c' = holdsH c -> holdsF c = Some fp -> holdsF c' = Some fp -> outside c' = None -> outside c = None ->
  (forall q, carry q c' = carry q c + if q =? fp then n - f_count o else 0) -> 1 <= n ->
  (forall u d, u <> t -> pcs s !! u = Some d -> solo d <> Some fp) ->
  (forall s', heap s' = <[fp := set_count n o]> (heap s) -> loc s' L c') ->
  inv (goto t c' (write fp (set_count n o) s)) L.
Proof.
  intros HH HF HF' Hout' Hout Hcar Hn Hsolo Hloc. apply (inv_trans s L t c c'); unf; try done.
  - by apply keep_hl.
  - rewrite HH. by left.
  - intros q. unfold owner at 1. cbn [heap goto write set_heap]. rewrite owner_upd by done. eapply owner_stays; [done..|congruence].
  - intros q. rewrite HF', HF. by left.
  - intros q E. by rewrite E in HF'.
  - intros q. cbn [heap pool goto write set_heap]. rewrite Hcar. pose proof (i_cnt _ _ I q) as Hq. destruct (Z.eqb_spec q fp) as [->|Hne].
    + rewrite lookup_insert_eq. rewrite Ho in Hq. simpl. lia.
    + rewrite lookup_insert_ne by done. destruct (heap s !! q); lia.
  - apply (i_pool _ _ I).
  - cbn. rewrite lookup_insert_ne; [apply (i_null _ _ I)|]. intros ->. by rewrite (i_null _ _ I) in Ho.
  - intros i. destruct (i_chain _ _ I i) as [Hnd Hch]. split; [done|]. eapply chain_same; [|exact Hch].
    intros x y _ Hy. cbn. destruct (decide (x = fp)) as [->|Hne]; [rewrite lookup_insert_eq; simplify_eq; by eexists|].
    rewrite lookup_insert_ne by done. eauto.
  - intros i q. by apply in_upd.
  - intros q y. apply out_upd; [done|congruence].
  - by apply Hloc.
  - intros u d Hu Hd. eapply loc_upd; [done|done|done|by eapply Hsolo|].
    pose proof (other_f s L t c I Hc fp u d HF Hu Hd) as Hof. split; intros ->; done.
Qed.
End objects.

(** Objects that differ in their links only. *)
Definition same_but_next (h h' : gmap Z foo) : Prop :=
  forall q, match h !! q, h' !! q with
            | Some o, Some o' => f_count o' = f_count o /\ f_id o' = f_id o /\ f_own o' = f_own o
            | None, None => True
            | _, _ => False
            end.

Lemma same_but_next_l h h' q o : same_but_next h h' -> h !! q = Some o ->
  exists o', h' !! q = Some o' /\ f_count o' = f_count o /\ f_id o' = f_id o /\ f_own o' = f_own o.
Proof. intros H Ho. specialize (H q). rewrite Ho in H. destruct (h' !! q) as [o'|]; [|done]. eauto. Qed.

Lemma same_but_next_r h h' q o' : same_but_next h h' -> h' !! q = Some o' ->
  exists o, h !! q = Some o /\ f_count o' = f_count o /\ f_id o' = f_id o /\ f_own o' = f_own o.
Proof. intros H Ho. specialize (H q). rewrite Ho in H. destruct (h !! q) as [o|]; [|done]. eauto. Qed.

Lemma same_but_next_refl h : same_but_next h h.
Proof. intros q. by destruct (h !! q). Qed.

Lemma same_but_next_upd h q o p : h !! q = Some o -> same_but_next h (<[q := set_next p o]> h).
Proof.
  intros Ho x. destruct (decide (x = q)) as [->|Hne]; [by rewrite Ho, lookup_insert_eq|].
  rewrite lookup_insert_ne by done. by destruct (h !! x).
Qed.

(** Threads without hashlock do not rely on chains. *)
Lemma loc_nohash s L L' h' fh' hl' p' q' d :
  holdsH d = false -> same_but_next (heap s) h' ->
  (forall p, outside d = Some p -> forall i, p ∈ L' i -> p ∈ L i) ->
  loc s L d -> loc (St h' fh' hl' p' q') L' d.
Proof.
  intros Hh Hs Hout.
  destruct d; simpl in *; try done; intros (o & Ho & H1); destruct (same_but_next_l _ _ _ _ Hs Ho) as (o' & Ho' & E1 & E2 & E3);
    exists o'; rewrite E1; (split; [done|]); try done; destruct H1 as [? H1]; split; try done;
    intros i Hi; apply (H1 i); by apply Hout.
Qed.

Section chains.
Context (s : st) (L : Z -> list Z) (t : Z) (c c' : pc) (fp : Z) (o : foo).
Context (I : inv s L) (Hc : pcs s !! t = Some c) (Ho : heap s !! fp = Some o).
Context (H1 : f_count o = 1) (Hcar1 : carry fp c = 1).

(** Statements on the chains, by the only thread that has a reference to [fp]. *)
Lemma inv_chain h' fh' L' :
  same_but_next (heap s) h' -> holdsH c = true -> holdsH c' = true -> holdsF c' = holdsF c ->
  (forall q, carry q c' = carry q c) ->
  (outside c = None \/ outside c = Some fp) ->
  (forall i, NoDup (L' i) /\ chain h' (fh' i) (L' i)) ->
  (forall i q, q ∈ L' i -> q ∈ L i \/ (q = fp /\ i = HASH (f_id o))) ->
  (forall i q, q <> fp -> q ∈ L i -> q ∈ L' i) ->
  (fp ∈ L' (HASH (f_id o)) \/ outside c' = Some fp) ->
  (forall s', heap s' = h' -> fh s' = fh' -> loc s' L' c') ->
  inv (St h' fh' (hashlock s) (pool s) (<[t := c']> (pcs s))) L'.
Proof.
  intros Hs HH HH' HF Hcar Hout Hch Hin Hin' Hfp Hloc. apply (inv_trans s L t c c'); unf; try done.
  - rewrite HH'. by eapply has_h.
  - by left.
  - intros q. unfold owner at 1. cbn [heap]. rewrite <- (owner_stays s L t c I Hc c' q HF). unfold owner.
    specialize (Hs q). destruct (heap s !! q), (h' !! q); try done. simpl. apply Hs.
  - intros q. rewrite HF. by left.
  - intros q E. by rewrite E in HH'.
  - intros q. pose proof (i_cnt _ _ I q) as Hq. specialize (Hs q). rewrite Hcar.
    destruct (heap s !! q), (h' !! q); try done; [|lia]. destruct Hs as (-> & _). lia.
  - apply (i_pool _ _ I).
  - pose proof (Hs 0) as H. rewrite (i_null _ _ I) in H. by destruct (h' !! 0).
  - intros i q Hq. assert (exists y, heap s !! q = Some y /\ HASH (f_id y) = i) as (y & Hy & Hi).
    { destruct (Hin i q Hq) as [Hq'|[-> ->]]; [by apply (i_in _ _ I)|eauto]. }
    destruct (same_but_next_l _ _ _ _ Hs Hy) as (y' & Hy' & _ & Hid & _). exists y'. by rewrite Hid.
  - intros q y' Hy'. destruct (same_but_next_r _ _ _ _ Hs Hy') as (y & Hy & _ & -> & _).
    destruct (decide (q = fp)) as [->|Hne].
    { simplify_eq. destruct Hfp as [|Hfp]; [by left|]. right. exists t, c'. by rewrite lookup_insert_eq. }
    destruct (i_out _ _ I q y Hy) as [Hi|(u & d & Hu & Hd)]; [left; by apply Hin'|right].
    destruct (decide (u = t)) as [->|Hut]; [simplify_eq; destruct Hout; congruence|].
    exists u, d. by rewrite lookup_insert_ne.
  - by apply Hloc.
  - intros u d Hu Hd. eapply loc_nohash; [by eapply (other_h s L t c)|done|].
    intros p Hp i Hi. destruct (Hin i p Hi) as [|[-> _]]; [done|].
    pose proof (sole s L t c I Hc fp o u d Ho H1 ltac:(lia) Hu Hd) as Hz.
    assert (solo d = Some fp) as Hs2 by (by destruct d). apply solo_carry in Hs2. lia.
Qed.

(** [free(fp)] *)
Lemma inv_free :
  (forall i, fp ∉ L i) -> f_own o = None -> holdsH c = false -> holdsF c = None -> outside c = Some fp ->
  (forall q, carry q c = if q =? fp then 1 else 0) ->
  inv (goto t Idle (set_heap (delete fp (heap s)) s)) L.
Proof.
  intros Hnot Hown HH HF Hout Hcar. apply (inv_trans s L t c Idle); unf; try done.
  - by rewrite HH.
  - intros q. rewrite HF. unfold owner. unf. rewrite !decide_False by done. destruct (decide (q = fp)) as [->|Hne].
    + by rewrite lookup_delete_eq, Ho.
    + by rewrite lookup_delete_ne.
  - intros q. rewrite Hcar. simpl. pose proof (i_cnt _ _ I q) as Hq. destruct (Z.eqb_spec q fp) as [->|Hne].
    + rewrite lookup_delete_eq. rewrite Ho in Hq. lia.
    + rewrite lookup_delete_ne by done. destruct (heap s !! q); lia.
  - apply (i_pool _ _ I).
  - destruct (decide (fp = 0)) as [->|]; [apply lookup_delete_eq|]. rewrite lookup_delete_ne by done. apply (i_null _ _ I).
  - intros i. destruct (i_chain _ _ I i) as [Hnd Hch]. split; [done|]. eapply chain_same; [|exact Hch].
    intros x y Hx Hy. exists y. rewrite lookup_delete_ne; [done|]. intros ->. by apply (Hnot i).
  - intros i q Hq. destruct (i_in _ _ I i q Hq) as (y & Hy & Hi). exists y. rewrite lookup_delete_ne; [done|]. intros ->. by apply (Hnot i).
  - intros q y Hy. assert (q <> fp) as Hne by (intros ->; by rewrite lookup_delete_eq in Hy). rewrite lookup_delete_ne in Hy by done.
    destruct (i_out _ _ I q y Hy) as [Hi|(u & d & Hu & Hd)]; [by left|right].
    destruct (decide (u = t)) as [->|Hut]; [simplify_eq|]. exists u, d. by rewrite lookup_insert_ne.
  - intros u d Hu Hd. pose proof (sole s L t c I Hc fp o u d Ho H1 ltac:(lia) Hu Hd) as Hz.
    set (s' := St _ _ _ _ _).
    assert (Hab : forall id l, absent s id l -> absent s' id l).
    { intros id l Ha x y Hx Hy. unfold s' in Hy. cbn in Hy. apply lookup_delete_Some in Hy as [_ Hy]. by eapply Ha. }
    assert (Hfi : forall id p, first s L id p -> first s' L id p).
    { intros id p (y & a & b & Hy & Hid & HL & Ha). exists y, a, b. split_and!; [|done|done|by apply Hab].
      unfold s'. cbn. rewrite lookup_delete_ne; [done|]. intros <-. apply (Hnot (HASH id)). rewrite HL. apply elem_of_app. right. by left. }
    assert (Hfix : forall p (P : foo -> Prop), p <> fp -> (exists y, heap s !! p = Some y /\ P y) -> exists y, heap s' !! p = Some y /\ P y).
    { intros p P Hp (y & Hy & HP). exists y. unfold s'. cbn. by rewrite lookup_delete_ne. }
    assert (Hpz : forall p, (if p =? fp then 1 else 0) = 0 -> p <> fp) by (intros p; destruct (Z.eqb_spec p fp); done).
    destruct d; simpl in *; try done; intros Hl; try (by apply Hfi); try (apply Hfix; [by apply Hpz|done]).
    + destruct Hl as (a & b & HL & Hp & Ha). exists a, b. split_and!; [done|done|by apply Hab].
    + case_match; [by apply Hab|by apply Hfi].
    + destruct Hl as (y & a & b & c0 & Hy & Hl). exists y, a, b, c0. split; [|done]. unfold s'. cbn. rewrite lookup_delete_ne; [done|].
      intros ->. by apply (Hpz fp0).
Qed.
End chains.

(** A new object. *)
Lemma inv_alloc s L t fp id :
  inv s L -> pcs s !! t = Some Idle -> fp <> 0 -> heap s !! fp = None ->
  inv (goto t (ALock fp) (write fp (Foo 1 None id 0) s)) L.
Proof.
  intros I Hc H0 Hn.
  assert (HL : forall i, fp ∉ L i) by (intros i Hi; destruct (i_in _ _ I i fp Hi) as (y & Hy & _); congruence).
  apply (inv_trans s L t Idle (ALock fp)); unf; try done.
  - intros q. unfold owner. unf. rewrite !decide_False by done. destruct (decide (q = fp)) as [->|Hne].
    + by rewrite lookup_insert_eq, Hn.
    + by rewrite lookup_insert_ne.
  - intros q. pose proof (i_cnt _ _ I q) as Hq. simpl. rewrite Z.eqb_sym. destruct (Z.eqb_spec q fp) as [->|Hne].
    + rewrite lookup_insert_eq. rewrite Hn in Hq. simpl. lia.
    + rewrite lookup_insert_ne by done. destruct (heap s !! q); lia.
  - apply (i_pool _ _ I).
  - rewrite lookup_insert_ne by done. apply (i_null _ _ I).
  - intros i. destruct (i_chain _ _ I i) as [Hnd Hch]. split; [done|]. eapply chain_same; [|exact Hch].
    intros x y Hx Hy. exists y. rewrite lookup_insert_ne; [done|congruence].
  - intros i q Hq. destruct (i_in _ _ I i q Hq) as (y & Hy & Hi). exists y. rewrite lookup_insert_ne; [done|congruence].
  - intros q y Hy. destruct (decide (q = fp)) as [->|Hne]; [right; exists t, (ALock fp); by rewrite lookup_insert_eq|].
    rewrite lookup_insert_ne in Hy by done. destruct (i_out _ _ I q y Hy) as [Hi|(u & d & Hu & Hd)]; [by left|right].
    destruct (decide (u = t)) as [->|Hut]; [simplify_eq|]. exists u, d. by rewrite lookup_insert_ne.
  - exists (Foo 1 None id 0). unf. by rewrite lookup_insert_eq.
  - intros u d Hu Hd. set (s' := St _ _ _ _ _).
    assert (Hfix : forall p (P : foo -> Prop), (exists y, heap s !! p = Some y /\ P y) -> exists y, heap s' !! p = Some y /\ P y).
    { intros p P (y & Hy & HP). exists y. unfold s'. unf. rewrite lookup_insert_ne; [done|congruence]. }
    assert (Hab : forall i j l, l ⊆ L j -> absent s i l -> absent s' i l).
    { intros i j l Hl Ha x y Hx Hy. unfold s' in Hy. cbn in Hy. rewrite lookup_insert_ne in Hy; [by eapply Ha|].
      intros ->. by apply (HL j), Hl. }
    assert (Hfi : forall i p, first s L i p -> first s' L i p).
    { intros i p (y & a & b & Hy & Hid & HLi & Ha). destruct (Hfix p (fun y => f_id y = i)) as (y' & Hy' & Hid'); [eauto|].
      exists y', a, b. split_and!; [done|done|done|]. eapply (Hab i (HASH i)); [|done]. rewrite HLi. by apply list_subseteq_app_l. }
    destruct d; simpl in *; try done; intros Hl; try (by apply Hfi); try (by apply Hfix).
    + destruct Hl as (a & b & HLi & Hp & Ha). exists a, b. split_and!; [done|done|]. eapply (Hab id0 (HASH id0)); [|done].
      rewrite HLi. by apply list_subseteq_app_l.
    + case_match; [by eapply Hab|by apply Hfi].
    + destruct Hl as (y & a & b & c0 & Hy & Hl). exists y, a, b, c0. split; [|done]. unfold s'. unf. rewrite lookup_insert_ne; [done|congruence].
Qed.

(** ** Every statement keeps the invariant and faults nowhere *)

Definition good (r : res) : Prop :=
  match r with Step s' => exists L, inv s' L | Block => True | Fault _ => False end.

Section run.
Context (s : st) (L : Z -> list Z) (t : Z).
Context (I : inv s L) (Hb : bounded s).

Lemma not_solo c fp u d :
  pcs s !! t = Some c -> 0 < carry fp c -> u <> t -> pcs s !! u = Some d -> solo d <> Some fp.
Proof.
  intros Hc Hcar Hu Hd Hs. destruct (solo_count s L d fp Hs (i_loc _ _ I u d Hd)) as (o & Ho & H1).
  apply solo_carry in Hs. pose proof (sole s L u d I Hd fp o t c Ho H1 ltac:(lia) ltac:(done) Hc). lia.
Qed.

Lemma first_not_solo c id fp u d :
  pcs s !! t = Some c -> holdsH c = true -> first s L id fp -> u <> t -> pcs s !! u = Some d -> solo d <> Some fp.
Proof.
  intros Hc HH (o & a & b & Ho & Hid & HL & _) Hu Hd Hs. pose proof (other_h s L t c I Hc u d HH Hu Hd) as Hh.
  pose proof (i_loc _ _ I u d Hd) as Hl.
  assert (fp ∈ L (HASH id)) as Hin by (rewrite HL; apply elem_of_app; right; by left).
  destruct d; simpl in *; try done; simplify_eq; destruct Hl as (? & _ & _ & Hl); by apply (Hl _ Hin).
Qed.

Lemma good_lock_h c c' :
  pcs s !! t = Some c -> (forall fp, c' <> RFree fp) -> holdsH c' = true -> holdsF c' = holdsF c -> (forall fp, carry fp c' = carry fp c) ->
  outside c = None \/ outside c' = outside c -> loc s L c' -> good (lock_h t c' s).
Proof. intros. unfold lock_h. destruct (hashlock s) eqn:E; [done|]. exists L. by eapply inv_lock_h. Qed.

Lemma good_lock_f c c' fp :
  pcs s !! t = Some c -> is_Some (heap s !! fp) -> holdsH c' = holdsH c -> holdsF c = None -> holdsF c' = Some fp ->
  (forall fp, carry fp c' = carry fp c) -> outside c = None \/ outside c' = outside c -> loc s L c' ->
  (forall u d, u <> t -> pcs s !! u = Some d -> solo d <> Some fp) -> good (lock_f t fp c' s).
Proof.
  intros Hc [o Ho] **. unfold lock_f, access. rewrite Ho. destruct (f_own o) eqn:E; [done|]. exists L. by eapply inv_lock_f.
Qed.

Lemma good_unlock_h c c' pool' :
  pcs s !! t = Some c -> (forall fp, c' <> RFree fp) -> holdsH c = true -> holdsH c' = false -> holdsF c' = holdsF c ->
  (forall fp, pool' fp + carry fp c' = pool s fp + carry fp c) -> (forall fp, 0 <= pool' fp) ->
  outside c = None \/ outside c' = outside c -> loc s L c' ->
  good (unlock_h t s (fun s => Step (goto t c' (set_pool pool' s)))).
Proof.
  intros Hc Hfr HH **. unfold unlock_h. rewrite (has_h s L t c I Hc HH), bool_decide_eq_true_2 by done. exists L. by eapply inv_unlock_h.
Qed.

Lemma good_unlock_f c c' fp pool' :
  pcs s !! t = Some c -> (forall q, c' = RFree q -> q = fp) -> holdsH c' = holdsH c -> holdsF c = Some fp -> holdsF c' = None ->
  (forall fp, pool' fp + carry fp c' = pool s fp + carry fp c) -> (forall fp, 0 <= pool' fp) ->
  outside c = None \/ outside c' = outside c -> loc s L c' ->
  good (unlock_f t fp s (fun s => Step (goto t c' (set_pool pool' s)))).
Proof.
  intros Hc Hfr HH HF **. destruct (has_f s L t c I Hc fp HF) as (o & Ho & Hown).
  unfold unlock_f, access. rewrite Ho, Hown, bool_decide_eq_true_2 by done. exists L. by eapply inv_unlock_f.
Qed.



(** The references that a call returns with were the ones it was using. *)
Lemma give_carry fp n c q :
  (forall q, carry q c = if fp =? q then n else 0) ->
  upd fp (pool s fp + n) (pool s) q + carry q Idle = pool s q + carry q c.
Proof.
  intros H. rewrite H. simpl. rewrite (Z.eqb_sym fp q). unfold upd. destruct (Z.eqb_spec q fp) as [->|]; lia.
Qed.

Lemma give_nonneg fp n q : 0 <= n -> 0 <= upd fp (pool s fp + n) (pool s) q.
Proof. intros Hn. unfold upd. pose proof (i_pool _ _ I fp). pose proof (i_pool _ _ I q). case_match; lia. Qed.

Lemma foo_alloc_good c : pcs s !! t = Some c -> good (foo_alloc t c s).
Proof.
  intros Hc. pose proof (i_loc _ _ I t c Hc) as Hloc. destruct c; simpl in *; try done.
  - eapply good_lock_h; try done. by right.
  - destruct Hloc as (o & Ho & H1 & Hnot). unfold access. rewrite Ho. exists L.
    eapply (inv_chain s L t (ANext fp) (AHead fp) fp o I Hc Ho H1); simpl; try done; [by rewrite Z.eqb_refl|by apply same_but_next_upd|by right| |auto|by right|].
    + intros i. destruct (i_chain _ _ I i) as [Hnd Hch]. split; [done|]. eapply chain_same; [|exact Hch].
      intros x y Hx Hy. exists y. rewrite lookup_insert_ne; [done|]. intros ->. by apply (Hnot i).
    + intros s' Hh Hf. exists (set_next (fh s (HASH (f_id o))) o). rewrite Hh, lookup_insert_eq, Hf. done.
  - destruct Hloc as (o & Ho & H1 & Hnot & Hnx). unfold access. rewrite Ho.
    exists (upd (HASH (f_id o)) (fp :: L (HASH (f_id o))) L).
    eapply (inv_chain s L t (AHead fp) (AObj fp) fp o I Hc Ho H1); simpl; try done; [by rewrite Z.eqb_refl|apply same_but_next_refl|by right| | | |].
    + intros i. destruct (decide (i = HASH (f_id o))) as [->|Hi]; [|rewrite !upd_ne by done; apply (i_chain _ _ I)].
      rewrite !upd_eq. destruct (i_chain _ _ I (HASH (f_id o))) as [Hnd Hch]. split; [by constructor|].
      split; [done|]. split; [intros ->; by rewrite (i_null _ _ I) in Ho|]. exists o. split; [done|]. by rewrite Hnx.
    + intros i q. destruct (decide (i = HASH (f_id o))) as [->|Hi]; [|rewrite upd_ne by done; auto].
      rewrite upd_eq. intros [->|]%elem_of_cons; auto.
    + intros i q _ Hq. destruct (decide (i = HASH (f_id o))) as [->|Hi]; [|by rewrite upd_ne]. rewrite upd_eq. by right.
    + left. rewrite upd_eq. by left.
  - destruct (has_obj s L t _ I Hc fp) as (o & Ho & _); [simpl; by rewrite Z.eqb_refl|].
    eapply good_lock_f; try done; [by left|]. intros u d. eapply not_solo; [exact Hc|]. simpl. by rewrite Z.eqb_refl.
  - eapply (good_unlock_h (AUnh fp) (AUnf fp) (pool s)); try done; [apply (i_pool _ _ I)|by left].
  - eapply (good_unlock_f (AUnf fp) Idle fp (upd fp (pool s fp + 1) (pool s))); try done; [|by intros; apply give_nonneg|by left].
    intros q. by apply give_carry.
Qed.

Lemma good_incr c c' fp :
  pcs s !! t = Some c -> holdsH c' = holdsH c -> holdsF c = Some fp -> holdsF c' = Some fp -> outside c' = None -> outside c = None ->
  (forall q, carry q c' = carry q c + if q =? fp then 1 else 0) ->
  (forall u d, u <> t -> pcs s !! u = Some d -> solo d <> Some fp) ->
  (forall s' o n, heap s !! fp = Some o -> heap s' = <[fp := set_count n o]> (heap s) -> loc s' L c') -> good (incr t fp c' s).
Proof.
  intros Hc HH HF HF' Ho1 Ho2 Hcar Hsolo Hloc. destruct (has_f s L t c I Hc fp HF) as (o & Ho & _).
  pose proof (i_cnt _ _ I fp) as Hcnt. rewrite Ho in Hcnt. specialize (Hb fp).
  unfold incr, access. rewrite Ho. destruct (Z.eqb_spec (f_count o) INT_MAX); [lia|]. exists L.
  eapply inv_count; try done; [|lia|by eauto].
  intros q. rewrite Hcar. case_match; lia.
Qed.

Lemma good_decr c c' fp :
  pcs s !! t = Some c -> holdsH c' = holdsH c -> holdsF c = Some fp -> holdsF c' = Some fp -> outside c' = None -> outside c = None ->
  (forall q, carry q c' = carry q c - if q =? fp then 1 else 0) -> 0 < carry fp c ->
  (exists o, heap s !! fp = Some o /\ 1 < f_count o) -> (forall s', loc s' L c') -> good (decr t fp c' s).
Proof.
  intros Hc HH HF HF' Ho1 Ho2 Hcar Hpos (o & Ho & H1) Hloc. unfold decr, access. rewrite Ho. exists L.
  eapply inv_count; try done; [|lia|].
  - intros q. rewrite Hcar. case_match; lia.
  - intros u d. by apply (not_solo c fp).
Qed.

Ltac carry_eq fp q := simpl; rewrite ?(Z.eqb_sym fp q); destruct (Z.eqb_spec q fp); lia.

Lemma foo_hold_good c : pcs s !! t = Some c -> good (foo_hold t c s).
Proof.
  intros Hc. destruct c; simpl in *; try done.
  - destruct (has_obj s L t _ I Hc fp) as (o & Ho & _); [simpl; by rewrite Z.eqb_refl|].
    eapply good_lock_f; try done; [by left|]. intros u d. eapply not_solo; [exact Hc|]. simpl. by rewrite Z.eqb_refl.
  - eapply (good_incr (HInc fp) (HUnl fp)); try done; [intros q; carry_eq fp q|].
    intros u d. eapply not_solo; [exact Hc|]. simpl. by rewrite Z.eqb_refl.
  - eapply (good_unlock_f (HUnl fp) Idle fp (upd fp (pool s fp + 2) (pool s))); try done; [|by intros; apply give_nonneg|by left].
    intros q. by apply give_carry.
Qed.

Lemma first_heap id fp : first s L id fp -> is_Some (heap s !! fp) /\ fp <> 0.
Proof. intros (o & a & b & Ho & _). rewrite Ho. split; [done|]. intros ->. by rewrite (i_null _ _ I) in Ho. Qed.

Lemma foo_find_good c : pcs s !! t = Some c -> good (foo_find t c s).
Proof.
  intros Hc. pose proof (i_loc _ _ I t c Hc) as Hloc. destruct c; simpl in *; try done.
  - eapply good_lock_h; try done. by left.
  - exists L. eapply inv_goto; try done; [by left|]. exists [], (L (HASH id)). split_and!; [done| |].
    + destruct (i_chain _ _ I (HASH id)) as [_ Hch]. by apply chain_hd in Hch.
    + intros x o Hx. by apply elem_of_nil in Hx.
  - destruct Hloc as (a & b & HL & Hp & Ha). destruct (i_chain _ _ I (HASH id)) as [Hnd Hch]. rewrite HL in Hch.
    destruct b as [|x b]; simpl in Hp; subst fp.
    { simpl. exists L. eapply inv_goto; try done; [|by left|simpl; by rewrite HL, app_nil_r].
      intros q. simpl. by rewrite andb_false_r. }
    apply chain_app in Hch as (Hx0 & o & Ho & Hch). rewrite (proj2 (Z.eqb_neq x 0)) by done. unfold access. rewrite Ho. exists L.
    destruct (Z.eqb_spec (f_id o) id) as [Hid|Hid]; eapply inv_goto; try done; try (by left).
    + exists o, a, b. done.
    + exists (a ++ [x]), b. rewrite <- app_assoc. split_and!; [done|by eapply chain_hd|].
      intros y oy Hy Hoy. apply elem_of_app in Hy as [Hy|Hy]; [by eapply Ha|]. apply list_elem_of_singleton in Hy as ->. congruence.
  - eapply good_lock_f; try done; [by eapply first_heap|by left|]. intros u d. by eapply first_not_solo.
  - destruct (first_heap id fp Hloc) as [_ Hz].
    eapply (good_incr (FHInc id fp) (FHUnl id fp)); try done; [intros q; carry_eq fp q| |].
    + intros u d. by eapply first_not_solo.
    + intros s' o n Ho Hh. destruct s' as [h' f' l' p' q']. cbn in Hh. eapply first_upd; [exact Hh|exact Ho|done|done].
  - destruct (first_heap id fp Hloc) as [_ Hz].
    eapply (good_unlock_f (FHUnl id fp) (FUnl id fp) fp (pool s)); try done; [|apply (i_pool _ _ I)|by left|].
    + intros q. simpl. by rewrite (proj2 (Z.eqb_neq fp 0)), andb_true_r.
    + simpl. by rewrite (proj2 (Z.eqb_neq fp 0)).
  - destruct (Z.eqb_spec fp 0) as [->|Hz].
    + eapply (good_unlock_h (FUnl id 0) Idle (pool s)); try done; [|apply (i_pool _ _ I)|by left].
      intros q. simpl. by rewrite andb_false_r.
    + eapply (good_unlock_h (FUnl id fp) Idle (upd fp (pool s fp + 1) (pool s))); try done; [|by intros; apply give_nonneg|by left].
      intros q. apply give_carry. intros q'. simpl. by rewrite (proj2 (Z.eqb_neq fp 0)), andb_true_r.
Qed.

(** The only reference is this thread's: the object is on its chain. *)
Lemma sole_on_chain c fp o :
  pcs s !! t = Some c -> heap s !! fp = Some o -> f_count o = 1 -> 0 < carry fp c -> outside c = None ->
  fp ∈ L (HASH (f_id o)).
Proof.
  intros Hc Ho H1 Hcar Hout. destruct (i_out _ _ I fp o Ho) as [|(u & d & Hd & Hd')]; [done|].
  destruct (decide (u = t)) as [->|Hu]; [congruence|].
  assert (solo d = Some fp) as Hs by (by destruct d). apply solo_carry in Hs.
  pose proof (sole s L t c I Hc fp o u d Ho H1 Hcar Hu Hd). lia.
Qed.

(** Taking [fp], in front of [b], off its chain. *)
Lemma unlink_good c h' fh' fp o a b :
  pcs s !! t = Some c -> heap s !! fp = Some o -> f_count o = 1 -> solo c = Some fp -> outside c = None ->
  holdsH c = true -> holdsF c = Some fp -> (forall q, carry q c = if fp =? q then 1 else 0) ->
  L (HASH (f_id o)) = a ++ fp :: b -> same_but_next (heap s) h' ->
  (forall i, i <> HASH (f_id o) -> chain h' (fh' i) (L i)) -> chain h' (fh' (HASH (f_id o))) (a ++ b) ->
  exists L', inv (St h' fh' (hashlock s) (pool s) (<[t := RUnh fp]> (pcs s))) L'.
Proof.
  intros Hc Ho H1 Hsolo Hout HH HF Hcar HL Hs Hch Hch'. exists (upd (HASH (f_id o)) (a ++ b) L).
  destruct (i_chain _ _ I (HASH (f_id o))) as [Hnd _]. rewrite HL in Hnd.
  assert (Hnot : fp ∉ a ++ b).
  { apply NoDup_app in Hnd as (_ & Hab & Hb'). apply NoDup_cons in Hb' as [Hb' _].
    rewrite not_elem_of_app. split; [|done]. intros Hin. apply (Hab fp Hin). by left. }
  eapply (inv_chain s L t c (RUnh fp) fp o I Hc Ho H1); try done; try (by left); try (by right).
  - rewrite Hcar. by rewrite Z.eqb_refl.
  - intros i. destruct (decide (i = HASH (f_id o))) as [->|Hi]; [|rewrite upd_ne by done; split; [apply (i_chain _ _ I)|by apply Hch]].
    rewrite upd_eq. split; [|done]. rewrite <- Permutation_middle in Hnd. by apply NoDup_cons in Hnd as [_ ?].
  - intros i q. destruct (decide (i = HASH (f_id o))) as [->|Hi]; [|rewrite upd_ne by done; auto].
    rewrite upd_eq, HL. intros Hq. left. set_solver.
  - intros i q Hq. destruct (decide (i = HASH (f_id o))) as [->|Hi]; [|by rewrite upd_ne]. rewrite upd_eq, HL. set_solver.
  - intros s' Hh Hf. destruct (same_but_next_l _ _ _ _ Hs Ho) as (o' & Ho' & E1 & _). exists o'. rewrite Hh, E1.
    split_and!; [done|done|]. intros i. destruct (decide (i = HASH (f_id o))) as [->|Hi]; [by rewrite upd_eq|].
    rewrite upd_ne by done. intros Hin. destruct (i_in _ _ I i fp Hin) as (y & Hy & Hyi). congruence.
Qed.

Lemma foo_rele_good c : pcs s !! t = Some c -> good (foo_rele t c s).
Proof.
  intros Hc. pose proof (i_loc _ _ I t c Hc) as Hloc.
  assert (Hobj : forall fp, carry fp c = 1 -> exists o, heap s !! fp = Some o /\ f_count o = refs s fp /\ 1 <= f_count o)
    by (intros fp H; eapply has_obj; [done..|lia]).
  destruct c; simpl in *; try done; try (destruct (Hobj fp) as (o & Ho & Hcnt & Hge); [by rewrite Z.eqb_refl|]).
  - eapply good_lock_f; try done; [by left|]. intros u d. eapply not_solo; [exact Hc|]. simpl. by rewrite Z.eqb_refl.
  - unfold access. rewrite Ho. exists L. destruct (Z.eqb_spec (f_count o) 1); eapply inv_goto; try done; try (by left).
    exists o. split; [done|lia].
  - eapply (good_decr (RDec fp) (RUnl fp)); try done; [intros q; carry_eq fp q|simpl; by rewrite Z.eqb_refl].
  - eapply (good_unlock_f (RUnl fp) Idle fp (pool s)); try done; [apply (i_pool _ _ I)|by left].
  - eapply (good_unlock_f (RUnl1 fp) (RLockh fp) fp (pool s)); try done; [apply (i_pool _ _ I)|by left].
  - eapply good_lock_h; try done. by left.
  - eapply good_lock_f; try done; [by left|]. intros u d. eapply not_solo; [exact Hc|]. simpl. by rewrite Z.eqb_refl.
  - unfold access. rewrite Ho. exists L. destruct (Z.eqb_spec (f_count o) 1) as [H1|H1]; eapply inv_goto; try done; try (by left).
    + exists o. split_and!; [done|done|]. eapply sole_on_chain; try done. simpl. by rewrite Z.eqb_refl.
    + exists o. split; [done|lia].
  - eapply (good_decr (RDec2 fp) (RUnl2f fp)); try done; [intros q; carry_eq fp q|simpl; by rewrite Z.eqb_refl].
  - eapply (good_unlock_f (RUnl2f fp) RUnl2h fp (pool s)); try done; [apply (i_pool _ _ I)|by left].
  - eapply (good_unlock_h RUnl2h Idle (pool s)); try done; [apply (i_pool _ _ I)|by left].
  - destruct Hloc as (o' & Ho' & H1 & Hin). assert (o = o') as -> by congruence. clear Ho'. unfold access. rewrite Ho.
    destruct (i_chain _ _ I (HASH (f_id o'))) as [Hnd Hch]. destruct (Z.eqb_spec (fh s (HASH (f_id o'))) fp) as [Hhd|Hhd].
    + destruct (L (HASH (f_id o'))) as [|x b] eqn:HL; [by apply elem_of_nil in Hin|]. simpl in Hch.
      destruct Hch as (Hx & _ & ox & Hox & Hch). assert (x = fp) as -> by congruence. assert (ox = o') as -> by congruence.
      eapply (unlink_good (RHead fp) (heap s) (upd (HASH (f_id o')) (f_next o') (fh s)) fp o' [] b); try done; [apply same_but_next_refl| |].
      * intros i Hi. rewrite upd_ne by done. apply (i_chain _ _ I).
      * by rewrite upd_eq.
    + exists L. eapply inv_goto; try done; [by left|]. apply list_elem_of_split in Hin as (a & b & HL). rewrite HL in Hch.
      destruct a as [|x a]; [by apply chain_hd in Hch|]. exists o', [], a, b. split_and!; [done|done|].
      apply chain_hd in Hch. simpl in Hch. by rewrite Hch.
  - destruct Hloc as (o' & a & b & c & Ho' & H1 & HL). assert (o = o') as -> by congruence. clear Ho'. destruct (i_chain _ _ I (HASH (f_id o'))) as [Hnd Hch]. rewrite HL in Hnd, Hch.
    pose proof Hch as Hch0. apply chain_app in Hch as (_ & ot & Hot & Hch). unfold access. rewrite Hot.
    pose proof (chain_hd _ _ _ Hch) as Hhd.
    destruct (Z.eqb_spec (f_next ot) fp) as [Hn|Hn].
    + assert (b = []) as ->.
      { destruct b as [|y b]; [done|]. simpl in Hhd. apply NoDup_app in Hnd as (_ & _ & Hnd).
        apply NoDup_cons in Hnd as [_ Hnd]. simpl in Hnd. apply NoDup_cons in Hnd as [Hy _]. destruct Hy. rewrite <- Hhd, Hn. set_solver. }
      rewrite Ho. simpl in *.
      eapply (unlink_good (RWalk fp tfp) (<[tfp := set_next (f_next o') ot]> (heap s)) (fh s) fp o' (a ++ [tfp]) c); try done.
      * rewrite HL, <- app_assoc. done.
      * by apply same_but_next_upd.
      * intros i Hi. destruct (i_chain _ _ I i) as [_ Hci]. eapply chain_same; [|exact Hci].
        intros x y Hx Hy. exists y. rewrite lookup_insert_ne; [done|]. intros <-.
        assert (tfp ∈ L (HASH (f_id o'))) as Hx' by (rewrite HL; set_solver).
        destruct (i_in _ _ I i tfp Hx) as (y1 & Hy1 & <-), (i_in _ _ I _ tfp Hx') as (y2 & Hy2 & Hi2). congruence.
      * rewrite <- app_assoc. simpl. by eapply chain_unlink.
    + exists L. eapply inv_goto; try done; [by left|]. destruct b as [|y b]; [by simpl in Hhd|]. simpl in Hhd.
      exists o', (a ++ [tfp]), b, c. split_and!; [done|done|]. rewrite HL, <- app_assoc, Hhd. done.
  - eapply (good_unlock_h (RUnh fp) (RUnf fp) (pool s)); try done; [apply (i_pool _ _ I)|by right].
  - eapply (good_unlock_f (RUnf fp) (RFree fp) fp (pool s)); try done; [by intros q [= ->]|apply (i_pool _ _ I)|by right].
  - destruct Hloc as (o' & Ho' & H1 & Hnot). assert (o = o') as -> by congruence. clear Ho'. unfold access. rewrite Ho. assert (f_own o' = None) as Hown by (pose proof (i_free _ _ I t fp Hc) as Hown; unfold owner in Hown; by rewrite Ho in Hown).
    rewrite Hown. exists L. eapply (inv_free s L t (RFree fp) fp o'); try done; [simpl; by rewrite Z.eqb_refl|]. intros q. simpl. by rewrite Z.eqb_sym.
Qed.
End run.

Lemma run_good s L t : inv s L -> bounded s -> good (run t s).
Proof.
  intros I Hb. unfold run. destruct (pcs s !! t) as [c|] eqn:Hc; [|done].
  destruct c; try done; first [by eapply foo_alloc_good|by eapply foo_hold_good|by eapply foo_find_good|by eapply foo_rele_good].
Qed.

Lemma begin_inv s L t op : inv s L -> pcs s !! t = Some Idle -> enabled s op -> inv (begin t op s) L.
Proof.
  intros I Hc He. destruct op as [fp id|fp|id|fp]; simpl in *.
  - destruct He. by apply inv_alloc.
  - apply (inv_same s L t Idle (HLock fp)); unf; try done; [apply same_objs_refl| | |by left].
    + intros q. simpl. unfold upd. rewrite (Z.eqb_sym fp q). destruct (Z.eqb_spec q fp) as [->|]; lia.
    + intros q. unfold upd. pose proof (i_pool _ _ I q). case_match; lia.
  - eapply inv_goto; try done. by left.
  - apply (inv_same s L t Idle (RLock fp)); unf; try done; [apply same_objs_refl| | |by left].
    + intros q. simpl. unfold upd. rewrite (Z.eqb_sym fp q). destruct (Z.eqb_spec q fp) as [->|]; lia.
    + intros q. unfold upd. pose proof (i_pool _ _ I q). case_match; lia.
Qed.

Lemma init_inv T : inv (init T) (fun _ => []).
Proof.
  assert (Hid : forall t c, gset_to_gmap Idle T !! t = Some c -> c = Idle)
    by (intros t c [_ <-]%lookup_gset_to_gmap_Some; done).
  split; unfold init; cbn.
  - intros t. split; [done|]. by intros (c & ->%Hid & ?).
  - intros fp t. split; [done|]. by intros (c & ->%Hid & ?).
  - intros fp. rewrite lookup_empty. unfold refs. cbn. rewrite msum_zero; [done|]. by intros i x ->%Hid.
  - done.
  - done.
  - intros i. split; [constructor|done].
  - intros i fp Hfp. by apply elem_of_nil in Hfp.
  - done.
  - by intros t c ->%Hid.
  - by intros t fp H%Hid.
Qed.

Lemma reachable_inv T s : reachable T s -> exists L, inv s L.
Proof.
  unfold reachable. intros H. remember (init T) as s0 eqn:E.
  assert (exists L, inv s0 L) as H0 by (subst; eexists; apply init_inv). clear E.
  induction H as [|s0 s1 s2 [Hb Hstep] _ IH]; [done|]. apply IH. destruct H0 as [L I].
  destruct Hstep as [t op s0 Hc He|t s0 s1 Hr]; [exists L; by apply begin_inv|].
  pose proof (run_good s0 L t I Hb) as Hg. by rewrite Hr in Hg.
Qed.

(** ** Theorems *)

(** C7: The counts are right and nothing is used after it was freed.  In every reachable
    state of any number of threads that call foo_alloc, foo_find, foo_hold and foo_rele,
    no next statement accesses a freed object, follows a null pointer, unlocks a mutex of
    another thread, destroys a locked mutex or, while an object has fewer than INT_MAX
    references, overflows a count; the count of every
    object is the number of references to it, at least one; and there are no references
    to anything else. *)
Theorem refcount_safe T s :
  reachable T s ->
  (forall fp, match heap s !! fp with Some o => f_count o = refs s fp /\ 1 <= f_count o | None => refs s fp = 0 end) /\
  (bounded s -> forall t why, run t s <> Fault why).
Proof.
  intros [L I]%reachable_inv. split; [apply (i_cnt _ _ I)|]. intros Hb t why Hf.
  pose proof (run_good s L t I Hb) as Hg. by rewrite Hf in Hg.
Qed.

(** A thread that waits for no lock can go on. *)
Lemma owner_runs s L t c fp : inv s L -> bounded s -> pcs s !! t = Some c -> holdsF c = Some fp -> exists s', run t s = Step s'.
Proof.
  intros I Hb Hc HF. pose proof (run_good s L t I Hb) as Hg. unfold run in *. rewrite Hc in *.
  destruct (has_f s L t c I Hc fp HF) as (o & Ho & Hown).
  destruct c; simpl in *; try done; simplify_eq; unfold unlock_h, unlock_f, incr, decr, access in *;
    rewrite ?Ho in *; repeat case_match; try done; eauto.
Qed.

Lemma hash_owner_runs s L t c :
  inv s L -> bounded s -> pcs s !! t = Some c -> holdsH c = true ->
  exists u s', run u s = Step s'.
Proof.
  intros I Hb Hc HH. pose proof (run_good s L t I Hb) as Hg.
  destruct (run t s) as [s'| |why] eqn:Hr; [by exists t, s'| |done].
  assert (exists fp o u, heap s !! fp = Some o /\ f_own o = Some u) as (fp & o & u & Ho & Hown).
  { unfold run in Hr. rewrite Hc in Hr. clear Hg.
    destruct c; simpl in *; try done; unfold unlock_h, unlock_f, incr, decr, lock_f, access in Hr; repeat case_match; try done; eauto. }
  assert (owner s fp = Some u) as Hu by (unfold owner; by rewrite Ho). apply (i_f _ _ I) in Hu as (d & Hd & Hd').
  destruct (owner_runs s L u d fp I Hb Hd Hd') as [s' Hs']. by exists u, s'.
Qed.

(** C15: No deadlock.  In every reachable state in which a call is in progress, some thread
    can execute its next statement: foo_rele, which needs the locks in the wrong order,
    releases the one of the object first. *)
Theorem refcount_no_deadlock T s t c :
  reachable T s -> bounded s -> pcs s !! t = Some c -> c <> Idle -> exists u s', run u s = Step s'.
Proof.
  intros [L I]%reachable_inv Hb Hc Hi. pose proof (run_good s L t I Hb) as Hg.
  destruct (run t s) as [s'| |why] eqn:Hr; [by exists t, s'| |done]. clear Hg.
  assert ((exists u, hashlock s = Some u) \/ exists fp o u, heap s !! fp = Some o /\ f_own o = Some u) as [[u Hu]|(fp & o & u & Ho & Hown)].
  { unfold run in Hr. rewrite Hc in Hr.
    destruct c; simpl in *; try done; unfold lock_h, unlock_h, unlock_f, incr, decr, lock_f, access in Hr; repeat case_match; try done; eauto 6. }
  - apply (i_h _ _ I) in Hu as (d & Hd & Hd'). by eapply hash_owner_runs.
  - assert (owner s fp = Some u) as Hu by (unfold owner; by rewrite Ho). apply (i_f _ _ I) in Hu as (d & Hd & Hd').
    destruct (owner_runs s L u d fp I Hb Hd Hd') as [s' Hs']. by exists u, s'.
Qed.

(** What foo_find finds.  When foo_find is about to return, with the table still
    locked, it returns the first object on the chain that has the identifier, with a
    reference of its own, or NULL when no object on the chain has it. *)
Theorem foo_find_correct T s t id fp :
  reachable T s -> pcs s !! t = Some (FUnl id fp) ->
  hashlock s = Some t /\ exists l, chain (heap s) (fh s (HASH id)) l /\
    if fp =? 0 then absent s id l
    else exists o a b, l = a ++ fp :: b /\ heap s !! fp = Some o /\ f_id o = id /\ 1 <= f_count o /\ absent s id a.
Proof.
  intros [L I]%reachable_inv Hc. split; [by eapply has_h|]. exists (L (HASH id)).
  split; [apply (i_chain _ _ I)|]. pose proof (i_loc _ _ I t _ Hc) as Hl. simpl in Hl.
  destruct (fp =? 0); [done|]. destruct Hl as (o & a & b & Ho & Hid & HL & Ha). exists o, a, b.
  pose proof (i_cnt _ _ I fp) as Hn. rewrite Ho in Hn. split_and!; [done|done|done|lia|done].
Qed.

(** An object lives as long as it is referenced.  When no call is in progress, the
    objects that exist are those with a reference, and each is on the chain of its
    identifier. *)
Theorem refcount_quiescent T s :
  reachable T s -> (forall t c, pcs s !! t = Some c -> c = Idle) ->
  forall fp, (is_Some (heap s !! fp) <-> 1 <= pool s fp) /\
    forall o, heap s !! fp = Some o -> f_count o = pool s fp /\ exists l, chain (heap s) (fh s (HASH (f_id o))) l /\ fp ∈ l.
Proof.
  intros [L I]%reachable_inv Hidle fp. pose proof (i_cnt _ _ I fp) as Hn.
  assert (Hr : refs s fp = pool s fp).
  { unfold refs. rewrite msum_zero; [lia|]. by intros i x ->%Hidle. }
  rewrite Hr in Hn. split.
  - destruct (heap s !! fp); split; intros H; [lia|done|by destruct H|lia].
  - intros o Ho. rewrite Ho in Hn. split; [lia|]. exists (L (HASH (f_id o))). split; [apply (i_chain _ _ I)|].
    destruct (i_out _ _ I fp o Ho) as [|(u & d & ->%Hidle & ?)]; done.
Qed.

(** ** Concrete executions *)

Definition enabledb (s : st) (op : call) : bool :=
  match op with
  | CAlloc fp _ => negb (fp =? 0) && bool_decide (heap s !! fp = None)
  | CHold fp | CRele fp => 1 <=? pool s fp
  | CFind _ => true
  end.

(** A schedule: which thread is next, and the call that it begins, if any. *)
Fixpoint exec (sc : list (Z * option call)) (s : st) : option st :=
  match sc with
  | [] => Some s
  | (t, None) :: sc' => match run t s with Step s' => exec sc' s' | _ => None end
  | (t, Some op) :: sc' =>
    match pcs s !! t with
    | Some Idle => if enabledb s op then exec sc' (begin t op s) else None
    | _ => None
    end
  end.

Lemma carry_le fp c : carry fp c <= 2.
Proof. destruct c; simpl; repeat case_match; lia. Qed.

Definition small (k : Z) (s : st) : Prop := (forall fp, pool s fp <= 2 * k) /\ msum (fun _ => 2) (pcs s) <= 2000000.

Lemma small_bounded k s : small k s -> k <= 1000000 -> bounded s.
Proof.
  intros [Hp Hm] Hk fp. unfold refs. specialize (Hp fp). unfold INT_MAX.
  enough (msum (carry fp) (pcs s) <= msum (fun _ => 2) (pcs s)) by lia. clear.
  induction (pcs s) as [|i x m Hi IH] using map_ind; [done|]. rewrite !msum_insert_new by done. pose proof (carry_le fp x). lia.
Qed.

Lemma small_goto k t c s s' :
  small k s -> is_Some (pcs s !! t) -> pcs s' = <[t := c]> (pcs s) -> (forall fp, pool s' fp <= pool s fp + 2) -> small (k + 1) s'.
Proof.
  intros [Hp Hm] [d Hd] Hs' Hpool. split.
  - intros fp. specialize (Hp fp). specialize (Hpool fp). lia.
  - rewrite Hs', (msum_insert _ _ _ _ _ Hd). lia.
Qed.

Lemma give_le fp n s q : n <= 2 -> upd fp (pool s fp + n) (pool s) q <= pool s q + 2.
Proof. intros H. unfold upd. destruct (Z.eqb_spec q fp) as [->|]; lia. Qed.

Lemma run_small k t s s' : 0 <= k -> small k s -> run t s = Step s' -> small (k + 1) s'.
Proof.
  intros Hk Hs Hr. unfold run in Hr. destruct (pcs s !! t) as [c|] eqn:Hc; [|done].
  assert (Hgo : exists c', pcs s' = <[t := c']> (pcs s) /\ forall fp, pool s' fp <= pool s fp + 2).
  { destruct c; simpl in Hr; try done; unfold lock_h, unlock_h, lock_f, unlock_f, incr, decr, access in Hr; repeat case_match; try done;
      injection Hr as <-; eexists; (split; [reflexivity|]); intros q; cbn; first [apply give_le; lia|lia]. }
  destruct Hgo as (c' & H1 & H2). by eapply small_goto.
Qed.

Lemma begin_small k t op s : small k s -> pcs s !! t = Some Idle -> small (k + 1) (begin t op s).
Proof.
  intros Hs Hc. destruct op; (eapply small_goto; [done|by rewrite Hc|reflexivity|]); intros q; cbn; first [apply give_le; lia|lia].
Qed.

Lemma enabledb_ok s op : enabledb s op = true -> enabled s op.
Proof.
  destruct op; simpl; intros H; [|lia|done|lia]. apply andb_prop in H as [H1 H2]. apply bool_decide_eq_true in H2. split; [|done].
  by destruct (Z.eqb_spec fp 0).
Qed.

Lemma exec_reachable T sc s :
  exec sc (init T) = Some s -> len sc <= 1000000 -> msum (fun _ => 2) (pcs (init T)) <= 2000000 -> reachable T s /\ bounded s.
Proof.
  intros He Hl Hm. assert (Hsm : small 0 (init T)) by done. unfold reachable. clear Hm.
  assert (Hg : forall k s0, 0 <= k -> small k s0 -> k + len sc <= 1000000 -> exec sc s0 = Some s -> rtc bstep s0 s /\ bounded s).
  { clear. induction sc as [|[t op] sc IH]; intros k s0 Hk Hs Hl He; simpl in He.
    { simplify_eq. split; [done|]. eapply small_bounded; [done|]. rewrite len_nil in Hl. lia. }
    rewrite len_cons in Hl. pose proof (len_nonneg sc).
    assert (Hb : bounded s0) by (eapply small_bounded; [done|lia]).
    destruct op as [op|].
    - destruct (pcs s0 !! t) as [[]|] eqn:Hc; try done. destruct (enabledb s0 op) eqn:Hen; [|done].
      destruct (IH (k + 1) (begin t op s0)) as [H1 H2]; [lia|by apply begin_small|lia|done|]. split; [|done].
      eapply rtc_l; [|exact H1]. split; [done|]. constructor; [done|by apply enabledb_ok].
    - destruct (run t s0) as [s1| |] eqn:Hr; try done.
      destruct (IH (k + 1) s1) as [H1 H2]; [lia|by eapply run_small|lia|done|]. split; [|done].
      eapply rtc_l; [|exact H1]. split; [done|]. by eapply step_run. }
  apply (Hg 0); [lia|done|lia|done].
Qed.

(** Thread 1 allocates an object with identifier 5, thread 2 finds it. *)
Definition find_schedule : list (Z * option call) :=
  (1, Some (CAlloc 100 5)) :: replicate 6 (1, None) ++ (2, Some (CFind 5)) :: replicate 6 (2, None).

(** Thread 1 gives its reference back meanwhile; thread 2 gives the last one back: the
    object is freed. *)
Definition rele_schedule : list (Z * option call) :=
  find_schedule ++ (1, Some (CRele 100)) :: (1, None) :: (1, None) :: (1, None) :: (2, None) :: (1, None) ::
  (2, Some (CRele 100)) :: replicate 10 (2, None).

Definition after (sc : list (Z * option call)) : st := default (init {[1; 2]}) (exec sc (init {[1; 2]})).

Lemma after_reachable sc : is_Some (exec sc (init {[1; 2]})) -> len sc <= 1000000 -> reachable {[1; 2]} (after sc) /\ bounded (after sc).
Proof.
  intros [s Hs] Hl. unfold after. rewrite Hs. by apply (exec_reachable _ sc).
Qed.

Lemma refcount_safe_witness :
  match heap (after find_schedule) !! 100 with Some o => f_count o = 2 | None => False end /\
  forall t why, run t (after find_schedule) <> Fault why.
Proof.
  split; [vm_compute; reflexivity|].
  destruct (after_reachable find_schedule) as [Hr Hb]; [vm_compute; eexists; reflexivity|vm_compute; discriminate|].
  exact (proj2 (refcount_safe {[1; 2]} (after find_schedule) Hr) Hb).
Defined.

Lemma refcount_no_deadlock_witness : exists u s', run u (after find_schedule) = Step s'.
Proof.
  destruct (after_reachable find_schedule) as [Hr Hb]; [vm_compute; eexists; reflexivity|vm_compute; discriminate|].
  apply (refcount_no_deadlock {[1; 2]} (after find_schedule) 2 (FUnl 5 100) Hr Hb); [vm_compute; reflexivity|discriminate].
Defined.

Lemma foo_find_correct_witness :
  hashlock (after find_schedule) = Some 2 /\ exists l, chain (heap (after find_schedule)) (fh (after find_schedule) (HASH 5)) l /\
    exists o a b, l = a ++ 100 :: b /\ heap (after find_schedule) !! 100 = Some o /\ f_id o = 5 /\ 1 <= f_count o /\ absent (after find_schedule) 5 a.
Proof.
  destruct (after_reachable find_schedule) as [Hr _]; [vm_compute; eexists; reflexivity|vm_compute; discriminate|].
  exact (foo_find_correct {[1; 2]} (after find_schedule) 2 5 100 Hr ltac:(vm_compute; reflexivity)).
Defined.

Lemma refcount_quiescent_witness :
  heap (after rele_schedule) = ∅ /\ (is_Some (heap (after rele_schedule) !! 100) <-> 1 <= pool (after rele_schedule) 100).
Proof.
  split; [vm_compute; reflexivity|].
  destruct (after_reachable rele_schedule) as [Hr _]; [vm_compute; eexists; reflexivity|vm_compute; discriminate|].
  refine (proj1 (refcount_quiescent {[1; 2]} (after rele_schedule) Hr _ 100)).
  assert (pcs (after rele_schedule) = {[1 := Idle; 2 := Idle]}) as -> by (vm_compute; reflexivity).
  intros t c. rewrite lookup_insert_Some, lookup_singleton_Some. naive_solver.
Defined.
