(* ===== verification/Popen.v ===== *)
(** * Streams to commands (apue.3e/lib/popen.c, openmax.c)

    popen runs a command with a pipe as its input or output, pclose closes the stream and
    waits for the command.  The state has the descriptors of the process, the table
    [childpid], the children not yet waited for, and the descriptors of the processes that
    descend from this one.  A stream is known by its descriptor.  The outcome of each
    system call is an argument. *)

From Stdlib Require Import ZArith Lia Strings.Byte.
From S2P Require Import Prelude.
From stdpp Require Import base strings numbers gmap list relations.
#[local] Open Scope Z_scope.

(** What a descriptor refers to: an end of pipe [p], or something else. *)
Inductive obj := Other (n : Z) | PipeR (p : Z) | PipeW (p : Z).

#[global] Instance obj_eq_dec : EqDecision obj.
Proof. solve_decision. Defined.

Abbreviation files := (gmap Z obj).

Record proc := Proc {
  fds : files; childpid : option (list Z); maxfd : Z; openmax : Z; errno : Z;
  kids : gset Z; procs : gmap Z files; npipe : Z
}.

Definition set_fds m s := Proc m (childpid s) (maxfd s) (openmax s) (errno s) (kids s) (procs s) (npipe s).
Definition set_childpid t s := Proc (fds s) t (maxfd s) (openmax s) (errno s) (kids s) (procs s) (npipe s).
Definition set_maxfd n s := Proc (fds s) (childpid s) n (openmax s) (errno s) (kids s) (procs s) (npipe s).
Definition set_openmax n s := Proc (fds s) (childpid s) (maxfd s) n (errno s) (kids s) (procs s) (npipe s).
Definition set_errno e s := Proc (fds s) (childpid s) (maxfd s) (openmax s) e (kids s) (procs s) (npipe s).
Definition set_kids k p s := Proc (fds s) (childpid s) (maxfd s) (openmax s) (errno s) k p (npipe s).
Definition new_pipe r w s :=
  Proc (<[w := PipeW (npipe s)]> (<[r := PipeR (npipe s)]> (fds s))) (childpid s) (maxfd s) (openmax s) (errno s)
    (kids s) (procs s) (npipe s + 1).

Definition ECHILD : Z := 10.
Definition EINTR : Z := 4.
Definition EINVAL : Z := 22.
Definition EMFILE : Z := 24.
Definition STDIN_FILENO : Z := 0.
Definition STDOUT_FILENO : Z := 1.

(** ** The system calls *)

(** The outcomes: sysconf returns a limit, -1 and no error number (no limit), or an
    error; pipe returns two descriptors, fork the number of the child. *)
Record outs := Outs {
  o_sysconf : Z * Z; o_calloc : bool; o_pipe : Z + Z * Z; o_fork : Z + Z; o_fdopen : option Z
}.

Definition close (fd : Z) : M proc unit := modst (fun s => set_fds (delete fd (fds s)) s).

Definition fail {A} (e : Z) (a : A) : M proc A := modst (set_errno e) ;;; ret a.

Definition OPEN_MAX_GUESS : Z := 256.

Definition open_max (o : outs) : M proc Z :=
  s <- getst ;;
  if openmax s =? 0 then
    modst (set_errno 0) ;;;
    let '(n, e) := o_sysconf o in
    modst (set_openmax n) ;;;
    if n <? 0 then
      modst (set_errno e) ;;;
      if e =? 0 then modst (set_openmax OPEN_MAX_GUESS) ;;; ret OPEN_MAX_GUESS
      else die (DSys "sysconf error for _SC_OPEN_MAX")
    else ret n
  else ret (openmax s).

(** ** popen *)

(** ["r"] or ["w"]: does the caller read? *)
Definition mode (type : bytes) : option bool :=
  match type with
  | [c] => if bool_decide (c = x72) then Some true else if bool_decide (c = x77) then Some false else None
  | _ => None
  end.

(** The table is allocated by the first call; a negative size is too large for calloc. *)
Definition first_time (o : outs) : M proc bool :=
  s <- getst ;;
  match childpid s with
  | Some _ => ret true
  | None =>
    n <- open_max o ;;
    let n := i32 n in
    modst (set_maxfd n) ;;;
    if o_calloc o && (0 <=? n) then modst (set_childpid (Some (replicate (Z.to_nat n) 0))) ;;; ret true
    else ret false
  end.

Definition dup2 (a b : Z) (m : files) : files := match m !! a with Some e => <[b := e]> m | None => m end.

(** [for (i = 0; i < maxfd; i++) if (childpid[i] > 0) close(i);] *)
Fixpoint close_streams (i : Z) (tbl : list Z) (m : files) : files :=
  match tbl with
  | [] => m
  | pid :: tbl' => close_streams (i + 1) tbl' (if 0 <? pid then delete i m else m)
  end.

(** The descriptors of the child when it executes the shell. *)
Definition child_fds (rd : bool) (r w : Z) (tbl : list Z) (m : files) : files :=
  close_streams 0 tbl
    (if rd then
       let m := delete r m in
       if w =? STDOUT_FILENO then m else delete w (dup2 w STDOUT_FILENO m)
     else
       let m := delete w m in
       if r =? STDIN_FILENO then m else delete r (dup2 r STDIN_FILENO m)).

(** The parent after fork. *)
Definition parent (o : outs) (rd : bool) (r w pid : Z) : M proc (option Z) :=
  close (if rd then w else r) ;;;
  match o_fdopen o with
  | Some e => fail e None
  | None =>
    let fd := if rd then r else w in
    s <- getst ;;
    match childpid s with
    | Some tbl =>
      if (0 <=? fd) && (fd <? len tbl) then
        modst (set_childpid (Some (<[Z.to_nat fd := pid]> tbl))) ;;; ret (Some fd)
      else undef "childpid[fileno(fp)]"
    | None => undef "childpid"
    end
  end.

Definition popen (o : outs) (type : bytes) : M proc (option Z) :=
  match mode type with
  | None => fail EINVAL None
  | Some rd =>
    ok <- first_time o ;;
    if negb ok then ret None else
    match o_pipe o with
    | inl e => fail e None
    | inr (r, w) =>
      modst (new_pipe r w) ;;;
      s <- getst ;;
      if (maxfd s <=? r) || (maxfd s <=? w) then close r ;;; close w ;;; fail EMFILE None
      else
        match o_fork o with
        | inl e => fail e None
        | inr pid =>
          let child := child_fds rd r w (default [] (childpid s)) (fds s) in
          modst (set_kids (kids s ∪ {[pid]}) (<[pid := child]> (procs s))) ;;;
          parent o rd r w pid
        end
    end
  end.

(** ** pclose *)

(** waitpid is interrupted by a signal, fails, or returns the status of the child, which
    has ended. *)
Inductive wait_ev := Intr | WErr (e : Z) | Exited (stat : Z).

(** Without an event the call still waits. *)
Fixpoint wait_loop (pid : Z) (evs : list wait_ev) : M proc Z :=
  s <- getst ;;
  if bool_decide (pid ∉ kids s) then fail ECHILD (-1)
  else
    match evs with
    | [] => fun _ => NoFuel
    | Intr :: evs' => modst (set_errno EINTR) ;;; wait_loop pid evs'
    | WErr e :: evs' => modst (set_errno e) ;;; if e =? EINTR then wait_loop pid evs' else ret (-1)
    | Exited stat :: _ => modst (set_kids (kids s ∖ {[pid]}) (delete pid (procs s))) ;;; ret stat
    end.

(** The part before the wait: the value to return at once, or the process to wait for.
    fclose ends the stream and closes the descriptor also when it returns EOF. *)
Definition pclose_begin (o_fclose : option Z) (fd : Z) : M proc (Z + Z) :=
  s <- getst ;;
  match childpid s with
  | None => fail EINVAL (inl (-1))
  | Some tbl =>
    if maxfd s <=? fd then fail EINVAL (inl (-1))
    else
      match (if 0 <=? fd then tbl !! Z.to_nat fd else None) with
      | None => undef "childpid[fd]"
      | Some pid =>
        if pid =? 0 then fail EINVAL (inl (-1))
        else
          modst (set_childpid (Some (<[Z.to_nat fd := 0]> tbl))) ;;;
          close fd ;;;
          match o_fclose with
          | Some e => fail e (inl (-1))
          | None => ret (inr pid)
          end
      end
  end.

Definition pclose (o_fclose : option Z) (evs : list wait_ev) (fd : Z) : M proc Z :=
  r <- pclose_begin o_fclose fd ;;
  match r with
  | inl v => ret v
  | inr pid => wait_loop pid evs
  end.
