(* ===== verification/PopenProofs.v ===== *)
(** * Theorems on streams to commands *)

From Stdlib Require Import ZArith Lia Strings.Byte.
From S2P Require Import Prelude Popen.
From stdpp Require Import base strings numbers gmap list relations.
#[local] Open Scope Z_scope.

(** ** Executions *)

Definition pipe_of (e : obj) : option Z := match e with Other _ => None | PipeR p | PipeW p => Some p end.

(** What is documented of pipe and fork: free descriptors, and the number of a process
    that does not exist. *)
Record wf_outs (s : proc) (o : outs) : Prop := {
  wf_pipe : forall r w, o_pipe o = inr (r, w) -> 0 <= r /\ 0 <= w /\ r <> w /\ fds s !! r = None /\ fds s !! w = None;
  wf_fork : forall pid, o_fork o = inr pid -> 0 < pid /\ (pid ∉ kids s) /\ procs s !! pid = None
}.

(** The child of the stream on [fd], if that is one. *)
Definition stream_pid (s : proc) (fd : Z) : option Z :=
  tbl ← childpid s; pid ← (if 0 <=? fd then tbl !! Z.to_nat fd else None); if pid =? 0 then None else Some pid.

(** The process calls popen and pclose, waits for children that have no stream, and opens
    and closes descriptors of its own; the other processes may keep, copy and close what
    they have, start more processes, and end. *)
Inductive step : proc -> proc -> Prop :=
| step_popen o type s r s' : wf_outs s o -> popen o type s = Ret r s' -> step s s'
| step_pclose oc fd s r s' : pclose_begin oc fd s = Ret r s' -> step s s'
| step_wait pid evs s r s' : (forall fd, stream_pid s fd <> Some pid) -> wait_loop pid evs s = Ret r s' -> step s s'
| step_open fd n s : fds s !! fd = None -> step s (set_fds (<[fd := Other n]> (fds s)) s)
| step_close fd s : stream_pid s fd = None -> step s (set_fds (delete fd (fds s)) s)
| step_other q m m' s :
    procs s !! q = Some m -> (forall j e, m' !! j = Some e -> is_Some (pipe_of e) -> exists i, m !! i = Some e) ->
    step s (set_kids (kids s) (<[q := m']> (procs s)) s)
| step_spawn q q' m s : procs s !! q = Some m -> step s (set_kids (kids s) (<[q' := m]> (procs s)) s)
| step_exit q s : step s (set_kids (kids s) (delete q (procs s)) s).

(** At the start there is no pipe. *)
Definition init (m : files) : proc := Proc m None 0 0 0 ∅ ∅ 0.

Definition reachable (m : files) (s : proc) : Prop :=
  (forall fd e, m !! fd = Some e -> pipe_of e = None) /\ rtc step (init m) s.

(** ** The descriptors of a child *)

Lemma close_streams_lookup tbl i m j :
  close_streams i tbl m !! j =
  if (i <=? j) && (0 <? default 0 (tbl !! Z.to_nat (j - i))) then None else m !! j.
Proof.
  revert i m. induction tbl as [|pid tbl IH]; intros i m; simpl.
  { by rewrite andb_false_r. }
  rewrite IH. destruct (Z.leb_spec (i + 1) j) as [Hj|Hj].
  - assert ((i <=? j) = true) as -> by lia.
    replace (Z.to_nat (j - i)) with (S (Z.to_nat (j - (i + 1)))) by lia. change ((pid :: tbl) !! S ?n) with (tbl !! n).
    destruct (0 <? default 0 (tbl !! Z.to_nat (j - (i + 1)))); [done|]. cbn [andb]. destruct (0 <? pid); [|done]. rewrite lookup_delete_ne; [done|lia].
  - cbn [andb]. destruct (Z.eq_dec j i) as [->|].
    + rewrite Z.leb_refl, Z.sub_diag. change (Z.to_nat 0) with 0%nat. change ((pid :: tbl) !! 0%nat) with (Some pid). cbn [default from_option id andb].
      destruct (0 <? pid); [by rewrite lookup_delete_eq|done].
    + assert ((i <=? j) = false) as -> by lia. cbn. destruct (0 <? pid); [|done]. rewrite lookup_delete_ne; [done|lia].
Qed.

(** The descriptor and the end that the child keeps, and those of the stream. *)
Definition child_std (rd : bool) : Z := if rd then STDOUT_FILENO else STDIN_FILENO.
Definition child_end (rd : bool) (p : Z) : obj := if rd then PipeW p else PipeR p.
Definition stream_end (rd : bool) (p : Z) : obj := if rd then PipeR p else PipeW p.

(** The child has the descriptors of the parent except the streams and the pipe, which is
    its standard input or output. *)
Lemma child_fds_lookup rd r w tbl s :
  r <> w ->
  forall j, child_fds rd r w tbl (fds (new_pipe r w s)) !! j =
    if (0 <=? j) && (0 <? default 0 (tbl !! Z.to_nat j)) then None
    else if j =? child_std rd then Some (child_end rd (npipe s))
    else if (j =? r) || (j =? w) then None else fds s !! j.
Proof.
  intros Hrw j. unfold child_fds. rewrite close_streams_lookup, Z.sub_0_r.
  destruct ((0 <=? j) && (0 <? default 0 (tbl !! Z.to_nat j))); [done|]. simpl fds.
  assert (Hr : (r =? w) = false) by lia.
  destruct rd; unfold child_std, child_end, STDOUT_FILENO, STDIN_FILENO.
  - destruct (Z.eqb_spec w 1) as [->|Hw].
    + destruct (Z.eqb_spec j 1) as [->|]; [by rewrite lookup_delete_ne, lookup_insert_eq by lia|].
      destruct (Z.eqb_spec j r) as [->|]; simpl; [by rewrite lookup_delete_eq|].
      by rewrite lookup_delete_ne, !lookup_insert_ne by lia.
    + unfold dup2. rewrite (lookup_delete_ne _ r w), lookup_insert_eq by lia.
      destruct (Z.eqb_spec j 1) as [->|]; [by rewrite lookup_delete_ne, lookup_insert_eq by lia|].
      destruct (Z.eqb_spec j w) as [->|]; [by rewrite orb_true_r, lookup_delete_eq|].
      rewrite orb_false_r, lookup_delete_ne, lookup_insert_ne by lia.
      destruct (Z.eqb_spec j r) as [->|]; [by rewrite lookup_delete_eq|]. by rewrite lookup_delete_ne, !lookup_insert_ne by lia.
  - destruct (Z.eqb_spec r 0) as [->|Hw].
    + destruct (Z.eqb_spec j 0) as [->|]; [by rewrite lookup_delete_ne, lookup_insert_ne, lookup_insert_eq by lia|].
      destruct (Z.eqb_spec j w) as [->|]; [by rewrite lookup_delete_eq|].
      by rewrite lookup_delete_ne, !lookup_insert_ne by lia.
    + unfold dup2. rewrite (lookup_delete_ne _ w r), (lookup_insert_ne _ w r), lookup_insert_eq by lia.
      destruct (Z.eqb_spec j 0) as [->|]; [by rewrite lookup_delete_ne, lookup_insert_eq by lia|].
      destruct (Z.eqb_spec j r) as [->|]; simpl; [by rewrite lookup_delete_eq|].
      rewrite lookup_delete_ne, lookup_insert_ne by lia.
      destruct (Z.eqb_spec j w) as [->|]; [by rewrite lookup_delete_eq|]. by rewrite lookup_delete_ne, !lookup_insert_ne by lia.
Qed.

(** ** The invariant *)

(** Only descriptor [fd] of this process refers to [e]. *)
Definition alone (s : proc) (fd : Z) (e : obj) : Prop :=
  fds s !! fd = Some e /\ (forall fd', fds s !! fd' = Some e -> fd' = fd) /\
  forall q m j, procs s !! q = Some m -> m !! j <> Some e.

Record inv (s : proc) : Prop := {
  i_len : forall tbl, childpid s = Some tbl -> len tbl = maxfd s;
  i_fds : forall fd e p, fds s !! fd = Some e -> pipe_of e = Some p -> p < npipe s;
  i_procs : forall q m j e p, procs s !! q = Some m -> m !! j = Some e -> pipe_of e = Some p -> p < npipe s;
  i_stream : forall fd pid, stream_pid s fd = Some pid -> 0 < pid /\ pid ∈ kids s /\ exists rd p, alone s fd (stream_end rd p);
  i_inj : forall i j pid, stream_pid s i = Some pid -> stream_pid s j = Some pid -> i = j
}.

Lemma stream_pid_Some s fd pid :
  stream_pid s fd = Some pid <->
  exists tbl, childpid s = Some tbl /\ 0 <= fd /\ tbl !! Z.to_nat fd = Some pid /\ pid <> 0.
Proof.
  unfold stream_pid. destruct (childpid s) as [tbl|]; simpl; [|split; [done|intros (? & ? & _); done]].
  destruct (Z.leb_spec 0 fd); simpl; [|split; [done|intros (? & ? & ? & _); lia]].
  destruct (tbl !! Z.to_nat fd) as [q|] eqn:Hq; simpl; [|split; [done|intros (? & ? & _ & ? & _); congruence]].
  destruct (Z.eqb_spec q 0) as [->|]; (split; [intros ?; simplify_eq; eauto 6|intros (? & ? & _ & ? & ?); congruence]).
Qed.

Lemma stream_pid_eq s s' fd : childpid s' = childpid s -> stream_pid s' fd = stream_pid s fd.
Proof. unfold stream_pid. by intros ->. Qed.

(** Storing into the table. *)
Lemma stream_pid_insert s tbl fd v j :
  childpid s = Some tbl -> 0 <= fd < len tbl ->
  stream_pid (set_childpid (Some (<[Z.to_nat fd := v]> tbl)) s) j =
  if j =? fd then (if v =? 0 then None else Some v) else stream_pid s j.
Proof.
  intros Ht Hfd. unfold stream_pid. simpl. rewrite Ht. simpl. destruct (Z.eqb_spec j fd) as [->|Hj].
  - rewrite (proj2 (Z.leb_le 0 fd)) by lia. rewrite list_lookup_insert_eq by (unfold len in *; lia). done.
  - destruct (Z.leb_spec 0 j); [|done]. by rewrite list_lookup_insert_ne by lia.
Qed.

(** [inv] does not depend on the error number and the limit. *)
Lemma proc_inv_same s s' :
  inv s -> fds s' = fds s -> childpid s' = childpid s -> (is_Some (childpid s) -> maxfd s' = maxfd s) ->
  kids s' = kids s -> procs s' = procs s -> npipe s' = npipe s -> inv s'.
Proof.
  intros I H1 H2 H3 H4 H5 H6. assert (Hs : forall fd, stream_pid s' fd = stream_pid s fd) by (intros; by apply stream_pid_eq).
  split; rewrite ?H1, ?H4, ?H5, ?H6.
  - intros tbl Ht. rewrite H2 in Ht. rewrite H3 by eauto. by apply (i_len _ I).
  - apply (i_fds _ I).
  - apply (i_procs _ I).
  - intros fd pid. rewrite Hs. unfold alone. rewrite H1, H5. apply (i_stream _ I).
  - intros i j pid. rewrite !Hs. apply (i_inj _ I).
Qed.

Lemma inv_errno e s : inv s -> inv (set_errno e s).
Proof. intros I. by apply (proc_inv_same s). Qed.

(** Descriptors without a stream may be closed. *)
Lemma inv_close fd s : inv s -> stream_pid s fd = None -> inv (set_fds (delete fd (fds s)) s).
Proof.
  intros I Hn. assert (Hs : forall j, stream_pid (set_fds (delete fd (fds s)) s) j = stream_pid s j) by (intros; by apply stream_pid_eq).
  split; simpl.
  - apply (i_len _ I).
  - intros j e p [_ ?]%lookup_delete_Some. by eapply (i_fds _ I).
  - apply (i_procs _ I).
  - intros j pid. rewrite Hs. intros Hj. destruct (i_stream _ I j pid Hj) as (Hp & Hk & rd & p & H1 & H2 & H3).
    split; [done|]. split; [done|]. exists rd, p. split_and!; simpl; [|intros j' [_ ?]%lookup_delete_Some; by apply H2|done].
    rewrite lookup_delete_ne; [done|]. intros ->. congruence.
  - intros i j pid. rewrite !Hs. apply (i_inj _ I).
Qed.

Lemma stream_end_pipe rd p : pipe_of (stream_end rd p) = Some p.
Proof. by destruct rd. Qed.

(** A new pipe, and other new descriptors. *)
Lemma inv_new_pipe r w s :
  inv s -> r <> w -> fds s !! r = None -> fds s !! w = None -> inv (new_pipe r w s).
Proof.
  intros I Hrw Hr Hw. assert (Hs : forall j, stream_pid (new_pipe r w s) j = stream_pid s j) by (intros; by apply stream_pid_eq).
  split; simpl.
  - apply (i_len _ I).
  - intros j e p. rewrite !lookup_insert_Some. intros [[<- <-]|[? [[<- <-]|[? Hj]]]] Hp;
      simpl in *; simplify_eq; try lia. pose proof (i_fds _ I _ _ _ Hj Hp). lia.
  - intros q m j e p H1 H2 H3. pose proof (i_procs _ I _ _ _ _ _ H1 H2 H3). lia.
  - intros j pid. rewrite Hs. intros Hj. destruct (i_stream _ I j pid Hj) as (Hp & Hk & rd & p & H1 & H2 & H3).
    split; [done|]. split; [done|]. exists rd, p. pose proof (i_fds _ I _ _ _ H1 (stream_end_pipe rd p)).
    split_and!; simpl; [| |done].
    + rewrite !lookup_insert_ne; [done|congruence|congruence].
    + intros j'. rewrite !lookup_insert_Some. intros [[? He]|[? [[? He]|[? He]]]]; [| |by apply H2].
      all: destruct rd; simpl in He; simplify_eq; lia.
  - intros i j pid. rewrite !Hs. apply (i_inj _ I).
Qed.

(** The other processes change: what is new in them are no ends of streams. *)
Lemma inv_procs k P s :
  inv s -> (forall fd pid, stream_pid s fd = Some pid -> pid ∈ k) ->
  (forall q m j e p, P !! q = Some m -> m !! j = Some e -> pipe_of e = Some p -> p < npipe s) ->
  (forall q m j fd rd p, P !! q = Some m -> m !! j = Some (stream_end rd p) -> is_Some (stream_pid s fd) ->
     alone s fd (stream_end rd p) -> False) ->
  inv (set_kids k P s).
Proof.
  intros I Hk H1 H2. assert (Hs : forall j, stream_pid (set_kids k P s) j = stream_pid s j) by (intros; by apply stream_pid_eq).
  split; simpl; [apply (i_len _ I)|apply (i_fds _ I)|done| |].
  - intros fd pid. rewrite Hs. intros Hfd. destruct (i_stream _ I fd pid Hfd) as (Hp & Hin & rd & p & Ha).
    split; [done|]. split; [by eapply Hk|]. exists rd, p. pose proof Ha as (A1 & A2 & _). split_and!; [done|done|].
    intros q m j Hq Hm. by apply (H2 q m j fd rd p).
  - intros i j pid. rewrite !Hs. apply (i_inj _ I).
Qed.

(** A child that popen starts has no end of a stream. *)
Lemma child_objs s rd r w tbl j e :
  inv s -> childpid s = Some tbl -> r <> w ->
  child_fds rd r w tbl (fds (new_pipe r w s)) !! j = Some e ->
  e = child_end rd (npipe s) \/ fds s !! j = Some e /\ stream_pid s j = None.
Proof.
  intros I Ht Hrw. rewrite child_fds_lookup by done.
  destruct ((0 <=? j) && (0 <? default 0 (tbl !! Z.to_nat j))) eqn:Hc; [done|].
  destruct (Z.eqb_spec j (child_std rd)); [intros [= <-]; by left|].
  destruct ((j =? r) || (j =? w)); [done|]. intros He. right. split; [done|].
  destruct (stream_pid s j) as [pid|] eqn:Hs; [|done]. pose proof (i_stream _ I _ _ Hs) as [Hp _].
  apply stream_pid_Some in Hs as (tbl' & ? & Hj & Hl & _). simplify_eq. rewrite Hl in Hc. simpl in Hc. lia.
Qed.

Lemma child_end_pipe rd p : pipe_of (child_end rd p) = Some p.
Proof. by destruct rd. Qed.

Lemma child_stream_end rd rd' p p' : child_end rd p = stream_end rd' p' -> p = p' /\ rd' = negb rd.
Proof. destruct rd, rd'; naive_solver. Qed.

Lemma inv_fork s rd r w tbl pid :
  inv s -> childpid s = Some tbl -> r <> w -> fds s !! r = None -> fds s !! w = None ->
  inv (set_kids (kids s ∪ {[pid]}) (<[pid := child_fds rd r w tbl (fds (new_pipe r w s))]> (procs s)) (new_pipe r w s)).
Proof.
  intros I Ht Hrw Hr Hw. pose proof (inv_new_pipe r w s I Hrw Hr Hw) as I'. apply inv_procs; simpl; [done| | |].
  - intros fd q Hq. destruct (i_stream _ I' _ _ Hq) as (_ & Hin & _). simpl in Hin. set_solver.
  - intros q m j e p. rewrite lookup_insert_Some. intros [[<- <-]|[_ Hq]] Hm Hp; [|by eapply (i_procs _ I')].
    destruct (child_objs s rd r w tbl j e I Ht Hrw Hm) as [->|[He _]].
    + rewrite child_end_pipe in Hp. simplify_eq. lia.
    + pose proof (i_fds _ I _ _ _ He Hp). lia.
  - intros q m j fd rd' p. rewrite lookup_insert_Some. intros [[<- <-]|[_ Hq]] Hm [q' Hq'] (A1 & A2 & A3); [|by eapply A3].
    assert (Hf : stream_pid s fd = Some q') by (by rewrite <- Hq').
    destruct (child_objs s rd r w tbl j _ I Ht Hrw Hm) as [He|[He Hn]].
    + symmetry in He. apply child_stream_end in He as [<- _].
      destruct (i_stream _ I _ _ Hf) as (_ & _ & rd2 & p2 & B1 & _). pose proof (i_fds _ I _ _ _ B1 (stream_end_pipe _ _)).
      simpl in A1. rewrite !lookup_insert_ne in A1 by congruence. pose proof (i_fds _ I _ _ _ A1 (stream_end_pipe _ _)). lia.
    + assert (j = fd) as -> by (apply A2; simpl; rewrite !lookup_insert_ne by congruence; done). congruence.
Qed.

Lemma inv_add s tbl fd pid rd p :
  inv s -> childpid s = Some tbl -> 0 <= fd < len tbl -> 0 < pid -> pid ∈ kids s ->
  (forall j, stream_pid s j <> Some pid) -> alone s fd (stream_end rd p) ->
  inv (set_childpid (Some (<[Z.to_nat fd := pid]> tbl)) s).
Proof.
  intros I Ht Hfd Hpid Hk Hn Ha. split; simpl; [|apply (i_fds _ I)|apply (i_procs _ I)| |].
  - intros t [= <-]. rewrite <- (i_len _ I _ Ht). unfold len. by rewrite length_insert.
  - intros j q. rewrite stream_pid_insert by done. destruct (Z.eqb_spec j fd) as [->|]; [|apply (i_stream _ I)].
    destruct (Z.eqb_spec pid 0); [lia|]. intros [= <-]. eauto 6.
  - intros i j q. rewrite !stream_pid_insert by done. destruct (Z.eqb_spec pid 0); [lia|].
    repeat case_match; try (intros; simplify_eq; lia); intros; simplify_eq; try (exfalso; by eapply Hn). by eapply (i_inj _ I).
Qed.

Lemma inv_clear s tbl fd :
  inv s -> childpid s = Some tbl -> 0 <= fd < len tbl -> inv (set_childpid (Some (<[Z.to_nat fd := 0]> tbl)) s).
Proof.
  intros I Ht Hfd. split; simpl; [|apply (i_fds _ I)|apply (i_procs _ I)| |].
  - intros t [= <-]. rewrite <- (i_len _ I _ Ht). unfold len. by rewrite length_insert.
  - intros j q. rewrite stream_pid_insert by done. destruct (j =? fd); [done|apply (i_stream _ I)].
  - intros i j q. rewrite !stream_pid_insert by done. repeat case_match; try done. apply (i_inj _ I).
Qed.

(** ** The calls preserve it *)

(** The same but for the error number, the limit and, in the first call, the table. *)
Definition same_world (s s' : proc) : Prop :=
  fds s' = fds s /\ kids s' = kids s /\ procs s' = procs s /\ npipe s' = npipe s.

Lemma open_max_world o s n s' : open_max o s = Ret n s' -> same_world s s' /\ childpid s' = childpid s /\ maxfd s' = maxfd s.
Proof.
  unfold open_max, bind, getst, modst, ret, die. destruct (openmax s =? 0); [|by intros [= <- <-]].
  destruct (o_sysconf o) as [m e]. destruct (m <? 0); [|by intros [= <- <-]]. destruct (e =? 0); [by intros [= <- <-]|done].
Qed.

Lemma first_time_inv o s b s' :
  first_time o s = Ret b s' ->
  same_world s s' /\ (is_Some (childpid s) -> b = true /\ s' = s) /\
  (childpid s = None -> if b then 0 <= maxfd s' /\ childpid s' = Some (replicate (Z.to_nat (maxfd s')) 0) else childpid s' = None).
Proof.
  unfold first_time, bind, getst. destruct (childpid s) eqn:Hc; [intros [= <- <-]; by split_and!|].
  destruct (open_max o s) as [n s1|d s1| |] eqn:Ho; try done. apply open_max_world in Ho as ((H1 & H2 & H3 & H4) & H5 & _).
  cbv beta zeta iota delta [modst]. destruct (o_calloc o && (0 <=? i32 n)) eqn:Hn; intros [= <- <-];
    (split_and!; [done|by intros []|]); intros _; simpl; [|congruence]. split; [lia|done].
Qed.

Lemma stream_pid_replicate s n fd : childpid s = Some (replicate n 0) -> stream_pid s fd = None.
Proof.
  intros Ht. destruct (stream_pid s fd) as [pid|] eqn:Hs; [|done].
  apply stream_pid_Some in Hs as (tbl & ? & _ & Hl & Hp). simplify_eq. by apply lookup_replicate in Hl as [-> _].
Qed.

Lemma inv_first o s b s' : inv s -> first_time o s = Ret b s' -> inv s'.
Proof.
  intros I Hf. apply first_time_inv in Hf as ((H1 & H2 & H3 & H4) & Hsome & Hnone).
  destruct (childpid s) as [tbl|] eqn:Hc; [destruct Hsome as [_ ->]; eauto|]. specialize (Hnone eq_refl).
  assert (Hs : forall fd, stream_pid s' fd = None).
  { intros fd. destruct b; [destruct Hnone as [_ Hn]; by eapply stream_pid_replicate|]. unfold stream_pid. by rewrite Hnone. }
  split; rewrite ?H1, ?H2, ?H3, ?H4; [|apply (i_fds _ I)|apply (i_procs _ I)|intros ??; by rewrite Hs|intros ???; by rewrite Hs].
  intros t Ht. destruct b; [|congruence]. destruct Hnone as [? Hn]. rewrite Hn in Ht. simplify_eq. unfold len. rewrite length_replicate. lia.
Qed.

(** What a call that returns a stream has done. *)
Lemma popen_some_inv o type s fd s' :
  popen o type s = Ret (Some fd) s' ->
  exists rd s1 r w pid tbl, mode type = Some rd /\ first_time o s = Ret true s1 /\ o_pipe o = inr (r, w) /\
    o_fork o = inr pid /\ childpid s1 = Some tbl /\ r < maxfd s1 /\ w < maxfd s1 /\ fd = (if rd then r else w) /\ 0 <= fd < len tbl /\
    s' = set_childpid (Some (<[Z.to_nat fd := pid]> tbl))
           (set_fds (delete (if rd then w else r) (fds (new_pipe r w s1)))
             (set_kids (kids s1 ∪ {[pid]}) (<[pid := child_fds rd r w tbl (fds (new_pipe r w s1))]> (procs s1)) (new_pipe r w s1))).
Proof.
  unfold popen. destruct (mode type) as [rd|]; [|done]. intros H. apply bind_inv in H as (ok & s1 & Hf & H).
  destruct ok; [|done]. cbn [negb] in H. destruct (o_pipe o) as [e|[r w]]; [done|].
  unfold bind, modst, getst in H. cbn [maxfd new_pipe] in H.
  destruct ((maxfd s1 <=? r) || (maxfd s1 <=? w)) eqn:Hm; [done|]. apply orb_false_iff in Hm as [Hm1 Hm2].
  destruct (o_fork o) as [e|pid]; [done|]. unfold parent, close, bind, modst, getst in H.
  destruct (o_fdopen o) as [e|]; [done|]. cbn in H. destruct (childpid s1) as [tbl|] eqn:Ht; [|done].
  destruct ((0 <=? if rd then r else w) && ((if rd then r else w) <? len tbl)) eqn:Hfd; [|done]. unfold ret in H. simplify_eq.
  exists rd, s1, r, w, pid, tbl. split_and!; try done; lia.
Qed.

Lemma free_no_stream s fd : inv s -> fds s !! fd = None -> stream_pid s fd = None.
Proof.
  intros I Hn. destruct (stream_pid s fd) as [pid|] eqn:Hs; [|done].
  destruct (i_stream _ I _ _ Hs) as (_ & _ & rd & p & Ha & _). congruence.
Qed.

(** The outcomes of a call that returns NULL. *)
Inductive popen_null (o : outs) (type : bytes) (s : proc) : proc -> Prop :=
| null_type : mode type = None -> popen_null o type s (set_errno EINVAL s)
| null_calloc s1 : first_time o s = Ret false s1 -> popen_null o type s s1
| null_pipe s1 e : first_time o s = Ret true s1 -> o_pipe o = inl e -> popen_null o type s (set_errno e s1)
| null_emfile s1 r w : first_time o s = Ret true s1 -> o_pipe o = inr (r, w) -> maxfd s1 <= r \/ maxfd s1 <= w ->
    popen_null o type s (set_errno EMFILE (set_fds (delete w (delete r (fds (new_pipe r w s1)))) (new_pipe r w s1)))
| null_fork s1 r w e : first_time o s = Ret true s1 -> o_pipe o = inr (r, w) -> o_fork o = inl e ->
    popen_null o type s (set_errno e (new_pipe r w s1))
| null_fdopen s1 r w pid e (rd : bool) tbl : first_time o s = Ret true s1 -> o_pipe o = inr (r, w) -> o_fork o = inr pid -> o_fdopen o = Some e ->
    tbl = default [] (childpid s1) -> mode type = Some rd ->
    popen_null o type s
      (set_errno e (set_fds (delete (if rd then w else r) (fds (new_pipe r w s1)))
         (set_kids (kids s1 ∪ {[pid]}) (<[pid := child_fds rd r w tbl (fds (new_pipe r w s1))]> (procs s1)) (new_pipe r w s1)))).

Lemma popen_null_inv o type s s' : popen o type s = Ret None s' -> popen_null o type s s'.
Proof.
  unfold popen, fail. destruct (mode type) as [rd|] eqn:Hmode; [|intros [= <-]; by constructor].
  intros H. apply bind_inv in H as (ok & s1 & Hf & H). destruct ok; cbn [negb] in H; [|injection H as <-; by constructor].
  destruct (o_pipe o) as [e|[r w]] eqn:Hp; [injection H as <-; by constructor|].
  unfold bind, modst, getst, close, parent in H. cbn [maxfd new_pipe] in H.
  destruct ((maxfd s1 <=? r) || (maxfd s1 <=? w)) eqn:Hm.
  { injection H as <-. apply null_emfile; [done|done|lia]. }
  destruct (o_fork o) as [e|pid] eqn:Hk; [injection H as <-; by apply null_fork|].
  destruct (o_fdopen o) as [e|] eqn:He; [injection H as <-; by apply null_fdopen|].
  cbn in H. destruct (childpid s1); [|done]. by case_match.
Qed.

Lemma wf_first o s b s1 : wf_outs s o -> first_time o s = Ret b s1 -> wf_outs s1 o.
Proof.
  intros [H1 H2] Hf. apply first_time_inv in Hf as ((E1 & E2 & E3 & _) & _). split; rewrite ?E1, ?E2, ?E3; done.
Qed.

Lemma first_table o s s1 : first_time o s = Ret true s1 -> exists tbl, childpid s1 = Some tbl.
Proof.
  intros Hf. apply first_time_inv in Hf as (_ & Hs & Hn). destruct (childpid s) as [tbl|] eqn:Hc; [|naive_solver].
  destruct Hs as [_ ->]; eauto.
Qed.

(** After fork the descriptor that the stream keeps is the only one with its end. *)
Lemma new_stream_alone s (rd : bool) r w tbl pid :
  inv s -> childpid s = Some tbl -> r <> w -> fds s !! r = None -> fds s !! w = None ->
  alone (set_fds (delete (if rd then w else r) (fds (new_pipe r w s)))
     (set_kids (kids s ∪ {[pid]}) (<[pid := child_fds rd r w tbl (fds (new_pipe r w s))]> (procs s)) (new_pipe r w s)))
    (if rd then r else w) (stream_end rd (npipe s)).
Proof.
  intros I Ht Hrw Hr Hw. assert (Hold : forall j, fds s !! j <> Some (stream_end rd (npipe s))).
  { intros j Hj. pose proof (i_fds _ I _ _ _ Hj (stream_end_pipe _ _)). lia. }
  split_and!; simpl.
  - destruct rd; rewrite lookup_delete_ne by done; [rewrite lookup_insert_ne by done|]; by rewrite lookup_insert_eq.
  - intros j [Hj1 Hj2]%lookup_delete_Some. rewrite !lookup_insert_Some in Hj2.
    destruct rd; naive_solver.
  - intros q m j. rewrite lookup_insert_Some. intros [[<- <-]|[_ Hq]] Hm.
    + destruct (child_objs s rd r w tbl j _ I Ht Hrw Hm) as [He|[He _]]; [by destruct rd|by eapply Hold].
    + pose proof (i_procs _ I _ _ _ _ _ Hq Hm (stream_end_pipe _ _)). lia.
Qed.

Lemma inv_forked s (rd : bool) r w tbl pid :
  inv s -> childpid s = Some tbl -> r <> w -> fds s !! r = None -> fds s !! w = None ->
  inv (set_fds (delete (if rd then w else r) (fds (new_pipe r w s)))
     (set_kids (kids s ∪ {[pid]}) (<[pid := child_fds rd r w tbl (fds (new_pipe r w s))]> (procs s)) (new_pipe r w s))).
Proof.
  intros I Ht Hrw Hr Hw. refine (inv_close _ _ (inv_fork s rd r w tbl pid I Ht Hrw Hr Hw) _).
  change (stream_pid s (if rd then w else r) = None). apply free_no_stream; [done|by destruct rd].
Qed.

Lemma inv_popen o type s res s' : inv s -> wf_outs s o -> popen o type s = Ret res s' -> inv s'.
Proof.
  intros I Hwf Hp. destruct res as [fd|].
  - apply popen_some_inv in Hp as (rd & s1 & r & w & pid & tbl & _ & Hf & Hop & Hof & Ht & _ & _ & -> & Hfd & ->).
    pose proof (inv_first _ _ _ _ I Hf) as I1. destruct (wf_first _ _ _ _ Hwf Hf) as [Hwp Hwk].
    destruct (Hwp r w Hop) as (Hr0 & Hw0 & Hrw & Hr & Hw). destruct (Hwk pid Hof) as (Hpid & Hk & _).
    eapply inv_add; [by apply inv_forked|done|done|done|simpl; set_solver| |by apply new_stream_alone].
    intros j Hj. change (stream_pid s1 j = Some pid) in Hj. by destruct (i_stream _ I1 _ _ Hj) as (_ & ? & _).
  - apply popen_null_inv in Hp. destruct Hp as [|s1 Hf|s1 e Hf _|s1 r w Hf Hop _|s1 r w e Hf Hop _|s1 r w pid e rd tbl Hf Hop Hof _ Htb _];
      try pose proof (inv_first _ _ _ _ I Hf) as I1; try (apply inv_errno); try done;
      destruct (wf_pipe _ _ (wf_first _ _ _ _ Hwf Hf) r w Hop) as (_ & _ & Hrw & Hr & Hw); pose proof (inv_new_pipe r w s1 I1 Hrw Hr Hw) as I2; [|done|].
    + assert (I3 := inv_close r _ I2 (free_no_stream _ _ I1 Hr)). exact (inv_close w _ I3 (free_no_stream _ _ I1 Hw)).
    + destruct (first_table _ _ _ Hf) as [t Ht]. rewrite Ht in Htb. simpl in Htb. subst t. by apply inv_forked.
Qed.

(** What pclose has done before it waits. *)
Definition closed (s : proc) (fd : Z) : proc :=
  set_fds (delete fd (fds s)) (set_childpid ((fun tbl => <[Z.to_nat fd := 0]> tbl) <$> childpid s) s).

Lemma pclose_begin_eq oc fd s :
  inv s -> 0 <= fd ->
  pclose_begin oc fd s =
  match stream_pid s fd with
  | None => Ret (inl (-1)) (set_errno EINVAL s)
  | Some pid =>
    match oc with
    | Some e => Ret (inl (-1)) (set_errno e (closed s fd))
    | None => Ret (inr pid) (closed s fd)
    end
  end.
Proof.
  intros I Hfd. unfold pclose_begin, stream_pid, closed, fail, close, bind, getst, modst, ret.
  destruct (childpid s) as [tbl|] eqn:Ht; simpl; [|done]. rewrite (proj2 (Z.leb_le 0 fd) Hfd).
  pose proof (i_len _ I _ Ht) as Hl. destruct (Z.leb_spec (maxfd s) fd).
  - rewrite (lookup_ge_None_2 tbl) by (unfold len in Hl; lia). done.
  - destruct (lookup_lt_is_Some_2 tbl (Z.to_nat fd)) as [pid ->]; [unfold len in Hl; lia|]. simpl.
    destruct (pid =? 0); [done|]. by destruct oc.
Qed.

Lemma stream_index s fd pid : stream_pid s fd = Some pid -> exists tbl, childpid s = Some tbl /\ 0 <= fd < len tbl.
Proof.
  intros (tbl & Ht & Hfd & Hl & _)%stream_pid_Some. exists tbl. split; [done|]. apply lookup_lt_Some in Hl. unfold len. lia.
Qed.

Lemma stream_pid_closed s fd pid j :
  stream_pid s fd = Some pid -> stream_pid (closed s fd) j = if j =? fd then None else stream_pid s j.
Proof.
  intros (tbl & Ht & Hfd)%stream_index. rewrite <- (stream_pid_insert s tbl fd 0 j Ht Hfd : _ = if j =? fd then None else _).
  apply stream_pid_eq. simpl. by rewrite Ht.
Qed.

Lemma inv_closed s fd pid : inv s -> stream_pid s fd = Some pid -> inv (closed s fd).
Proof.
  intros I Hs. pose proof (stream_index _ _ _ Hs) as (tbl & Ht & Hfd). unfold closed.
  rewrite Ht. simpl. apply (inv_close fd (set_childpid (Some (<[Z.to_nat fd := 0]> tbl)) s)); [by apply inv_clear|].
  rewrite (stream_pid_insert s tbl fd 0 fd Ht Hfd). by rewrite Z.eqb_refl.
Qed.

Lemma pclose_begin_neg oc fd s r s' : inv s -> fd < 0 -> pclose_begin oc fd s = Ret r s' -> s' = set_errno EINVAL s.
Proof.
  intros I Hfd. unfold pclose_begin, fail, bind, getst, modst, ret. rewrite (proj2 (Z.leb_gt 0 fd)) by lia.
  destruct (childpid s); [|congruence]. by case_match; [congruence|].
Qed.

Lemma inv_pclose oc fd s r s' : inv s -> pclose_begin oc fd s = Ret r s' -> inv s'.
Proof.
  intros I H. destruct (Z.lt_ge_cases fd 0); [apply pclose_begin_neg in H as ->; [by apply inv_errno|done..]|].
  rewrite pclose_begin_eq in H by done. destruct (stream_pid s fd) as [pid|] eqn:Hs; [|simplify_eq; by apply inv_errno].
  destruct oc; simplify_eq; [apply inv_errno|]; by eapply inv_closed.
Qed.

(** The wait ends with an error, or the child is gone. *)
Lemma wait_loop_inv pid evs s r s' :
  wait_loop pid evs s = Ret r s' ->
  exists e, s' = set_errno e s \/ s' = set_errno e (set_kids (kids s ∖ {[pid]}) (delete pid (procs s)) s).
Proof.
  revert s. induction evs as [|ev evs IH]; intros s; cbn [wait_loop]; unfold fail, bind, getst, modst, ret; case_bool_decide.
  1,3: intros [= <- <-]; eauto. 1: done.
  destruct ev as [|e|stat].
  - intros Hw. apply IH in Hw as (e & [-> | ->]); exists e; auto.
  - destruct (e =? EINTR); [|intros [= <- <-]; eauto]. intros Hw. apply IH in Hw as (e' & [-> | ->]); exists e'; auto.
  - intros [= <- <-]. exists (errno s). by right.
Qed.

Lemma inv_wait pid s : inv s -> (forall fd, stream_pid s fd <> Some pid) -> inv (set_kids (kids s ∖ {[pid]}) (delete pid (procs s)) s).
Proof.
  intros I Hn. apply inv_procs; [done| | |].
  - intros fd q Hq. destruct (i_stream _ I _ _ Hq) as (_ & Hin & _). assert (q <> pid) by (intros ->; by eapply Hn). set_solver.
  - intros q m j e p [_ Hq]%lookup_delete_Some. by apply (i_procs _ I q).
  - intros q m j fd rd p [_ Hq]%lookup_delete_Some Hm _ (_ & _ & Ha). by eapply Ha.
Qed.

Lemma kids_keep s : inv s -> forall fd pid, stream_pid s fd = Some pid -> pid ∈ kids s.
Proof. intros I fd pid Hs. by destruct (i_stream _ I _ _ Hs) as (_ & ? & _). Qed.

Lemma inv_step s s' : inv s -> step s s' -> inv s'.
Proof.
  intros I Hs. destruct Hs as [o type s r s' Hwf Hp|oc fd s r s' Hp|pid evs s r s' Hn Hw|fd n s Hf|fd s Hf|q m m' s Hq Hm|q q' m s Hq|q s].
  - by eapply inv_popen.
  - by eapply inv_pclose.
  - apply wait_loop_inv in Hw as (e & [-> | ->]); apply inv_errno; [done|by apply inv_wait].
  - assert (Hs : forall j, stream_pid (set_fds (<[fd := Other n]> (fds s)) s) j = stream_pid s j) by (intros; by apply stream_pid_eq).
    split; simpl; [apply (i_len _ I)| |apply (i_procs _ I)| |intros i j pid; rewrite !Hs; apply (i_inj _ I)].
    + intros j e p [[_ <-]|[_ ?]]%lookup_insert_Some; [done|]. by eapply (i_fds _ I).
    + intros j pid. rewrite Hs. intros Hj. destruct (i_stream _ I j pid Hj) as (Hp & Hk & rd & p & H1 & H2 & H3).
      split; [done|]. split; [done|]. exists rd, p. split_and!; simpl; [rewrite lookup_insert_ne by congruence; done| |done].
      intros j' [[_ ?]|[_ ?]]%lookup_insert_Some; [by destruct rd|]. by apply H2.
  - by apply inv_close.
  - apply inv_procs; [done|by apply kids_keep| |].
    + intros q0 m0 j e p [[<- <-]|[_ Hq0]]%lookup_insert_Some Hj Hp; [|by eapply (i_procs _ I)].
      destruct (Hm j e Hj) as [i Hi]; [by rewrite Hp|]. by eapply (i_procs _ I).
    + intros q0 m0 j fd rd p [[<- <-]|[_ Hq0]]%lookup_insert_Some Hj _ (_ & _ & Ha); [|by eapply Ha].
      destruct (Hm j _ Hj) as [i Hi]; [by rewrite stream_end_pipe|]. by eapply Ha.
  - apply inv_procs; [done|by apply kids_keep| |].
    + intros q0 m0 j e p [[<- <-]|[_ Hq0]]%lookup_insert_Some Hj Hp; by eapply (i_procs _ I).
    + intros q0 m0 j fd rd p [[<- <-]|[_ Hq0]]%lookup_insert_Some Hj _ (_ & _ & Ha); by eapply Ha.
  - apply inv_procs; [done|by apply kids_keep| |].
    + intros q0 m0 j e p [_ Hq0]%lookup_delete_Some Hj Hp; by eapply (i_procs _ I).
    + intros q0 m0 j fd rd p [_ Hq0]%lookup_delete_Some Hj _ (_ & _ & Ha); by eapply Ha.
Qed.

Lemma proc_reachable_inv m s : reachable m s -> inv s.
Proof.
  intros [Hm Hr]. assert (I : inv (init m)).
  { split; simpl; [done| |done|done|done]. intros fd e p He Hp. apply Hm in He. congruence. }
  clear Hm. induction Hr as [|s1 s2 s3 Hs _ IH]; [done|]. by apply IH, (inv_step s1).
Qed.

(** ** Theorems *)

(** C9: The streams are private.  Whatever a process does with popen and pclose, whatever
    calls fail, and whatever the commands do with the descriptors they were given, the
    descriptor of a stream is the only one, of this process and of all processes that
    descend from it, that refers to its end of the pipe; its command has not been waited
    for, and no other stream has the same command. *)
Theorem popen_private m s fd pid :
  reachable m s -> stream_pid s fd = Some pid ->
  (exists rd p, alone s fd (stream_end rd p)) /\ pid ∈ kids s /\ forall fd', stream_pid s fd' = Some pid -> fd' = fd.
Proof.
  intros I%proc_reachable_inv Hs. destruct (i_stream _ I _ _ Hs) as (_ & Hk & Ha). split_and!; [done|done|].
  intros fd' Hs'. by eapply (i_inj _ I).
Qed.

(** The stream that a successful call opens. *)
Lemma popen_opens o type rd s s1 r w pid :
  inv s -> mode type = Some rd -> first_time o s = Ret true s1 ->
  o_pipe o = inr (r, w) -> 0 <= r < maxfd s1 -> 0 <= w < maxfd s1 -> o_fork o = inr pid -> o_fdopen o = None ->
  exists s', popen o type s = Ret (Some (if rd then r else w)) s'.
Proof.
  intros I Hm Hf Hp Hr Hw Hk Hd. pose proof (inv_first _ _ _ _ I Hf) as I1. destruct (first_table _ _ _ Hf) as [tbl Ht].
  pose proof (i_len _ I1 _ Ht) as Hl. unfold popen. rewrite Hm. step Hf. cbn [negb]. rewrite Hp.
  unfold bind, modst, getst, parent, close. rewrite Hd, Hk. cbn [maxfd new_pipe].
  rewrite (proj2 (Z.leb_gt (maxfd s1) r)), (proj2 (Z.leb_gt (maxfd s1) w)) by lia. cbn. rewrite Ht.
  replace ((0 <=? if rd then r else w) && ((if rd then r else w) <? len tbl)) with true by (destruct rd; lia). by eexists.
Qed.

(** The test of the loop of the child. *)
Lemma stream_test s tbl j :
  inv s -> childpid s = Some tbl ->
  (0 <=? j) && (0 <? default 0 (tbl !! Z.to_nat j)) = bool_decide (is_Some (stream_pid s j)).
Proof.
  intros I Ht. destruct (stream_pid s j) as [q|] eqn:Hq.
  - rewrite bool_decide_eq_true_2 by eauto. pose proof (i_stream _ I _ _ Hq) as [Hq0 _].
    apply stream_pid_Some in Hq as (t & ? & Hj & Hl & _). simplify_eq. rewrite Hl. simpl. lia.
  - rewrite bool_decide_eq_false_2 by (by intros []). unfold stream_pid in Hq. rewrite Ht in Hq. simpl in Hq.
    destruct (0 <=? j); [|done]. simpl. destruct (tbl !! Z.to_nat j) as [v|]; [|done]. simpl in *. case_match; [lia|done].
Qed.

Lemma first_streams o s b s1 j : first_time o s = Ret b s1 -> stream_pid s1 j = stream_pid s j.
Proof.
  intros (_ & Hsome & Hnone)%first_time_inv. destruct (childpid s) as [t|] eqn:Hc; [destruct Hsome as [_ ->]; eauto|].
  unfold stream_pid at 2. rewrite Hc. specialize (Hnone eq_refl). destruct b; [destruct Hnone as [_ Hn]; by eapply stream_pid_replicate|].
  unfold stream_pid. by rewrite Hnone.
Qed.

(** C23: What popen gives to the command.  When pipe, fork and fdopen succeed and the
    descriptors fit into the table, popen returns a stream; the caller has one descriptor
    more, an end of a new pipe; the command has the other end as its standard output or
    input, and otherwise the descriptors of the caller without all streams opened before.
    (A stream on the standard descriptor itself takes the pipe away from the command.) *)
Theorem popen_connects m o type rd s s1 r w pid :
  reachable m s -> wf_outs s o -> mode type = Some rd -> first_time o s = Ret true s1 ->
  o_pipe o = inr (r, w) -> r < maxfd s1 -> w < maxfd s1 -> o_fork o = inr pid -> o_fdopen o = None ->
  let fd := if rd then r else w in
  exists s' child, popen o type s = Ret (Some fd) s' /\
    (forall j, stream_pid s' j = if j =? fd then Some pid else stream_pid s j) /\
    fds s' = <[fd := stream_end rd (npipe s)]> (fds s) /\
    kids s' = kids s ∪ {[pid]} /\ procs s' = <[pid := child]> (procs s) /\
    forall j, child !! j =
      if bool_decide (is_Some (stream_pid s j)) then None
      else if j =? child_std rd then Some (child_end rd (npipe s)) else fds s !! j.
Proof.
  intros I%proc_reachable_inv Hwf Hm Hf Hp Hr Hw Hk Hd fd. destruct (wf_pipe _ _ Hwf r w Hp) as (Hr0 & Hw0 & Hrw & Hrf & Hwf').
  destruct (popen_opens o type rd s s1 r w pid) as [s' Hs']; try done. exists s'. pose proof Hs' as Hinv.
  apply popen_some_inv in Hinv as (rd' & s1' & r' & w' & pid' & tbl & E1 & E2 & E3 & E4 & Ht & _ & _ & _ & Hin & E5).
  rewrite Hm in E1. rewrite Hf in E2. rewrite Hp in E3. rewrite Hk in E4. injection E1 as <-. injection E2 as <-. injection E3 as <- <-. injection E4 as <-.
  pose proof (inv_first _ _ _ _ I Hf) as I1. pose proof (first_time_inv _ _ _ _ Hf) as ((W1 & W2 & W3 & W4) & _). subst s'.
  exists (child_fds rd r w tbl (fds (new_pipe r w s1))). split_and!; [done| | |simpl; congruence|simpl; congruence|].
  - intros j. rewrite <- (first_streams _ _ _ _ _ Hf). destruct (wf_fork _ _ Hwf pid Hk) as [Hpid _].
    etransitivity; [eapply stream_pid_insert; [exact Ht|exact Hin]|]. destruct (Z.eqb_spec pid 0); [lia|done].
  - simpl. rewrite W1, W4. unfold fd. destruct rd; simpl; [by rewrite delete_insert_id by (rewrite lookup_insert_ne by done; done)|].
    rewrite insert_insert_ne by done. rewrite delete_insert_id; [done|]. by rewrite lookup_insert_ne by done.
  - intros j. rewrite child_fds_lookup by done. rewrite W1, W4, <- (first_streams _ _ _ _ _ Hf), (stream_test s1 tbl j I1 Ht).
    destruct (bool_decide _); [done|]. destruct (j =? child_std rd); [done|].
    destruct (Z.eqb_spec j r) as [->|]; [done|]. by destruct (Z.eqb_spec j w) as [->|].
Qed.

(** Interruptions do not end the wait. *)
Lemma wait_loop_interrupted pid n stat s :
  pid ∈ kids s -> exists e, wait_loop pid (replicate n Intr ++ [Exited stat]) s =
    Ret stat (set_errno e (set_kids (kids s ∖ {[pid]}) (delete pid (procs s)) s)).
Proof.
  intros Hk. revert s Hk. induction n as [|n IH]; intros s Hk; cbn [replicate app wait_loop]; unfold bind, getst, modst, ret;
    (rewrite bool_decide_eq_false_2 by (intros Hn; by apply Hn)).
  - by exists (errno s).
  - destruct (IH (set_errno EINTR s) Hk) as [e He]. by exists e.
Qed.

(** The wait for the command of a stream, however often a signal interrupts it. *)
Lemma pclose_runs s fd pid n stat :
  inv s -> stream_pid s fd = Some pid ->
  exists e, pclose None (replicate n Intr ++ [Exited stat]) fd s =
    Ret stat (set_errno e (set_kids (kids s ∖ {[pid]}) (delete pid (procs s)) (closed s fd))).
Proof.
  intros I Hs. pose proof (stream_index _ _ _ Hs) as (tbl & _ & Hfd & _). unfold pclose.
  erewrite bind_ret by (rewrite pclose_begin_eq by done; rewrite Hs; reflexivity).
  apply (wait_loop_interrupted pid n stat (closed s fd)). exact (kids_keep s I fd pid Hs).
Qed.

(** C24: What pclose does.  While pclose of a stream waits for its command, no process has
    the end of the pipe that the stream was, so a command that reads sees the end of its
    input; when the command ends, pclose returns its status, however often signals
    interrupted the wait; the descriptor is closed and its place in the table free. *)
Theorem pclose_status m s fd pid :
  reachable m s -> stream_pid s fd = Some pid ->
  (exists e, fds s !! fd = Some e /\ is_Some (pipe_of e) /\ (forall j, fds (closed s fd) !! j <> Some e) /\
     forall q f j, procs (closed s fd) !! q = Some f -> f !! j <> Some e) /\
  (forall evs, pclose None evs fd s = wait_loop pid evs (closed s fd)) /\
  forall n stat, exists s', pclose None (replicate n Intr ++ [Exited stat]) fd s = Ret stat s' /\
    fds s' = delete fd (fds s) /\ kids s' = kids s ∖ {[pid]} /\
    forall j, stream_pid s' j = if j =? fd then None else stream_pid s j.
Proof.
  intros I%proc_reachable_inv Hs. pose proof (stream_index _ _ _ Hs) as (tbl & _ & Hfd & _). split_and!.
  - destruct (i_stream _ I _ _ Hs) as (_ & _ & rd & p & A1 & A2 & A3). exists (stream_end rd p).
    split_and!; [done|by rewrite stream_end_pipe| |done]. simpl. intros j [Hj ?]%lookup_delete_Some. by apply Hj; symmetry; apply A2.
  - intros evs. unfold pclose. by erewrite bind_ret by (rewrite pclose_begin_eq by done; rewrite Hs; reflexivity).
  - intros n stat. destruct (pclose_runs s fd pid n stat I Hs) as [e ->]. eexists. split_and!; [done|done|done|].
    intros j. by rewrite <- (stream_pid_closed s fd pid j Hs).
Qed.

Lemma pipe_closed (f : files) r w a b :
  r <> w -> f !! r = None -> f !! w = None -> delete w (delete r (<[w := a]> (<[r := b]> f))) = f.
Proof.
  intros Hrw Hr Hw. apply map_eq. intros j. destruct (decide (j = w)) as [->|]; [by rewrite lookup_delete_eq|].
  rewrite lookup_delete_ne by done. destruct (decide (j = r)) as [->|]; [by rewrite lookup_delete_eq|].
  by rewrite lookup_delete_ne, !lookup_insert_ne by done.
Qed.

(** C40: popen and pclose in turn leave nothing behind.  After a stream was opened and
    closed, and its command has ended, pclose returns the status of the command, however
    often its wait is interrupted, and the process has the descriptors, the streams and
    the children that it had before, and no process is left over. *)
Theorem popen_pclose m o type fd s s' n stat :
  reachable m s -> wf_outs s o -> popen o type s = Ret (Some fd) s' ->
  exists s2, pclose None (replicate n Intr ++ [Exited stat]) fd s' = Ret stat s2 /\
    fds s2 = fds s /\ kids s2 = kids s /\ procs s2 = procs s /\ forall j, stream_pid s2 j = stream_pid s j.
Proof.
  intros I%proc_reachable_inv Hwf Hp. pose proof (inv_popen _ _ _ _ _ I Hwf Hp) as I'.
  apply popen_some_inv in Hp as (rd & s1 & r & w & pid & tbl & _ & Hf & Hop & Hof & Ht & _ & _ & Hfd & Hin & E).
  destruct (wf_first _ _ _ _ Hwf Hf) as [Hwp Hwk]. destruct (Hwp r w Hop) as (_ & _ & Hrw & Hr & Hw). destruct (Hwk pid Hof) as (Hpid & Hk & Hpr).
  assert (Hsp : forall j, stream_pid s' j = if j =? fd then Some pid else stream_pid s1 j).
  { intros j. rewrite E. etransitivity; [eapply stream_pid_insert; [exact Ht|exact Hin]|]. destruct (Z.eqb_spec pid 0); [lia|done]. }
  assert (Hs : stream_pid s' fd = Some pid) by (by rewrite Hsp, Z.eqb_refl).
  destruct (pclose_runs s' fd pid n stat I' Hs) as [e ->]. eexists. split; [done|].
  pose proof (first_time_inv _ _ _ _ Hf) as ((W1 & W2 & W3 & W4) & _). simpl. split_and!.
  - rewrite E. simpl. rewrite <- W1. subst fd. destruct rd; [rewrite delete_delete|]; by apply pipe_closed.
  - rewrite E. simpl. rewrite <- W2. set_solver.
  - rewrite E. simpl. rewrite <- W3. by rewrite delete_insert_id.
  - intros j. etransitivity; [exact (stream_pid_closed s' fd pid j Hs)|]. rewrite Hsp, <- (first_streams _ _ _ _ _ Hf).
    destruct (Z.eqb_spec j fd) as [->|]; [|done]. symmetry. apply free_no_stream; [exact (inv_first _ _ _ _ I Hf)|]. subst fd. by destruct rd.
Qed.

(** The first call that fails leaves no table. *)
Lemma first_no_table o s s1 : first_time o s = Ret false s1 -> childpid s1 = None.
Proof.
  intros Hf. apply first_time_inv in Hf as (_ & Hs & Hn).
  destruct (childpid s); [by destruct Hs; eauto|by apply Hn].
Qed.

(** C39: When popen fails, the streams that were open stay as they are, and one of three
    things has happened.  The mode is wrong, there is no table, pipe fails or its
    descriptors do not fit the table: descriptors, children and processes are those of
    before.  Or fork fails: exactly the two ends of the new pipe stay open.  Or fdopen
    fails: the command runs and is a child that no stream knows, and exactly the
    caller's end of the pipe, the one for the mode, stays open. *)
Theorem popen_fails m o type s s' :
  reachable m s -> wf_outs s o -> popen o type s = Ret None s' ->
  (forall j, stream_pid s' j = stream_pid s j) /\
  ((mode type = None \/ childpid s' = None \/ (exists e, o_pipe o = inl e) \/
      (exists r w, o_pipe o = inr (r, w) /\ (maxfd s' <= r \/ maxfd s' <= w))) /\
     fds s' = fds s /\ kids s' = kids s /\ procs s' = procs s \/
   (exists r w e, o_pipe o = inr (r, w) /\ o_fork o = inl e /\ errno s' = e /\ kids s' = kids s /\ procs s' = procs s /\
      fds s' = <[w := PipeW (npipe s)]> (<[r := PipeR (npipe s)]> (fds s))) \/
   exists r w e rd pid, mode type = Some rd /\ o_pipe o = inr (r, w) /\ o_fork o = inr pid /\ o_fdopen o = Some e /\ errno s' = e /\
      stream_pid s' (if rd then r else w) = None /\ kids s' = kids s ∪ {[pid]} /\
      fds s' = <[(if rd then r else w) := stream_end rd (npipe s)]> (fds s) /\
      procs s' = <[pid := child_fds rd r w (default [] (childpid s'))
                            (<[w := PipeW (npipe s)]> (<[r := PipeR (npipe s)]> (fds s)))]> (procs s)).
Proof.
  intros I%proc_reachable_inv Hwf Hp%popen_null_inv.
  destruct Hp as [Hm|s1 Hf|s1 e Hf Hop|s1 r w Hf Hop Hmx|s1 r w e Hf Hop Hof|s1 r w pid e rd tbl Hf Hop Hof Hfd Htb Hm]; [split; [done|]; left; auto|..];
    (split; [intros j; rewrite <- (first_streams _ _ _ _ j Hf); by apply stream_pid_eq|]);
    pose proof (first_time_inv _ _ _ _ Hf) as ((W1 & W2 & W3 & W4) & _).
  - left. split; [right; left; by eapply first_no_table|done].
  - left. split; [right; right; left; eauto|done].
  - left. simpl. rewrite W1, W2, W3. destruct (wf_pipe _ _ Hwf r w Hop) as (_ & _ & Hrw & Hr & Hw).
    split; [right; right; right; eauto|]. split; [by apply pipe_closed|done].
  - right. left. exists r, w, e. simpl. by rewrite W1, W2, W3, W4.
  - right. right. destruct (wf_pipe _ _ Hwf r w Hop) as (_ & _ & Hrw & Hr & Hw).
    exists r, w, e, rd, pid. simpl. rewrite W1, W2, W3, W4, Htb. split_and!; try done.
    + change (stream_pid s1 (if rd then r else w) = None). rewrite (first_streams _ _ _ _ _ Hf). apply free_no_stream; [done|by destruct rd].
    + destruct rd; [apply delete_insert_id; by rewrite lookup_insert_ne|].
      rewrite delete_insert_ne by done. by rewrite delete_insert_id.
Qed.

(** ** Concrete runs *)

(** Standard input, output and error are open; at most 64 descriptors. *)
Definition std3 : files := {[0 := Other 0; 1 := Other 1; 2 := Other 2]}.

Definition outs_ok (r w pid : Z) : outs := Outs (64, 0) true (inr (r, w)) (inr pid) None.

Definition state_of {A} (r : result proc A) : proc := match r with Ret _ s => s | _ => init ∅ end.

(** A stream to command 100, then one from command 101. *)
Definition one_stream : proc := state_of (popen (outs_ok 3 4 100) (bs "w") (init std3)).
Definition two_streams : proc := state_of (popen (outs_ok 3 5 101) (bs "r") one_stream).

Lemma std3_reachable : reachable std3 (init std3).
Proof.
  split; [|apply rtc_refl]. intros fd e He. unfold std3 in He. rewrite !lookup_insert_Some, lookup_singleton_Some in He.
  by destruct He as [[_ <-]|[_ [[_ <-]|[_ [_ <-]]]]].
Qed.

Lemma wf_outs_ok s r w pid :
  0 <= r -> 0 <= w -> r <> w -> fds s !! r = None -> fds s !! w = None -> 0 < pid -> pid ∉ kids s -> procs s !! pid = None ->
  wf_outs s (outs_ok r w pid).
Proof. intros. split; simpl; [intros ? ? [= <- <-]|intros ? [= <-]]; done. Qed.

Lemma reachable_popen m o type s : reachable m s -> wf_outs s o -> (exists r s', popen o type s = Ret r s') ->
  reachable m (state_of (popen o type s)).
Proof. intros [Hm Hr] Hwf (r & s' & Hs). rewrite Hs. split; [done|]. eapply rtc_r; [done|]. by econstructor. Qed.

Lemma one_stream_reachable : reachable std3 one_stream.
Proof.
  apply reachable_popen; [apply std3_reachable|apply wf_outs_ok; first [lia|vm_compute; congruence]|].
  do 2 eexists. vm_compute. reflexivity.
Qed.

Lemma wf_second : wf_outs one_stream (outs_ok 3 5 101).
Proof. apply wf_outs_ok; first [lia|reflexivity|idtac]. apply (bool_decide_unpack _). vm_compute. done. Qed.

Lemma two_streams_reachable : reachable std3 two_streams.
Proof. apply reachable_popen; [apply one_stream_reachable|apply wf_second|]. do 2 eexists. vm_compute. reflexivity. Qed.

Lemma popen_private_witness :
  (exists rd p, alone two_streams 4 (stream_end rd p)) /\ 100 ∈ kids two_streams /\ forall fd', stream_pid two_streams fd' = Some 100 -> fd' = 4.
Proof. exact (popen_private std3 two_streams 4 100 two_streams_reachable ltac:(vm_compute; reflexivity)). Defined.

Lemma popen_connects_witness :
  exists s' child, popen (outs_ok 3 5 101) (bs "r") one_stream = Ret (Some 3) s' /\ procs s' = <[101 := child]> (procs one_stream) /\
    child !! 1 = Some (PipeW 1) /\ child !! 4 = None.
Proof.
  destruct (popen_connects std3 (outs_ok 3 5 101) (bs "r") true one_stream one_stream 3 5 101 one_stream_reachable wf_second)
    as (s' & child & H1 & _ & _ & _ & H2 & H3); try (vm_compute; reflexivity).
  exists s', child. split; [exact H1|]. split; [exact H2|]. rewrite !H3. split; vm_compute; reflexivity.
Defined.

Lemma pclose_status_witness :
  exists s', pclose None [Intr; Exited 0] 4 two_streams = Ret 0 s' /\ fds s' = delete 4 (fds two_streams).
Proof.
  destruct (pclose_status std3 two_streams 4 100 two_streams_reachable ltac:(vm_compute; reflexivity)) as (_ & _ & H).
  destruct (H 1%nat 0) as (s' & H1 & H2 & _). exists s'. exact (conj H1 H2).
Defined.

Lemma popen_pclose_witness :
  exists s2, pclose None [Intr; Exited 256] 3 two_streams = Ret 256 s2 /\ fds s2 = fds one_stream.
Proof.
  destruct (popen_pclose std3 (outs_ok 3 5 101) (bs "r") 3 one_stream two_streams 1 256 one_stream_reachable wf_second) as (s2 & H1 & H2 & _).
  - vm_compute. reflexivity.
  - exists s2. exact (conj H1 H2).
Defined.

(** fork fails with EAGAIN. *)
Definition no_fork : outs := Outs (64, 0) true (inr (3, 4)) (inl 11) None.

Lemma popen_fails_witness :
  exists s', popen no_fork (bs "r") (init std3) = Ret None s' /\ forall j, stream_pid s' j = stream_pid (init std3) j.
Proof.
  eexists. split; [vm_compute; reflexivity|].
  refine (proj1 (popen_fails std3 no_fork (bs "r") (init std3) _ std3_reachable _ _)); [|vm_compute; reflexivity].
  split; simpl; [intros ? ? [= <- <-]|done]. split_and!; first [lia|vm_compute; reflexivity].
Defined.

(** A stream on a standard descriptor.  When the caller runs with its standard input
    closed and reads from a command, the stream gets descriptor 0; the next command that
    is to read from a stream has its standard input closed by the loop over the table,
    after the pipe was put there. *)
Theorem popen_stdin_lost :
  exists s1 s2, popen (outs_ok 0 3 100) (bs "r") (init {[1 := Other 1; 2 := Other 2]}) = Ret (Some 0) s1 /\
    popen (outs_ok 3 4 101) (bs "w") s1 = Ret (Some 4) s2 /\ (procs s2 !! 101 ≫= fun f => f !! STDIN_FILENO) = None.
Proof. do 2 eexists. split; [vm_compute; reflexivity|]. split; vm_compute; reflexivity. Qed.
