(* ===== verification/Web.v ===== *)
(** * The web client (unpv13e/nonblock: web.c, web.h, start_connect.c, write_get_cmd.c,
      home_page.c)

    The client reads a home page and then several files of the same host, with at most a
    given number of connections at a time, in one loop around select.  The state has the
    globals of web.h and the sockets.  A connection is what the resolver, socket and
    connect return and what the peer sends; connections are numbered in the order of the
    socket calls, and [srv] has what each peer received and what was read from it.  Which
    descriptor a new socket gets and which descriptors select finds ready is the class
    [kernel]. *)

From Stdlib Require Import ZArith Lia Strings.Byte.
From S2P Require Import Prelude Libc.
From stdpp Require Import base strings numbers gmap list.
#[local] Open Scope Z_scope.

Definition MAXFILES : Z := 20.
Definition MAXLINE : Z := 4096.
Definition F_CONNECTING : Z := 1.
Definition F_READING : Z := 2.
Definition F_DONE : Z := 4.
Definition EINPROGRESS : Z := 115.
Definition FD_SETSIZE : Z := 1024.

(** [printf] of "GET %s HTTP/1.0\r\n\r\n" *)
Definition GET_CMD (name : bytes) : bytes := bs "GET " ++ name ++ bs " HTTP/1.0" ++ [x0d; x0a; x0d; x0a].

Record file := File { f_name : bytes; f_host : bytes; f_fd : Z; f_flags : Z }.

(** The answers of the peer: data, or an error of the connection ([None]). *)
(** A call of write: it takes at most [n] bytes, is interrupted, or fails (on a socket that
    does not block also when there is no room). *)
Inductive wout := WTakes (n : Z) | WIntr | WFails.

Record conn := Conn { c_host : bool; c_socket : bool; c_connect : Z; c_soerr : Z; c_wr : list wout; c_data : list (option bytes) }.

Record sock := Sock { k_num : nat; k_err : Z; k_wr : list wout; k_in : list (option bytes) }.

Record web := Web {
  files : list file; nconn : Z; nlefttoconn : Z; nlefttoread : Z; maxfd : Z; rset : gset Z; wset : gset Z;
  opened : gset Z; socks : gmap Z sock; conns : list conn; made : nat; calls : nat; srv : gmap nat (bytes * bytes)
}.

Definition set_files v s := Web v (nconn s) (nlefttoconn s) (nlefttoread s) (maxfd s) (rset s) (wset s) (opened s) (socks s) (conns s) (made s) (calls s) (srv s).
Definition set_counts a b c s := Web (files s) a b c (maxfd s) (rset s) (wset s) (opened s) (socks s) (conns s) (made s) (calls s) (srv s).
Definition set_maxfd v s := Web (files s) (nconn s) (nlefttoconn s) (nlefttoread s) v (rset s) (wset s) (opened s) (socks s) (conns s) (made s) (calls s) (srv s).
Definition set_rset v s := Web (files s) (nconn s) (nlefttoconn s) (nlefttoread s) (maxfd s) v (wset s) (opened s) (socks s) (conns s) (made s) (calls s) (srv s).
Definition set_wset v s := Web (files s) (nconn s) (nlefttoconn s) (nlefttoread s) (maxfd s) (rset s) v (opened s) (socks s) (conns s) (made s) (calls s) (srv s).
Definition set_socks o v s := Web (files s) (nconn s) (nlefttoconn s) (nlefttoread s) (maxfd s) (rset s) (wset s) o v (conns s) (made s) (calls s) (srv s).
Definition set_conns v m s := Web (files s) (nconn s) (nlefttoconn s) (nlefttoread s) (maxfd s) (rset s) (wset s) (opened s) (socks s) v m (calls s) (srv s).
Definition set_calls v s := Web (files s) (nconn s) (nlefttoconn s) (nlefttoread s) (maxfd s) (rset s) (wset s) (opened s) (socks s) (conns s) (made s) v (srv s).
Definition set_srv v s := Web (files s) (nconn s) (nlefttoconn s) (nlefttoread s) (maxfd s) (rset s) (wset s) (opened s) (socks s) (conns s) (made s) (calls s) v.

Class kernel := {
  lowest : gset Z -> Z;
  ready : nat -> gset Z -> gset Z -> gset Z * gset Z
}.

(** A new descriptor is the lowest one that is not open; select returns when at least one
    of the descriptors it was asked for is ready, and reports only those. *)
Class wf_kernel (k : kernel) : Prop := {
  lowest_free : forall X, lowest X ∉ X;
  lowest_bound : forall X, 0 <= lowest X <= Z.of_nat (size X);
  ready_sub : forall n r w, fst (ready n r w) ⊆ r /\ snd (ready n r w) ⊆ w;
  ready_some : forall n r w, r ∪ w <> ∅ -> fst (ready n r w) ∪ snd (ready n r w) <> ∅
}.

Section web.
Context {K : kernel}.

Definition chk_fd (fd : Z) : M web unit := if (0 <=? fd) && (fd <? FD_SETSIZE) then ret tt else undef "fd_set".
Definition FD_SET_r (fd : Z) : M web unit := chk_fd fd ;;; modst (fun s => set_rset ({[fd]} ∪ rset s) s).
Definition FD_SET_w (fd : Z) : M web unit := chk_fd fd ;;; modst (fun s => set_wset ({[fd]} ∪ wset s) s).
Definition FD_CLR_r (fd : Z) : M web unit := chk_fd fd ;;; modst (fun s => set_rset (rset s ∖ {[fd]}) s).
Definition FD_CLR_w (fd : Z) : M web unit := chk_fd fd ;;; modst (fun s => set_wset (wset s ∖ {[fd]}) s).

(** ** Sockets *)

Definition next_conn : M web conn :=
  s <- getst ;;
  match conns s with
  | c :: cs => modst (set_conns cs (S (made s))) ;;; ret c
  | [] => undef "no connection"
  end.

Definition Socket (c : conn) : M web Z :=
  if c_socket c then
    s <- getst ;;
    let fd := lowest (opened s) in
    modst (set_socks ({[fd]} ∪ opened s) (<[fd := Sock (pred (made s)) (c_soerr c) (c_wr c) (c_data c)]> (socks s))) ;;; ret fd
  else die (DSys "socket error").

Definition the_sock (fd : Z) : M web sock :=
  s <- getst ;; match socks s !! fd with Some k => ret k | None => die (DSys "bad descriptor") end.

(** [writen]: what it sends, and whether it sends all.  Without an outcome a write takes
    everything. *)
Fixpoint writen_out (wr : list wout) (data : bytes) : bytes * bool :=
  match data, wr with
  | [], _ => ([], true)
  | _, [] => (data, true)
  | _, WIntr :: wr' => writen_out wr' data
  | _, WFails :: _ => ([], false)
  | _, WTakes n :: wr' =>
    if n <=? 0 then ([], false)
    else
      let '(sent, ok) := writen_out wr' (drop (Z.to_nat n) data) in
      (take (Z.to_nat n) data ++ sent, ok)
  end.

(** On a connection that was not established every write fails.  Each connection is
    written to once. *)
Definition Writen (fd : Z) (data : bytes) : M web unit :=
  k <- the_sock fd ;;
  let '(sent, ok) := if k_err k =? 0 then writen_out (k_wr k) data else ([], false) in
  modst (fun s => let '(a, b) := default ([], []) (srv s !! k_num k) in set_srv (<[k_num k := (a ++ sent, b)]> (srv s)) s) ;;;
  if ok then ret tt else die (DSys "writen error").

(** At most MAXLINE bytes of what has arrived; 0 bytes are the end of the stream. *)
Definition Read (fd : Z) : M web bytes :=
  k <- the_sock fd ;;
  match k_in k with
  | [] => ret []
  | None :: _ => die (DSys "read error")
  | Some d :: rest =>
    let got := take (Z.to_nat MAXLINE) d in
    let left := drop (Z.to_nat MAXLINE) d in
    let rest := match left with [] => rest | _ => Some left :: rest end in
    modst (fun s => set_socks (opened s) (<[fd := Sock (k_num k) (k_err k) (k_wr k) rest]> (socks s)) s) ;;;
    modst (fun s => let '(a, b) := default ([], []) (srv s !! k_num k) in set_srv (<[k_num k := (a, b ++ got)]> (srv s)) s) ;;;
    ret got
  end.

Definition Close (fd : Z) : M web unit :=
  the_sock fd ;;; modst (fun s => set_socks (opened s ∖ {[fd]}) (delete fd (socks s)) s).

(** ** The functions *)

Definition get_file (i : nat) : M web file :=
  s <- getst ;; match files s !! i with Some f => ret f | None => undef "file[i]" end.
Definition put_fd (i : nat) (fd : Z) : M web unit :=
  f <- get_file i ;; modst (fun s => set_files (<[i := File (f_name f) (f_host f) fd (f_flags f)]> (files s)) s).
Definition put_flags (i : nat) (fl : Z) : M web unit :=
  f <- get_file i ;; modst (fun s => set_files (<[i := File (f_name f) (f_host f) (f_fd f) fl]> (files s)) s).
Definition up_maxfd (fd : Z) : M web unit := modst (fun s => if maxfd s <? fd then set_maxfd fd s else s).

(** What [Writen(fd, line, n)] sends when [line] was filled by snprintf and [n] is what
    snprintf returned: the length of the whole text. *)
Definition snprintf_line (text : bytes) : M web bytes :=
  if len text <? MAXLINE then ret text
  else if len text =? MAXLINE then ret (take (Z.to_nat (MAXLINE - 1)) text ++ [NUL])
  else undef "line".

Definition write_get_cmd (i : nat) : M web unit :=
  f <- get_file i ;;
  line <- snprintf_line (GET_CMD (f_name f)) ;;
  Writen (f_fd f) line ;;;
  put_flags i F_READING ;;;
  FD_SET_r (f_fd f) ;;;
  up_maxfd (f_fd f).

Definition start_connect (i : nat) : M web unit :=
  c <- next_conn ;;
  if negb (c_host c) then die (DQuit "host_serv error")
  else
    fd <- Socket c ;;
    put_fd i fd ;;;
    if c_connect c =? 0 then write_get_cmd i
    else if negb (c_connect c =? EINPROGRESS) then die (DSys "nonblocking connect error")
    else
      put_flags i F_CONNECTING ;;;
      FD_SET_r fd ;;;
      FD_SET_w fd ;;;
      up_maxfd fd.

(** [for ( ; ; ) if ((n = Read(fd, line, MAXLINE)) == 0) break;] *)
Fixpoint page_loop (fuel : nat) (fd : Z) : M web unit :=
  match fuel with
  | O => fun _ => NoFuel
  | S fuel' => d <- Read fd ;; match d with [] => ret tt | _ => page_loop fuel' fd end
  end.

(** Tcp_connect returns a connected socket or ends the process. *)
Definition home_page (fuel : nat) (fname : bytes) : M web unit :=
  c <- next_conn ;;
  if negb (c_host c && (c_connect c =? 0)) then die (DQuit "tcp_connect error")
  else
    fd <- Socket c ;;
    line <- snprintf_line (GET_CMD fname) ;;
    Writen fd line ;;;
    page_loop fuel fd ;;;
    Close fd.

(** The first file that is not started. *)
Fixpoint find_file (fs : list file) : option nat :=
  match fs with
  | [] => None
  | f :: fs' => if f_flags f =? 0 then Some 0%nat else S <$> find_file fs'
  end.

(** [while (nconn < maxnconn && nlefttoconn > 0)] *)
Fixpoint start_loop (fuel : nat) (maxnconn : Z) : M web unit :=
  match fuel with
  | O => fun _ => NoFuel
  | S fuel' =>
    s <- getst ;;
    if (nconn s <? maxnconn) && (0 <? nlefttoconn s) then
      match find_file (files s) with
      | None => die (DQuit "nlefttoconn but nothing found")
      | Some i =>
        start_connect i ;;;
        modst (fun s => set_counts (nconn s + 1) (nlefttoconn s - 1) (nlefttoread s) s) ;;;
        start_loop fuel' maxnconn
      end
    else ret tt
  end.

(** The body of the loop over the files, for file [i]. *)
Definition serve (rs ws : gset Z) (i : nat) : M web unit :=
  f <- get_file i ;;
  let flags := f_flags f in
  let fd := f_fd f in
  if (flags =? 0) || negb (Z.land flags F_DONE =? 0) then ret tt
  else if negb (Z.land flags F_CONNECTING =? 0) && (bool_decide (fd ∈ rs) || bool_decide (fd ∈ ws)) then
    FD_CLR_w fd ;;; write_get_cmd i
  else if negb (Z.land flags F_READING =? 0) && bool_decide (fd ∈ rs) then
    d <- Read fd ;;
    match d with
    | [] =>
      Close fd ;;;
      put_flags i F_DONE ;;;
      FD_CLR_r fd ;;;
      modst (fun s => set_counts (nconn s - 1) (nlefttoconn s) (nlefttoread s - 1) s)
    | _ => ret tt
    end
  else ret tt.

Fixpoint serve_all (rs ws : gset Z) (i n : nat) : M web unit :=
  match n with
  | O => ret tt
  | S n' => serve rs ws i ;;; serve_all rs ws (S i) n'
  end.

(** [Select(maxfd+1, &rs, &ws, NULL, NULL)]: with nothing to wait for it never returns. *)
Definition Select : M web (gset Z * gset Z) :=
  s <- getst ;;
  let below X := filter (fun fd => fd <= maxfd s) X in
  if bool_decide (below (rset s) ∪ below (wset s) = ∅) then fun _ => NoFuel
  else modst (set_calls (S (calls s))) ;;; ret (ready (calls s) (below (rset s)) (below (wset s))).

Definition turn (maxnconn : Z) : M web unit :=
  s <- getst ;;
  start_loop (S (Z.to_nat (nlefttoconn s))) maxnconn ;;;
  r <- Select ;;
  serve_all (fst r) (snd r) 0 (length (files s)).

Fixpoint main_loop (fuel : nat) (maxnconn : Z) : M web unit :=
  s <- getst ;;
  if 0 <? nlefttoread s then
    match fuel with
    | O => fun _ => NoFuel
    | S fuel' => turn maxnconn ;;; main_loop fuel' maxnconn
    end
  else ret tt.

Definition web_main (fuel : nat) (argv : list bytes) : M web unit :=
  match argv with
  | _ :: a1 :: host :: page :: names =>
    if bool_decide (names = []) then die (DQuit "usage: web <#conns> <hostname> <homepage> <file1> ...")
    else
      let maxnconn := atoi a1 in
      let nfiles := Z.min (len names) MAXFILES in
      modst (set_files ((fun n => File n host 0 0) <$> take (Z.to_nat nfiles) names)) ;;;
      home_page fuel page ;;;
      modst (fun s => set_counts 0 nfiles nfiles (set_maxfd (-1) (set_rset ∅ (set_wset ∅ s)))) ;;;
      main_loop fuel maxnconn ;;;
      die (DExit 0)
  | _ => die (DQuit "usage: web <#conns> <hostname> <homepage> <file1> ...")
  end.
End web.
