(* ===== verification/WebProofs.v ===== *)
(** * Theorems on the web client *)

From Stdlib Require Import ZArith Lia Strings.Byte.
From S2P Require Import Prelude Wp Libc RefChain Web.
From stdpp Require Import base strings numbers gmap list.
#[local] Open Scope Z_scope.

(** ** Counting *)

Section count.
Context {A : Type}.
Implicit Types (w : A -> Z) (l : list A).

Fixpoint lsum w l : Z := match l with [] => 0 | x :: l' => w x + lsum w l' end.

Lemma lsum_app w a b : lsum w (a ++ b) = lsum w a + lsum w b.
Proof. induction a; simpl; lia. Qed.

Lemma lsum_insert w l i x y : l !! i = Some x -> lsum w (<[i := y]> l) = lsum w l - w x + w y.
Proof.
  intros Hi. rewrite (insert_take_drop l i y) by (eapply lookup_lt_Some; exact Hi).
  rewrite <- (take_drop_middle l i x Hi) at 3. rewrite !lsum_app. simpl. lia.
Qed.

Lemma lsum_pos w l : (forall x, 0 <= w x) -> 0 < lsum w l -> exists i x, l !! i = Some x /\ 0 < w x.
Proof.
  intros Hw. induction l as [|x l IH]; simpl; [lia|]. intros Hs. destruct (decide (0 < w x)); [by exists 0%nat, x|].
  specialize (Hw x). destruct IH as (i & y & Hi & Hy); [lia|]. by exists (S i), y.
Qed.

Lemma lsum_nonneg w l : (forall x, 0 <= w x) -> 0 <= lsum w l.
Proof. intros Hw. induction l as [|x l IH]; simpl; [lia|]. specialize (Hw x). lia. Qed.

Lemma lsum_ge w l i x : (forall x, 0 <= w x) -> l !! i = Some x -> w x <= lsum w l.
Proof.
  intros Hw. revert i. induction l as [|y l IH]; intros [|i] Hi; simplify_eq/=.
  - pose proof (lsum_nonneg w l Hw). lia.
  - specialize (Hw y). apply IH in Hi. lia.
Qed.
End count.

(** ** Data *)

(** The bytes that a peer sends. *)
Fixpoint cat (d : list (option bytes)) : bytes :=
  match d with [] => [] | Some b :: d' => b ++ cat d' | None :: d' => cat d' end.

Definition piece (d : option bytes) : Prop := exists b, d = Some b /\ b <> [].

(** A write that is interrupted or takes something. *)
Definition progress (w : wout) : Prop := match w with WTakes n => 0 < n | WIntr => True | WFails => False end.

(** A peer that can be reached, takes the request, in any pieces, and sends its answer. *)
Record good (c : conn) : Prop := {
  g_host : c_host c = true; g_socket : c_socket c = true; g_err : c_soerr c = 0;
  g_connect : c_connect c = 0 \/ c_connect c = EINPROGRESS; g_wr : Forall progress (c_wr c); g_data : Forall piece (c_data c)
}.

(** A name whose request fits into the line. *)
Definition fits (name : bytes) : Prop := len (GET_CMD name) < MAXLINE.

(** The state with file [i] and what belongs to it changed. *)
Definition slot (s : web) (i : nat) (f : file) (r w o : gset Z) (k : gmap Z sock) (m : Z) (v : gmap nat (bytes * bytes)) : web :=
  Web (<[i := f]> (files s)) (nconn s) (nlefttoconn s) (nlefttoread s) m r w o k (conns s) (made s) (calls s) v.

Section runs.
Context {K : kernel}.

Lemma chk_fd_ok fd s : 0 <= fd < FD_SETSIZE -> chk_fd fd s = Ret tt s.
Proof. intros H. unfold chk_fd. replace ((0 <=? fd) && (fd <? FD_SETSIZE)) with true by lia. done. Qed.

Lemma up_maxfd_eq fd s : up_maxfd fd s = Ret tt (set_maxfd (Z.max (maxfd s) fd) s).
Proof.
  unfold up_maxfd, modst. destruct (Z.ltb_spec (maxfd s) fd).
  - by rewrite Z.max_r by lia.
  - rewrite Z.max_l by lia. by destruct s.
Qed.

Lemma snprintf_fits text s : len text < MAXLINE -> snprintf_line text s = Ret text s.
Proof. intros H. unfold snprintf_line. by rewrite (proj2 (Z.ltb_lt _ _) H). Qed.

Lemma writen_out_all wr data : Forall progress wr -> writen_out wr data = (data, true).
Proof.
  intros H. revert data. induction H as [|w wr Hw _ IH]; intros [|b data]; try done. destruct w as [n| |]; [|apply IH|done].
  cbn [writen_out]. destruct (Z.leb_spec n 0); [cbn in Hw; lia|]. rewrite IH. by rewrite take_drop.
Qed.

Lemma Writen_ok fd data s n wr d : socks s !! fd = Some (Sock n 0 wr d) -> Forall progress wr -> srv s !! n = None ->
  Writen fd data s = Ret tt (set_srv (<[n := (data, [])]> (srv s)) s).
Proof.
  intros H1 Hw H2. unfold Writen, the_sock, bind, getst. rewrite H1. simpl. rewrite writen_out_all by done. unfold modst. by rewrite H2.
Qed.

Lemma write_get_cmd_run i s f n wr d :
  files s !! i = Some f -> socks s !! f_fd f = Some (Sock n 0 wr d) -> Forall progress wr -> srv s !! n = None -> fits (f_name f) -> 0 <= f_fd f < FD_SETSIZE ->
  write_get_cmd i s = Ret tt
    (slot s i (File (f_name f) (f_host f) (f_fd f) F_READING) ({[f_fd f]} ∪ rset s) (wset s) (opened s) (socks s)
       (Z.max (maxfd s) (f_fd f)) (<[n := (GET_CMD (f_name f), [])]> (srv s))).
Proof.
  intros Hf Hk Hw Hn Hs Hfd. unfold write_get_cmd, put_flags, FD_SET_r, get_file, bind, getst. rewrite Hf. unfold ret.
  rewrite snprintf_fits by done. rewrite (Writen_ok _ _ _ n wr d) by done. simpl. rewrite Hf. unfold modst. simpl.
  rewrite chk_fd_ok by done. by rewrite up_maxfd_eq.
Qed.

Lemma web_ext s s' :
  files s = files s' -> nconn s = nconn s' -> nlefttoconn s = nlefttoconn s' -> nlefttoread s = nlefttoread s' -> maxfd s = maxfd s' ->
  rset s = rset s' -> wset s = wset s' -> opened s = opened s' -> socks s = socks s' -> conns s = conns s' -> made s = made s' ->
  calls s = calls s' -> srv s = srv s' -> s = s'.
Proof. destruct s, s'. simpl. congruence. Qed.

Lemma put_fd_eq i fd s f : files s !! i = Some f ->
  put_fd i fd s = Ret tt (set_files (<[i := File (f_name f) (f_host f) fd (f_flags f)]> (files s)) s).
Proof. intros Hf. unfold put_fd, get_file, bind, getst. by rewrite Hf. Qed.

Lemma put_flags_eq i fl s f : files s !! i = Some f ->
  put_flags i fl s = Ret tt (set_files (<[i := File (f_name f) (f_host f) (f_fd f) fl]> (files s)) s).
Proof. intros Hf. unfold put_flags, get_file, bind, getst. by rewrite Hf. Qed.

Lemma FD_SET_rw {A} fd (k : unit -> M web A) s : 0 <= fd < FD_SETSIZE ->
  (FD_SET_r fd ;;; x <- FD_SET_w fd ;; k x) s = k tt (set_wset ({[fd]} ∪ wset s) (set_rset ({[fd]} ∪ rset s) s)).
Proof. intros H. unfold FD_SET_r, FD_SET_w, bind, modst. by rewrite !chk_fd_ok by done. Qed.

(** The resolver and socket succeed. *)
Lemma start_socket {A} s c cs' (k : conn -> Z -> M web A) : conns s = c :: cs' -> good c ->
  let fd := lowest (opened s) in
  (c <- next_conn ;; if negb (c_host c) then die (DQuit "host_serv error") else fd <- Socket c ;; k c fd) s =
  k c fd (set_socks ({[fd]} ∪ opened s) (<[fd := Sock (made s) 0 (c_wr c) (c_data c)]> (socks s)) (set_conns cs' (S (made s)) s)).
Proof.
  intros Hc [Gh Gs Ge _ _ _]. unfold next_conn, Socket, bind, getst. rewrite Hc. unfold modst, ret. rewrite Gh, Gs, Ge. reflexivity.
Qed.

(** What start_connect does, for a connection made at once and for one in progress. *)
Lemma start_connect_run i s f c cs' :
  files s !! i = Some f -> conns s = c :: cs' -> good c -> srv s !! made s = None -> fits (f_name f) ->
  0 <= lowest (opened s) < FD_SETSIZE ->
  let fd := lowest (opened s) in
  let ks := <[fd := Sock (made s) 0 (c_wr c) (c_data c)]> (socks s) in
  start_connect i s = Ret tt
    (set_conns cs' (S (made s))
      (if c_connect c =? 0
       then slot s i (File (f_name f) (f_host f) fd F_READING) ({[fd]} ∪ rset s) (wset s) ({[fd]} ∪ opened s) ks
              (Z.max (maxfd s) fd) (<[made s := (GET_CMD (f_name f), [])]> (srv s))
       else slot s i (File (f_name f) (f_host f) fd F_CONNECTING) ({[fd]} ∪ rset s) ({[fd]} ∪ wset s) ({[fd]} ∪ opened s) ks
              (Z.max (maxfd s) fd) (srv s))).
Proof.
  intros Hf Hc Gc Hn Hs Hfd fd ks. pose proof (lookup_lt_Some _ _ _ Hf) as Hi. pose proof (g_connect _ Gc) as Hcon.
  unfold start_connect. rewrite (start_socket s c cs' _ Hc Gc). fold fd ks.
  step (put_fd_eq i fd (set_socks ({[fd]} ∪ opened s) ks (set_conns cs' (S (made s)) s)) f Hf).
  set (s1 := set_files _ _). assert (Hf1 : files s1 !! i = Some (File (f_name f) (f_host f) fd (f_flags f))) by (by apply list_lookup_insert_eq).
  pose proof (list_insert_insert_eq (files s) i (File (f_name f) (f_host f) fd F_READING) (File (f_name f) (f_host f) fd (f_flags f))) as E1.
  pose proof (list_insert_insert_eq (files s) i (File (f_name f) (f_host f) fd F_CONNECTING) (File (f_name f) (f_host f) fd (f_flags f))) as E2.
  destruct (Z.eqb_spec (c_connect c) 0) as [E|E].
  - rewrite (write_get_cmd_run i s1 _ (made s) (c_wr c) (c_data c) Hf1); [|by apply lookup_insert_eq|apply Gc|done..].
    f_equal. apply web_ext; [exact E1|reflexivity..].
  - destruct Hcon as [?| ->]; [done|]. rewrite Z.eqb_refl. cbn [negb].
    step (put_flags_eq i F_CONNECTING s1 _ Hf1). rewrite FD_SET_rw by done. rewrite up_maxfd_eq. f_equal. apply web_ext; [exact E2|reflexivity..].
Qed.

(** One read. *)
Lemma Read_data fd s n e wr b rest :
  socks s !! fd = Some (Sock n e wr (Some b :: rest)) -> b <> [] ->
  exists got rest', Read fd s = Ret got
      (set_srv (<[n := (fst (default ([], []) (srv s !! n)), snd (default ([], []) (srv s !! n)) ++ got)]> (srv s))
         (set_socks (opened s) (<[fd := Sock n e wr rest']> (socks s)) s)) /\
    got <> [] /\ got ++ cat rest' = b ++ cat rest /\ (Forall piece rest -> Forall piece rest').
Proof.
  intros Hk Hb. unfold Read, the_sock, bind, getst. rewrite Hk. simpl. unfold modst. simpl.
  set (got := take (Z.to_nat MAXLINE) b). set (left := drop (Z.to_nat MAXLINE) b).
  exists got, (match left with [] => rest | _ => Some left :: rest end). split_and!.
  - destruct (default ([], []) (srv s !! n)) as [x y]. by destruct left.
  - unfold got. by destruct b.
  - destruct left as [|x l] eqn:E; simpl; rewrite <- (take_drop (Z.to_nat MAXLINE) b); fold got; fold left; rewrite E; [by rewrite app_nil_r|].
    by rewrite <- app_assoc.
  - intros Hr. destruct left as [|x l]; [done|]. constructor; [by exists (x :: l)|done].
Qed.

Lemma Read_eof fd s n e wr : socks s !! fd = Some (Sock n e wr []) -> Read fd s = Ret [] s.
Proof. intros Hk. unfold Read, the_sock, bind, getst. by rewrite Hk. Qed.
End runs.

(** ** The invariant *)

Definition active (f : file) : Prop := f_flags f = F_CONNECTING \/ f_flags f = F_READING.

Section inv.
Context {K : kernel} {HK : wf_kernel K}.
Variables (names : list bytes) (cs : list conn) (base : gset Z) (home : option (bytes * bytes)).

(** What belongs to file [i], once it was started: its socket, its place in the sets, and
    what its peer has received and sent. *)
Definition conn_ok (s : web) (i : nat) (f : file) : Prop :=
  exists c, cs !! S i = Some c /\
  ((f_flags f = F_CONNECTING /\ socks s !! f_fd f = Some (Sock (S i) 0 (c_wr c) (c_data c)) /\ f_fd f ∈ rset s /\ f_fd f ∈ wset s /\ srv s !! S i = None)
   \/ (f_flags f = F_READING /\ f_fd f ∈ rset s /\ (f_fd f ∉ wset s) /\
       exists rest got, socks s !! f_fd f = Some (Sock (S i) 0 (c_wr c) rest) /\ Forall piece rest /\ got ++ cat rest = cat (c_data c) /\
         srv s !! S i = Some (GET_CMD (f_name f), got))
   \/ (f_flags f = F_DONE /\ srv s !! S i = Some (GET_CMD (f_name f), cat (c_data c)))).

(** The first [k] files were started. *)
Record slots (k : nat) (s : web) : Prop := {
  s_names : f_name <$> files s = names;
  s_home : srv s !! 0%nat = home;
  s_new : forall i f, (k <= i)%nat -> files s !! i = Some f -> f_flags f = 0 /\ srv s !! S i = None;
  s_old : forall i f, (i < k)%nat -> files s !! i = Some f -> conn_ok s i f;
  s_rset : forall fd, fd ∈ rset s -> exists i f, files s !! i = Some f /\ f_fd f = fd /\ active f;
  s_wset : forall fd, fd ∈ wset s -> exists i f, files s !! i = Some f /\ f_fd f = fd /\ active f;
  s_socks : forall fd, is_Some (socks s !! fd) -> exists i f, files s !! i = Some f /\ f_fd f = fd /\ active f
}.

Lemma active_started k s i f : slots k s -> files s !! i = Some f -> active f -> (i < k)%nat.
Proof.
  intros I Hf Ha. destruct (decide (i < k)%nat) as [|Hk]; [done|]. destruct (s_new _ _ I i f ltac:(lia) Hf) as [H0 _].
  destruct Ha as [Ha|Ha]; rewrite H0 in Ha; done.
Qed.

Lemma conn_ok_sock s i f : conn_ok s i f -> active f ->
  (exists wr rest, socks s !! f_fd f = Some (Sock (S i) 0 wr rest)) /\ f_fd f ∈ rset s.
Proof.
  intros (c & _ & [(H1 & H2 & H3 & _)|[(H1 & H2 & _ & rest & got & H3 & _)|[H1 _]]]) [Ha|Ha]; rewrite H1 in Ha; try done; eauto.
Qed.

Lemma active_inj k s i j f g :
  slots k s -> files s !! i = Some f -> files s !! j = Some g -> active f -> active g -> f_fd f = f_fd g -> i = j.
Proof.
  intros I Hf Hg Ha Hb E. pose proof (active_started _ _ _ _ I Hf Ha). pose proof (active_started _ _ _ _ I Hg Hb).
  destruct (conn_ok_sock _ _ _ (s_old _ _ I i f ltac:(done) Hf) Ha) as [(w1 & r1 & H1) _].
  destruct (conn_ok_sock _ _ _ (s_old _ _ I j g ltac:(done) Hg) Hb) as [(w2 & r2 & H2) _]. rewrite E in H1. congruence.
Qed.

(** [conn_ok] depends on what belongs to the file only. *)
Lemma conn_ok_frame s s' fd j f :
  conn_ok s j f -> (active f -> f_fd f <> fd) ->
  (forall x, x <> fd -> socks s' !! x = socks s !! x /\ (x ∈ rset s' <-> x ∈ rset s) /\ (x ∈ wset s' <-> x ∈ wset s)) ->
  srv s' !! S j = srv s !! S j -> conn_ok s' j f.
Proof.
  intros (c & Hc & H) Hfd Hs Hv. exists c. split; [done|]. rewrite Hv.
  destruct H as [(H1 & H2 & H3 & H4 & H5)|[(H1 & H2 & H3 & rest & got & H4 & H5)|H]]; [left|right; left|by right; right].
  - destruct (Hs (f_fd f)) as (E1 & E2 & E3); [apply Hfd; by left|]. rewrite E1. split_and!; [done|done|by apply E2|by apply E3|done].
  - destruct (Hs (f_fd f)) as (E1 & E2 & E3); [apply Hfd; by right|]. split_and!; [done|by apply E2|by rewrite E3|].
    exists rest, got. by rewrite E1.
Qed.

(** A change of what belongs to file [i]. *)
Lemma slots_upd k k' s s' i f f' :
  slots k s -> files s !! i = Some f -> (i <= k)%nat -> k' = Nat.max k (S i) -> f_name f' = f_name f ->
  files s' = <[i := f']> (files s) ->
  ((i < k)%nat -> active f /\ f_fd f = f_fd f') -> (i = k -> socks s !! f_fd f' = None) ->
  (forall x, x <> f_fd f' -> socks s' !! x = socks s !! x /\ (x ∈ rset s' <-> x ∈ rset s) /\ (x ∈ wset s' <-> x ∈ wset s)) ->
  (forall m, m <> S i -> srv s' !! m = srv s !! m) ->
  conn_ok s' i f' ->
  (f_flags f' = F_DONE -> (f_fd f' ∉ rset s') /\ (f_fd f' ∉ wset s') /\ socks s' !! f_fd f' = None) ->
  slots k' s'.
Proof.
  intros I Hf Hi -> Hname Hfs Hold Hnew Hs Hv Hok Hdone. pose proof (lookup_lt_Some _ _ _ Hf) as Hlen.
  assert (Hother : forall j g, files s !! j = Some g -> active g -> j <> i -> f_fd g <> f_fd f').
  { intros j g Hg Ha Hj E. destruct (decide (i < k)%nat) as [Hk|Hk].
    - destruct (Hold Hk) as [Hfa Hfe]. apply Hj. eapply (active_inj k s); try done. congruence.
    - assert (i = k) as -> by lia. pose proof (active_started _ _ _ _ I Hg Ha) as Hjk.
      destruct (conn_ok_sock _ _ _ (s_old _ _ I j g Hjk Hg) Ha) as [(w & r & Hr) _]. rewrite E, Hnew in Hr by done. done. }
  assert (Hact : f_flags f' <> F_DONE -> active f').
  { intros Hn. destruct Hok as (c & _ & [[H _]|[[H _]|[H _]]]); [by left|by right|done]. }
  assert (Hkeep : forall x, x <> f_fd f' -> (exists j g, files s !! j = Some g /\ f_fd g = x /\ active g) ->
    exists j g, files s' !! j = Some g /\ f_fd g = x /\ active g).
  { intros x Hx (j & g & Hg & Hgx & Ha). destruct (decide (j = i)) as [->|Hj]; [|exists j, g; rewrite Hfs, list_lookup_insert_ne by done; done].
    rewrite Hf in Hg. injection Hg as <-. destruct (decide (i < k)%nat) as [Hk|Hk]; [destruct (Hold Hk); congruence|].
    destruct (s_new _ _ I i f ltac:(lia) Hf) as [H0 _]. destruct Ha as [Ha|Ha]; rewrite H0 in Ha; done. }
  assert (Hme : f_flags f' <> F_DONE -> exists j g, files s' !! j = Some g /\ f_fd g = f_fd f' /\ active g).
  { intros Hn. exists i, f'. rewrite Hfs, list_lookup_insert_eq by done. auto. }
  split.
  - rewrite Hfs, list_fmap_insert, Hname. rewrite <- (s_names _ _ I). apply list_insert_id. by rewrite list_lookup_fmap, Hf.
  - rewrite Hv by lia. apply (s_home _ _ I).
  - intros j g Hj. rewrite Hfs, list_lookup_insert_ne by lia. intros Hg. rewrite Hv by lia. apply (s_new _ _ I j g); [lia|done].
  - intros j g Hj. destruct (decide (j = i)) as [->|Hne].
    + rewrite Hfs, list_lookup_insert_eq by done. by intros [= <-].
    + rewrite Hfs, list_lookup_insert_ne by done. intros Hg. eapply (conn_ok_frame s s' (f_fd f')); [|by intros; eapply Hother|done|apply Hv; lia].
      apply (s_old _ _ I j g); [lia|done].
  - intros x Hx. destruct (decide (x = f_fd f')) as [->|Hne].
    + apply Hme. intros Hd. by apply (proj1 (Hdone Hd)).
    + apply Hkeep; [done|]. apply (s_rset _ _ I). by apply (Hs x Hne).
  - intros x Hx. destruct (decide (x = f_fd f')) as [->|Hne].
    + apply Hme. intros Hd. by apply (proj1 (proj2 (Hdone Hd))).
    + apply Hkeep; [done|]. apply (s_wset _ _ I). by apply (Hs x Hne).
  - intros x Hx. destruct (decide (x = f_fd f')) as [->|Hne].
    + apply Hme. intros Hd. destruct (Hdone Hd) as (_ & _ & Hk). rewrite Hk in Hx. by destruct Hx.
    + apply Hkeep; [done|]. apply (s_socks _ _ I). by rewrite <- (proj1 (Hs x Hne)).
Qed.

(** The connections to come, the descriptors and the size of the sets. *)
Record envs (k : nat) (s : web) : Prop := {
  e_le : (k <= length names)%nat;
  e_conns : conns s = drop (S k) cs;
  e_made : made s = S k;
  e_open : opened s = base ∪ dom (socks s);
  e_disj : base ## dom (socks s);
  e_size : (size (opened s) <= size base + k)%nat;
  e_max : forall fd, is_Some (socks s !! fd) -> 0 <= fd < FD_SETSIZE /\ fd <= maxfd s
}.

Definition is_active (f : file) : Z := if (f_flags f =? F_CONNECTING) || (f_flags f =? F_READING) then 1 else 0.
Definition is_new (f : file) : Z := if f_flags f =? 0 then 1 else 0.
Definition not_done (f : file) : Z := if f_flags f =? F_DONE then 0 else 1.

Record counters (s : web) : Prop := {
  n_conn : nconn s = lsum is_active (files s);
  n_toconn : nlefttoconn s = lsum is_new (files s);
  n_toread : nlefttoread s = lsum not_done (files s)
}.

Record inv (k : nat) (s : web) : Prop := { i_slots : slots k s; i_envs : envs k s; i_counts : counters s }.

(** What is left to do: bytes to read and changes of the flags. *)
Definition steps (f : file) : Z := if f_flags f =? F_DONE then 0 else if f_flags f =? F_READING then 1 else 2.
Definition sock_bytes (k : sock) : Z := len (cat (k_in k)).
Definition conn_bytes (c : conn) : Z := len (cat (c_data c)).
Definition todo (s : web) : Z := msum sock_bytes (socks s) + lsum conn_bytes (conns s) + lsum steps (files s).

Lemma steps_nonneg f : 0 <= steps f.
Proof. unfold steps. repeat case_match; lia. Qed.

Lemma todo_nonneg s : 0 <= todo s.
Proof.
  unfold todo. pose proof (msum_nonneg sock_bytes (fun k => len_nonneg _) (socks s)).
  pose proof (lsum_nonneg conn_bytes (conns s) (fun c => len_nonneg _)). pose proof (lsum_nonneg steps (files s) steps_nonneg). lia.
Qed.

Hypothesis Hfits : Forall fits names.
Hypothesis Hgood : Forall good cs.
Hypothesis Hlen : (length names < length cs)%nat.
Hypothesis Hsize : Z.of_nat (size base) + len names < FD_SETSIZE.

Lemma file_name k s i f : slots k s -> files s !! i = Some f -> names !! i = Some (f_name f) /\ fits (f_name f).
Proof.
  intros I Hf. assert (Hn : names !! i = Some (f_name f)) by (by rewrite <- (s_names _ _ I), list_lookup_fmap, Hf).
  split; [done|]. by eapply (Forall_lookup_1 _ _ _ _ Hfits).
Qed.

Lemma find_file_first fs k f :
  fs !! k = Some f -> f_flags f = 0 -> (forall j g, (j < k)%nat -> fs !! j = Some g -> f_flags g <> 0) -> find_file fs = Some k.
Proof.
  revert k. induction fs as [|g fs IH]; intros k Hk H0 Hb; [done|]. simpl. destruct k as [|k]; simplify_eq/=.
  - by rewrite H0.
  - specialize (Hb 0%nat g ltac:(lia) eq_refl) as Hg. destruct (Z.eqb_spec (f_flags g) 0); [done|].
    rewrite (IH k); [done|done|done|]. intros j h Hj Hh. apply (Hb (S j) h); [lia|done].
Qed.

Lemma started_flags s i f : conn_ok s i f -> f_flags f <> 0.
Proof. intros (c & _ & [[-> _]|[[-> _]|[-> _]]]); done. Qed.

(** The next file to start, its connection and its descriptor. *)
Lemma next_start k s :
  inv k s -> 0 < nlefttoconn s ->
  find_file (files s) = Some k /\ exists f c, files s !! k = Some f /\ f_flags f = 0 /\ srv s !! S k = None /\
    cs !! S k = Some c /\ good c /\ conns s = c :: drop (S (S k)) cs /\
    0 <= lowest (opened s) < FD_SETSIZE /\ (lowest (opened s) ∉ opened s).
Proof.
  intros [I E C] Hn. rewrite (n_toconn _ C) in Hn.
  destruct (lsum_pos is_new (files s)) as (i & g & Hg & Hw); [unfold is_new; intros; case_match; lia|done|].
  assert (Hki : (k <= i)%nat).
  { destruct (decide (i < k)%nat) as [Hk|]; [|lia]. pose proof (started_flags _ _ _ (s_old _ _ I i g Hk Hg)).
    unfold is_new in Hw. destruct (Z.eqb_spec (f_flags g) 0); lia. }
  assert (Hlt : (k < length (files s))%nat) by (apply lookup_lt_Some in Hg; lia).
  destruct (lookup_lt_is_Some_2 _ _ Hlt) as [f Hf]. destruct (s_new _ _ I k f ltac:(lia) Hf) as [H0 Hv].
  assert (Hl : length (files s) = length names) by (by rewrite <- (s_names _ _ I), length_fmap).
  destruct (lookup_lt_is_Some_2 cs (S k)) as [c Hc]; [lia|]. split.
  - eapply find_file_first; [done|done|]. intros j h Hj Hh. eapply started_flags. by apply (s_old _ _ I j h).
  - exists f, c. split_and!; try done.
    + by eapply (Forall_lookup_1 _ _ _ _ Hgood).
    + rewrite (e_conns _ _ E). by apply drop_S.
    + apply lowest_bound.
    + pose proof (lowest_bound (opened s)). pose proof (e_size _ _ E). unfold len in Hsize. lia.
    + apply lowest_free.
Qed.

Lemma sock_open k s fd : envs k s -> is_Some (socks s !! fd) -> fd ∈ opened s.
Proof. intros E Hk. rewrite (e_open _ _ E). apply elem_of_union_r, elem_of_dom. done. Qed.

(** A socket more. *)
Lemma envs_start k s s' c fd kk :
  envs k s -> (k < length names)%nat -> fd ∉ opened s -> 0 <= fd < FD_SETSIZE ->
  conns s = c :: conns s' -> made s' = S (made s) -> opened s' = {[fd]} ∪ opened s ->
  socks s' = <[fd := kk]> (socks s) -> maxfd s' = Z.max (maxfd s) fd -> envs (S k) s'.
Proof.
  intros E Hk Hfd Hb Hc Hm Ho Hs Hx. assert (Hnb : fd ∉ base) by (rewrite (e_open _ _ E) in Hfd; set_solver).
  split; [lia| |rewrite Hm, (e_made _ _ E); done| | | |].
  - rewrite (e_conns _ _ E) in Hc. destruct (cs !! S k) as [c'|] eqn:Hck; [|apply lookup_ge_None_1 in Hck; lia].
    rewrite (drop_S _ _ _ Hck) in Hc. congruence.
  - rewrite Ho, Hs, dom_insert_L, (e_open _ _ E). set_solver.
  - rewrite Hs, dom_insert_L. pose proof (e_disj _ _ E). set_solver.
  - rewrite Ho, size_union_alt, size_singleton. pose proof (e_size _ _ E). pose proof (subseteq_size (opened s ∖ {[fd]}) (opened s) ltac:(set_solver)). lia.
  - intros x [y Hy]. rewrite Hs in Hy. rewrite Hx. apply lookup_insert_Some in Hy as [[<- _]|[_ Hy]]; [lia|].
    destruct (e_max _ _ E x) as [? ?]; [eauto|]. lia.
Qed.

(** The same sockets. *)
Lemma envs_same k s s' :
  envs k s -> conns s' = conns s -> made s' = made s -> opened s' = opened s -> dom (socks s') = dom (socks s) -> maxfd s <= maxfd s' -> envs k s'.
Proof.
  intros E H1 H2 H3 H4 H5. split; rewrite ?H1, ?H2, ?H3, ?H4; try apply E.
  intros fd Hk%elem_of_dom. rewrite H4 in Hk. apply elem_of_dom in Hk. destruct (e_max _ _ E fd Hk). lia.
Qed.

(** A socket less. *)
Lemma envs_close k s s' fd :
  envs k s -> is_Some (socks s !! fd) -> conns s' = conns s -> made s' = made s -> opened s' = opened s ∖ {[fd]} ->
  socks s' = delete fd (socks s) -> maxfd s' = maxfd s -> envs k s'.
Proof.
  intros E Hk H1 H2 H3 H4 H5. apply elem_of_dom in Hk. pose proof (e_disj _ _ E) as Hd.
  split; rewrite ?H1, ?H2, ?H3, ?H4, ?H5; try apply E.
  - rewrite dom_delete_L, (e_open _ _ E). set_solver.
  - rewrite dom_delete_L. set_solver.
  - pose proof (e_size _ _ E). pose proof (subseteq_size (opened s ∖ {[fd]}) (opened s) ltac:(set_solver)). lia.
  - intros x [y [_ Hy]%lookup_delete_Some]. apply (e_max _ _ E). eauto.
Qed.

Ltac flags := unfold is_active, is_new, not_done, steps, F_CONNECTING, F_READING, F_DONE in *; simpl in *.

(** The sets have descriptors of sockets only. *)
Lemma free_fd k s fd : slots k s -> socks s !! fd = None -> (fd ∉ rset s) /\ (fd ∉ wset s).
Proof.
  intros I Hk. assert (H : ~ exists i f, files s !! i = Some f /\ f_fd f = fd /\ active f).
  { intros (j & g & Hg & Hge & Ha). pose proof (active_started _ _ _ _ I Hg Ha) as Hj.
    destruct (conn_ok_sock _ _ _ (s_old _ _ I j g Hj Hg) Ha) as [(w & r & Hr) _]. rewrite Hge, Hk in Hr. done. }
  split; intros Hin; apply H; [by apply (s_rset _ _ I)|by apply (s_wset _ _ I)].
Qed.

(** One file is started. *)
Lemma start_one k s :
  inv k s -> 0 < nlefttoconn s ->
  exists s1, start_connect k s = Ret tt s1 /\
    let s2 := set_counts (nconn s1 + 1) (nlefttoconn s1 - 1) (nlefttoread s1) s1 in
    inv (S k) s2 /\ todo s2 <= todo s /\ nconn s2 = nconn s + 1 /\ nlefttoconn s2 = nlefttoconn s - 1 /\
    nlefttoread s2 = nlefttoread s /\ length (files s2) = length (files s).
Proof.
  intros HI Hn. destruct (next_start k s HI Hn) as (_ & f & c & Hf & H0 & Hv & Hc & Gc & Hcs & Hfd & Hfree). destruct HI as [I E C].
  destruct (file_name _ _ _ _ I Hf) as [_ Hfit]. pose proof (e_made _ _ E) as Hm. rewrite <- Hm in Hv.
  rewrite (start_connect_run k s f c (drop (S (S k)) cs)) by done. eexists. split; [reflexivity|]. cbv zeta.
  set (fd := lowest (opened s)) in *.
  assert (Hk : socks s !! fd = None).
  { destruct (socks s !! fd) eqn:Hs; [|done]. exfalso. apply Hfree. eapply sock_open; [done|eauto]. }
  assert (Hkl : (k < length names)%nat) by (rewrite <- (s_names _ _ I), length_fmap; by eapply lookup_lt_Some).
  destruct (free_fd k s fd I Hk) as [Hnr Hnw].
  destruct C as [C1 C2 C3].
  destruct (c_connect c =? 0); (split; [split|]).
  - eapply (slots_upd k (S k) s _ k f (File (f_name f) (f_host f) fd F_READING)); simpl; try done; [lia|lia| | |].
    + intros x Hx. rewrite lookup_insert_ne by done. set_solver.
    + intros m Hne. by rewrite lookup_insert_ne by lia.
    + exists c. split; [done|]. right. left. simpl. split_and!; [done|set_solver|done|]. exists (c_data c), []. rewrite Hm, !lookup_insert_eq.
      split_and!; [done|apply Gc|done|done].
  - by eapply (envs_start k s _ c fd).
  - split; simpl; rewrite (lsum_insert _ _ _ _ _ Hf), ?C1, ?C2, ?C3; flags; rewrite H0; simpl; lia.
  - unfold todo. simpl. rewrite (lsum_insert _ _ _ _ _ Hf), Hcs, length_insert. rewrite msum_insert_new by done. flags. rewrite H0. simpl.
    unfold conn_bytes at 2, sock_bytes at 1. simpl. split_and!; lia.
  - eapply (slots_upd k (S k) s _ k f (File (f_name f) (f_host f) fd F_CONNECTING)); simpl; try done; [lia|lia| |].
    + intros x Hx. rewrite lookup_insert_ne by done. set_solver.
    + exists c. split; [done|]. left. simpl. rewrite Hm, lookup_insert_eq. split_and!; [done|done|set_solver|set_solver|by rewrite <- Hm].
  - by eapply (envs_start k s _ c fd).
  - split; simpl; rewrite (lsum_insert _ _ _ _ _ Hf), ?C1, ?C2, ?C3; flags; rewrite H0; simpl; lia.
  - unfold todo. simpl. rewrite (lsum_insert _ _ _ _ _ Hf), Hcs, length_insert. rewrite msum_insert_new by done. flags. rewrite H0. simpl.
    unfold conn_bytes at 2, sock_bytes at 1. simpl. split_and!; lia.
Qed.

(** The loop that starts connections. *)
Lemma start_loop_ok fuel mx k s :
  inv k s -> nlefttoconn s < Z.of_nat fuel ->
  exists k' s', start_loop fuel mx s = Ret tt s' /\ inv k' s' /\ todo s' <= todo s /\ length (files s') = length (files s) /\
    nlefttoread s' = nlefttoread s /\ (mx <= nconn s' \/ nlefttoconn s' = 0) /\ (nconn s <= Z.max 0 mx -> nconn s' <= Z.max 0 mx).
Proof.
  revert k s. induction fuel as [|fuel IH]; intros k s HI Hfuel; pose proof HI as [I E C].
  { pose proof (n_toconn _ C) as Hc. pose proof (lsum_nonneg is_new (files s)) as Hp. unfold is_new in *. 
    specialize (Hp ltac:(intros; case_match; lia)). lia. }
  cbn [start_loop]. unfold bind at 1, getst.
  destruct ((nconn s <? mx) && (0 <? nlefttoconn s)) eqn:Hc.
  - apply andb_prop in Hc as [Hc1 Hc2]. destruct (next_start k s HI ltac:(lia)) as [-> _].
    destruct (start_one k s HI ltac:(lia)) as (s1 & H1 & HI2 & Ht & Hn1 & Hn2 & Hn3 & Hl).
    unfold bind at 1. rewrite H1. unfold bind at 1, modst.
    destruct (IH _ _ HI2) as (k' & s' & H2 & HI' & Ht' & Hl' & Hr' & Hend & Hmx); [lia|].
    exists k', s'. split_and!; [done|done|lia|congruence|congruence|done|]. intros _. apply Hmx. lia.
  - exists k, s. split_and!; [done|done|lia|done|done| |done]. pose proof (lsum_nonneg is_new (files s)) as Hp. rewrite <- (n_toconn _ C) in Hp.
    specialize (Hp ltac:(intros; unfold is_new; case_match; lia)). lia.
Qed.

(** select found something to do for the file. *)
Definition served (rs ws : gset Z) (f : file) : Prop :=
  (f_flags f = F_CONNECTING /\ (f_fd f ∈ rs \/ f_fd f ∈ ws)) \/ (f_flags f = F_READING /\ f_fd f ∈ rs).

(** What one pass over file [i] leaves. *)
Record after_serve (k i : nat) (rs ws : gset Z) (f : file) (s s' : web) : Prop := {
  a_inv : inv k s';
  a_other : forall j, j <> i -> files s' !! j = files s !! j;
  a_len : length (files s') = length (files s);
  a_todo : todo s' <= todo s;
  a_served : served rs ws f -> todo s' < todo s;
  a_nconn : nconn s' <= nconn s
}.

Lemma after_nothing k i rs ws f s : inv k s -> ~ served rs ws f -> after_serve k i rs ws f s s.
Proof. intros I Hn. by split. Qed.

(** The connection of file [i] is there. *)
Lemma serve_connected k s i f rs ws :
  inv k s -> files s !! i = Some f -> f_flags f = F_CONNECTING ->
  exists s', (FD_CLR_w (f_fd f) ;;; write_get_cmd i) s = Ret tt s' /\ after_serve k i rs ws f s s'.
Proof.
  intros [I E C] Hf Hfl. assert (Ha : active f) by (by left). pose proof (active_started _ _ _ _ I Hf Ha) as Hi.
  destruct (s_old _ _ I i f Hi Hf) as (c & Hc & [(_ & Hk & Hr & Hw & Hv)|[(H & _)|(H & _)]]); [|rewrite Hfl in H; done..].
  destruct (e_max _ _ E (f_fd f)) as [Hb Hm]; [eauto|]. destruct (file_name _ _ _ _ I Hf) as [_ Hfit].
  unfold FD_CLR_w, bind. rewrite chk_fd_ok by done. unfold modst.
  rewrite (write_get_cmd_run i _ f (S i) (c_wr c) (c_data c)) by (first [done|exact (g_wr _ (Forall_lookup_1 _ _ _ _ Hgood Hc))]). eexists. split; [reflexivity|].
  pose proof (lsum_insert is_active _ _ _ (File (f_name f) (f_host f) (f_fd f) F_READING) Hf) as L1.
  pose proof (lsum_insert is_new _ _ _ (File (f_name f) (f_host f) (f_fd f) F_READING) Hf) as L2.
  pose proof (lsum_insert not_done _ _ _ (File (f_name f) (f_host f) (f_fd f) F_READING) Hf) as L3.
  pose proof (lsum_insert steps _ _ _ (File (f_name f) (f_host f) (f_fd f) F_READING) Hf) as L4.
  assert (Hdec : todo s - 1 = todo (slot (set_wset (wset s ∖ {[f_fd f]}) s) i (File (f_name f) (f_host f) (f_fd f) F_READING) ({[f_fd f]} ∪ rset s)
    (wset s ∖ {[f_fd f]}) (opened s) (socks s) (maxfd s `max` f_fd f) (<[S i:=(GET_CMD (f_name f), [])]> (srv s)))).
  { unfold todo. simpl. rewrite L4. flags. rewrite Hfl. simpl. lia. }
  split; [split| | | | |]; simpl.
  - eapply (slots_upd k k s _ i f (File (f_name f) (f_host f) (f_fd f) F_READING)); simpl; try done; [lia|lia|lia| | |].
    + intros x Hx. set_solver.
    + intros m Hne. by rewrite lookup_insert_ne by lia.
    + exists c. split; [done|]. right. left. simpl. split_and!; [done|set_solver|set_solver|]. exists (c_data c), []. rewrite lookup_insert_eq.
      split_and!; [done| |done|done]. by apply (Forall_lookup_1 _ _ _ _ Hgood Hc).
  - eapply (envs_same k s); simpl; try done. lia.
  - destruct C. split; simpl; rewrite ?L1, ?L2, ?L3; flags; rewrite Hfl; simpl; lia.
  - intros j Hj. by rewrite list_lookup_insert_ne.
  - by rewrite length_insert.
  - lia.
  - lia.
  - done.
Qed.

(** The part of [serve] for a file that is being read. *)
Definition serve_read (i : nat) (fd : Z) : M web unit :=
  d <- Read fd ;;
  match d with
  | [] =>
    Close fd ;;;
    put_flags i F_DONE ;;;
    FD_CLR_r fd ;;;
    modst (fun s => set_counts (nconn s - 1) (nlefttoconn s) (nlefttoread s - 1) s)
  | _ => ret tt
  end.

Lemma serve_data k s i f rs ws b rest got c :
  inv k s -> files s !! i = Some f -> f_flags f = F_READING -> cs !! S i = Some c -> f_fd f ∈ rset s -> f_fd f ∉ wset s ->
  socks s !! f_fd f = Some (Sock (S i) 0 (c_wr c) (Some b :: rest)) -> b <> [] -> Forall piece rest ->
  got ++ cat (Some b :: rest) = cat (c_data c) -> srv s !! S i = Some (GET_CMD (f_name f), got) ->
  exists s', serve_read i (f_fd f) s = Ret tt s' /\ after_serve k i rs ws f s s'.
Proof.
  intros [I E C] Hf Hfl Hc Hr Hw Hk Hb Hrest Hcat Hv. assert (Ha : active f) by (by right). pose proof (active_started _ _ _ _ I Hf Ha) as Hi.
  destruct (Read_data (f_fd f) s _ _ _ _ _ Hk Hb) as (g & rest' & Hrd & Hg & Hg2 & Hp). rewrite Hv in Hrd. simpl in Hrd.
  unfold serve_read, bind. rewrite Hrd. destruct g as [|x g]; [done|]. eexists. split; [reflexivity|].
  assert (Hdec : len (cat rest') < len (b ++ cat rest)) by (rewrite <- Hg2, len_app, len_cons; pose proof (len_nonneg g); lia).
  pose proof (msum_insert sock_bytes _ _ (Sock (S i) 0 (c_wr c) rest') _ Hk) as Lm. unfold sock_bytes in Lm at 3 4. simpl in Lm.
  split; [split| | | | |]; try done.
  - eapply (slots_upd k k s _ i f f); simpl; try done; [lia|lia|by rewrite list_insert_id|lia| | | |by rewrite Hfl].
    + intros y Hy. by rewrite lookup_insert_ne.
    + intros m Hne. by rewrite lookup_insert_ne.
    + exists c. split; [done|]. right. left. simpl. split_and!; [done..|]. exists rest', (got ++ x :: g). rewrite !lookup_insert_eq.
      split_and!; [done|auto| |done]. by rewrite <- app_assoc, Hg2, <- Hcat.
  - eapply (envs_same k s); simpl; try done. by apply dom_insert_lookup_L; eauto.
  - by destruct C.
  - unfold todo. simpl. lia.
  - intros _. unfold todo. simpl. lia.
Qed.

Lemma serve_eof k s i f rs ws got c :
  inv k s -> files s !! i = Some f -> f_flags f = F_READING -> cs !! S i = Some c -> f_fd f ∈ rset s -> f_fd f ∉ wset s ->
  socks s !! f_fd f = Some (Sock (S i) 0 (c_wr c) []) -> got ++ [] = cat (c_data c) -> srv s !! S i = Some (GET_CMD (f_name f), got) ->
  exists s', serve_read i (f_fd f) s = Ret tt s' /\ after_serve k i rs ws f s s'.
Proof.
  intros [I E C] Hf Hfl Hc Hr Hw Hk Hcat Hv. assert (Ha : active f) by (by right). pose proof (active_started _ _ _ _ I Hf Ha) as Hi.
  destruct (e_max _ _ E (f_fd f)) as [Hb _]; [eauto|].
  unfold serve_read, bind. rewrite (Read_eof _ _ _ _ _ Hk). unfold Close, the_sock, put_flags, get_file, FD_CLR_r, bind, getst, modst. rewrite Hk.
  unfold ret. simpl. rewrite Hf. rewrite chk_fd_ok by done. eexists. split; [reflexivity|].
  set (f' := File (f_name f) (f_host f) (f_fd f) F_DONE).
  pose proof (lsum_insert is_active _ _ _ f' Hf) as L1. pose proof (lsum_insert is_new _ _ _ f' Hf) as L2.
  pose proof (lsum_insert not_done _ _ _ f' Hf) as L3. pose proof (lsum_insert steps _ _ _ f' Hf) as L4.
  assert (Hm : msum sock_bytes (delete (f_fd f) (socks s)) = msum sock_bytes (socks s)).
  { rewrite <- (insert_delete_id (socks s) (f_fd f) _ Hk) at 2. rewrite msum_insert_new by apply lookup_delete_eq. done. }
  assert (Hdec : forall a b, todo (set_counts a b (nlefttoread s - 1)
    (set_rset (rset s ∖ {[f_fd f]}) (set_files (<[i := f']> (files s)) (set_socks (opened s ∖ {[f_fd f]}) (delete (f_fd f) (socks s)) s)))) = todo s - 1).
  { intros a b. unfold todo. simpl. rewrite Hm, L4. unfold f'. flags. rewrite Hfl. simpl. lia. }
  split; [split| | | | |].
  - eapply (slots_upd k k s _ i f f'); simpl; try done; [lia|lia|lia| | |].
    + intros y Hy. rewrite lookup_delete_ne by done. set_solver.
    + exists c. split; [done|]. right. right. simpl. rewrite <- Hcat, app_nil_r. done.
    + intros _. rewrite lookup_delete_eq. set_solver.
  - eapply (envs_close k s _ (f_fd f)); simpl; eauto.
  - destruct C. split; simpl; rewrite ?L1, ?L2, ?L3; unfold f'; flags; rewrite Hfl; simpl; lia.
  - simpl. intros j Hj. by rewrite list_lookup_insert_ne.
  - simpl. by rewrite length_insert.
  - rewrite Hdec. lia.
  - rewrite Hdec. lia.
  - simpl. lia.
Qed.

Lemma serve_eq rs ws i s f :
  files s !! i = Some f ->
  serve rs ws i s =
  (if (f_flags f =? 0) || negb (Z.land (f_flags f) F_DONE =? 0) then ret tt
   else if negb (Z.land (f_flags f) F_CONNECTING =? 0) && (bool_decide (f_fd f ∈ rs) || bool_decide (f_fd f ∈ ws))
   then FD_CLR_w (f_fd f) ;;; write_get_cmd i
   else if negb (Z.land (f_flags f) F_READING =? 0) && bool_decide (f_fd f ∈ rs) then serve_read i (f_fd f) else ret tt) s.
Proof. intros Hf. unfold serve, get_file. unfold bind at 1 2, getst. by rewrite Hf. Qed.

Lemma serve_one k s i f rs ws :
  inv k s -> files s !! i = Some f -> exists s', serve rs ws i s = Ret tt s' /\ after_serve k i rs ws f s s'.
Proof.
  intros HI Hf. rewrite (serve_eq rs ws i s f Hf). pose proof HI as [I _ _].
  destruct (decide (i < k)%nat) as [Hk|Hk].
  - destruct (s_old _ _ I i f Hk Hf) as (c & Hc & [(Hfl & _)|[(Hfl & Hr & Hw & rest & got & Hs & Hp & Hcat & Hv)|(Hfl & _)]]); rewrite Hfl; cbn.
    + destruct (bool_decide (f_fd f ∈ rs) || bool_decide (f_fd f ∈ ws)) eqn:Hin; [by apply serve_connected|].
      exists s. split; [done|]. apply after_nothing; [done|]. apply orb_false_iff in Hin as [H1%bool_decide_eq_false H2%bool_decide_eq_false].
      intros [[_ [?|?]]|[Hx _]]; [done|done|rewrite Hfl in Hx; done].
    + destruct (bool_decide_reflect (f_fd f ∈ rs)) as [Hin|Hin].
      * destruct rest as [|[b|] rest]; [by eapply serve_eof| |].
        -- apply Forall_cons in Hp as [(b' & [= <-] & Hb) Hp]. by eapply serve_data.
        -- apply Forall_cons in Hp as [(b' & ? & _) _]. done.
      * exists s. split; [done|]. apply after_nothing; [done|]. intros [[Hx _]|[_ ?]]; [rewrite Hfl in Hx; done|done].
    + exists s. split; [done|]. apply after_nothing; [done|]. intros [[Hx _]|[Hx _]]; rewrite Hfl in Hx; done.
  - destruct (s_new _ _ I i f ltac:(lia) Hf) as [Hfl _]. rewrite Hfl. cbn. exists s. split; [done|]. apply after_nothing; [done|].
    intros [[Hx _]|[Hx _]]; rewrite Hfl in Hx; done.
Qed.

(** The loop over the files from [i] on. *)
Lemma serve_all_ok k rs ws n : forall i s, inv k s -> length (files s) = (i + n)%nat ->
  exists s', serve_all rs ws i n s = Ret tt s' /\ inv k s' /\ length (files s') = length (files s) /\ todo s' <= todo s /\ nconn s' <= nconn s /\
    ((exists j f, (i <= j)%nat /\ files s !! j = Some f /\ served rs ws f) -> todo s' < todo s).
Proof.
  induction n as [|n IH]; intros i s HI Hl; cbn [serve_all].
  - exists s. split_and!; try done. intros (j & f & Hj & Hf & _). apply lookup_lt_Some in Hf. lia.
  - destruct (lookup_lt_is_Some_2 (files s) i) as [f Hf]; [lia|]. destruct (serve_one k s i f rs ws HI Hf) as (s1 & H1 & [A1 A2 A3 A4 A5 A6]).
    destruct (IH (S i) s1) as (s2 & H2 & B1 & B2 & B3 & B4 & B5); [done|lia|]. unfold bind. rewrite H1. exists s2.
    split_and!; [done|done|congruence|lia|lia|]. intros (j & g & Hj & Hg & Hs). destruct (decide (j = i)) as [->|Hne].
    + rewrite Hf in Hg. injection Hg as <-. specialize (A5 Hs). lia.
    + assert (todo s2 < todo s1); [|lia]. apply B5. exists j, g. rewrite A2 by done. split_and!; [lia|done|done].
Qed.

Lemma set_calls_inv k n s : inv k s -> inv k (set_calls n s).
Proof. intros [[] [] []]. by split; split. Qed.

(** While not everything was read some connection is open. *)
Lemma some_active k s mx :
  inv k s -> 0 < nlefttoread s -> 0 < mx -> mx <= nconn s \/ nlefttoconn s = 0 ->
  exists i f, files s !! i = Some f /\ active f.
Proof.
  intros [I E C] Hr Hmx Hend. assert (Hpos : 0 < lsum is_active (files s)).
  { rewrite <- (n_conn _ C). destruct Hend as [?|H0]; [lia|]. rewrite (n_conn _ C). rewrite (n_toconn _ C) in H0. rewrite (n_toread _ C) in Hr.
    assert (Hall : forall i f, files s !! i = Some f -> is_active f = not_done f).
    { intros i f Hf. pose proof (lsum_ge is_new (files s) i f ltac:(unfold is_new; intros; case_match; lia) Hf) as Hn.
      destruct (decide (i < k)%nat) as [Hk|Hk].
      - destruct (s_old _ _ I i f Hk Hf) as (c & _ & [[Hx _]|[[Hx _]|[Hx _]]]); flags; by rewrite Hx.
      - destruct (s_new _ _ I i f ltac:(lia) Hf) as [Hx _]. flags. rewrite Hx in Hn. simpl in Hn. lia. }
    enough (lsum is_active (files s) = lsum not_done (files s)) by lia. clear -Hall. revert Hall.
    induction (files s) as [|g l IH]; intros Hall; simpl; [done|]. rewrite (Hall 0%nat g eq_refl), IH; [done|]. intros i f Hf. by apply (Hall (S i)). }
  destruct (lsum_pos is_active (files s)) as (i & f & Hf & Hw); [unfold is_active; intros; case_match; lia|done|].
  exists i, f. split; [done|]. unfold is_active in Hw. destruct ((f_flags f =? F_CONNECTING) || (f_flags f =? F_READING)) eqn:Ho; [|lia].
  unfold active. lia.
Qed.

Lemma fd_below k s fd : slots k s -> envs k s -> fd ∈ rset s \/ fd ∈ wset s -> fd <= maxfd s.
Proof.
  intros I E Hin. assert (exists i f, files s !! i = Some f /\ f_fd f = fd /\ active f) as (i & f & Hf & <- & Ha).
  { destruct Hin; [by apply (s_rset _ _ I)|by apply (s_wset _ _ I)]. }
  pose proof (active_started _ _ _ _ I Hf Ha) as Hi. destruct (conn_ok_sock _ _ _ (s_old _ _ I i f Hi Hf) Ha) as [(w & r & Hr) _].
  by destruct (e_max _ _ E (f_fd f)) as [_ ?]; eauto.
Qed.

(** select returns with something to do. *)
Lemma Select_ok k s :
  inv k s -> (exists i f, files s !! i = Some f /\ active f) ->
  exists rs ws, Select s = Ret (rs, ws) (set_calls (S (calls s)) s) /\ exists j f, files s !! j = Some f /\ served rs ws f.
Proof.
  intros [I E C] (i & f & Hf & Ha). pose proof (active_started _ _ _ _ I Hf Ha) as Hi.
  destruct (conn_ok_sock _ _ _ (s_old _ _ I i f Hi Hf) Ha) as [_ Hr]. unfold Select, bind, getst.
  assert (filter (fun fd => fd <= maxfd s) (rset s) = rset s) as ->.
  { apply set_eq. intros x. rewrite elem_of_filter. split; [tauto|]. intros Hx. split; [|done]. by eapply fd_below; eauto. }
  assert (filter (fun fd => fd <= maxfd s) (wset s) = wset s) as ->.
  { apply set_eq. intros x. rewrite elem_of_filter. split; [tauto|]. intros Hx. split; [|done]. by eapply fd_below; eauto. }
  assert (Hne : rset s ∪ wset s <> ∅) by set_solver. rewrite bool_decide_eq_false_2 by done.
  pose proof (ready_sub (calls s) (rset s) (wset s)) as [Hs1 Hs2]. pose proof (ready_some (calls s) (rset s) (wset s) Hne) as Hsome.
  destruct (ready (calls s) (rset s) (wset s)) as [rs ws]. simpl in *. exists rs, ws. split; [done|].
  apply set_choose_L in Hsome as [x Hx]. apply elem_of_union in Hx as [Hx|Hx].
  - destruct (s_rset _ _ I x (Hs1 _ Hx)) as (j & g & Hg & <- & Hga). exists j, g. split; [done|]. destruct Hga; [left|right]; auto.
  - pose proof (Hs2 _ Hx) as Hw. destruct (s_wset _ _ I x Hw) as (j & g & Hg & <- & Hga). exists j, g. split; [done|]. left.
    pose proof (active_started _ _ _ _ I Hg Hga) as Hj.
    destruct (s_old _ _ I j g Hj Hg) as (c & _ & [(Hfl & _)|[(_ & _ & Hnw & _)|(Hfl & _)]]); [by auto|done|].
    destruct Hga as [Hga|Hga]; rewrite Hfl in Hga; done.
Qed.

Lemma turn_ok k s mx :
  inv k s -> 0 < nlefttoread s -> 0 < mx ->
  exists k' s', turn mx s = Ret tt s' /\ inv k' s' /\ todo s' < todo s /\ (nconn s <= mx -> nconn s' <= mx).
Proof.
  intros HI Hr Hmx. unfold turn. unfold bind at 1, getst.
  assert (Hn : 0 <= nlefttoconn s).
  { rewrite (n_toconn _ (i_counts _ _ HI)). apply lsum_nonneg. unfold is_new. intros; case_match; lia. }
  destruct (start_loop_ok (S (Z.to_nat (nlefttoconn s))) mx k s HI) as (k1 & s1 & H1 & HI1 & Ht1 & Hl1 & Hr1 & Hend & Hb); [lia|].
  unfold bind at 1. rewrite H1.
  assert (Hact : exists i f, files s1 !! i = Some f /\ active f) by (by eapply (some_active k1 s1 mx); [|rewrite Hr1| |]).
  destruct (Select_ok k1 s1 HI1 Hact) as (rs & ws & H2 & j & f & Hf & Hs). unfold bind at 1. rewrite H2. simpl.
  destruct (serve_all_ok k1 rs ws (length (files s)) 0 (set_calls (S (calls s1)) s1)) as (s2 & H3 & HI2 & Hl2 & Ht2 & Hn2 & Hsv);
    [by apply set_calls_inv|done|].
  exists k1, s2. split_and!; [done|done| |].
  - specialize (Hsv (ex_intro _ j (ex_intro _ f (conj (Nat.le_0_l j) (conj Hf Hs))))). change (todo (set_calls _ s1)) with (todo s1) in Hsv. lia.
  - intros Hle. simpl in Hn2. lia.
Qed.

Lemma main_loop_ok fuel mx : forall k s, inv k s -> 0 < mx -> todo s <= Z.of_nat fuel ->
  exists k' s', main_loop fuel mx s = Ret tt s' /\ inv k' s' /\ nlefttoread s' = 0.
Proof.
  assert (Hz : forall k s, inv k s -> 0 <= nlefttoread s).
  { intros k s HI. rewrite (n_toread _ (i_counts _ _ HI)). apply lsum_nonneg. unfold not_done. intros; case_match; lia. }
  induction fuel as [|fuel IH]; intros k s HI Hmx Hfuel; cbn [main_loop]; unfold bind at 1, getst;
    destruct (Z.ltb_spec 0 (nlefttoread s)) as [Hr|Hr]; try (exists k, s; split_and!; [done|done|specialize (Hz k s HI); lia]).
  - destruct (turn_ok k s mx HI Hr Hmx) as (k' & s' & _ & _ & Ht & _). pose proof (todo_nonneg s'). lia.
  - destruct (turn_ok k s mx HI Hr Hmx) as (k' & s' & H1 & HI' & Ht & _). unfold bind. rewrite H1. apply (IH k'); [done|done|lia].
Qed.

(** Everything was read. *)
Lemma all_done k s :
  inv k s -> nlefttoread s = 0 ->
  opened s = base /\ srv s !! 0%nat = home /\ forall i name, names !! i = Some name -> exists c, cs !! S i = Some c /\ srv s !! S i = Some (GET_CMD name, cat (c_data c)).
Proof.
  intros [I E C] H0. rewrite (n_toread _ C) in H0.
  assert (Hall : forall i f, files s !! i = Some f -> f_flags f = F_DONE).
  { intros i f Hf. pose proof (lsum_ge not_done (files s) i f ltac:(unfold not_done; intros; case_match; lia) Hf) as Hn.
    unfold not_done in Hn at 1. destruct (Z.eqb_spec (f_flags f) F_DONE); [done|lia]. }
  assert (Hs : forall fd, socks s !! fd = None).
  { intros fd. destruct (socks s !! fd) eqn:Hk; [|done]. destruct (s_socks _ _ I fd) as (i & f & Hf & _ & Ha); [eauto|].
    apply Hall in Hf. destruct Ha as [Ha|Ha]; rewrite Hf in Ha; done. }
  split_and!; [|apply (s_home _ _ I)|].
  - rewrite (e_open _ _ E). apply set_eq. intros x. rewrite elem_of_union, elem_of_dom, Hs. split; [intros [?|[]]; done|by left].
  - intros i name Hn. rewrite <- (s_names _ _ I), list_lookup_fmap in Hn. destruct (files s !! i) as [f|] eqn:Hf; [|done]. simplify_eq/=.
    assert (Hi : (i < k)%nat).
    { destruct (decide (i < k)%nat); [done|]. destruct (s_new _ _ I i f ltac:(lia) Hf) as [Hx _]. rewrite (Hall i f Hf) in Hx. done. }
    destruct (s_old _ _ I i f Hi Hf) as (c & Hc & [(Hx & _)|[(Hx & _)|(_ & Hv)]]); [rewrite (Hall i f Hf) in Hx; done..|]. eauto.
Qed.

End inv.

(** ** The home page *)

Section page.
Context {K : kernel}.

Lemma page_loop_ok fuel fd n wr a : forall d b s,
  socks s !! fd = Some (Sock n 0 wr d) -> srv s !! n = Some (a, b) -> Forall piece d -> len (cat d) < Z.of_nat fuel ->
  page_loop fuel fd s = Ret tt (set_srv (<[n := (a, b ++ cat d)]> (srv s)) (set_socks (opened s) (<[fd := Sock n 0 wr []]> (socks s)) s)).
Proof.
  induction fuel as [|fuel IH]; intros d b s Hk Hv Hp Hf; [pose proof (len_nonneg (cat d)); lia|]. cbn [page_loop]. unfold bind.
  destruct d as [|[c|] d]; [| |by apply Forall_cons in Hp as [(? & ? & _) _]].
  - rewrite (Read_eof _ _ _ _ _ Hk). unfold set_srv, set_socks, ret. simpl. rewrite app_nil_r, !insert_id by done. by destruct s.
  - apply Forall_cons in Hp as [(c' & [= <-] & Hc) Hp]. destruct (Read_data fd s n 0 wr c d Hk Hc) as (got & rest & Hr & Hg & Hcat & Hpr).
    rewrite Hr, Hv. simpl. destruct got as [|x got]; [done|]. rewrite (IH rest (b ++ x :: got)).
    + unfold set_srv, set_socks. simpl. rewrite !insert_insert_eq. simpl in Hcat. rewrite <- app_assoc. simpl. by rewrite Hcat.
    + simpl. by rewrite lookup_insert_eq.
    + simpl. by rewrite lookup_insert_eq.
    + by apply Hpr.
    + simpl cat in Hf. rewrite <- Hcat in Hf. rewrite len_app, len_cons in Hf. pose proof (len_nonneg got). lia.
Qed.

Lemma home_page_ok fuel page c cs' s :
  conns s = c :: cs' -> good c -> c_connect c = 0 -> fits page -> srv s !! made s = None -> opened s ∩ {[lowest (opened s)]} = ∅ ->
  socks s !! lowest (opened s) = None -> conn_bytes c < Z.of_nat fuel ->
  home_page fuel page s = Ret tt (set_srv (<[made s := (GET_CMD page, cat (c_data c))]> (srv s)) (set_conns cs' (S (made s)) s)).
Proof.
  intros Hc [Gh Gs Ge _ Gw Gd] Hcon Hfit Hv Hfree Hk Hf. unfold home_page, next_conn, Socket, bind, getst. rewrite Hc.
  unfold modst, ret. rewrite Gh, Gs, Ge, Hcon. cbn [negb andb Z.eqb]. set (fd := lowest _). rewrite snprintf_fits by done.
  set (s1 := set_socks _ _ _). rewrite (Writen_ok fd _ s1 (made s) (c_wr c) (c_data c)); [|by apply lookup_insert_eq|exact Gw|done].
  set (s2 := set_srv _ s1).
  rewrite (page_loop_ok fuel fd (made s) (c_wr c) (GET_CMD page) (c_data c) [] s2); [|by apply lookup_insert_eq|by apply lookup_insert_eq|done|done].
  unfold Close, the_sock, bind, getst. set (s3 := set_srv _ (set_socks _ _ s2)).
  assert (socks s3 !! fd = Some (Sock (made s) 0 (c_wr c) [])) as -> by (by apply lookup_insert_eq).
  assert (E1 : <[made s := (GET_CMD page, [] ++ cat (c_data c))]> (srv s2) = <[made s := (GET_CMD page, cat (c_data c))]> (srv s)) by apply insert_insert_eq.
  assert (E2 : delete fd (socks s3) = socks s).
  { change (socks s3) with (<[fd := Sock (made s) 0 (c_wr c) []]> (<[fd := Sock (made s) 0 (c_wr c) (c_data c)]> (socks s))).
    rewrite insert_insert_eq. by apply delete_insert_id. }
  assert (E3 : opened s3 ∖ {[fd]} = opened s) by (change (opened s3) with ({[fd]} ∪ opened s); unfold fd; set_solver).
  unfold modst, ret. rewrite E2, E3. unfold s3. rewrite E1. reflexivity.
Qed.
End page.

(** ** Theorems *)

(** The process starts with the descriptors [base]. *)
Definition web_start (base : gset Z) (cs : list conn) : web := Web [] 0 0 0 0 ∅ ∅ base ∅ cs 0 0 ∅.

(** The files that are asked for: at most MAXFILES. *)
Definition wanted (names : list bytes) : list bytes := take (Z.to_nat (Z.min (len names) MAXFILES)) names.

Lemma inv_start names cs base host v c0 mk nc :
  (length names < length cs)%nat -> (forall i, v !! S i = None) -> mk = 1%nat -> nc = drop 1 cs ->
  inv names cs base (v !! 0%nat) 0 (Web ((fun n => File n host 0 0) <$> names) 0 (len names) (len names) (-1) ∅ ∅ base ∅ nc mk c0 v).
Proof.
  intros Hl Hv -> ->. split; split; simpl; try done; try lia.
  - clear. induction names as [|x l IH]; simpl; [done|by f_equal].
  - intros i f _ Hf. rewrite list_lookup_fmap in Hf. destruct (names !! i); [|done]. simplify_eq/=. done.
  - intros fd. rewrite lookup_empty. by intros [].
  - rewrite dom_empty_L. set_solver.
  - intros fd. rewrite lookup_empty. by intros [].
  - clear. induction names as [|x l IH]; simpl; [done|]. unfold is_active at 1. simpl. done.
  - clear. induction names as [|x l IH]; [done|]. rewrite len_cons, IH. done.
  - clear. induction names as [|x l IH]; [done|]. rewrite len_cons, IH. done.
Qed.

Lemma todo_start names base host v c0 mk nc a b :
  todo (Web ((fun n => File n host 0 0) <$> names) a b b (-1) ∅ ∅ base ∅ nc mk c0 v) = lsum conn_bytes nc + 2 * len names.
Proof.
  unfold todo. simpl. rewrite msum_empty. enough (lsum steps ((fun n => File n host 0 0) <$> names) = 2 * len names) by lia.
  induction names as [|x l IH]; [done|]. rewrite len_cons, fmap_cons. cbn [lsum]. rewrite IH. unfold steps. simpl. lia.
Qed.

Lemma wanted_len names : len (wanted names) = Z.min (len names) MAXFILES.
Proof. unfold wanted, MAXFILES, len. rewrite length_take. lia. Qed.

(** The whole run, from the arguments. *)
Lemma web_main_eq {K : kernel} fuel a0 a1 host page names home cs base :
  names <> [] -> good home -> c_connect home = 0 -> fits page -> (lowest base ∉ base) -> conn_bytes home < Z.of_nat fuel ->
  web_main fuel (a0 :: a1 :: host :: page :: names) (web_start base (home :: cs)) =
  (main_loop fuel (atoi a1) ;;; die (DExit 0))
    (Web ((fun n => File n host 0 0) <$> wanted names) 0 (len (wanted names)) (len (wanted names)) (-1) ∅ ∅ base ∅ cs 1 0
       {[0%nat := (GET_CMD page, cat (c_data home))]}).
Proof.
  intros Hn Gh Hc Hfit Hlow Hf. cbn [web_main]. rewrite bool_decide_eq_false_2 by done. cbv zeta. fold (wanted names).
  unfold bind at 1, modst. unfold bind at 1.
  rewrite (home_page_ok fuel page home cs); [|done..|done|simpl; set_solver|done|done]. rewrite <- wanted_len. done.
Qed.

(** C8: The client reads everything.  When the peers can be reached and take the requests,
    in pieces of any size, and the requests fit into a line, the client asks for the home
    page and then for each file (at most MAXFILES), over one connection each, reads every
    answer to its end, closes every connection and exits with 0; it does so for any number
    of connections at a time above 0, whatever the pieces in which the answers arrive and
    in whatever order select finds the descriptors ready. *)
Theorem web_reads_all {K : kernel} {HK : wf_kernel K} fuel a0 a1 host page names home cs base :
  names <> [] -> 0 < atoi a1 -> fits page -> Forall fits (wanted names) ->
  good home -> c_connect home = 0 -> Forall good cs -> (length (wanted names) <= length cs)%nat ->
  Z.of_nat (size base) + len (wanted names) < FD_SETSIZE ->
  lsum conn_bytes (home :: cs) + 2 * MAXFILES < Z.of_nat fuel ->
  exists s', web_main fuel (a0 :: a1 :: host :: page :: names) (web_start base (home :: cs)) = Die (DExit 0) s' /\
    opened s' = base /\ srv s' !! 0%nat = Some (GET_CMD page, cat (c_data home)) /\
    forall i name, wanted names !! i = Some name ->
      exists c, cs !! i = Some c /\ srv s' !! S i = Some (GET_CMD name, cat (c_data c)).
Proof.
  intros Hn Hmx Hfp Hfn Gh Hc Gcs Hl Hb Hfuel. simpl in Hfuel.
  pose proof (lsum_nonneg conn_bytes cs (fun c => len_nonneg _)). rewrite web_main_eq; [|done..|apply lowest_free|unfold MAXFILES in *; lia].
  set (s0 := Web _ _ _ _ _ _ _ _ _ _ _ _ _).
  assert (HI : inv (wanted names) (home :: cs) base (Some (GET_CMD page, cat (c_data home))) 0 s0).
  { rewrite <- (lookup_singleton_eq 0%nat (GET_CMD page, cat (c_data home)) : ({[0%nat := _]} : gmap nat _) !! _ = _).
    apply inv_start; [simpl; lia| |done|done]. intros i. by rewrite lookup_singleton_ne. }
  destruct (main_loop_ok (wanted names) (home :: cs) base (Some (GET_CMD page, cat (c_data home))) Hfn
    ltac:(by constructor) ltac:(simpl; lia) Hb fuel (atoi a1) 0 s0 HI Hmx) as (k & s' & Hrun & HI' & H0).
  { unfold s0. rewrite todo_start. rewrite wanted_len. pose proof (len_nonneg (cat (c_data home))). unfold conn_bytes, MAXFILES in *. lia. }
  destruct (all_done (wanted names) (home :: cs) base _ ltac:(simpl; lia) k s' HI' H0) as (Ho & Hh & Hall). exists s'. split_and!; [|done|done|done].
  unfold bind. by rewrite Hrun.
Qed.

(** The state in front of the main loop, and the turns of the loop. *)
Definition loop_start (host : bytes) (names : list bytes) (cs : list conn) (base : gset Z) : web :=
  Web ((fun n => File n host 0 0) <$> names) 0 (len names) (len names) (-1) ∅ ∅ base ∅ cs 1 0 ∅.

Definition turns {K : kernel} (mx : Z) (s s' : web) : Prop := 0 < nlefttoread s /\ turn mx s = Ret tt s'.

(** C16: The counters of the loop.  Every peer can be reached, takes the request and sends
    its answer without an error ([good]), every request fits into the line, the number of
    connections asked for is above 0, and there are fewer than FD_SETSIZE descriptors.
    Then after any number of turns nconn is the number of files that are connecting or
    being read and at most the number asked for, nlefttoconn and nlefttoread are the
    numbers of files not started and not finished, the two sets are the descriptors of the
    open and of the incomplete connections, all below the limit passed to select, nothing
    else was opened; and another turn can be done: the search for a file to start always
    finds one, and select is never called in vain. *)
Theorem web_connections {K : kernel} {HK : wf_kernel K} host names cs base mx s :
  Forall fits names -> Forall good cs -> (length names <= length cs)%nat -> Z.of_nat (size base) + len names < FD_SETSIZE -> 0 < mx ->
  rtc (turns mx) (loop_start host names cs base) s ->
  nconn s = lsum is_active (files s) /\ nconn s <= mx /\ nlefttoconn s = lsum is_new (files s) /\ nlefttoread s = lsum not_done (files s) /\
  (forall fd, fd ∈ rset s <-> exists i f, files s !! i = Some f /\ f_fd f = fd /\ active f) /\
  (forall fd, fd ∈ wset s <-> exists i f, files s !! i = Some f /\ f_fd f = fd /\ f_flags f = F_CONNECTING) /\
  opened s = base ∪ rset s /\ (forall fd, fd ∈ rset s -> fd <= maxfd s) /\
  (0 < nlefttoread s -> exists s', turn mx s = Ret tt s').
Proof.
  intros Hf Gc Hl Hb Hmx Hr. set (cs' := Conn true true 0 0 [] [] :: cs).
  assert (Gc' : Forall good cs') by (constructor; [split; simpl; auto|done]).
  assert (Hl' : (length names < length cs')%nat) by (simpl; lia).
  assert (exists k, inv names cs' base None k s /\ nconn s <= mx) as (k & HI & Hn).
  { assert (H0 : exists k, inv names cs' base None k (loop_start host names cs base) /\ nconn (loop_start host names cs base) <= mx).
    { exists 0%nat. split; [|simpl; lia]. rewrite <- (lookup_empty 0%nat : (∅ : gmap nat (bytes * bytes)) !! _ = None). apply (inv_start names cs' base host ∅ 0%nat 1%nat cs); done. }
    induction Hr as [|s1 s2 s3 [Hs1 Hs2] _ IH]; [done|]. apply IH. destruct H0 as (k & HI & Hn).
    destruct (turn_ok names cs' base None Hf Gc' Hl' Hb k s1 mx HI Hs1 Hmx) as (k' & s' & Ht & HI' & _ & Hn'). rewrite Hs2 in Ht. injection Ht as <-. eauto. }
  pose proof HI as [I E [C1 C2 C3]].
  assert (Hact : forall i f, files s !! i = Some f -> active f -> is_Some (socks s !! f_fd f) /\ f_fd f ∈ rset s).
  { intros i f Hfi Ha. assert (Hi : (i < k)%nat) by (by eapply active_started).
    destruct (conn_ok_sock _ _ _ _ (s_old _ _ _ _ _ I i f Hi Hfi) Ha) as [(w & r & Hr') ?]. eauto. }
  split_and!; [done|done|done|done| | | | |].
  - intros fd. split; [apply (s_rset _ _ _ _ _ I)|]. intros (i & f & Hfi & <- & Ha). by apply (Hact i f).
  - intros fd. split.
    + intros Hw. destruct (s_wset _ _ _ _ _ I fd Hw) as (i & f & Hfi & <- & Ha). exists i, f. split_and!; [done..|].
      assert (Hi : (i < k)%nat) by (by eapply active_started). destruct (s_old _ _ _ _ _ I i f Hi Hfi) as (c & _ & [[? _]|[(_ & _ & ? & _)|[Hd _]]]); [done|done|].
      destruct Ha as [Ha|Ha]; rewrite Hd in Ha; done.
    + intros (i & f & Hfi & <- & Hfl). assert (Ha : active f) by (by left). assert (Hi : (i < k)%nat) by (by eapply active_started).
      destruct (s_old _ _ _ _ _ I i f Hi Hfi) as (c & _ & [(_ & _ & _ & Hw & _)|[(Hd & _)|(Hd & _)]]); [done|rewrite Hfl in Hd; done..].
  - rewrite (e_open _ _ _ _ _ E). f_equal. apply set_eq. intros x. rewrite elem_of_dom. split.
    + intros Hx. destruct (s_socks _ _ _ _ _ I x Hx) as (i & f & Hfi & <- & Ha). by apply (Hact i f).
    + intros Hx. destruct (s_rset _ _ _ _ _ I x Hx) as (i & f & Hfi & <- & Ha). by apply (Hact i f).
  - intros fd Hx. destruct (s_rset _ _ _ _ _ I fd Hx) as (i & f & Hfi & <- & Ha). apply (e_max _ _ _ _ _ E). by apply (Hact i f).
  - intros H0. destruct (turn_ok names cs' base None Hf Gc' Hl' Hb k s mx HI H0 Hmx) as (k' & s' & Ht & _). eauto.
Qed.

(** One refused connection ends the client.  The error of a connection is reported and
    then ignored: the request is written to the failed socket, which ends the process,
    whatever the state of the other connections. *)
Theorem web_refused {K : kernel} rs ws i f s k :
  files s !! i = Some f -> f_flags f = F_CONNECTING -> f_fd f ∈ rs ∪ ws -> socks s !! f_fd f = Some k -> k_err k <> 0 ->
  0 <= f_fd f < FD_SETSIZE -> fits (f_name f) ->
  exists s', serve rs ws i s = Die (DSys "writen error") s'.
Proof.
  intros Hf Hfl Hin Hk He Hfd Hfit.
  assert (serve rs ws i s = (FD_CLR_w (f_fd f) ;;; write_get_cmd i) s) as ->.
  { rewrite (serve_eq rs ws i s f Hf), Hfl. replace (bool_decide (f_fd f ∈ rs) || bool_decide (f_fd f ∈ ws)) with true; [reflexivity|].
    apply elem_of_union in Hin as [H|H]; rewrite (bool_decide_eq_true_2 _ H); [done|by rewrite orb_true_r]. }
  unfold FD_CLR_w, write_get_cmd, get_file, bind, getst, modst, ret. rewrite chk_fd_ok by done. simpl. rewrite Hf, snprintf_fits by done.
  unfold Writen, the_sock, bind, getst. simpl. rewrite Hk. simpl. destruct (Z.eqb_spec (k_err k) 0); [done|]. eexists. done.
Qed.

(** No connections.  With a number of connections of 0 or less the client never ends:
    it starts nothing and waits in select for nothing. *)
Theorem web_no_connections {K : kernel} host names cs base mx fuel :
  names <> [] -> mx <= 0 -> main_loop fuel mx (loop_start host names cs base) = NoFuel.
Proof.
  intros Hn Hmx. destruct names as [|x names]; [done|]. set (s := loop_start _ _ _ _).
  assert (Hr : (0 <? nlefttoread s) = true) by (simpl; rewrite len_cons; pose proof (len_nonneg names); lia).
  destruct fuel as [|fuel]; cbn [main_loop]; unfold bind at 1, getst; rewrite Hr; [done|].
  unfold turn. unfold bind at 1 2, getst. cbn [start_loop]. unfold bind at 1 2, getst.
  assert ((nconn s <? mx) = false) as -> by (simpl; lia). simpl. unfold Select, bind, getst. simpl.
  by rewrite bool_decide_eq_true_2.
Qed.

(** A long name.  A request of more than MAXLINE bytes is cut off in the line, but its
    whole length is written: bytes after the line are read. *)
Theorem web_long_name {K : kernel} i s f :
  files s !! i = Some f -> MAXLINE < len (GET_CMD (f_name f)) -> write_get_cmd i s = Undef "line".
Proof.
  intros Hf Hl. unfold write_get_cmd, get_file, snprintf_line, bind, getst. rewrite Hf. unfold ret.
  destruct (Z.ltb_spec (len (GET_CMD (f_name f))) MAXLINE); [lia|]. by destruct (Z.eqb_spec (len (GET_CMD (f_name f))) MAXLINE); [lia|].
Qed.

(** ** A concrete run *)

(** The least number that is not in the set. *)
Definition least_free (X : gset Z) : Z := default 0 (List.find (fun i => bool_decide (i ∉ X)) (seqZ 0 (Z.of_nat (size X) + 1))).

Lemma least_free_ok X : (least_free X ∉ X) /\ 0 <= least_free X <= Z.of_nat (size X).
Proof.
  unfold least_free. destruct (List.find _ _) as [i|] eqn:Hi; simpl.
  - apply List.find_some in Hi as [Hin Hb%bool_decide_eq_true]. apply list_elem_of_In, elem_of_seqZ in Hin. split; [done|lia].
  - exfalso. assert (Hsub : list_to_set (seqZ 0 (Z.of_nat (size X) + 1)) ⊆ X).
    { intros x Hx%elem_of_list_to_set. apply list_elem_of_In in Hx. pose proof (List.find_none _ _ Hi _ Hx) as Hb. simpl in Hb.
      apply bool_decide_eq_false in Hb. by apply dec_stable. }
    apply subseteq_size in Hsub. rewrite size_list_to_set in Hsub by apply NoDup_seqZ. rewrite length_seqZ in Hsub. lia.
Qed.

(** Every descriptor is always ready. *)
#[local] Instance always_ready : kernel := { lowest := least_free; ready := fun _ r w => (r, w) }.

#[local] Instance always_ready_wf : wf_kernel always_ready.
Proof. split; simpl; [apply least_free_ok|apply least_free_ok|done|done]. Qed.

Definition page_conn : conn := Conn true true 0 0 [] [Some (bs "<html>")].
Definition two_conns : list conn := [Conn true true EINPROGRESS 0 [WTakes 3; WIntr] [Some (bs "ab"); Some (bs "c")]; Conn true true 0 0 [] [Some (bs "xyz")]].
Definition two_files : list bytes := [bs "a.gif"; bs "b.gif"].

Lemma good_data h : Forall piece (Some <$> h) <-> Forall (fun b => b <> []) h.
Proof. rewrite Forall_fmap. split; intros H; apply (Forall_impl _ _ _ H); [by intros b (b' & [= <-] & Hb)|intros b Hb; by exists b]. Qed.

Lemma page_good : good page_conn.
Proof. split; simpl; auto. apply (good_data [bs "<html>"]). by repeat constructor. Qed.

Lemma two_good : Forall good two_conns.
Proof.
  unfold two_conns. rewrite !Forall_cons. split_and!; [split; simpl; auto..|done].
  - by repeat constructor.
  - apply (good_data [bs "ab"; bs "c"]). by repeat constructor.
  - apply (good_data [bs "xyz"]). by repeat constructor.
Qed.

Lemma web_reads_all_witness :
  exists s', web_main 100 (bs "web" :: bs "1" :: bs "host" :: bs "/" :: two_files) (web_start {[0; 1; 2]} (page_conn :: two_conns)) = Die (DExit 0) s' /\
    srv s' !! 1%nat = Some (GET_CMD (bs "a.gif"), bs "abc").
Proof.
  destruct (web_reads_all 100 (bs "web") (bs "1") (bs "host") (bs "/") two_files page_conn two_conns {[0; 1; 2]}) as (s' & H1 & _ & _ & H2);
    [done|vm_compute; reflexivity|vm_compute; reflexivity|repeat constructor; vm_compute; reflexivity|apply page_good|reflexivity|apply two_good
    |vm_compute; lia|vm_compute; reflexivity|vm_compute; reflexivity|].
  exists s'. split; [exact H1|]. destruct (H2 0%nat (bs "a.gif") eq_refl) as (c & Hc & Hs). injection Hc as <-. exact Hs.
Defined.

Definition after_turn : web := match turn 2 (loop_start (bs "host") two_files two_conns {[0; 1; 2]}) with Ret _ s => s | _ => loop_start [] [] [] ∅ end.

Lemma web_connections_witness : nconn after_turn = 2 /\ rset after_turn = {[3; 4]} /\ opened after_turn = {[0; 1; 2]} ∪ rset after_turn.
Proof.
  split; [vm_compute; reflexivity|]. split; [vm_compute; reflexivity|].
  apply (web_connections (bs "host") two_files two_conns {[0; 1; 2]} 2 after_turn);
    [repeat constructor; vm_compute; reflexivity|apply two_good|vm_compute; lia|vm_compute; reflexivity|lia|].
  apply rtc_once. split; vm_compute; reflexivity.
Defined.

(** A connection in progress on descriptor 3 that was refused (error 111). *)
Definition refused : web :=
  Web [File (bs "a.gif") (bs "host") 3 F_CONNECTING] 1 0 1 3 {[3]} {[3]} {[0; 1; 2; 3]} {[3 := Sock 1 111 [] []]} [] 2 0 ∅.

Lemma web_refused_witness : exists s', serve {[3]} {[3]} 0 refused = Die (DSys "writen error") s'.
Proof.
  apply (web_refused {[3]} {[3]} 0 (File (bs "a.gif") (bs "host") 3 F_CONNECTING) refused (Sock 1 111 [] []));
    [reflexivity|reflexivity|set_solver|reflexivity|discriminate|vm_compute; split; congruence|vm_compute; reflexivity].
Defined.

Lemma web_no_connections_witness : main_loop 10 0 (loop_start (bs "host") two_files two_conns {[0; 1; 2]}) = NoFuel.
Proof. apply (web_no_connections (bs "host") two_files two_conns {[0; 1; 2]} 0 10); [discriminate|lia]. Defined.

Lemma web_long_name_witness :
  write_get_cmd 0 (loop_start (bs "host") [replicate 4080 x61] [] ∅) = Undef "line".
Proof.
  apply (web_long_name 0 (loop_start (bs "host") [replicate 4080 x61] [] ∅) (File (replicate 4080 x61) (bs "host") 0 0));
    [reflexivity|vm_compute; reflexivity].
Defined.
